(** * Cluster lights: a shallow embedding of [src/wasm/cluster-lights.c]

    The per-frame light update engine: the light store, the animation
    evaluator, Morton ordering with a four-pass radix sort, the
    view-transform / LOD / cull / pack stage in its scalar and 4-wide
    variants, and the bulk ingestion entry points.

    Conventions.
    - A C [float] is its IEEE-754 binary32 bit pattern, a [Z] in
      [0, 2^32).  Arithmetic decodes the operands, applies the operation of
      [SpecFloat] at precision 24 / emax 128 (round to nearest, ties to
      even) and encodes the result, so that "bit-for-bit" statements are
      plain equalities.  NaN results are encoded as the canonical quiet
      NaN.
    - C [int], [uint32_t], [uint8_t] are [Z]; where a fixed-width
      operation can wrap, the wrap is written out.
    - The arrays allocated by [init] are lists of fixed length; a slot that
      was never written holds whatever the list holds there.
    - [sinf], [cosf], [fmodf] and the result of an out-of-range
      float-to-integer conversion belong to the C library and the target;
      they are fields of the [Platform] class. *)

From Stdlib Require Import ZArith Bool Lia Sorting.Sorted Sorting.Permutation.
From Stdlib Require Import Floats.SpecFloat.
From stdpp Require Import base list sorting.

Local Open Scope Z_scope.

(* ================================================================== *)
(** * Binary32 arithmetic *)
(* ================================================================== *)

Definition f32 := Z.

Module F32.

Definition prec : Z := 24.
Definition emax : Z := 128.

Definition sign_bit (s : bool) : Z := if s then 2147483648 else 0.

(** Bit pattern to value: sign bit 31, biased exponent bits 30..23,
    fraction bits 22..0. *)
Definition dec (b : f32) : spec_float :=
  let s := 2147483648 <=? b in
  let e := (b / 8388608) mod 256 in
  let m := b mod 8388608 in
  if e =? 0 then
    match m with Zpos p => S754_finite s p (-149) | _ => S754_zero s end
  else if e =? 255 then
    (if m =? 0 then S754_infinity s else S754_nan)
  else
    match m + 8388608 with
    | Zpos p => S754_finite s p (e - 150)
    | _ => S754_nan
    end.

(** Value to bit pattern, truncated to 32 bits. *)
Definition enc (x : spec_float) : f32 :=
  match x with
  | S754_zero s => sign_bit s
  | S754_infinity s => sign_bit s + 2139095040
  | S754_nan => 2143289344
  | S754_finite s m e =>
      (if Zpos m <? 8388608 then sign_bit s + Zpos m
       else sign_bit s + (e + 150) * 8388608 + (Zpos m - 8388608))
      mod 4294967296
  end.

Definition add (a b : f32) : f32 := enc (SFadd prec emax (dec a) (dec b)).
Definition sub (a b : f32) : f32 := enc (SFsub prec emax (dec a) (dec b)).
Definition mul (a b : f32) : f32 := enc (SFmul prec emax (dec a) (dec b)).
Definition div (a b : f32) : f32 := enc (SFdiv prec emax (dec a) (dec b)).
Definition sqrt (a : f32) : f32 := enc (SFsqrt prec emax (dec a)).
Definition neg (a : f32) : f32 := enc (SFopp (dec a)).
Definition abs (a : f32) : f32 := enc (SFabs (dec a)).

(** C comparisons; every comparison with a NaN operand is false, except
    [!=], which is true. *)
Definition lt (a b : f32) : bool := SFltb (dec a) (dec b).
Definition gt (a b : f32) : bool := SFltb (dec b) (dec a).
Definition le (a b : f32) : bool := SFleb (dec a) (dec b).
Definition ge (a b : f32) : bool := SFleb (dec b) (dec a).
Definition eq (a b : f32) : bool := SFeqb (dec a) (dec b).
Definition ne (a b : f32) : bool := negb (SFeqb (dec a) (dec b)).

(** Integer to float conversion, [(float)n]. *)
Definition of_Z (n : Z) : f32 := enc (binary_normalize prec emax n 0 false).

(** Truncation toward zero of a finite value; [None] on NaN and infinity. *)
Definition trunc (a : f32) : option Z :=
  match dec a with
  | S754_zero _ => Some 0
  | S754_finite s m e =>
      let q := if 0 <=? e then Zpos m * 2 ^ e else Zpos m / 2 ^ (- e) in
      Some (if s then - q else q)
  | _ => None
  end.

Definition is_finite (a : f32) : bool :=
  match dec a with
  | S754_zero _ | S754_finite _ _ _ => true
  | _ => false
  end.

Definition is_nan (a : f32) : bool :=
  match dec a with S754_nan => true | _ => false end.

(** Literals of the source, as bit patterns. *)
Definition zero : f32 := 0.                 (* 0.0f *)
Definition one : f32 := 1065353216.         (* 1.0f       0x3F800000 *)
Definition two : f32 := 1073741824.         (* 2.0f       0x40000000 *)
Definition three : f32 := 1077936128.       (* 3.0f       0x40400000 *)
Definition c7 : f32 := 1088421888.          (* 7.0f       0x40E00000 *)
Definition c10 : f32 := 1092616192.         (* 10.0f      0x41200000 *)
Definition c15 : f32 := 1097859072.         (* 15.0f      0x41700000 *)
Definition c30 : f32 := 1106247680.         (* 30.0f      0x41F00000 *)
Definition c100 : f32 := 1120403456.        (* 100.0f     0x42C80000 *)
Definition c0_1 : f32 := 1036831949.        (* 0.1f       0x3DCCCCCD *)
Definition c0_3 : f32 := 1050253722.        (* 0.3f       0x3E99999A *)
Definition c1_7 : f32 := 1071225242.        (* 1.7f       0x3FD9999A *)
Definition c2_3 : f32 := 1075000115.        (* 2.3f       0x40133333 *)
Definition c0_999 : f32 := 1065336439.      (* 0.999f     0x3F7FBE77 *)
Definition c1em6 : f32 := 897988541.        (* 1e-6f      0x358637BD *)
Definition c1em4 : f32 := 953267991.        (* 0.0001f    0x38D1B717 *)
Definition two_pi : f32 := 1086918619.      (* (float)(2.0f * M_PI)  0x40C90FDB *)

End F32.

(* ================================================================== *)
(** * Constants of the source *)
(* ================================================================== *)

Definition ANIM_NONE : Z := 0.
Definition ANIM_CIRCULAR : Z := 1.
Definition ANIM_LINEAR : Z := 2.
Definition ANIM_WAVE : Z := 4.
Definition ANIM_FLICKER : Z := 8.
Definition ANIM_PULSE : Z := 16.
Definition ANIM_ROTATE : Z := 32.

Definition LINEAR_ONCE : Z := 0.
Definition LINEAR_LOOP : Z := 1.
Definition LINEAR_PINGPONG : Z := 2.

Definition PULSE_INTENSITY : Z := 1.
Definition PULSE_RADIUS : Z := 2.

Definition ROTATE_CONTINUOUS : Z := 0.
Definition ROTATE_SWING : Z := 1.

Definition LOD_SKIP : Z := 0.
Definition LOD_SIMPLE : Z := 1.
Definition LOD_MEDIUM : Z := 2.
Definition LOD_FULL : Z := 3.

Definition LOD_SKIP_DISTANCE : f32 := F32.c30.
Definition LOD_SIMPLE_DISTANCE : f32 := F32.c15.
Definition LOD_MEDIUM_DISTANCE : f32 := F32.c7.

Definition DIRTY_POSITION : Z := 1.
Definition DIRTY_COLOR : Z := 2.
Definition DIRTY_PARAMS : Z := 4.
Definition DIRTY_ALL : Z := 7.

(** [flags & BIT] used as a condition. *)
Definition has_flag (flags bit : Z) : bool := negb (Z.land flags bit =? 0).

(** Wrap-around of the fixed-width integer types. *)
Definition u8 (n : Z) : Z := n mod 256.
Definition u32 (n : Z) : Z := n mod 4294967296.
Definition i32 (n : Z) : Z := (n + 2147483648) mod 4294967296 - 2147483648.

(* ================================================================== *)
(** * The C library and the target *)
(* ================================================================== *)

Class Platform := {
  sinf : f32 -> f32;
  cosf : f32 -> f32;
  fmodf : f32 -> f32 -> f32;
  (** the integer a float-to-integer conversion yields when the truncated
      value does not fit the destination type (or the operand is NaN) *)
  fptoint_oor : f32 -> Z;
  (** whether the unit is compiled with [__wasm_simd128__] *)
  wasm_simd128 : bool
}.

(** [(uint32_t)x], [(uint8_t)x] and [(int)x] for a float [x]. *)
Definition fptoui32 `{Platform} (x : f32) : Z :=
  match F32.trunc x with
  | Some n => if (0 <=? n) && (n <? 4294967296) then n else u32 (fptoint_oor x)
  | None => u32 (fptoint_oor x)
  end.

Definition fptoui8 `{Platform} (x : f32) : Z :=
  match F32.trunc x with
  | Some n => if (0 <=? n) && (n <? 256) then n else u8 (fptoint_oor x)
  | None => u8 (fptoint_oor x)
  end.

Definition fptosi32 `{Platform} (x : f32) : Z :=
  match F32.trunc x with
  | Some n =>
      if (-2147483648 <=? n) && (n <? 2147483648) then n else i32 (fptoint_oor x)
  | None => i32 (fptoint_oor x)
  end.

(* ================================================================== *)
(** * Types and structures *)
(* ================================================================== *)

Module Vec4.
Record t := mk { x : f32; y : f32; z : f32; w : f32 }.
Definition set_x (a : f32) (v : t) : t := mk a (y v) (z v) (w v).
Definition set_y (a : f32) (v : t) : t := mk (x v) a (z v) (w v).
Definition set_z (a : f32) (v : t) : t := mk (x v) (y v) a (w v).
Definition set_w (a : f32) (v : t) : t := mk (x v) (y v) (z v) a.
Definition zero : t := mk F32.zero F32.zero F32.zero F32.zero.
End Vec4.

Module CircularParams.
Record t := mk { speed : f32; radius : f32 }.
End CircularParams.

Module LinearParams.
Record t := mk { targetPos : Vec4.t; duration : f32; delay : f32; mode : Z }.
End LinearParams.

Module WaveParams.
Record t := mk { axis : Vec4.t; speed : f32; amplitude : f32; phase : f32 }.
End WaveParams.

Module FlickerParams.
Record t := mk { speed : f32; intensity : f32; seed : f32 }.
End FlickerParams.

Module PulseParams.
Record t := mk { speed : f32; amount : f32; target : Z }.
End PulseParams.

Module RotationParams.
Record t := mk { axis : Vec4.t; speed : f32; angle : f32; mode : Z }.
End RotationParams.

Module AnimationParams.
Record t := mk {
  flags : Z;
  circular : CircularParams.t;
  linear : LinearParams.t;
  wave : WaveParams.t;
  flicker : FlickerParams.t;
  pulse : PulseParams.t;
  rotation : RotationParams.t
}.
Definition set_flags (a : Z) (p : t) : t :=
  mk a (circular p) (linear p) (wave p) (flicker p) (pulse p) (rotation p).
Definition set_circular (a : CircularParams.t) (p : t) : t :=
  mk (flags p) a (linear p) (wave p) (flicker p) (pulse p) (rotation p).
Definition set_linear (a : LinearParams.t) (p : t) : t :=
  mk (flags p) (circular p) a (wave p) (flicker p) (pulse p) (rotation p).
Definition set_wave (a : WaveParams.t) (p : t) : t :=
  mk (flags p) (circular p) (linear p) a (flicker p) (pulse p) (rotation p).
Definition set_flicker (a : FlickerParams.t) (p : t) : t :=
  mk (flags p) (circular p) (linear p) (wave p) a (pulse p) (rotation p).
Definition set_pulse (a : PulseParams.t) (p : t) : t :=
  mk (flags p) (circular p) (linear p) (wave p) (flicker p) a (rotation p).
Definition set_rotation (a : RotationParams.t) (p : t) : t :=
  mk (flags p) (circular p) (linear p) (wave p) (flicker p) (pulse p) a.
End AnimationParams.

Module PointLight.
Record t := mk {
  baseWorldPos : Vec4.t;
  animOffset : Vec4.t;
  worldPos : Vec4.t;
  color : Vec4.t;
  viewPos : Vec4.t;
  baseColor : Vec4.t;
  anim : AnimationParams.t;
  decay : f32;
  morton : Z;
  dirty : Z;
  visible : Z;
  lodLevel : Z;
  castsShadow : Z;
  shadowIntensity : f32
}.
Definition set_baseWorldPos (a : Vec4.t) (l : t) : t :=
  mk a (animOffset l) (worldPos l) (color l) (viewPos l) (baseColor l) (anim l)
     (decay l) (morton l) (dirty l) (visible l) (lodLevel l) (castsShadow l)
     (shadowIntensity l).
Definition set_animOffset (a : Vec4.t) (l : t) : t :=
  mk (baseWorldPos l) a (worldPos l) (color l) (viewPos l) (baseColor l) (anim l)
     (decay l) (morton l) (dirty l) (visible l) (lodLevel l) (castsShadow l)
     (shadowIntensity l).
Definition set_worldPos (a : Vec4.t) (l : t) : t :=
  mk (baseWorldPos l) (animOffset l) a (color l) (viewPos l) (baseColor l) (anim l)
     (decay l) (morton l) (dirty l) (visible l) (lodLevel l) (castsShadow l)
     (shadowIntensity l).
Definition set_color (a : Vec4.t) (l : t) : t :=
  mk (baseWorldPos l) (animOffset l) (worldPos l) a (viewPos l) (baseColor l) (anim l)
     (decay l) (morton l) (dirty l) (visible l) (lodLevel l) (castsShadow l)
     (shadowIntensity l).
Definition set_viewPos (a : Vec4.t) (l : t) : t :=
  mk (baseWorldPos l) (animOffset l) (worldPos l) (color l) a (baseColor l) (anim l)
     (decay l) (morton l) (dirty l) (visible l) (lodLevel l) (castsShadow l)
     (shadowIntensity l).
Definition set_anim (a : AnimationParams.t) (l : t) : t :=
  mk (baseWorldPos l) (animOffset l) (worldPos l) (color l) (viewPos l) (baseColor l) a
     (decay l) (morton l) (dirty l) (visible l) (lodLevel l) (castsShadow l)
     (shadowIntensity l).
Definition set_morton (a : Z) (l : t) : t :=
  mk (baseWorldPos l) (animOffset l) (worldPos l) (color l) (viewPos l) (baseColor l)
     (anim l) (decay l) a (dirty l) (visible l) (lodLevel l) (castsShadow l)
     (shadowIntensity l).
Definition set_dirty (a : Z) (l : t) : t :=
  mk (baseWorldPos l) (animOffset l) (worldPos l) (color l) (viewPos l) (baseColor l)
     (anim l) (decay l) (morton l) a (visible l) (lodLevel l) (castsShadow l)
     (shadowIntensity l).
Definition set_visible (a : Z) (l : t) : t :=
  mk (baseWorldPos l) (animOffset l) (worldPos l) (color l) (viewPos l) (baseColor l)
     (anim l) (decay l) (morton l) (dirty l) a (lodLevel l) (castsShadow l)
     (shadowIntensity l).
Definition set_lodLevel (a : Z) (l : t) : t :=
  mk (baseWorldPos l) (animOffset l) (worldPos l) (color l) (viewPos l) (baseColor l)
     (anim l) (decay l) (morton l) (dirty l) (visible l) a (castsShadow l)
     (shadowIntensity l).
End PointLight.

Module SpotLight.
Record t := mk {
  baseWorldPos : Vec4.t;
  animOffset : Vec4.t;
  worldPos : Vec4.t;
  color : Vec4.t;
  direction : Vec4.t;
  viewPos : Vec4.t;
  viewDir : Vec4.t;
  baseDir : Vec4.t;
  anim : AnimationParams.t;
  decay : f32;
  angle : f32;
  penumbra : f32;
  morton : Z;
  dirty : Z;
  visible : Z;
  lodLevel : Z;
  castsShadow : Z;
  shadowIntensity : f32
}.
Definition set_baseWorldPos (a : Vec4.t) (l : t) : t :=
  mk a (animOffset l) (worldPos l) (color l) (direction l) (viewPos l) (viewDir l)
     (baseDir l) (anim l) (decay l) (angle l) (penumbra l) (morton l) (dirty l)
     (visible l) (lodLevel l) (castsShadow l) (shadowIntensity l).
Definition set_animOffset (a : Vec4.t) (l : t) : t :=
  mk (baseWorldPos l) a (worldPos l) (color l) (direction l) (viewPos l) (viewDir l)
     (baseDir l) (anim l) (decay l) (angle l) (penumbra l) (morton l) (dirty l)
     (visible l) (lodLevel l) (castsShadow l) (shadowIntensity l).
Definition set_worldPos (a : Vec4.t) (l : t) : t :=
  mk (baseWorldPos l) (animOffset l) a (color l) (direction l) (viewPos l) (viewDir l)
     (baseDir l) (anim l) (decay l) (angle l) (penumbra l) (morton l) (dirty l)
     (visible l) (lodLevel l) (castsShadow l) (shadowIntensity l).
Definition set_color (a : Vec4.t) (l : t) : t :=
  mk (baseWorldPos l) (animOffset l) (worldPos l) a (direction l) (viewPos l) (viewDir l)
     (baseDir l) (anim l) (decay l) (angle l) (penumbra l) (morton l) (dirty l)
     (visible l) (lodLevel l) (castsShadow l) (shadowIntensity l).
Definition set_direction (a : Vec4.t) (l : t) : t :=
  mk (baseWorldPos l) (animOffset l) (worldPos l) (color l) a (viewPos l) (viewDir l)
     (baseDir l) (anim l) (decay l) (angle l) (penumbra l) (morton l) (dirty l)
     (visible l) (lodLevel l) (castsShadow l) (shadowIntensity l).
Definition set_viewPos (a : Vec4.t) (l : t) : t :=
  mk (baseWorldPos l) (animOffset l) (worldPos l) (color l) (direction l) a (viewDir l)
     (baseDir l) (anim l) (decay l) (angle l) (penumbra l) (morton l) (dirty l)
     (visible l) (lodLevel l) (castsShadow l) (shadowIntensity l).
Definition set_viewDir (a : Vec4.t) (l : t) : t :=
  mk (baseWorldPos l) (animOffset l) (worldPos l) (color l) (direction l) (viewPos l) a
     (baseDir l) (anim l) (decay l) (angle l) (penumbra l) (morton l) (dirty l)
     (visible l) (lodLevel l) (castsShadow l) (shadowIntensity l).
Definition set_morton (a : Z) (l : t) : t :=
  mk (baseWorldPos l) (animOffset l) (worldPos l) (color l) (direction l) (viewPos l)
     (viewDir l) (baseDir l) (anim l) (decay l) (angle l) (penumbra l) a (dirty l)
     (visible l) (lodLevel l) (castsShadow l) (shadowIntensity l).
Definition set_dirty (a : Z) (l : t) : t :=
  mk (baseWorldPos l) (animOffset l) (worldPos l) (color l) (direction l) (viewPos l)
     (viewDir l) (baseDir l) (anim l) (decay l) (angle l) (penumbra l) (morton l) a
     (visible l) (lodLevel l) (castsShadow l) (shadowIntensity l).
Definition set_visible (a : Z) (l : t) : t :=
  mk (baseWorldPos l) (animOffset l) (worldPos l) (color l) (direction l) (viewPos l)
     (viewDir l) (baseDir l) (anim l) (decay l) (angle l) (penumbra l) (morton l)
     (dirty l) a (lodLevel l) (castsShadow l) (shadowIntensity l).
Definition set_lodLevel (a : Z) (l : t) : t :=
  mk (baseWorldPos l) (animOffset l) (worldPos l) (color l) (direction l) (viewPos l)
     (viewDir l) (baseDir l) (anim l) (decay l) (angle l) (penumbra l) (morton l)
     (dirty l) (visible l) a (castsShadow l) (shadowIntensity l).
End SpotLight.

Module RectLight.
Record t := mk {
  baseWorldPos : Vec4.t;
  animOffset : Vec4.t;
  worldPos : Vec4.t;
  color : Vec4.t;
  size : Vec4.t;
  normal : Vec4.t;
  tangent : Vec4.t;
  bitangent : Vec4.t;
  viewPos : Vec4.t;
  viewNormal : Vec4.t;
  viewTangent : Vec4.t;
  baseNormal : Vec4.t;
  baseTangent : Vec4.t;
  baseBitangent : Vec4.t;
  anim : AnimationParams.t;
  decay : f32;
  morton : Z;
  dirty : Z;
  visible : Z;
  lodLevel : Z;
  castsShadow : Z;
  shadowIntensity : f32
}.
Definition set_baseWorldPos (a : Vec4.t) (l : t) : t :=
  mk a (animOffset l) (worldPos l) (color l) (size l) (normal l) (tangent l)
     (bitangent l) (viewPos l) (viewNormal l) (viewTangent l) (baseNormal l)
     (baseTangent l) (baseBitangent l) (anim l) (decay l) (morton l) (dirty l)
     (visible l) (lodLevel l) (castsShadow l) (shadowIntensity l).
Definition set_animOffset (a : Vec4.t) (l : t) : t :=
  mk (baseWorldPos l) a (worldPos l) (color l) (size l) (normal l) (tangent l)
     (bitangent l) (viewPos l) (viewNormal l) (viewTangent l) (baseNormal l)
     (baseTangent l) (baseBitangent l) (anim l) (decay l) (morton l) (dirty l)
     (visible l) (lodLevel l) (castsShadow l) (shadowIntensity l).
Definition set_worldPos (a : Vec4.t) (l : t) : t :=
  mk (baseWorldPos l) (animOffset l) a (color l) (size l) (normal l) (tangent l)
     (bitangent l) (viewPos l) (viewNormal l) (viewTangent l) (baseNormal l)
     (baseTangent l) (baseBitangent l) (anim l) (decay l) (morton l) (dirty l)
     (visible l) (lodLevel l) (castsShadow l) (shadowIntensity l).
Definition set_color (a : Vec4.t) (l : t) : t :=
  mk (baseWorldPos l) (animOffset l) (worldPos l) a (size l) (normal l) (tangent l)
     (bitangent l) (viewPos l) (viewNormal l) (viewTangent l) (baseNormal l)
     (baseTangent l) (baseBitangent l) (anim l) (decay l) (morton l) (dirty l)
     (visible l) (lodLevel l) (castsShadow l) (shadowIntensity l).
Definition set_normal (a : Vec4.t) (l : t) : t :=
  mk (baseWorldPos l) (animOffset l) (worldPos l) (color l) (size l) a (tangent l)
     (bitangent l) (viewPos l) (viewNormal l) (viewTangent l) (baseNormal l)
     (baseTangent l) (baseBitangent l) (anim l) (decay l) (morton l) (dirty l)
     (visible l) (lodLevel l) (castsShadow l) (shadowIntensity l).
Definition set_tangent (a : Vec4.t) (l : t) : t :=
  mk (baseWorldPos l) (animOffset l) (worldPos l) (color l) (size l) (normal l) a
     (bitangent l) (viewPos l) (viewNormal l) (viewTangent l) (baseNormal l)
     (baseTangent l) (baseBitangent l) (anim l) (decay l) (morton l) (dirty l)
     (visible l) (lodLevel l) (castsShadow l) (shadowIntensity l).
Definition set_bitangent (a : Vec4.t) (l : t) : t :=
  mk (baseWorldPos l) (animOffset l) (worldPos l) (color l) (size l) (normal l)
     (tangent l) a (viewPos l) (viewNormal l) (viewTangent l) (baseNormal l)
     (baseTangent l) (baseBitangent l) (anim l) (decay l) (morton l) (dirty l)
     (visible l) (lodLevel l) (castsShadow l) (shadowIntensity l).
Definition set_viewPos (a : Vec4.t) (l : t) : t :=
  mk (baseWorldPos l) (animOffset l) (worldPos l) (color l) (size l) (normal l)
     (tangent l) (bitangent l) a (viewNormal l) (viewTangent l) (baseNormal l)
     (baseTangent l) (baseBitangent l) (anim l) (decay l) (morton l) (dirty l)
     (visible l) (lodLevel l) (castsShadow l) (shadowIntensity l).
Definition set_viewNormal (a : Vec4.t) (l : t) : t :=
  mk (baseWorldPos l) (animOffset l) (worldPos l) (color l) (size l) (normal l)
     (tangent l) (bitangent l) (viewPos l) a (viewTangent l) (baseNormal l)
     (baseTangent l) (baseBitangent l) (anim l) (decay l) (morton l) (dirty l)
     (visible l) (lodLevel l) (castsShadow l) (shadowIntensity l).
Definition set_viewTangent (a : Vec4.t) (l : t) : t :=
  mk (baseWorldPos l) (animOffset l) (worldPos l) (color l) (size l) (normal l)
     (tangent l) (bitangent l) (viewPos l) (viewNormal l) a (baseNormal l)
     (baseTangent l) (baseBitangent l) (anim l) (decay l) (morton l) (dirty l)
     (visible l) (lodLevel l) (castsShadow l) (shadowIntensity l).
Definition set_morton (a : Z) (l : t) : t :=
  mk (baseWorldPos l) (animOffset l) (worldPos l) (color l) (size l) (normal l)
     (tangent l) (bitangent l) (viewPos l) (viewNormal l) (viewTangent l)
     (baseNormal l) (baseTangent l) (baseBitangent l) (anim l) (decay l) a (dirty l)
     (visible l) (lodLevel l) (castsShadow l) (shadowIntensity l).
Definition set_dirty (a : Z) (l : t) : t :=
  mk (baseWorldPos l) (animOffset l) (worldPos l) (color l) (size l) (normal l)
     (tangent l) (bitangent l) (viewPos l) (viewNormal l) (viewTangent l)
     (baseNormal l) (baseTangent l) (baseBitangent l) (anim l) (decay l) (morton l) a
     (visible l) (lodLevel l) (castsShadow l) (shadowIntensity l).
Definition set_visible (a : Z) (l : t) : t :=
  mk (baseWorldPos l) (animOffset l) (worldPos l) (color l) (size l) (normal l)
     (tangent l) (bitangent l) (viewPos l) (viewNormal l) (viewTangent l)
     (baseNormal l) (baseTangent l) (baseBitangent l) (anim l) (decay l) (morton l)
     (dirty l) a (lodLevel l) (castsShadow l) (shadowIntensity l).
Definition set_lodLevel (a : Z) (l : t) : t :=
  mk (baseWorldPos l) (animOffset l) (worldPos l) (color l) (size l) (normal l)
     (tangent l) (bitangent l) (viewPos l) (viewNormal l) (viewTangent l)
     (baseNormal l) (baseTangent l) (baseBitangent l) (anim l) (decay l) (morton l)
     (dirty l) (visible l) a (castsShadow l) (shadowIntensity l).
End RectLight.

(** The records of the output buffers. *)
Module PointLightDataOptimized.
Record t := mk { positionRadius : Vec4.t; colorDecayVisible : Vec4.t }.
End PointLightDataOptimized.

Module SpotLightData.
Record t := mk {
  positionRadius : Vec4.t;
  colorIntensity : Vec4.t;
  direction : Vec4.t;
  angleParams : Vec4.t
}.
End SpotLightData.

Module RectLightData.
Record t := mk {
  positionRadius : Vec4.t;
  colorIntensity : Vec4.t;
  sizeParams : Vec4.t;
  normal : Vec4.t;
  tangent : Vec4.t
}.
End RectLightData.

Declare Scope f32_scope.
Delimit Scope f32_scope with f32.
Notation "a ⊕ b" := (F32.add a b) (at level 50, left associativity) : f32_scope.
Notation "a ⊖ b" := (F32.sub a b) (at level 50, left associativity) : f32_scope.
Notation "a ⊗ b" := (F32.mul a b) (at level 40, left associativity) : f32_scope.
Notation "a ⊘ b" := (F32.div a b) (at level 40, left associativity) : f32_scope.
Local Open Scope f32_scope.

(** The twelve entries of the camera matrix that [update] caches in
    [e0 .. e14] (column-major [te[16]]). *)
Module ViewMat.
Record t := mk {
  e0 : f32; e1 : f32; e2 : f32;
  e4 : f32; e5 : f32; e6 : f32;
  e8 : f32; e9 : f32; e10 : f32;
  e12 : f32; e13 : f32; e14 : f32
}.
End ViewMat.

(* ================================================================== *)
(** * Fast math and helpers *)
(* ================================================================== *)

Definition clampf (v lo hi : f32) : f32 :=
  if F32.lt v lo then lo else if F32.gt v hi then hi else v.

Definition lerpf (a b t : f32) : f32 := a ⊕ (b ⊖ a) ⊗ t.

Definition smoothstepf (edge0 edge1 x : f32) : f32 :=
  let t := clampf ((x ⊖ edge0) ⊘ (edge1 ⊖ edge0)) F32.zero F32.one in
  t ⊗ t ⊗ (F32.three ⊖ F32.two ⊗ t).

Definition interleaveBits (x : Z) : Z :=
  let x := Z.land (Z.lor x (u32 (Z.shiftl x 8))) 16711935 in      (* 0x00FF00FF *)
  let x := Z.land (Z.lor x (u32 (Z.shiftl x 4))) 252645135 in     (* 0x0F0F0F0F *)
  let x := Z.land (Z.lor x (u32 (Z.shiftl x 2))) 858993459 in     (* 0x33333333 *)
  let x := Z.land (Z.lor x (u32 (Z.shiftl x 1))) 1431655765 in    (* 0x55555555 *)
  x.

Definition computeMorton `{Platform} (x z : f32) : Z :=
  let xi := fptoui32 x in
  let zi := fptoui32 z in
  Z.lor (interleaveBits xi) (u32 (Z.shiftl (interleaveBits zi) 1)).

Definition worldToView (e : ViewMat.t) (x y z r : f32) : Vec4.t :=
  Vec4.mk
    (ViewMat.e0 e ⊗ x ⊕ ViewMat.e4 e ⊗ y ⊕ ViewMat.e8 e ⊗ z ⊕ ViewMat.e12 e)
    (ViewMat.e1 e ⊗ x ⊕ ViewMat.e5 e ⊗ y ⊕ ViewMat.e9 e ⊗ z ⊕ ViewMat.e13 e)
    (ViewMat.e2 e ⊗ x ⊕ ViewMat.e6 e ⊗ y ⊕ ViewMat.e10 e ⊗ z ⊕ ViewMat.e14 e)
    r.

(** [out->w] is not written: it keeps the value it had. *)
Definition worldDirToView (e : ViewMat.t) (v out : Vec4.t) : Vec4.t :=
  let ox := ViewMat.e0 e ⊗ Vec4.x v ⊕ ViewMat.e4 e ⊗ Vec4.y v
            ⊕ ViewMat.e8 e ⊗ Vec4.z v in
  let oy := ViewMat.e1 e ⊗ Vec4.x v ⊕ ViewMat.e5 e ⊗ Vec4.y v
            ⊕ ViewMat.e9 e ⊗ Vec4.z v in
  let oz := ViewMat.e2 e ⊗ Vec4.x v ⊕ ViewMat.e6 e ⊗ Vec4.y v
            ⊕ ViewMat.e10 e ⊗ Vec4.z v in
  let len := F32.sqrt (ox ⊗ ox ⊕ oy ⊗ oy ⊕ oz ⊗ oz) in
  if F32.gt len F32.zero then
    let inv := F32.one ⊘ len in
    Vec4.mk (ox ⊗ inv) (oy ⊗ inv) (oz ⊗ inv) (Vec4.w out)
  else Vec4.mk ox oy oz (Vec4.w out).

Definition rotateAroundAxis `{Platform} (v axis : Vec4.t) (angle : f32) : Vec4.t :=
  let c := cosf angle in
  let s := sinf angle in
  let dot := Vec4.x v ⊗ Vec4.x axis ⊕ Vec4.y v ⊗ Vec4.y axis
             ⊕ Vec4.z v ⊗ Vec4.z axis in
  let vx := Vec4.x v in
  let vy := Vec4.y v in
  let vz := Vec4.z v in
  Vec4.mk
    (vx ⊗ c ⊕ (Vec4.y axis ⊗ vz ⊖ Vec4.z axis ⊗ vy) ⊗ s
       ⊕ Vec4.x axis ⊗ dot ⊗ (F32.one ⊖ c))
    (vy ⊗ c ⊕ (Vec4.z axis ⊗ vx ⊖ Vec4.x axis ⊗ vz) ⊗ s
       ⊕ Vec4.y axis ⊗ dot ⊗ (F32.one ⊖ c))
    (vz ⊗ c ⊕ (Vec4.x axis ⊗ vy ⊖ Vec4.y axis ⊗ vx) ⊗ s
       ⊕ Vec4.z axis ⊗ dot ⊗ (F32.one ⊖ c))
    (Vec4.w v).

(** [cross(reference, normal)] as the source writes it out. *)
Definition cross_ref (reference normal : Vec4.t) : f32 * f32 * f32 :=
  (Vec4.y reference ⊗ Vec4.z normal ⊖ Vec4.z reference ⊗ Vec4.y normal,
   Vec4.z reference ⊗ Vec4.x normal ⊖ Vec4.x reference ⊗ Vec4.z normal,
   Vec4.x reference ⊗ Vec4.y normal ⊖ Vec4.y reference ⊗ Vec4.x normal).

Definition len3 (a b c : f32) : f32 := F32.sqrt (a ⊗ a ⊕ b ⊗ b ⊕ c ⊗ c).

(** Returns the pair (tangent, bitangent). *)
Definition buildOrthonormalBasis (normal : Vec4.t) : Vec4.t * Vec4.t :=
  let reference :=
    if F32.ge (F32.abs (Vec4.y normal)) F32.c0_999
    then Vec4.mk F32.one F32.zero F32.zero F32.zero
    else Vec4.mk F32.zero F32.one F32.zero F32.zero in
  let '(tx, ty, tz) := cross_ref reference normal in
  let len := len3 tx ty tz in
  let '(tx, ty, tz, len) :=
    if F32.lt len F32.c1em6 then
      let reference := Vec4.mk F32.zero F32.zero F32.one F32.zero in
      let '(tx, ty, tz) := cross_ref reference normal in
      (tx, ty, tz, len3 tx ty tz)
    else (tx, ty, tz, len) in
  let '(tx, ty, tz) :=
    if F32.gt len F32.zero then
      let inv := F32.one ⊘ len in (tx ⊗ inv, ty ⊗ inv, tz ⊗ inv)
    else (F32.one, F32.zero, F32.zero) in
  let tangent := Vec4.mk tx ty tz F32.zero in
  let bx := Vec4.y normal ⊗ tz ⊖ Vec4.z normal ⊗ ty in
  let by_ := Vec4.z normal ⊗ tx ⊖ Vec4.x normal ⊗ tz in
  let bz := Vec4.x normal ⊗ ty ⊖ Vec4.y normal ⊗ tx in
  let bitLen := len3 bx by_ bz in
  let '(bx, by_, bz) :=
    if F32.gt bitLen F32.zero then
      let invBit := F32.one ⊘ bitLen in (bx ⊗ invBit, by_ ⊗ invBit, bz ⊗ invBit)
    else (bx, by_, bz) in
  (tangent, Vec4.mk bx by_ bz F32.zero).

Definition calculateLOD (lodBias viewZ radius : f32) : Z :=
  let distance := F32.neg viewZ in
  let relativeDistance := distance ⊘ (radius ⊗ lodBias) in
  if F32.gt relativeDistance LOD_SKIP_DISTANCE then LOD_SKIP
  else if F32.gt relativeDistance LOD_SIMPLE_DISTANCE then LOD_SIMPLE
  else if F32.gt relativeDistance LOD_MEDIUM_DISTANCE then LOD_MEDIUM
  else LOD_FULL.

Definition packLightParams (decay : f32) (visible lod : Z) : f32 :=
  decay ⊗ F32.c100 ⊕ (if visible =? 0 then F32.zero else F32.c10) ⊕ F32.of_Z lod.

Definition packVisibleLOD (visible lod : Z) : f32 :=
  F32.of_Z (if visible =? 0 then 0 else 10) ⊕ F32.of_Z lod.

(** The culling test of [update]: 1 when culled. *)
Definition culled_of (viewNear viewFar viewZ radius : f32) : Z :=
  if F32.gt viewZ (radius ⊖ viewNear)
     || F32.lt viewZ (F32.neg viewFar ⊖ radius)
  then 1 else 0.

(** [visible && !culled] as the [uint8_t] argument of the pack functions. *)
Definition visible_and_not (visible culled : Z) : Z :=
  if negb (visible =? 0) && (culled =? 0) then 1 else 0.

(* ================================================================== *)
(** * Animation processing *)
(* ================================================================== *)

(** The interpolation parameter of the linear motion, once
    [time >= delay] holds.  The three animation functions repeat this
    block verbatim. *)
Definition linear_t `{Platform} (lin : LinearParams.t) (time : f32) : f32 :=
  let t := (time ⊖ LinearParams.delay lin) ⊘ LinearParams.duration lin in
  if LinearParams.mode lin =? LINEAR_LOOP then fmodf t F32.one
  else if LinearParams.mode lin =? LINEAR_PINGPONG then
    let cycle := fptosi32 t in
    let t := fmodf t F32.one in
    if negb (Z.land cycle 1 =? 0) then F32.one ⊖ t else t
  else clampf t F32.zero F32.one.

(** The [ANIM_LINEAR] block: overwrites the x, y, z of the offset. *)
Definition linear_offset `{Platform} (lin : LinearParams.t) (base : Vec4.t)
    (time : f32) (off : Vec4.t) : Vec4.t :=
  if F32.ge time (LinearParams.delay lin) then
    let t := linear_t lin time in
    let tp := LinearParams.targetPos lin in
    Vec4.mk (lerpf F32.zero (Vec4.x tp ⊖ Vec4.x base) t)
            (lerpf F32.zero (Vec4.y tp ⊖ Vec4.y base) t)
            (lerpf F32.zero (Vec4.z tp ⊖ Vec4.z base) t)
            (Vec4.w off)
  else off.

Definition flicker_factor `{Platform} (f : FlickerParams.t) (time : f32) : f32 :=
  let flicker :=
    F32.one ⊕ sinf (time ⊗ FlickerParams.speed f ⊕ FlickerParams.seed f)
               ⊗ cosf (time ⊗ FlickerParams.speed f ⊗ F32.c1_7
                        ⊕ FlickerParams.seed f ⊗ F32.c2_3)
               ⊗ FlickerParams.intensity f in
  clampf flicker F32.c0_1 F32.two.

Definition pulse_factor `{Platform} (p : PulseParams.t) (time : f32) : f32 :=
  F32.one ⊕ sinf (time ⊗ PulseParams.speed p) ⊗ PulseParams.amount p.

(** [base.xyz + offset.xyz], leaving [w] as it is in [wp]. *)
Definition apply_offset (base off wp : Vec4.t) : Vec4.t :=
  Vec4.mk (Vec4.x base ⊕ Vec4.x off) (Vec4.y base ⊕ Vec4.y off)
          (Vec4.z base ⊕ Vec4.z off) (Vec4.w wp).

Definition rotation_angle `{Platform} (r : RotationParams.t) (time : f32) : f32 :=
  if RotationParams.mode r =? ROTATE_SWING
  then sinf (time ⊗ RotationParams.speed r) ⊗ RotationParams.angle r
  else fmodf (time ⊗ RotationParams.speed r) F32.two_pi.

(** Each block of the animation functions is one stage below; a stage
    reads the descriptor [a] and the time and updates the light. *)

(** [l->animOffset = 0; l->color = l->baseColor; l->worldPos.w = l->baseWorldPos.w;] *)
Definition point_reset (l : PointLight.t) : PointLight.t :=
  let l := PointLight.set_animOffset Vec4.zero l in
  let l := PointLight.set_color (PointLight.baseColor l) l in
  PointLight.set_worldPos
    (Vec4.set_w (Vec4.w (PointLight.baseWorldPos l)) (PointLight.worldPos l)) l.

Definition point_circular `{Platform} (a : AnimationParams.t) (time : f32)
    (l : PointLight.t) : PointLight.t :=
  if has_flag (AnimationParams.flags a) ANIM_CIRCULAR then
    let c := AnimationParams.circular a in
    let phase := time ⊗ CircularParams.speed c in
    PointLight.set_animOffset
      (Vec4.set_z (cosf phase ⊗ CircularParams.radius c)
         (Vec4.set_x (sinf phase ⊗ CircularParams.radius c) (PointLight.animOffset l))) l
  else l.

Definition point_linear `{Platform} (a : AnimationParams.t) (time : f32)
    (l : PointLight.t) : PointLight.t :=
  if has_flag (AnimationParams.flags a) ANIM_LINEAR then
    PointLight.set_animOffset
      (linear_offset (AnimationParams.linear a) (PointLight.baseWorldPos l) time
         (PointLight.animOffset l)) l
  else l.

Definition point_wave `{Platform} (a : AnimationParams.t) (time : f32)
    (l : PointLight.t) : PointLight.t :=
  if has_flag (AnimationParams.flags a) ANIM_WAVE then
    let wv := AnimationParams.wave a in
    let wave := sinf (time ⊗ WaveParams.speed wv ⊕ WaveParams.phase wv)
                ⊗ WaveParams.amplitude wv in
    let off := PointLight.animOffset l in
    PointLight.set_animOffset
      (Vec4.mk (Vec4.x off ⊕ Vec4.x (WaveParams.axis wv) ⊗ wave)
               (Vec4.y off ⊕ Vec4.y (WaveParams.axis wv) ⊗ wave)
               (Vec4.z off ⊕ Vec4.z (WaveParams.axis wv) ⊗ wave)
               (Vec4.w off)) l
  else l.

(** [l->worldPos.xyz = l->baseWorldPos.xyz + l->animOffset.xyz] *)
Definition point_apply_offset (l : PointLight.t) : PointLight.t :=
  PointLight.set_worldPos
    (apply_offset (PointLight.baseWorldPos l) (PointLight.animOffset l)
       (PointLight.worldPos l)) l.

Definition point_flicker `{Platform} (a : AnimationParams.t) (time : f32)
    (l : PointLight.t) : PointLight.t :=
  if has_flag (AnimationParams.flags a) ANIM_FLICKER then
    PointLight.set_color
      (Vec4.set_w (Vec4.w (PointLight.baseColor l)
                   ⊗ flicker_factor (AnimationParams.flicker a) time)
         (PointLight.color l)) l
  else l.

Definition point_pulse `{Platform} (a : AnimationParams.t) (time : f32)
    (l : PointLight.t) : PointLight.t :=
  if has_flag (AnimationParams.flags a) ANIM_PULSE then
    let p := AnimationParams.pulse a in
    let pulse := pulse_factor p time in
    let l :=
      if has_flag (PulseParams.target p) PULSE_INTENSITY then
        PointLight.set_color
          (Vec4.set_w (Vec4.w (PointLight.baseColor l) ⊗ pulse) (PointLight.color l)) l
      else l in
    if has_flag (PulseParams.target p) PULSE_RADIUS then
      PointLight.set_worldPos
        (Vec4.set_w (Vec4.w (PointLight.baseWorldPos l) ⊗ pulse) (PointLight.worldPos l)) l
    else l
  else l.

Definition processPointLightAnimation `{Platform} (l : PointLight.t) (time : f32)
    : PointLight.t :=
  let a := PointLight.anim l in
  let l := point_reset l in
  if AnimationParams.flags a =? ANIM_NONE
  then PointLight.set_worldPos (PointLight.baseWorldPos l) l
  else
    let l := point_circular a time l in
    let l := point_linear a time l in
    let l := point_wave a time l in
    let l := point_apply_offset l in
    let l := point_flicker a time l in
    point_pulse a time l.

(** [l->animOffset = 0; l->direction = l->baseDir; l->worldPos.w = l->baseWorldPos.w;] *)
Definition spot_reset (l : SpotLight.t) : SpotLight.t :=
  let l := SpotLight.set_animOffset Vec4.zero l in
  let l := SpotLight.set_direction (SpotLight.baseDir l) l in
  SpotLight.set_worldPos
    (Vec4.set_w (Vec4.w (SpotLight.baseWorldPos l)) (SpotLight.worldPos l)) l.

Definition spot_linear `{Platform} (a : AnimationParams.t) (time : f32)
    (l : SpotLight.t) : SpotLight.t :=
  if has_flag (AnimationParams.flags a) ANIM_LINEAR then
    SpotLight.set_animOffset
      (linear_offset (AnimationParams.linear a) (SpotLight.baseWorldPos l) time
         (SpotLight.animOffset l)) l
  else l.

Definition spot_apply_offset (l : SpotLight.t) : SpotLight.t :=
  SpotLight.set_worldPos
    (apply_offset (SpotLight.baseWorldPos l) (SpotLight.animOffset l)
       (SpotLight.worldPos l)) l.

(** Rotation for direction AND position. *)
Definition spot_rotate `{Platform} (a : AnimationParams.t) (time : f32)
    (l : SpotLight.t) : SpotLight.t :=
  if has_flag (AnimationParams.flags a) ANIM_ROTATE then
    let r := AnimationParams.rotation a in
    let angle := rotation_angle r time in
    let dir := rotateAroundAxis (SpotLight.baseDir l) (RotationParams.axis r) angle in
    let pos := rotateAroundAxis (SpotLight.worldPos l) (RotationParams.axis r) angle in
    SpotLight.set_worldPos pos (SpotLight.set_direction dir l)
  else l.

Definition spot_flicker `{Platform} (a : AnimationParams.t) (time : f32)
    (l : SpotLight.t) : SpotLight.t :=
  if has_flag (AnimationParams.flags a) ANIM_FLICKER then
    SpotLight.set_color
      (Vec4.set_w (Vec4.w (SpotLight.color l)
                   ⊗ flicker_factor (AnimationParams.flicker a) time)
         (SpotLight.color l)) l
  else l.

Definition spot_pulse `{Platform} (a : AnimationParams.t) (time : f32)
    (l : SpotLight.t) : SpotLight.t :=
  if has_flag (AnimationParams.flags a) ANIM_PULSE then
    let p := AnimationParams.pulse a in
    let pulse := pulse_factor p time in
    let l :=
      if has_flag (PulseParams.target p) PULSE_INTENSITY then
        SpotLight.set_color
          (Vec4.set_w (Vec4.w (SpotLight.color l) ⊗ pulse) (SpotLight.color l)) l
      else l in
    if has_flag (PulseParams.target p) PULSE_RADIUS then
      SpotLight.set_worldPos
        (Vec4.set_w (Vec4.w (SpotLight.baseWorldPos l) ⊗ pulse) (SpotLight.worldPos l)) l
    else l
  else l.

Definition processSpotLightAnimation `{Platform} (l : SpotLight.t) (time : f32)
    : SpotLight.t :=
  let a := SpotLight.anim l in
  let l := spot_reset l in
  if AnimationParams.flags a =? ANIM_NONE
  then SpotLight.set_worldPos (SpotLight.baseWorldPos l) l
  else
    let l := spot_linear a time l in
    let l := spot_apply_offset l in
    let l := spot_rotate a time l in
    let l := spot_flicker a time l in
    spot_pulse a time l.

(** [l->animOffset = 0; l->normal = l->baseNormal; l->worldPos.w = l->baseWorldPos.w;] *)
Definition rect_reset (l : RectLight.t) : RectLight.t :=
  let l := RectLight.set_animOffset Vec4.zero l in
  let l := RectLight.set_normal (RectLight.baseNormal l) l in
  RectLight.set_worldPos
    (Vec4.set_w (Vec4.w (RectLight.baseWorldPos l)) (RectLight.worldPos l)) l.

Definition rect_linear `{Platform} (a : AnimationParams.t) (time : f32)
    (l : RectLight.t) : RectLight.t :=
  if has_flag (AnimationParams.flags a) ANIM_LINEAR then
    RectLight.set_animOffset
      (linear_offset (AnimationParams.linear a) (RectLight.baseWorldPos l) time
         (RectLight.animOffset l)) l
  else l.

Definition rect_apply_offset (l : RectLight.t) : RectLight.t :=
  RectLight.set_worldPos
    (apply_offset (RectLight.baseWorldPos l) (RectLight.animOffset l)
       (RectLight.worldPos l)) l.

(** Rotation for normal, tangent, and bitangent. *)
Definition rect_rotate `{Platform} (a : AnimationParams.t) (time : f32)
    (l : RectLight.t) : RectLight.t :=
  if has_flag (AnimationParams.flags a) ANIM_ROTATE then
    let r := AnimationParams.rotation a in
    let angle := rotation_angle r time in
    let norm := rotateAroundAxis (RectLight.baseNormal l) (RotationParams.axis r) angle in
    let tang := rotateAroundAxis (RectLight.baseTangent l) (RotationParams.axis r) angle in
    let bitang :=
      rotateAroundAxis (RectLight.baseBitangent l) (RotationParams.axis r) angle in
    RectLight.set_bitangent bitang
      (RectLight.set_tangent tang (RectLight.set_normal norm l))
  else l.

Definition rect_flicker `{Platform} (a : AnimationParams.t) (time : f32)
    (l : RectLight.t) : RectLight.t :=
  if has_flag (AnimationParams.flags a) ANIM_FLICKER then
    RectLight.set_color
      (Vec4.set_w (Vec4.w (RectLight.color l)
                   ⊗ flicker_factor (AnimationParams.flicker a) time)
         (RectLight.color l)) l
  else l.

Definition rect_pulse `{Platform} (a : AnimationParams.t) (time : f32)
    (l : RectLight.t) : RectLight.t :=
  if has_flag (AnimationParams.flags a) ANIM_PULSE then
    let p := AnimationParams.pulse a in
    if has_flag (PulseParams.target p) PULSE_INTENSITY then
      RectLight.set_color
        (Vec4.set_w (Vec4.w (RectLight.color l) ⊗ pulse_factor p time)
           (RectLight.color l)) l
    else l
  else l.

Definition processRectLightAnimation `{Platform} (l : RectLight.t) (time : f32)
    : RectLight.t :=
  let a := RectLight.anim l in
  let l := rect_reset l in
  if AnimationParams.flags a =? ANIM_NONE
  then RectLight.set_worldPos (RectLight.baseWorldPos l) l
  else
    let l := rect_linear a time l in
    let l := rect_apply_offset l in
    let l := rect_rotate a time l in
    let l := rect_flicker a time l in
    rect_pulse a time l.

(* ================================================================== *)
(** * 128-bit vectors of four 32-bit lanes *)
(* ================================================================== *)

Module V128.
Record t := mk { lane0 : Z; lane1 : Z; lane2 : Z; lane3 : Z }.
Definition map2 (f : Z -> Z -> Z) (a b : t) : t :=
  mk (f (lane0 a) (lane0 b)) (f (lane1 a) (lane1 b))
     (f (lane2 a) (lane2 b)) (f (lane3 a) (lane3 b)).
Definition map3 (f : Z -> Z -> Z -> Z) (a b c : t) : t :=
  mk (f (lane0 a) (lane0 b) (lane0 c)) (f (lane1 a) (lane1 b) (lane1 c))
     (f (lane2 a) (lane2 b) (lane2 c)) (f (lane3 a) (lane3 b) (lane3 c)).
End V128.

Definition wasm_f32x4_make (a b c d : f32) : V128.t := V128.mk a b c d.
Definition wasm_f32x4_splat (a : f32) : V128.t := V128.mk a a a a.
Definition wasm_f32x4_add : V128.t -> V128.t -> V128.t := V128.map2 F32.add.
Definition wasm_f32x4_mul : V128.t -> V128.t -> V128.t := V128.map2 F32.mul.
Definition wasm_f32x4_div : V128.t -> V128.t -> V128.t := V128.map2 F32.div.

(** A lane of the result is all ones where the comparison holds. *)
Definition wasm_f32x4_gt : V128.t -> V128.t -> V128.t :=
  V128.map2 (fun a b => if F32.gt a b then 4294967295 else 0).

(** Bits of [v1] where [c] has a one, bits of [v2] elsewhere. *)
Definition wasm_v128_bitselect : V128.t -> V128.t -> V128.t -> V128.t :=
  V128.map3 (fun v1 v2 c =>
    Z.lor (Z.land v1 c) (Z.land v2 (Z.lxor c 4294967295))).

Definition wasm_f32x4_extract_lane (v : V128.t) (i : Z) : f32 :=
  if i =? 0 then V128.lane0 v
  else if i =? 1 then V128.lane1 v
  else if i =? 2 then V128.lane2 v
  else V128.lane3 v.

Definition calculateLOD_SIMD `{Platform} (lodBias : f32)
    (viewZ0 radius0 viewZ1 radius1 viewZ2 radius2 viewZ3 radius3 : f32)
    : Z * Z * Z * Z :=
  let vz := wasm_f32x4_make (F32.neg viewZ0) (F32.neg viewZ1)
                            (F32.neg viewZ2) (F32.neg viewZ3) in
  let rad := wasm_f32x4_make (radius0 ⊗ lodBias) (radius1 ⊗ lodBias)
                             (radius2 ⊗ lodBias) (radius3 ⊗ lodBias) in
  let relDist := wasm_f32x4_div vz rad in
  let skipThresh := wasm_f32x4_splat LOD_SKIP_DISTANCE in
  let simpleThresh := wasm_f32x4_splat LOD_SIMPLE_DISTANCE in
  let mediumThresh := wasm_f32x4_splat LOD_MEDIUM_DISTANCE in
  let isSkip := wasm_f32x4_gt relDist skipThresh in
  let isSimple := wasm_f32x4_gt relDist simpleThresh in
  let isMedium := wasm_f32x4_gt relDist mediumThresh in
  let lodVec := wasm_f32x4_splat F32.three in
  let lodVec := wasm_v128_bitselect (wasm_f32x4_splat F32.two) lodVec isMedium in
  let lodVec := wasm_v128_bitselect (wasm_f32x4_splat F32.one) lodVec isSimple in
  let lodVec := wasm_v128_bitselect (wasm_f32x4_splat F32.zero) lodVec isSkip in
  (fptoui8 (wasm_f32x4_extract_lane lodVec 0),
   fptoui8 (wasm_f32x4_extract_lane lodVec 1),
   fptoui8 (wasm_f32x4_extract_lane lodVec 2),
   fptoui8 (wasm_f32x4_extract_lane lodVec 3)).

(* ================================================================== *)
(** * Global state *)
(* ================================================================== *)

Module Store.
Record t := mk {
  pointLights : list PointLight.t;
  spotLights : list SpotLight.t;
  rectLights : list RectLight.t;
  pointLightsScratch : list PointLight.t;
  spotLightsScratch : list SpotLight.t;
  rectLightsScratch : list RectLight.t;
  pointLightTexture : list PointLightDataOptimized.t;
  spotLightTexture : list SpotLightData.t;
  rectLightTexture : list RectLightData.t;
  cameraMatrix : list f32;          (* Mat4.te, sixteen floats *)
  pointLightCount : Z;
  spotLightCount : Z;
  rectLightCount : Z;
  maxLights : Z;
  hasAnimatedLights : Z;
  needsSort : Z;
  hasPointLights : Z;
  hasSpotLights : Z;
  hasRectLights : Z;
  view : ViewMat.t;                 (* e0 .. e14 *)
  viewNear : f32;
  viewFar : f32;
  lodBias : f32
}.
Definition set_points (ls : list PointLight.t) (sc : list PointLight.t)
    (tex : list PointLightDataOptimized.t) (s : t) : t :=
  mk ls (spotLights s) (rectLights s) sc (spotLightsScratch s) (rectLightsScratch s)
     tex (spotLightTexture s) (rectLightTexture s) (cameraMatrix s)
     (pointLightCount s) (spotLightCount s) (rectLightCount s) (maxLights s)
     (hasAnimatedLights s) (needsSort s) (hasPointLights s) (hasSpotLights s)
     (hasRectLights s) (view s) (viewNear s) (viewFar s) (lodBias s).
Definition set_spots (ls : list SpotLight.t) (sc : list SpotLight.t)
    (tex : list SpotLightData.t) (s : t) : t :=
  mk (pointLights s) ls (rectLights s) (pointLightsScratch s) sc (rectLightsScratch s)
     (pointLightTexture s) tex (rectLightTexture s) (cameraMatrix s)
     (pointLightCount s) (spotLightCount s) (rectLightCount s) (maxLights s)
     (hasAnimatedLights s) (needsSort s) (hasPointLights s) (hasSpotLights s)
     (hasRectLights s) (view s) (viewNear s) (viewFar s) (lodBias s).
Definition set_rects (ls : list RectLight.t) (sc : list RectLight.t)
    (tex : list RectLightData.t) (s : t) : t :=
  mk (pointLights s) (spotLights s) ls (pointLightsScratch s) (spotLightsScratch s) sc
     (pointLightTexture s) (spotLightTexture s) tex (cameraMatrix s)
     (pointLightCount s) (spotLightCount s) (rectLightCount s) (maxLights s)
     (hasAnimatedLights s) (needsSort s) (hasPointLights s) (hasSpotLights s)
     (hasRectLights s) (view s) (viewNear s) (viewFar s) (lodBias s).
Definition set_counts (np ns nr : Z) (s : t) : t :=
  mk (pointLights s) (spotLights s) (rectLights s) (pointLightsScratch s)
     (spotLightsScratch s) (rectLightsScratch s) (pointLightTexture s)
     (spotLightTexture s) (rectLightTexture s) (cameraMatrix s)
     np ns nr (maxLights s)
     (hasAnimatedLights s) (needsSort s) (hasPointLights s) (hasSpotLights s)
     (hasRectLights s) (view s) (viewNear s) (viewFar s) (lodBias s).
Definition set_flags (animated sort hasP hasS hasR : Z) (s : t) : t :=
  mk (pointLights s) (spotLights s) (rectLights s) (pointLightsScratch s)
     (spotLightsScratch s) (rectLightsScratch s) (pointLightTexture s)
     (spotLightTexture s) (rectLightTexture s) (cameraMatrix s)
     (pointLightCount s) (spotLightCount s) (rectLightCount s) (maxLights s)
     animated sort hasP hasS hasR (view s) (viewNear s) (viewFar s) (lodBias s).
Definition set_hasAnimatedLights (a : Z) (s : t) : t :=
  set_flags a (needsSort s) (hasPointLights s) (hasSpotLights s) (hasRectLights s) s.
Definition set_needsSort (a : Z) (s : t) : t :=
  set_flags (hasAnimatedLights s) a (hasPointLights s) (hasSpotLights s)
    (hasRectLights s) s.
Definition set_hasPointLights (a : Z) (s : t) : t :=
  set_flags (hasAnimatedLights s) (needsSort s) a (hasSpotLights s) (hasRectLights s) s.
Definition set_hasSpotLights (a : Z) (s : t) : t :=
  set_flags (hasAnimatedLights s) (needsSort s) (hasPointLights s) a (hasRectLights s) s.
Definition set_hasRectLights (a : Z) (s : t) : t :=
  set_flags (hasAnimatedLights s) (needsSort s) (hasPointLights s) (hasSpotLights s) a s.
Definition set_pointLightCount (n : Z) (s : t) : t :=
  set_counts n (spotLightCount s) (rectLightCount s) s.
Definition set_spotLightCount (n : Z) (s : t) : t :=
  set_counts (pointLightCount s) n (rectLightCount s) s.
Definition set_rectLightCount (n : Z) (s : t) : t :=
  set_counts (pointLightCount s) (spotLightCount s) n s.
Definition set_pointLights (ls : list PointLight.t) (s : t) : t :=
  set_points ls (pointLightsScratch s) (pointLightTexture s) s.
Definition set_spotLights (ls : list SpotLight.t) (s : t) : t :=
  set_spots ls (spotLightsScratch s) (spotLightTexture s) s.
Definition set_rectLights (ls : list RectLight.t) (s : t) : t :=
  set_rects ls (rectLightsScratch s) (rectLightTexture s) s.
Definition set_view (v : ViewMat.t) (s : t) : t :=
  mk (pointLights s) (spotLights s) (rectLights s) (pointLightsScratch s)
     (spotLightsScratch s) (rectLightsScratch s) (pointLightTexture s)
     (spotLightTexture s) (rectLightTexture s) (cameraMatrix s)
     (pointLightCount s) (spotLightCount s) (rectLightCount s) (maxLights s)
     (hasAnimatedLights s) (needsSort s) (hasPointLights s) (hasSpotLights s)
     (hasRectLights s) v (viewNear s) (viewFar s) (lodBias s).
Definition set_frustum (near far : f32) (s : t) : t :=
  mk (pointLights s) (spotLights s) (rectLights s) (pointLightsScratch s)
     (spotLightsScratch s) (rectLightsScratch s) (pointLightTexture s)
     (spotLightTexture s) (rectLightTexture s) (cameraMatrix s)
     (pointLightCount s) (spotLightCount s) (rectLightCount s) (maxLights s)
     (hasAnimatedLights s) (needsSort s) (hasPointLights s) (hasSpotLights s)
     (hasRectLights s) (view s) near far (lodBias s).
Definition set_lodBias (b : f32) (s : t) : t :=
  mk (pointLights s) (spotLights s) (rectLights s) (pointLightsScratch s)
     (spotLightsScratch s) (rectLightsScratch s) (pointLightTexture s)
     (spotLightTexture s) (rectLightTexture s) (cameraMatrix s)
     (pointLightCount s) (spotLightCount s) (rectLightCount s) (maxLights s)
     (hasAnimatedLights s) (needsSort s) (hasPointLights s) (hasSpotLights s)
     (hasRectLights s) (view s) (viewNear s) (viewFar s) b.
End Store.

(** What the per-light stages of [update] read from the globals. *)
Module Env.
Record t := mk { view : ViewMat.t; viewNear : f32; viewFar : f32; lodBias : f32 }.
End Env.

Definition env_of (s : Store.t) : Env.t :=
  Env.mk (Store.view s) (Store.viewNear s) (Store.viewFar s) (Store.lodBias s).

(* ================================================================== *)
(** * The frame update pipeline *)
(* ================================================================== *)

(** [if (l->anim.flags != ANIM_NONE) process...(l, time);
     else l->worldPos = l->baseWorldPos;] *)
Definition animatePoint `{Platform} (time : f32) (l : PointLight.t) : PointLight.t :=
  if AnimationParams.flags (PointLight.anim l) =? ANIM_NONE
  then PointLight.set_worldPos (PointLight.baseWorldPos l) l
  else processPointLightAnimation l time.

Definition animateSpot `{Platform} (time : f32) (l : SpotLight.t) : SpotLight.t :=
  if AnimationParams.flags (SpotLight.anim l) =? ANIM_NONE
  then SpotLight.set_worldPos (SpotLight.baseWorldPos l) l
  else processSpotLightAnimation l time.

Definition animateRect `{Platform} (time : f32) (l : RectLight.t) : RectLight.t :=
  if AnimationParams.flags (RectLight.anim l) =? ANIM_NONE
  then RectLight.set_worldPos (RectLight.baseWorldPos l) l
  else processRectLightAnimation l time.

(** The record written to [pointLightTexture[i]]. *)
Definition packPoint (l : PointLight.t) (culled : Z) : PointLightDataOptimized.t :=
  let c := PointLight.color l in
  PointLightDataOptimized.mk
    (PointLight.viewPos l)
    (Vec4.mk (Vec4.x c ⊗ Vec4.w c) (Vec4.y c ⊗ Vec4.w c) (Vec4.z c ⊗ Vec4.w c)
       (packLightParams (PointLight.decay l)
          (visible_and_not (PointLight.visible l) culled) (PointLight.lodLevel l))).

(** One iteration of the scalar point-light loop of [update]. *)
Definition updatePointScalar `{Platform} (env : Env.t) (time : f32) (l : PointLight.t)
    : PointLight.t * PointLightDataOptimized.t :=
  let l := animatePoint time l in
  let wp := PointLight.worldPos l in
  let l := PointLight.set_viewPos
             (worldToView (Env.view env) (Vec4.x wp) (Vec4.y wp) (Vec4.z wp) (Vec4.w wp)) l in
  let l := PointLight.set_lodLevel
             (calculateLOD (Env.lodBias env) (Vec4.z (PointLight.viewPos l)) (Vec4.w wp)) l in
  let culled := culled_of (Env.viewNear env) (Env.viewFar env)
                  (Vec4.z (PointLight.viewPos l)) (Vec4.w wp) in
  let ld := packPoint l culled in
  (PointLight.set_dirty 0 l, ld).

(** One iteration of the spot-light loop of [update]. *)
Definition updateSpotScalar `{Platform} (env : Env.t) (time : f32) (l : SpotLight.t)
    : SpotLight.t * SpotLightData.t :=
  let l := animateSpot time l in
  let wp := SpotLight.worldPos l in
  let l := SpotLight.set_viewPos
             (worldToView (Env.view env) (Vec4.x wp) (Vec4.y wp) (Vec4.z wp) (Vec4.w wp)) l in
  let l := SpotLight.set_viewDir
             (worldDirToView (Env.view env) (SpotLight.direction l) (SpotLight.viewDir l)) l in
  let l := SpotLight.set_lodLevel
             (calculateLOD (Env.lodBias env) (Vec4.z (SpotLight.viewPos l)) (Vec4.w wp)) l in
  let culled := culled_of (Env.viewNear env) (Env.viewFar env)
                  (Vec4.z (SpotLight.viewPos l)) (Vec4.w wp) in
  let ld :=
    SpotLightData.mk
      (SpotLight.viewPos l)
      (SpotLight.color l)
      (SpotLight.viewDir l)
      (Vec4.mk (cosf (SpotLight.angle l))
               (cosf (SpotLight.angle l ⊖ SpotLight.penumbra l))
               (SpotLight.decay l)
               (packVisibleLOD (visible_and_not (SpotLight.visible l) culled)
                  (SpotLight.lodLevel l))) in
  (SpotLight.set_dirty 0 l, ld).

(** One iteration of the rect-light loop of [update]. *)
Definition updateRectScalar `{Platform} (env : Env.t) (time : f32) (l : RectLight.t)
    : RectLight.t * RectLightData.t :=
  let l := animateRect time l in
  let wp := RectLight.worldPos l in
  let l := RectLight.set_viewPos
             (worldToView (Env.view env) (Vec4.x wp) (Vec4.y wp) (Vec4.z wp) (Vec4.w wp)) l in
  let l := RectLight.set_viewNormal
             (worldDirToView (Env.view env) (RectLight.normal l) (RectLight.viewNormal l)) l in
  let l := RectLight.set_viewTangent
             (worldDirToView (Env.view env) (RectLight.tangent l) (RectLight.viewTangent l)) l in
  let l := RectLight.set_lodLevel
             (calculateLOD (Env.lodBias env) (Vec4.z (RectLight.viewPos l)) (Vec4.w wp)) l in
  let culled := culled_of (Env.viewNear env) (Env.viewFar env)
                  (Vec4.z (RectLight.viewPos l)) (Vec4.w wp) in
  let ld :=
    RectLightData.mk
      (RectLight.viewPos l)
      (RectLight.color l)
      (Vec4.mk (Vec4.x (RectLight.size l)) (Vec4.y (RectLight.size l))
               (RectLight.decay l)
               (packVisibleLOD (visible_and_not (RectLight.visible l) culled)
                  (RectLight.lodLevel l)))
      (RectLight.viewNormal l)
      (RectLight.viewTangent l) in
  (RectLight.set_dirty 0 l, ld).

(** The loop state: the light array, its output buffer, and [animated]. *)
Definition light_step {L D : Type} (flagsOf : L -> Z) (body : L -> L * D) (i : nat)
    (st : list L * list D * Z) : list L * list D * Z :=
  let '(ls, tex, animated) := st in
  match ls !! i with
  | Some l =>
      let '(l', d) := body l in
      (<[i := l']> ls, <[i := d]> tex,
       if flagsOf l =? ANIM_NONE then animated else 1)
  | None => st
  end.

(** [for (int i = lo; i < hi; i++) body] *)
Definition for_lights {L D : Type} (flagsOf : L -> Z) (body : L -> L * D) (lo hi : nat)
    (st : list L * list D * Z) : list L * list D * Z :=
  fold_left (fun st i => light_step flagsOf body i st) (seq lo (hi - lo)) st.

(** The view transform of a batch: the four products are summed as
    [(a + b) + (c + d)]. *)
Definition simd_transform_row (a b c d : f32) (wx wy wz : V128.t) : V128.t :=
  wasm_f32x4_add
    (wasm_f32x4_add (wasm_f32x4_mul (wasm_f32x4_splat a) wx)
                    (wasm_f32x4_mul (wasm_f32x4_splat b) wy))
    (wasm_f32x4_add (wasm_f32x4_mul (wasm_f32x4_splat c) wz) (wasm_f32x4_splat d)).

Definition animateBatch `{Platform} (anyFlags : Z) (time : f32) (l : PointLight.t)
    : PointLight.t :=
  if anyFlags =? ANIM_NONE
  then PointLight.set_worldPos (PointLight.baseWorldPos l) l
  else processPointLightAnimation l time.

(** One iteration of the 4-wide loop of [updatePointLightsSIMD]. *)
Definition updatePointBatchSIMD `{Platform} (env : Env.t) (time : f32)
    (l0 l1 l2 l3 : PointLight.t)
    : (PointLight.t * PointLight.t * PointLight.t * PointLight.t)
      * (PointLightDataOptimized.t * PointLightDataOptimized.t
         * PointLightDataOptimized.t * PointLightDataOptimized.t) :=
  let fl (l : PointLight.t) := AnimationParams.flags (PointLight.anim l) in
  let anyFlags := Z.lor (Z.lor (Z.lor (fl l0) (fl l1)) (fl l2)) (fl l3) in
  let l0 := animateBatch anyFlags time l0 in
  let l1 := animateBatch anyFlags time l1 in
  let l2 := animateBatch anyFlags time l2 in
  let l3 := animateBatch anyFlags time l3 in
  let wp := PointLight.worldPos in
  let wx := wasm_f32x4_make (Vec4.x (wp l0)) (Vec4.x (wp l1)) (Vec4.x (wp l2)) (Vec4.x (wp l3)) in
  let wy := wasm_f32x4_make (Vec4.y (wp l0)) (Vec4.y (wp l1)) (Vec4.y (wp l2)) (Vec4.y (wp l3)) in
  let wz := wasm_f32x4_make (Vec4.z (wp l0)) (Vec4.z (wp l1)) (Vec4.z (wp l2)) (Vec4.z (wp l3)) in
  let e := Env.view env in
  let vx := simd_transform_row (ViewMat.e0 e) (ViewMat.e4 e) (ViewMat.e8 e) (ViewMat.e12 e)
              wx wy wz in
  let vy := simd_transform_row (ViewMat.e1 e) (ViewMat.e5 e) (ViewMat.e9 e) (ViewMat.e13 e)
              wx wy wz in
  let vz := simd_transform_row (ViewMat.e2 e) (ViewMat.e6 e) (ViewMat.e10 e) (ViewMat.e14 e)
              wx wy wz in
  let store_view (k : Z) (l : PointLight.t) :=
    PointLight.set_viewPos
      (Vec4.mk (wasm_f32x4_extract_lane vx k) (wasm_f32x4_extract_lane vy k)
               (wasm_f32x4_extract_lane vz k) (Vec4.w (wp l))) l in
  let l0 := store_view 0 l0 in
  let l1 := store_view 1 l1 in
  let l2 := store_view 2 l2 in
  let l3 := store_view 3 l3 in
  let vp := PointLight.viewPos in
  let '(lod0, lod1, lod2, lod3) :=
    calculateLOD_SIMD (Env.lodBias env)
      (Vec4.z (vp l0)) (Vec4.w (wp l0)) (Vec4.z (vp l1)) (Vec4.w (wp l1))
      (Vec4.z (vp l2)) (Vec4.w (wp l2)) (Vec4.z (vp l3)) (Vec4.w (wp l3)) in
  let l0 := PointLight.set_lodLevel lod0 l0 in
  let l1 := PointLight.set_lodLevel lod1 l1 in
  let l2 := PointLight.set_lodLevel lod2 l2 in
  let l3 := PointLight.set_lodLevel lod3 l3 in
  let cull (l : PointLight.t) :=
    culled_of (Env.viewNear env) (Env.viewFar env) (Vec4.z (vp l)) (Vec4.w (wp l)) in
  let ld0 := packPoint l0 (cull l0) in
  let ld1 := packPoint l1 (cull l1) in
  let ld2 := packPoint l2 (cull l2) in
  let ld3 := packPoint l3 (cull l3) in
  ((PointLight.set_dirty 0 l0, PointLight.set_dirty 0 l1,
    PointLight.set_dirty 0 l2, PointLight.set_dirty 0 l3),
   (ld0, ld1, ld2, ld3)).

Definition simd_step `{Platform} (env : Env.t) (time : f32) (i : nat)
    (st : list PointLight.t * list PointLightDataOptimized.t)
    : list PointLight.t * list PointLightDataOptimized.t :=
  let '(ls, tex) := st in
  match ls !! i, ls !! (i + 1)%nat, ls !! (i + 2)%nat, ls !! (i + 3)%nat with
  | Some l0, Some l1, Some l2, Some l3 =>
      let '((l0', l1', l2', l3'), (d0, d1, d2, d3)) :=
        updatePointBatchSIMD env time l0 l1 l2 l3 in
      (<[(i + 3)%nat := l3']> (<[(i + 2)%nat := l2']> (<[(i + 1)%nat := l1']> (<[i := l0']> ls))),
       <[(i + 3)%nat := d3]> (<[(i + 2)%nat := d2]> (<[(i + 1)%nat := d1]> (<[i := d0]> tex))))
  | _, _, _, _ => st
  end.

(** [for (; i + 3 < pointLightCount; i += 4)]; returns the final [i]. *)
Fixpoint simd_loop `{Platform} (fuel : nat) (env : Env.t) (time : f32) (count : Z) (i : nat)
    (st : list PointLight.t * list PointLightDataOptimized.t)
    : nat * (list PointLight.t * list PointLightDataOptimized.t) :=
  match fuel with
  | O => (i, st)
  | S fuel' =>
      if Z.of_nat i + 3 <? count
      then simd_loop fuel' env time count (i + 4)%nat (simd_step env time i st)
      else (i, st)
  end.

Definition updatePointLightsSIMD `{Platform} (env : Env.t) (time : f32) (count : Z)
    (st : list PointLight.t * list PointLightDataOptimized.t)
    : list PointLight.t * list PointLightDataOptimized.t :=
  let '(i, (ls, tex)) := simd_loop (Z.to_nat count) env time count 0%nat st in
  let '(ls, tex, _) :=
    for_lights (fun l => AnimationParams.flags (PointLight.anim l))
      (updatePointScalar env time) i (Z.to_nat count) (ls, tex, 0) in
  (ls, tex).

Definition te (m : list f32) (i : nat) : f32 := nth i m F32.zero.

Definition load_view (m : list f32) : ViewMat.t :=
  ViewMat.mk (te m 0) (te m 1) (te m 2) (te m 4) (te m 5) (te m 6)
             (te m 8) (te m 9) (te m 10) (te m 12) (te m 13) (te m 14).

Definition truthy (n : Z) : bool := negb (n =? 0).
Definition of_bool (b : bool) : Z := if b then 1 else 0.

(** The point-light part of [update]; returns the new [animated]. *)
Definition updatePoints `{Platform} (general : bool) (time : f32) (animated : Z)
    (s : Store.t) : Store.t * Z :=
  let env := env_of s in
  if wasm_simd128 then
    let '(ls, tex) :=
      updatePointLightsSIMD env time (Store.pointLightCount s)
        (Store.pointLights s, Store.pointLightTexture s) in
    (Store.set_points ls (Store.pointLightsScratch s) tex s,
     if general
     then of_bool (truthy animated
                   || (truthy (Store.hasAnimatedLights s) && (0 <? Store.pointLightCount s)))
     else animated)
  else
    let '(ls, tex, animated) :=
      for_lights (fun l => AnimationParams.flags (PointLight.anim l))
        (updatePointScalar env time) 0 (Z.to_nat (Store.pointLightCount s))
        (Store.pointLights s, Store.pointLightTexture s, animated) in
    (Store.set_points ls (Store.pointLightsScratch s) tex s, animated).

Definition updateSpots `{Platform} (time : f32) (animated : Z) (s : Store.t)
    : Store.t * Z :=
  let '(ls, tex, animated) :=
    for_lights (fun l => AnimationParams.flags (SpotLight.anim l))
      (updateSpotScalar (env_of s) time) 0 (Z.to_nat (Store.spotLightCount s))
      (Store.spotLights s, Store.spotLightTexture s, animated) in
  (Store.set_spots ls (Store.spotLightsScratch s) tex s, animated).

Definition updateRects `{Platform} (time : f32) (animated : Z) (s : Store.t)
    : Store.t * Z :=
  let '(ls, tex, animated) :=
    for_lights (fun l => AnimationParams.flags (RectLight.anim l))
      (updateRectScalar (env_of s) time) 0 (Z.to_nat (Store.rectLightCount s))
      (Store.rectLights s, Store.rectLightTexture s, animated) in
  (Store.set_rects ls (Store.rectLightsScratch s) tex s, animated).

Definition update `{Platform} (s : Store.t) (time : f32) : Store.t * Z :=
  (* Cache view matrix elements *)
  let s := Store.set_view (load_view (Store.cameraMatrix s)) s in
  let animated := 0 in
  let hasP := truthy (Store.hasPointLights s) in
  let hasS := truthy (Store.hasSpotLights s) in
  let hasR := truthy (Store.hasRectLights s) in
  let fast_result (r : Store.t * Z) :=
    (fst r, of_bool (truthy (snd r) || truthy (Store.hasAnimatedLights s))) in
  if hasP && negb hasS && negb hasR then
    fast_result (updatePoints false time animated s)
  else if negb hasP && hasS && negb hasR then
    fast_result (updateSpots time animated s)
  else if negb hasP && negb hasS && hasR then
    fast_result (updateRects time animated s)
  else
    let '(s, animated) :=
      if hasP then updatePoints true time animated s else (s, animated) in
    let '(s, animated) :=
      if hasS then updateSpots time animated s else (s, animated) in
    let '(s, animated) :=
      if hasR then updateRects time animated s else (s, animated) in
    (s, animated).

(* ================================================================== *)
(** * Generic radix sort *)
(* ================================================================== *)

Section RadixSort.
Context {TYPE : Type} (morton : TYPE -> Z).

(** [(src[i].morton >> shift) & 0xFFu] *)
Definition digit (shift : Z) (x : TYPE) : Z := Z.land (Z.shiftr (morton x) shift) 255.

(** [hist[(src[i].morton >> shift) & 0xFFu]++], on [uint32_t] counters. *)
Definition count_step (shift : Z) (src : list TYPE) (hist : list Z) (i : nat) : list Z :=
  match src !! i with
  | Some x => alter (fun c => u32 (c + 1)) (Z.to_nat (digit shift x)) hist
  | None => hist
  end.

Definition histogram (shift : Z) (src : list TYPE) (count : nat) : list Z :=
  fold_left (count_step shift src) (seq 0 count) (replicate 256 0).

(** [int c = hist[i]; hist[i] = sum; sum += c;] *)
Definition prefix_step (st : list Z * Z) (i : nat) : list Z * Z :=
  let '(hist, sum) := st in
  match hist !! i with
  | Some h => let c := i32 h in (<[i := u32 sum]> hist, i32 (sum + c))
  | None => st
  end.

Definition prefix_sums (hist : list Z) : list Z :=
  fst (fold_left prefix_step (seq 0 256) (hist, 0)).

(** [uint32_t b = ...; dst[hist[b]++] = src[i];] *)
Definition scatter_step (shift : Z) (src : list TYPE) (st : list Z * list TYPE) (i : nat)
    : list Z * list TYPE :=
  let '(hist, dst) := st in
  match src !! i with
  | Some x =>
      let b := Z.to_nat (digit shift x) in
      match hist !! b with
      | Some h => (<[b := u32 (h + 1)]> hist, <[Z.to_nat h := x]> dst)
      | None => st
      end
  | None => st
  end.

(** One pass of the macro: the new contents of [dst]. *)
Definition radix_pass (shift : Z) (count : nat) (src dst : list TYPE) : list TYPE :=
  let hist := prefix_sums (histogram shift src count) in
  snd (fold_left (scatter_step shift src) (seq 0 count) (hist, dst)).

(** [n] passes from [shift] on; [swapped] tells whether [src] currently
    points at the scratch array. *)
Fixpoint radix_passes (n : nat) (shift : Z) (count : nat) (src dst : list TYPE)
    (swapped : bool) : list TYPE * list TYPE * bool :=
  match n with
  | O => (src, dst, swapped)
  | S n' =>
      let dst' := radix_pass shift count src dst in
      radix_passes n' (shift + 8) count dst' src (negb swapped)
  end.

(** Returns the contents of [src_array] and of [dst_array] afterwards. *)
Definition RADIX_SORT_IMPL (src_array dst_array : list TYPE) (count : Z)
    : list TYPE * list TYPE :=
  let n := Z.to_nat count in
  let '(src, dst, swapped) := radix_passes 4 0 n src_array dst_array false in
  if swapped
  then (take n src ++ drop n dst, src)   (* memcpy(src_array, src, count * sizeof) *)
  else (src, dst).

End RadixSort.

Definition radixSortPointLights (s : Store.t) (n : Z) : Store.t :=
  let '(a, b) := RADIX_SORT_IMPL PointLight.morton (Store.pointLights s)
                   (Store.pointLightsScratch s) n in
  Store.set_points a b (Store.pointLightTexture s) s.

Definition radixSortSpotLights (s : Store.t) (n : Z) : Store.t :=
  let '(a, b) := RADIX_SORT_IMPL SpotLight.morton (Store.spotLights s)
                   (Store.spotLightsScratch s) n in
  Store.set_spots a b (Store.spotLightTexture s) s.

Definition radixSortRectLights (s : Store.t) (n : Z) : Store.t :=
  let '(a, b) := RADIX_SORT_IMPL RectLight.morton (Store.rectLights s)
                   (Store.rectLightsScratch s) n in
  Store.set_rects a b (Store.rectLightTexture s) s.

Definition sort (s : Store.t) : Store.t :=
  if truthy (Store.needsSort s) then
    let s := if 1 <? Store.pointLightCount s
             then radixSortPointLights s (Store.pointLightCount s) else s in
    let s := if 1 <? Store.spotLightCount s
             then radixSortSpotLights s (Store.spotLightCount s) else s in
    let s := if 1 <? Store.rectLightCount s
             then radixSortRectLights s (Store.rectLightCount s) else s in
    Store.set_needsSort 0 s
  else s.

(* ================================================================== *)
(** * Initialisation, frustum and LOD settings *)
(* ================================================================== *)

(** [init] allocates every array with [count] elements and zeroes the
    counters; [mem] stands for the memory as allocated (its contents are
    whatever the allocator returned). *)
Definition init (mem : Store.t) (count : Z) : Store.t :=
  Store.mk (Store.pointLights mem) (Store.spotLights mem) (Store.rectLights mem)
    (Store.pointLightsScratch mem) (Store.spotLightsScratch mem)
    (Store.rectLightsScratch mem) (Store.pointLightTexture mem)
    (Store.spotLightTexture mem) (Store.rectLightTexture mem) (Store.cameraMatrix mem)
    0 0 0 count 0 0 0 0 0
    (Store.view mem) (Store.viewNear mem) (Store.viewFar mem) (Store.lodBias mem).

Definition setViewFrustum (s : Store.t) (near far : f32) : Store.t :=
  Store.set_frustum near far s.

Definition setLODBias (s : Store.t) (bias : f32) : Store.t := Store.set_lodBias bias s.

Definition getLODBias (s : Store.t) : f32 := Store.lodBias s.

(* ================================================================== *)
(** * Light creation *)
(* ================================================================== *)

(** [v / len] on the three coordinates when [len > 0]. *)
Definition normalize_div (v : Vec4.t) : Vec4.t :=
  let len := len3 (Vec4.x v) (Vec4.y v) (Vec4.z v) in
  if F32.gt len F32.zero
  then Vec4.mk (Vec4.x v ⊘ len) (Vec4.y v ⊘ len) (Vec4.z v ⊘ len) (Vec4.w v)
  else v.

(** [float inv = len > 0.f ? 1.f/len : 0.f; (dx*inv, dy*inv, dz*inv, 0.f)] *)
Definition normalize_inv (dx dy dz : f32) : Vec4.t :=
  let len := len3 dx dy dz in
  let inv := if F32.gt len F32.zero then F32.one ⊘ len else F32.zero in
  Vec4.mk (dx ⊗ inv) (dy ⊗ inv) (dz ⊗ inv) F32.zero.

(** The body of [add] on the slot [old]; the flag tells whether
    [hasAnimatedLights] is set. *)
Definition add_slot `{Platform} (old : PointLight.t)
    (px py pz radius r g b decay speed animRadius intensity : f32)
    : PointLight.t * bool :=
  let base := Vec4.mk px py pz radius in
  let bc := Vec4.mk r g b intensity in
  let a := AnimationParams.set_flags ANIM_NONE (PointLight.anim old) in
  let animated := F32.ne speed F32.zero in
  let a :=
    if animated then
      AnimationParams.set_circular (CircularParams.mk speed animRadius)
        (AnimationParams.set_flags (Z.lor (AnimationParams.flags a) ANIM_CIRCULAR) a)
    else a in
  (PointLight.mk base Vec4.zero base bc (PointLight.viewPos old) bc a decay
     (computeMorton px pz) DIRTY_ALL 1 LOD_FULL 0 F32.c0_3,
   animated).

Definition add `{Platform} (s : Store.t)
    (px py pz radius r g b decay speed animRadius intensity : f32) : Store.t * Z :=
  if Store.maxLights s <=? Store.pointLightCount s then (s, -1)
  else
    let n := Store.pointLightCount s in
    let ls := alter (fun old => fst (add_slot old px py pz radius r g b decay speed
                                       animRadius intensity))
                (Z.to_nat n) (Store.pointLights s) in
    let s := Store.set_pointLights ls s in
    let s := if F32.ne speed F32.zero then Store.set_hasAnimatedLights 1 s else s in
    let s := Store.set_needsSort 1 s in
    let s := Store.set_hasPointLights 1 s in
    (Store.set_pointLightCount (n + 1) s, n).

Definition addFast_slot `{Platform} (old : PointLight.t)
    (px py pz radius r g b intensity : f32) : PointLight.t :=
  let base := Vec4.mk px py pz radius in
  let bc := Vec4.mk r g b intensity in
  PointLight.mk base (PointLight.animOffset old) base bc (PointLight.viewPos old) bc
    (AnimationParams.set_flags ANIM_NONE (PointLight.anim old)) F32.one
    (computeMorton px pz) (PointLight.dirty old) 1 LOD_FULL 0 F32.c0_3.

Definition addFast `{Platform} (s : Store.t) (px py pz radius r g b intensity : f32)
    : Store.t * Z :=
  if Store.maxLights s <=? Store.pointLightCount s then (s, -1)
  else
    let n := Store.pointLightCount s in
    let ls := alter (fun old => addFast_slot old px py pz radius r g b intensity)
                (Z.to_nat n) (Store.pointLights s) in
    let s := Store.set_pointLights ls s in
    let s := Store.set_needsSort 1 s in
    let s := Store.set_hasPointLights 1 s in
    (Store.set_pointLightCount (n + 1) s, n).

(** The parameter blocks of the [...WithAnimation] entry points, in the
    order of the C parameter lists. *)
Definition setup_circular (flags : Z) (circSpeed circRadius : f32)
    (a : AnimationParams.t) : AnimationParams.t :=
  if has_flag flags ANIM_CIRCULAR
  then AnimationParams.set_circular (CircularParams.mk circSpeed circRadius) a
  else a.

Definition setup_linear (flags : Z) (targetX targetY targetZ duration delay : f32)
    (linearMode : Z) (a : AnimationParams.t) : AnimationParams.t :=
  if has_flag flags ANIM_LINEAR
  then AnimationParams.set_linear
         (LinearParams.mk (Vec4.mk targetX targetY targetZ F32.zero) duration delay
            linearMode) a
  else a.

Definition setup_wave (flags : Z)
    (waveAxisX waveAxisY waveAxisZ waveSpeed waveAmplitude wavePhase : f32)
    (a : AnimationParams.t) : AnimationParams.t :=
  if has_flag flags ANIM_WAVE
  then AnimationParams.set_wave
         (WaveParams.mk (normalize_div (Vec4.mk waveAxisX waveAxisY waveAxisZ F32.zero))
            waveSpeed waveAmplitude wavePhase) a
  else a.

Definition setup_rotation (flags : Z)
    (rotAxisX rotAxisY rotAxisZ rotSpeed rotAngle : f32) (rotMode : Z)
    (a : AnimationParams.t) : AnimationParams.t :=
  if has_flag flags ANIM_ROTATE
  then AnimationParams.set_rotation
         (RotationParams.mk (normalize_div (Vec4.mk rotAxisX rotAxisY rotAxisZ F32.zero))
            rotSpeed rotAngle rotMode) a
  else a.

Definition setup_flicker (flags : Z) (flickerSpeed flickerIntensity flickerSeed : f32)
    (a : AnimationParams.t) : AnimationParams.t :=
  if has_flag flags ANIM_FLICKER
  then AnimationParams.set_flicker
         (FlickerParams.mk flickerSpeed flickerIntensity flickerSeed) a
  else a.

Definition setup_pulse (flags : Z) (pulseSpeed pulseAmount : f32) (pulseTarget : Z)
    (a : AnimationParams.t) : AnimationParams.t :=
  if has_flag flags ANIM_PULSE
  then AnimationParams.set_pulse (PulseParams.mk pulseSpeed pulseAmount pulseTarget) a
  else a.

Definition addPointWithAnimation_slot `{Platform} (old : PointLight.t)
    (px py pz radius r g b intensity decay : f32) (animFlags : Z)
    (circSpeed circRadius : f32)
    (targetX targetY targetZ duration delay : f32) (linearMode : Z)
    (waveAxisX waveAxisY waveAxisZ waveSpeed waveAmplitude wavePhase : f32)
    (flickerSpeed flickerIntensity flickerSeed : f32)
    (pulseSpeed pulseAmount : f32) (pulseTarget : Z) : PointLight.t :=
  let base := Vec4.mk px py pz radius in
  let bc := Vec4.mk r g b intensity in
  let a := AnimationParams.set_flags animFlags (PointLight.anim old) in
  let a := setup_circular animFlags circSpeed circRadius a in
  let a := setup_linear animFlags targetX targetY targetZ duration delay linearMode a in
  let a := setup_wave animFlags waveAxisX waveAxisY waveAxisZ waveSpeed waveAmplitude
             wavePhase a in
  let a := setup_flicker animFlags flickerSpeed flickerIntensity flickerSeed a in
  let a := setup_pulse animFlags pulseSpeed pulseAmount pulseTarget a in
  PointLight.mk base Vec4.zero base bc (PointLight.viewPos old) bc a decay
    (computeMorton px pz) DIRTY_ALL 1 LOD_FULL (PointLight.castsShadow old)
    (PointLight.shadowIntensity old).

(** Whether one of the blocks that set [hasAnimatedLights] is entered. *)
Definition sets_animated (animFlags mask : Z) : bool :=
  negb (Z.land animFlags mask =? 0).

Definition addPointWithAnimation `{Platform} (s : Store.t)
    (px py pz radius r g b intensity decay : f32) (animFlags : Z)
    (circSpeed circRadius : f32)
    (targetX targetY targetZ duration delay : f32) (linearMode : Z)
    (waveAxisX waveAxisY waveAxisZ waveSpeed waveAmplitude wavePhase : f32)
    (flickerSpeed flickerIntensity flickerSeed : f32)
    (pulseSpeed pulseAmount : f32) (pulseTarget : Z) : Store.t * Z :=
  if Store.maxLights s <=? Store.pointLightCount s then (s, -1)
  else
    let n := Store.pointLightCount s in
    let ls := alter (fun old =>
                addPointWithAnimation_slot old px py pz radius r g b intensity decay
                  animFlags circSpeed circRadius targetX targetY targetZ duration delay
                  linearMode waveAxisX waveAxisY waveAxisZ waveSpeed waveAmplitude
                  wavePhase flickerSpeed flickerIntensity flickerSeed pulseSpeed
                  pulseAmount pulseTarget)
                (Z.to_nat n) (Store.pointLights s) in
    let s := Store.set_pointLights ls s in
    (* CIRCULAR | LINEAR | WAVE | FLICKER | PULSE *)
    let s := if sets_animated animFlags 31 then Store.set_hasAnimatedLights 1 s else s in
    let s := Store.set_needsSort 1 s in
    let s := Store.set_hasPointLights 1 s in
    (Store.set_pointLightCount (n + 1) s, n).

Definition addSpot_slot `{Platform} (old : SpotLight.t)
    (px py pz radius r g b dx dy dz angle penumbra decay intensity : f32)
    : SpotLight.t :=
  let base := Vec4.mk px py pz radius in
  let dir := normalize_inv dx dy dz in
  SpotLight.mk base Vec4.zero base (Vec4.mk r g b intensity) dir
    (SpotLight.viewPos old) (SpotLight.viewDir old) dir
    (AnimationParams.set_flags ANIM_NONE (SpotLight.anim old))
    decay angle penumbra (computeMorton px pz) DIRTY_ALL 1 LOD_FULL 0 F32.c0_3.

Definition addSpot `{Platform} (s : Store.t)
    (px py pz radius r g b dx dy dz angle penumbra decay intensity : f32)
    : Store.t * Z :=
  if Store.maxLights s <=? Store.spotLightCount s then (s, -1)
  else
    let n := Store.spotLightCount s in
    let ls := alter (fun old => addSpot_slot old px py pz radius r g b dx dy dz angle
                                  penumbra decay intensity)
                (Z.to_nat n) (Store.spotLights s) in
    let s := Store.set_spotLights ls s in
    let s := Store.set_needsSort 1 s in
    let s := Store.set_hasSpotLights 1 s in
    (Store.set_spotLightCount (n + 1) s, n).

Definition addSpotWithAnimation_slot `{Platform} (old : SpotLight.t)
    (px py pz radius r g b dx dy dz angle penumbra decay intensity : f32)
    (animFlags : Z)
    (targetX targetY targetZ duration delay : f32) (linearMode : Z)
    (rotAxisX rotAxisY rotAxisZ rotSpeed rotAngle : f32) (rotMode : Z)
    (flickerSpeed flickerIntensity flickerSeed : f32)
    (pulseSpeed pulseAmount : f32) (pulseTarget : Z) : SpotLight.t :=
  let base := Vec4.mk px py pz radius in
  let dir := normalize_inv dx dy dz in
  let a := AnimationParams.set_flags animFlags (SpotLight.anim old) in
  let a := setup_linear animFlags targetX targetY targetZ duration delay linearMode a in
  let a := setup_rotation animFlags rotAxisX rotAxisY rotAxisZ rotSpeed rotAngle rotMode a in
  let a := setup_flicker animFlags flickerSpeed flickerIntensity flickerSeed a in
  let a := setup_pulse animFlags pulseSpeed pulseAmount pulseTarget a in
  SpotLight.mk base Vec4.zero base (Vec4.mk r g b intensity) dir
    (SpotLight.viewPos old) (SpotLight.viewDir old) dir a
    decay angle penumbra (computeMorton px pz) DIRTY_ALL 1 LOD_FULL
    (SpotLight.castsShadow old) (SpotLight.shadowIntensity old).

Definition addSpotWithAnimation `{Platform} (s : Store.t)
    (px py pz radius r g b dx dy dz angle penumbra decay intensity : f32)
    (animFlags : Z)
    (targetX targetY targetZ duration delay : f32) (linearMode : Z)
    (rotAxisX rotAxisY rotAxisZ rotSpeed rotAngle : f32) (rotMode : Z)
    (flickerSpeed flickerIntensity flickerSeed : f32)
    (pulseSpeed pulseAmount : f32) (pulseTarget : Z) : Store.t * Z :=
  if Store.maxLights s <=? Store.spotLightCount s then (s, -1)
  else
    let n := Store.spotLightCount s in
    let ls := alter (fun old =>
                addSpotWithAnimation_slot old px py pz radius r g b dx dy dz angle
                  penumbra decay intensity animFlags targetX targetY targetZ duration
                  delay linearMode rotAxisX rotAxisY rotAxisZ rotSpeed rotAngle rotMode
                  flickerSpeed flickerIntensity flickerSeed pulseSpeed pulseAmount
                  pulseTarget)
                (Z.to_nat n) (Store.spotLights s) in
    let s := Store.set_spotLights ls s in
    (* LINEAR | ROTATE | FLICKER | PULSE *)
    let s := if sets_animated animFlags 58 then Store.set_hasAnimatedLights 1 s else s in
    let s := Store.set_needsSort 1 s in
    let s := Store.set_hasSpotLights 1 s in
    (Store.set_spotLightCount (n + 1) s, n).

Definition addRect_slot `{Platform} (old : RectLight.t)
    (px py pz width height nx ny nz r g b intensity decay radius : f32) : RectLight.t :=
  let base := Vec4.mk px py pz radius in
  let normal := normalize_inv nx ny nz in
  let '(tangent, bitangent) := buildOrthonormalBasis normal in
  RectLight.mk base Vec4.zero base (Vec4.mk r g b intensity)
    (Vec4.mk width height F32.zero F32.zero) normal tangent bitangent
    (RectLight.viewPos old) (RectLight.viewNormal old) (RectLight.viewTangent old)
    normal tangent bitangent
    (AnimationParams.set_flags ANIM_NONE (RectLight.anim old))
    decay (computeMorton px pz) DIRTY_ALL 1 LOD_FULL 0 F32.c0_3.

Definition addRect `{Platform} (s : Store.t)
    (px py pz width height nx ny nz r g b intensity decay radius : f32) : Store.t * Z :=
  if Store.maxLights s <=? Store.rectLightCount s then (s, -1)
  else
    let n := Store.rectLightCount s in
    let ls := alter (fun old => addRect_slot old px py pz width height nx ny nz r g b
                                  intensity decay radius)
                (Z.to_nat n) (Store.rectLights s) in
    let s := Store.set_rectLights ls s in
    let s := Store.set_needsSort 1 s in
    let s := Store.set_hasRectLights 1 s in
    (Store.set_rectLightCount (n + 1) s, n).

Definition addRectWithAnimation_slot `{Platform} (old : RectLight.t)
    (px py pz width height nx ny nz r g b intensity decay radius : f32)
    (animFlags : Z)
    (targetX targetY targetZ duration delay : f32) (linearMode : Z)
    (rotAxisX rotAxisY rotAxisZ rotSpeed rotAngle : f32) (rotMode : Z)
    (flickerSpeed flickerIntensity flickerSeed : f32)
    (pulseSpeed pulseAmount : f32) (pulseTarget : Z) : RectLight.t :=
  let base := Vec4.mk px py pz radius in
  let normal := normalize_inv nx ny nz in
  let '(tangent, bitangent) := buildOrthonormalBasis normal in
  let a := AnimationParams.set_flags animFlags (RectLight.anim old) in
  let a := setup_linear animFlags targetX targetY targetZ duration delay linearMode a in
  let a := setup_rotation animFlags rotAxisX rotAxisY rotAxisZ rotSpeed rotAngle rotMode a in
  let a := setup_flicker animFlags flickerSpeed flickerIntensity flickerSeed a in
  let a := setup_pulse animFlags pulseSpeed pulseAmount pulseTarget a in
  RectLight.mk base Vec4.zero base (Vec4.mk r g b intensity)
    (Vec4.mk width height F32.zero F32.zero) normal tangent bitangent
    (RectLight.viewPos old) (RectLight.viewNormal old) (RectLight.viewTangent old)
    normal tangent bitangent a
    decay (computeMorton px pz) DIRTY_ALL 1 LOD_FULL
    (RectLight.castsShadow old) (RectLight.shadowIntensity old).

Definition addRectWithAnimation `{Platform} (s : Store.t)
    (px py pz width height nx ny nz r g b intensity decay radius : f32)
    (animFlags : Z)
    (targetX targetY targetZ duration delay : f32) (linearMode : Z)
    (rotAxisX rotAxisY rotAxisZ rotSpeed rotAngle : f32) (rotMode : Z)
    (flickerSpeed flickerIntensity flickerSeed : f32)
    (pulseSpeed pulseAmount : f32) (pulseTarget : Z) : Store.t * Z :=
  if Store.maxLights s <=? Store.rectLightCount s then (s, -1)
  else
    let n := Store.rectLightCount s in
    let ls := alter (fun old =>
                addRectWithAnimation_slot old px py pz width height nx ny nz r g b
                  intensity decay radius animFlags targetX targetY targetZ duration
                  delay linearMode rotAxisX rotAxisY rotAxisZ rotSpeed rotAngle rotMode
                  flickerSpeed flickerIntensity flickerSeed pulseSpeed pulseAmount
                  pulseTarget)
                (Z.to_nat n) (Store.rectLights s) in
    let s := Store.set_rectLights ls s in
    (* LINEAR | ROTATE | FLICKER | PULSE *)
    let s := if sets_animated animFlags 58 then Store.set_hasAnimatedLights 1 s else s in
    let s := Store.set_needsSort 1 s in
    let s := Store.set_hasRectLights 1 s in
    (Store.set_rectLightCount (n + 1) s, n).

(* ================================================================== *)
(** * Bulk light initialisation *)
(* ================================================================== *)

(** [a[i]] for a caller-supplied array. *)
Definition rd (a : list f32) (i : Z) : f32 := nth (Z.to_nat i) a 0.

(** [animFlags ? animFlags[i] : ANIM_NONE] *)
Definition rd_flags (animFlags : option (list Z)) (i : Z) : Z :=
  match animFlags with
  | Some fl => nth (Z.to_nat i) fl 0
  | None => ANIM_NONE
  end.

Definition set_xyz (a b c : f32) (v : Vec4.t) : Vec4.t := Vec4.mk a b c (Vec4.w v).

(** The point-light branch, written out identically in
    [bulkAddPointLights] and [bulkAddLights]; [i] indexes the input
    arrays. *)
Definition bulk_point_anim `{Platform} (flags ai : Z) (animParams : list f32)
    (a : AnimationParams.t) : AnimationParams.t :=
  let a := AnimationParams.set_flags flags a in
  if flags =? ANIM_NONE then a
  else
    let a :=
      if has_flag flags ANIM_CIRCULAR
      then AnimationParams.set_circular
             (CircularParams.mk (rd animParams ai) (rd animParams (ai + 1))) a
      else a in
    let a :=
      if has_flag flags ANIM_WAVE then
        let axis := set_xyz (rd animParams (ai + 2)) (rd animParams (ai + 3))
                      (rd animParams (ai + 4)) (WaveParams.axis (AnimationParams.wave a)) in
        AnimationParams.set_wave
          (WaveParams.mk (normalize_div axis) (rd animParams (ai + 5))
             (rd animParams (ai + 6)) (rd animParams (ai + 7))) a
      else a in
    let a :=
      if has_flag flags ANIM_FLICKER
      then AnimationParams.set_flicker
             (FlickerParams.mk (rd animParams (ai + 8)) (rd animParams (ai + 9))
                (rd animParams (ai + 10))) a
      else a in
    if has_flag flags ANIM_PULSE
    then AnimationParams.set_pulse
           (PulseParams.mk (rd animParams (ai + 11)) (rd animParams (ai + 12))
              (fptoui8 (rd animParams (ai + 13)))) a
    else a.

Definition bulk_point_slot `{Platform} (old : PointLight.t) (i : Z)
    (positions colors decays : list f32) (animFlags : option (list Z))
    (animParams : list f32) : PointLight.t :=
  let pi := i * 4 in
  let base := Vec4.mk (rd positions pi) (rd positions (pi + 1)) (rd positions (pi + 2))
                (rd positions (pi + 3)) in
  let bc := Vec4.mk (rd colors pi) (rd colors (pi + 1)) (rd colors (pi + 2))
              (rd colors (pi + 3)) in
  PointLight.mk base Vec4.zero base bc (PointLight.viewPos old) bc
    (bulk_point_anim (rd_flags animFlags i) (i * 14) animParams (PointLight.anim old))
    (rd decays i) (computeMorton (rd positions pi) (rd positions (pi + 2)))
    DIRTY_ALL 1 LOD_FULL (PointLight.castsShadow old) (PointLight.shadowIntensity old).

Definition bulk_point_step `{Platform} (first : Z)
    (positions colors decays : list f32) (animFlags : option (list Z))
    (animParams : list f32) (st : list PointLight.t * Z) (i : nat)
    : list PointLight.t * Z :=
  let '(ls, hasAnimated) := st in
  (alter (fun old => bulk_point_slot old (Z.of_nat i) positions colors decays animFlags
                       animParams)
     (Z.to_nat (first + Z.of_nat i)) ls,
   (* CIRCULAR | WAVE | FLICKER | PULSE *)
   if sets_animated (rd_flags animFlags (Z.of_nat i)) 29 then 1 else hasAnimated).

Definition bulkAddPointLights `{Platform} (s : Store.t) (count : Z)
    (positions colors decays : list f32) (animFlags : option (list Z))
    (animParams : list f32) : Store.t * Z :=
  let count :=
    if Store.maxLights s <? i32 (Store.pointLightCount s + count)
    then i32 (Store.maxLights s - Store.pointLightCount s)   (* clamp to available space *)
    else count in
  let '(ls, hasAnimated) :=
    fold_left (bulk_point_step (Store.pointLightCount s) positions colors decays
                 animFlags animParams)
      (seq 0 (Z.to_nat count)) (Store.pointLights s, Store.hasAnimatedLights s) in
  let added := Z.of_nat (Z.to_nat count) in
  let s := Store.set_pointLights ls s in
  let s := Store.set_hasAnimatedLights hasAnimated s in
  let s := Store.set_pointLightCount (Store.pointLightCount s + added) s in
  let s := Store.set_needsSort 1 s in
  let s := Store.set_hasPointLights 1 s in
  (s, added).

(** The animation block shared by the spot and rect branches of
    [bulkAddLights]. *)
Definition bulk_area_anim `{Platform} (flags ai : Z) (animParams : list f32)
    (a : AnimationParams.t) : AnimationParams.t :=
  let a := AnimationParams.set_flags flags a in
  if flags =? ANIM_NONE then a
  else
    let a :=
      if has_flag flags ANIM_LINEAR then
        let lin := AnimationParams.linear a in
        AnimationParams.set_linear
          (LinearParams.mk
             (set_xyz (rd animParams ai) (rd animParams (ai + 1)) (rd animParams (ai + 2))
                (LinearParams.targetPos lin))
             (rd animParams (ai + 3)) (rd animParams (ai + 4))
             (fptoui8 (rd animParams (ai + 5)))) a
      else a in
    let a :=
      if has_flag flags ANIM_PULSE
      then AnimationParams.set_pulse
             (PulseParams.mk (rd animParams (ai + 11)) (rd animParams (ai + 12))
                (fptoui8 (rd animParams (ai + 13)))) a
      else a in
    if has_flag flags ANIM_ROTATE then
      let rot := AnimationParams.rotation a in
      AnimationParams.set_rotation
        (RotationParams.mk
           (set_xyz (rd animParams (ai + 6)) (rd animParams (ai + 7))
              (rd animParams (ai + 8)) (RotationParams.axis rot))
           (rd animParams (ai + 9)) (rd animParams (ai + 10))
           (fptoui8 (rd animParams (ai + 5)))) a     (* reuses the linear.mode slot *)
    else a.

Definition bulk_spot_slot `{Platform} (old : SpotLight.t) (i spotIdx : Z)
    (positions colors decays : list f32) (animFlags : option (list Z))
    (animParams spotParams : list f32) : SpotLight.t :=
  let pi := i * 4 in
  let si := spotIdx * 6 in
  let base := Vec4.mk (rd positions pi) (rd positions (pi + 1)) (rd positions (pi + 2))
                (rd positions (pi + 3)) in
  let dir := Vec4.mk (rd spotParams si) (rd spotParams (si + 1)) (rd spotParams (si + 2))
               F32.zero in
  SpotLight.mk base Vec4.zero base
    (Vec4.mk (rd colors pi) (rd colors (pi + 1)) (rd colors (pi + 2)) (rd colors (pi + 3)))
    dir (SpotLight.viewPos old) (SpotLight.viewDir old) dir
    (bulk_area_anim (rd_flags animFlags i) (i * 14) animParams (SpotLight.anim old))
    (rd decays i) (rd spotParams (si + 3)) (rd spotParams (si + 4))
    (computeMorton (rd positions pi) (rd positions (pi + 2)))
    DIRTY_ALL 1 LOD_FULL (SpotLight.castsShadow old) (SpotLight.shadowIntensity old).

Definition bulk_rect_slot `{Platform} (old : RectLight.t) (i rectIdx : Z)
    (positions colors decays : list f32) (animFlags : option (list Z))
    (animParams rectParams : list f32) : RectLight.t :=
  let pi := i * 4 in
  let ri := rectIdx * 6 in
  let base := Vec4.mk (rd positions pi) (rd positions (pi + 1)) (rd positions (pi + 2))
                (rd positions (pi + 3)) in
  let normal := normalize_inv (rd rectParams (ri + 2)) (rd rectParams (ri + 3))
                  (rd rectParams (ri + 4)) in
  let '(tangent, bitangent) := buildOrthonormalBasis normal in
  RectLight.mk base Vec4.zero base
    (Vec4.mk (rd colors pi) (rd colors (pi + 1)) (rd colors (pi + 2)) (rd colors (pi + 3)))
    (Vec4.mk (rd rectParams ri) (rd rectParams (ri + 1)) F32.zero F32.zero)
    normal tangent bitangent
    (RectLight.viewPos old) (RectLight.viewNormal old) (RectLight.viewTangent old)
    normal tangent bitangent
    (bulk_area_anim (rd_flags animFlags i) (i * 14) animParams (RectLight.anim old))
    (rd decays i) (computeMorton (rd positions pi) (rd positions (pi + 2)))
    DIRTY_ALL 1 LOD_FULL (RectLight.castsShadow old) (RectLight.shadowIntensity old).

(** The loop state of [bulkAddLights]. *)
Module Bulk.
Record t := mk {
  store : Store.t;
  pointAdded : Z; spotAdded : Z; rectAdded : Z;
  spotIdx : Z; rectIdx : Z
}.
End Bulk.

Definition bulk_step `{Platform} (types : list Z)
    (positions colors decays : list f32) (animFlags : option (list Z))
    (animParams spotParams rectParams : list f32) (st : Bulk.t) (k : nat) : Bulk.t :=
  let i := Z.of_nat k in
  let s := Bulk.store st in
  let type := nth k types 0 in
  let flags := rd_flags animFlags i in
  if type =? 0 then
    if Store.maxLights s <=? Store.pointLightCount s then st
    else
      let n := Store.pointLightCount s in
      let ls := alter (fun old => bulk_point_slot old i positions colors decays animFlags
                                    animParams) (Z.to_nat n) (Store.pointLights s) in
      let s := Store.set_pointLights ls s in
      let s := if sets_animated flags 29 then Store.set_hasAnimatedLights 1 s else s in
      let s := Store.set_pointLightCount (n + 1) s in
      let s := Store.set_hasPointLights 1 s in
      Bulk.mk s (Bulk.pointAdded st + 1) (Bulk.spotAdded st) (Bulk.rectAdded st)
        (Bulk.spotIdx st) (Bulk.rectIdx st)
  else if type =? 1 then
    if Store.maxLights s <=? Store.spotLightCount s then st
    else
      let n := Store.spotLightCount s in
      let ls := alter (fun old => bulk_spot_slot old i (Bulk.spotIdx st) positions colors
                                    decays animFlags animParams spotParams)
                  (Z.to_nat n) (Store.spotLights s) in
      let s := Store.set_spotLights ls s in
      (* LINEAR | PULSE | ROTATE *)
      let s := if sets_animated flags 50 then Store.set_hasAnimatedLights 1 s else s in
      let s := Store.set_spotLightCount (n + 1) s in
      let s := Store.set_hasSpotLights 1 s in
      Bulk.mk s (Bulk.pointAdded st) (Bulk.spotAdded st + 1) (Bulk.rectAdded st)
        (Bulk.spotIdx st + 1) (Bulk.rectIdx st)
  else if type =? 2 then
    if Store.maxLights s <=? Store.rectLightCount s then st
    else
      let n := Store.rectLightCount s in
      let ls := alter (fun old => bulk_rect_slot old i (Bulk.rectIdx st) positions colors
                                    decays animFlags animParams rectParams)
                  (Z.to_nat n) (Store.rectLights s) in
      let s := Store.set_rectLights ls s in
      let s := if sets_animated flags 50 then Store.set_hasAnimatedLights 1 s else s in
      let s := Store.set_rectLightCount (n + 1) s in
      let s := Store.set_hasRectLights 1 s in
      Bulk.mk s (Bulk.pointAdded st) (Bulk.spotAdded st) (Bulk.rectAdded st + 1)
        (Bulk.spotIdx st) (Bulk.rectIdx st + 1)
  else st.

Definition bulkAddLights `{Platform} (s : Store.t) (count : Z) (types : list Z)
    (positions colors decays : list f32) (animFlags : option (list Z))
    (animParams spotParams rectParams : list f32) : Store.t * Z :=
  let st :=
    fold_left (bulk_step types positions colors decays animFlags animParams spotParams
                 rectParams)
      (seq 0 (Z.to_nat count)) (Bulk.mk s 0 0 0 0 0) in
  (Store.set_needsSort 1 (Bulk.store st),
   Bulk.pointAdded st + Bulk.spotAdded st + Bulk.rectAdded st).

(* ================================================================== *)
(** * Light removal, counts and reset *)
(* ================================================================== *)

(** [memmove(&a[idx], &a[idx+1], (count - idx - 1) * sizeof)] *)
Definition memmove_down {A : Type} (idx count : nat) (a : list A) : list A :=
  take idx a ++ take (count - idx - 1) (drop (idx + 1) a) ++ drop (count - 1) a.

Definition any_animated {A : Type} (flagsOf : A -> Z) (count : Z) (a : list A) : bool :=
  existsb (fun l => negb (flagsOf l =? ANIM_NONE)) (take (Z.to_nat count) a).

Definition pflags (l : PointLight.t) : Z := AnimationParams.flags (PointLight.anim l).
Definition sflags (l : SpotLight.t) : Z := AnimationParams.flags (SpotLight.anim l).
Definition rflags (l : RectLight.t) : Z := AnimationParams.flags (RectLight.anim l).

(** The rescan of all three arrays, skipping index [skip] of the array
    the light is removed from. *)
Definition rescan_animated {A B C : Type} (fa : A -> Z) (fb : B -> Z) (fc : C -> Z)
    (skip : nat) (na nb nc : Z) (a : list A) (b : list B) (c : list C) : Z :=
  of_bool (any_animated fa na (delete skip (take (Z.to_nat na) a))
           || any_animated fb nb b || any_animated fc nc c).

Definition removePointLight (s : Store.t) (idx : Z) : Store.t :=
  if (0 <=? idx) && (idx <? Store.pointLightCount s) then
    let i := Z.to_nat idx in
    let n := Store.pointLightCount s in
    let s :=
      match Store.pointLights s !! i with
      | Some l =>
          if pflags l =? ANIM_NONE then s
          else Store.set_hasAnimatedLights
                 (rescan_animated pflags sflags rflags i n (Store.spotLightCount s)
                    (Store.rectLightCount s) (Store.pointLights s) (Store.spotLights s)
                    (Store.rectLights s)) s
      | None => s
      end in
    let s := Store.set_pointLights (memmove_down i (Z.to_nat n) (Store.pointLights s)) s in
    let s := Store.set_pointLightCount (n - 1) s in
    let s := Store.set_needsSort 1 s in
    Store.set_hasPointLights (of_bool (0 <? n - 1)) s
  else s.

Definition removeSpotLight (s : Store.t) (idx : Z) : Store.t :=
  if (0 <=? idx) && (idx <? Store.spotLightCount s) then
    let i := Z.to_nat idx in
    let n := Store.spotLightCount s in
    let s :=
      match Store.spotLights s !! i with
      | Some l =>
          if sflags l =? ANIM_NONE then s
          else Store.set_hasAnimatedLights
                 (rescan_animated sflags pflags rflags i n (Store.pointLightCount s)
                    (Store.rectLightCount s) (Store.spotLights s) (Store.pointLights s)
                    (Store.rectLights s)) s
      | None => s
      end in
    let s := Store.set_spotLights (memmove_down i (Z.to_nat n) (Store.spotLights s)) s in
    let s := Store.set_spotLightCount (n - 1) s in
    let s := Store.set_needsSort 1 s in
    Store.set_hasSpotLights (of_bool (0 <? n - 1)) s
  else s.

Definition removeRectLight (s : Store.t) (idx : Z) : Store.t :=
  if (0 <=? idx) && (idx <? Store.rectLightCount s) then
    let i := Z.to_nat idx in
    let n := Store.rectLightCount s in
    let s :=
      match Store.rectLights s !! i with
      | Some l =>
          if rflags l =? ANIM_NONE then s
          else Store.set_hasAnimatedLights
                 (rescan_animated rflags pflags sflags i n (Store.pointLightCount s)
                    (Store.spotLightCount s) (Store.rectLights s) (Store.pointLights s)
                    (Store.spotLights s)) s
      | None => s
      end in
    let s := Store.set_rectLights (memmove_down i (Z.to_nat n) (Store.rectLights s)) s in
    let s := Store.set_rectLightCount (n - 1) s in
    let s := Store.set_needsSort 1 s in
    Store.set_hasRectLights (of_bool (0 <? n - 1)) s
  else s.

Definition reset (s : Store.t) : Store.t :=
  Store.set_flags 0 0 0 0 0 (Store.set_counts 0 0 0 s).

Definition setPointLightCount (s : Store.t) (count : Z) : Store.t :=
  if (0 <=? count) && (count <=? Store.maxLights s)
  then Store.set_hasPointLights (of_bool (0 <? count)) (Store.set_pointLightCount count s)
  else s.

Definition setSpotLightCount (s : Store.t) (count : Z) : Store.t :=
  if (0 <=? count) && (count <=? Store.maxLights s)
  then Store.set_hasSpotLights (of_bool (0 <? count)) (Store.set_spotLightCount count s)
  else s.

Definition setRectLightCount (s : Store.t) (count : Z) : Store.t :=
  if (0 <=? count) && (count <=? Store.maxLights s)
  then Store.set_hasRectLights (of_bool (0 <? count)) (Store.set_rectLightCount count s)
  else s.

(* ================================================================== *)
(** * Property updates (macro-generated in the source) *)
(* ================================================================== *)

(** [if (idx >= 0 && idx < count) { array[idx] ... }] *)
Definition at_index {A : Type} (idx count : Z) (f : A -> A) (a : list A) : list A :=
  if (0 <=? idx) && (idx <? count) then alter f (Z.to_nat idx) a else a.

Definition in_range (idx count : Z) : bool := (0 <=? idx) && (idx <? count).

Definition updatePointLightPosition `{Platform} (s : Store.t) (idx : Z) (x y z : f32)
    : Store.t :=
  let f (l : PointLight.t) :=
    PointLight.set_dirty (Z.lor (PointLight.dirty l) DIRTY_POSITION)
      (PointLight.set_morton (computeMorton x z)
         (PointLight.set_worldPos (set_xyz x y z (PointLight.worldPos l))
            (PointLight.set_baseWorldPos (set_xyz x y z (PointLight.baseWorldPos l)) l))) in
  let s' := Store.set_pointLights
              (at_index idx (Store.pointLightCount s) f (Store.pointLights s)) s in
  if in_range idx (Store.pointLightCount s) then Store.set_needsSort 1 s' else s'.

Definition updateSpotLightPosition `{Platform} (s : Store.t) (idx : Z) (x y z : f32)
    : Store.t :=
  let f (l : SpotLight.t) :=
    SpotLight.set_dirty (Z.lor (SpotLight.dirty l) DIRTY_POSITION)
      (SpotLight.set_morton (computeMorton x z)
         (SpotLight.set_worldPos (set_xyz x y z (SpotLight.worldPos l))
            (SpotLight.set_baseWorldPos (set_xyz x y z (SpotLight.baseWorldPos l)) l))) in
  let s' := Store.set_spotLights
              (at_index idx (Store.spotLightCount s) f (Store.spotLights s)) s in
  if in_range idx (Store.spotLightCount s) then Store.set_needsSort 1 s' else s'.

Definition updateRectLightPosition `{Platform} (s : Store.t) (idx : Z) (x y z : f32)
    : Store.t :=
  let f (l : RectLight.t) :=
    RectLight.set_dirty (Z.lor (RectLight.dirty l) DIRTY_POSITION)
      (RectLight.set_morton (computeMorton x z)
         (RectLight.set_worldPos (set_xyz x y z (RectLight.worldPos l))
            (RectLight.set_baseWorldPos (set_xyz x y z (RectLight.baseWorldPos l)) l))) in
  let s' := Store.set_rectLights
              (at_index idx (Store.rectLightCount s) f (Store.rectLights s)) s in
  if in_range idx (Store.rectLightCount s) then Store.set_needsSort 1 s' else s'.

Definition updatePointLightRadius (s : Store.t) (idx : Z) (radius : f32) : Store.t :=
  let f (l : PointLight.t) :=
    PointLight.set_dirty (Z.lor (PointLight.dirty l) DIRTY_POSITION)
      (PointLight.set_worldPos (Vec4.set_w radius (PointLight.worldPos l))
         (PointLight.set_baseWorldPos (Vec4.set_w radius (PointLight.baseWorldPos l)) l)) in
  Store.set_pointLights (at_index idx (Store.pointLightCount s) f (Store.pointLights s)) s.

Definition updateSpotLightRadius (s : Store.t) (idx : Z) (radius : f32) : Store.t :=
  let f (l : SpotLight.t) :=
    SpotLight.set_dirty (Z.lor (SpotLight.dirty l) DIRTY_POSITION)
      (SpotLight.set_worldPos (Vec4.set_w radius (SpotLight.worldPos l))
         (SpotLight.set_baseWorldPos (Vec4.set_w radius (SpotLight.baseWorldPos l)) l)) in
  Store.set_spotLights (at_index idx (Store.spotLightCount s) f (Store.spotLights s)) s.

Definition updateRectLightRadius (s : Store.t) (idx : Z) (radius : f32) : Store.t :=
  let f (l : RectLight.t) :=
    RectLight.set_dirty (Z.lor (RectLight.dirty l) DIRTY_POSITION)
      (RectLight.set_worldPos (Vec4.set_w radius (RectLight.worldPos l))
         (RectLight.set_baseWorldPos (Vec4.set_w radius (RectLight.baseWorldPos l)) l)) in
  Store.set_rectLights (at_index idx (Store.rectLightCount s) f (Store.rectLights s)) s.

Definition updatePointLightColor (s : Store.t) (idx : Z) (r g b : f32) : Store.t :=
  let f (l : PointLight.t) :=
    PointLight.set_dirty (Z.lor (PointLight.dirty l) DIRTY_COLOR)
      (PointLight.set_color (set_xyz r g b (PointLight.color l)) l) in
  Store.set_pointLights (at_index idx (Store.pointLightCount s) f (Store.pointLights s)) s.

Definition updatePointLightIntensity (s : Store.t) (idx : Z) (intensity : f32) : Store.t :=
  let f (l : PointLight.t) :=
    PointLight.set_dirty (Z.lor (PointLight.dirty l) DIRTY_COLOR)
      (PointLight.set_color (Vec4.set_w intensity (PointLight.color l)) l) in
  Store.set_pointLights (at_index idx (Store.pointLightCount s) f (Store.pointLights s)) s.

Definition updatePointLightVisibility (s : Store.t) (idx : Z) (visible : Z) : Store.t :=
  let f (l : PointLight.t) :=
    PointLight.set_dirty (Z.lor (PointLight.dirty l) DIRTY_PARAMS)
      (PointLight.set_visible (if visible =? 0 then 0 else 1) l) in
  Store.set_pointLights (at_index idx (Store.pointLightCount s) f (Store.pointLights s)) s.

Definition updateSpotLightVisibility (s : Store.t) (idx : Z) (visible : Z) : Store.t :=
  let f (l : SpotLight.t) :=
    SpotLight.set_dirty (Z.lor (SpotLight.dirty l) DIRTY_PARAMS)
      (SpotLight.set_visible (if visible =? 0 then 0 else 1) l) in
  Store.set_spotLights (at_index idx (Store.spotLightCount s) f (Store.spotLights s)) s.

Definition updateRectLightVisibility (s : Store.t) (idx : Z) (visible : Z) : Store.t :=
  let f (l : RectLight.t) :=
    RectLight.set_dirty (Z.lor (RectLight.dirty l) DIRTY_PARAMS)
      (RectLight.set_visible (if visible =? 0 then 0 else 1) l) in
  Store.set_rectLights (at_index idx (Store.rectLightCount s) f (Store.rectLights s)) s.

(* ================================================================== *)
(** * Property updates: the remaining instances of the macros *)
(* ================================================================== *)

Definition updateSpotLightColor (s : Store.t) (idx : Z) (r g b : f32) : Store.t :=
  let f (l : SpotLight.t) :=
    SpotLight.set_dirty (Z.lor (SpotLight.dirty l) DIRTY_COLOR)
      (SpotLight.set_color (set_xyz r g b (SpotLight.color l)) l) in
  Store.set_spotLights (at_index idx (Store.spotLightCount s) f (Store.spotLights s)) s.

Definition updateRectLightColor (s : Store.t) (idx : Z) (r g b : f32) : Store.t :=
  let f (l : RectLight.t) :=
    RectLight.set_dirty (Z.lor (RectLight.dirty l) DIRTY_COLOR)
      (RectLight.set_color (set_xyz r g b (RectLight.color l)) l) in
  Store.set_rectLights (at_index idx (Store.rectLightCount s) f (Store.rectLights s)) s.

Definition updateSpotLightIntensity (s : Store.t) (idx : Z) (intensity : f32) : Store.t :=
  let f (l : SpotLight.t) :=
    SpotLight.set_dirty (Z.lor (SpotLight.dirty l) DIRTY_COLOR)
      (SpotLight.set_color (Vec4.set_w intensity (SpotLight.color l)) l) in
  Store.set_spotLights (at_index idx (Store.spotLightCount s) f (Store.spotLights s)) s.

Definition updateRectLightIntensity (s : Store.t) (idx : Z) (intensity : f32) : Store.t :=
  let f (l : RectLight.t) :=
    RectLight.set_dirty (Z.lor (RectLight.dirty l) DIRTY_COLOR)
      (RectLight.set_color (Vec4.set_w intensity (RectLight.color l)) l) in
  Store.set_rectLights (at_index idx (Store.rectLightCount s) f (Store.rectLights s)) s.

(** Field updates the modules above have no setter for. *)
Definition point_with_decay (a : f32) (l : PointLight.t) : PointLight.t :=
  PointLight.mk (PointLight.baseWorldPos l) (PointLight.animOffset l)
    (PointLight.worldPos l) (PointLight.color l) (PointLight.viewPos l)
    (PointLight.baseColor l) (PointLight.anim l) a (PointLight.morton l)
    (PointLight.dirty l) (PointLight.visible l) (PointLight.lodLevel l)
    (PointLight.castsShadow l) (PointLight.shadowIntensity l).

(** [direction], [baseDir], [anim], [decay], [angle] and [penumbra] of a
    spot light, the other fields as they are. *)
Definition spot_with (dir bdir : Vec4.t) (a : AnimationParams.t) (dcy ang pen : f32)
    (l : SpotLight.t) : SpotLight.t :=
  SpotLight.mk (SpotLight.baseWorldPos l) (SpotLight.animOffset l) (SpotLight.worldPos l)
    (SpotLight.color l) dir (SpotLight.viewPos l) (SpotLight.viewDir l) bdir a dcy ang pen
    (SpotLight.morton l) (SpotLight.dirty l) (SpotLight.visible l) (SpotLight.lodLevel l)
    (SpotLight.castsShadow l) (SpotLight.shadowIntensity l).

Definition spot_with_direction (dir : Vec4.t) (l : SpotLight.t) : SpotLight.t :=
  spot_with dir (SpotLight.baseDir l) (SpotLight.anim l) (SpotLight.decay l)
    (SpotLight.angle l) (SpotLight.penumbra l) l.
Definition spot_with_baseDir (bdir : Vec4.t) (l : SpotLight.t) : SpotLight.t :=
  spot_with (SpotLight.direction l) bdir (SpotLight.anim l) (SpotLight.decay l)
    (SpotLight.angle l) (SpotLight.penumbra l) l.
Definition spot_with_anim (a : AnimationParams.t) (l : SpotLight.t) : SpotLight.t :=
  spot_with (SpotLight.direction l) (SpotLight.baseDir l) a (SpotLight.decay l)
    (SpotLight.angle l) (SpotLight.penumbra l) l.
Definition spot_with_decay (a : f32) (l : SpotLight.t) : SpotLight.t :=
  spot_with (SpotLight.direction l) (SpotLight.baseDir l) (SpotLight.anim l) a
    (SpotLight.angle l) (SpotLight.penumbra l) l.
Definition spot_with_angle (ang pen : f32) (l : SpotLight.t) : SpotLight.t :=
  spot_with (SpotLight.direction l) (SpotLight.baseDir l) (SpotLight.anim l)
    (SpotLight.decay l) ang pen l.

(** [size], the basis, the base basis, [anim] and [decay] of a rect light,
    the other fields as they are. *)
Definition rect_with (sz nor tan bit bnor btan bbit : Vec4.t) (a : AnimationParams.t)
    (dcy : f32) (l : RectLight.t) : RectLight.t :=
  RectLight.mk (RectLight.baseWorldPos l) (RectLight.animOffset l) (RectLight.worldPos l)
    (RectLight.color l) sz nor tan bit (RectLight.viewPos l) (RectLight.viewNormal l)
    (RectLight.viewTangent l) bnor btan bbit a dcy (RectLight.morton l)
    (RectLight.dirty l) (RectLight.visible l) (RectLight.lodLevel l)
    (RectLight.castsShadow l) (RectLight.shadowIntensity l).

Definition rect_with_size (sz : Vec4.t) (l : RectLight.t) : RectLight.t :=
  rect_with sz (RectLight.normal l) (RectLight.tangent l) (RectLight.bitangent l)
    (RectLight.baseNormal l) (RectLight.baseTangent l) (RectLight.baseBitangent l)
    (RectLight.anim l) (RectLight.decay l) l.
Definition rect_with_basis (nor tan bit : Vec4.t) (l : RectLight.t) : RectLight.t :=
  rect_with (RectLight.size l) nor tan bit nor tan bit (RectLight.anim l)
    (RectLight.decay l) l.
Definition rect_with_anim (a : AnimationParams.t) (l : RectLight.t) : RectLight.t :=
  rect_with (RectLight.size l) (RectLight.normal l) (RectLight.tangent l)
    (RectLight.bitangent l) (RectLight.baseNormal l) (RectLight.baseTangent l)
    (RectLight.baseBitangent l) a (RectLight.decay l) l.
Definition rect_with_decay (a : f32) (l : RectLight.t) : RectLight.t :=
  rect_with (RectLight.size l) (RectLight.normal l) (RectLight.tangent l)
    (RectLight.bitangent l) (RectLight.baseNormal l) (RectLight.baseTangent l)
    (RectLight.baseBitangent l) (RectLight.anim l) a l.

Definition updatePointLightDecay (s : Store.t) (idx : Z) (decay : f32) : Store.t :=
  let f (l : PointLight.t) :=
    PointLight.set_dirty (Z.lor (PointLight.dirty l) DIRTY_PARAMS)
      (point_with_decay decay l) in
  Store.set_pointLights (at_index idx (Store.pointLightCount s) f (Store.pointLights s)) s.

Definition updateSpotLightDecay (s : Store.t) (idx : Z) (decay : f32) : Store.t :=
  let f (l : SpotLight.t) :=
    SpotLight.set_dirty (Z.lor (SpotLight.dirty l) DIRTY_PARAMS)
      (spot_with_decay decay l) in
  Store.set_spotLights (at_index idx (Store.spotLightCount s) f (Store.spotLights s)) s.

Definition updateRectLightDecay (s : Store.t) (idx : Z) (decay : f32) : Store.t :=
  let f (l : RectLight.t) :=
    RectLight.set_dirty (Z.lor (RectLight.dirty l) DIRTY_PARAMS)
      (rect_with_decay decay l) in
  Store.set_rectLights (at_index idx (Store.rectLightCount s) f (Store.rectLights s)) s.

(* ================================================================== *)
(** * Animation, direction and shape updates *)
(* ================================================================== *)

(** The wave and rotation blocks of the [update...LightAnimation] entry
    points store the axis as it is given. *)
Definition store_wave (flags : Z)
    (waveAxisX waveAxisY waveAxisZ waveSpeed waveAmplitude wavePhase : f32)
    (a : AnimationParams.t) : AnimationParams.t :=
  if has_flag flags ANIM_WAVE
  then AnimationParams.set_wave
         (WaveParams.mk (Vec4.mk waveAxisX waveAxisY waveAxisZ F32.zero)
            waveSpeed waveAmplitude wavePhase) a
  else a.

Definition store_rotation (flags : Z)
    (rotAxisX rotAxisY rotAxisZ rotSpeed rotAngle : f32) (rotMode : Z)
    (a : AnimationParams.t) : AnimationParams.t :=
  if has_flag flags ANIM_ROTATE
  then AnimationParams.set_rotation
         (RotationParams.mk (Vec4.mk rotAxisX rotAxisY rotAxisZ F32.zero)
            rotSpeed rotAngle rotMode) a
  else a.

(** The descriptor the three [update...LightAnimation] entry points
    leave, up to the rotation block. *)
Definition updated_anim (animFlags : Z) (circSpeed circRadius : f32)
    (targetX targetY targetZ duration delay : f32) (linearMode : Z)
    (waveAxisX waveAxisY waveAxisZ waveSpeed waveAmplitude wavePhase : f32)
    (flickerSpeed flickerIntensity flickerSeed : f32)
    (pulseSpeed pulseAmount : f32) (pulseTarget : Z)
    (a : AnimationParams.t) : AnimationParams.t :=
  let a := AnimationParams.set_flags animFlags a in
  let a := setup_circular animFlags circSpeed circRadius a in
  let a := setup_linear animFlags targetX targetY targetZ duration delay linearMode a in
  let a := store_wave animFlags waveAxisX waveAxisY waveAxisZ waveSpeed waveAmplitude
             wavePhase a in
  let a := setup_flicker animFlags flickerSpeed flickerIntensity flickerSeed a in
  setup_pulse animFlags pulseSpeed pulseAmount pulseTarget a.

(** [if (animFlags != oldFlags) { if (animFlags != ANIM_NONE) hasAnimatedLights = 1; }] *)
Definition flags_changed (s : Store.t) (oldFlags animFlags : Z) : Store.t :=
  if negb (animFlags =? oldFlags) && negb (animFlags =? ANIM_NONE)
  then Store.set_hasAnimatedLights 1 s else s.

Definition updatePointLightAnimation (s : Store.t) (idx : Z) (animFlags : Z)
    (circSpeed circRadius : f32)
    (targetX targetY targetZ duration delay : f32) (linearMode : Z)
    (waveAxisX waveAxisY waveAxisZ waveSpeed waveAmplitude wavePhase : f32)
    (flickerSpeed flickerIntensity flickerSeed : f32)
    (pulseSpeed pulseAmount : f32) (pulseTarget : Z) : Store.t :=
  if in_range idx (Store.pointLightCount s) then
    match Store.pointLights s !! Z.to_nat idx with
    | Some l =>
        let oldFlags := AnimationParams.flags (PointLight.anim l) in
        let a := updated_anim animFlags circSpeed circRadius targetX targetY targetZ
                   duration delay linearMode waveAxisX waveAxisY waveAxisZ waveSpeed
                   waveAmplitude wavePhase flickerSpeed flickerIntensity flickerSeed
                   pulseSpeed pulseAmount pulseTarget (PointLight.anim l) in
        let l' := PointLight.set_dirty (Z.lor (PointLight.dirty l) DIRTY_ALL)
                    (PointLight.set_anim a l) in
        flags_changed
          (Store.set_pointLights (<[Z.to_nat idx := l']> (Store.pointLights s)) s)
          oldFlags animFlags
    | None => s
    end
  else s.

Definition updateSpotLightDirection (s : Store.t) (idx : Z) (dx dy dz : f32) : Store.t :=
  let f (l : SpotLight.t) :=
    let len := len3 dx dy dz in
    if F32.gt len F32.c1em4 then
      let d := Vec4.mk (dx ⊘ len) (dy ⊘ len) (dz ⊘ len) (Vec4.w (SpotLight.direction l)) in
      SpotLight.set_dirty (Z.lor (SpotLight.dirty l) DIRTY_PARAMS)
        (spot_with_baseDir d (spot_with_direction d l))
    else l in
  Store.set_spotLights (at_index idx (Store.spotLightCount s) f (Store.spotLights s)) s.

Definition updateSpotLightAngle (s : Store.t) (idx : Z) (angle penumbra : f32) : Store.t :=
  let f (l : SpotLight.t) :=
    SpotLight.set_dirty (Z.lor (SpotLight.dirty l) DIRTY_PARAMS)
      (spot_with_angle angle penumbra l) in
  Store.set_spotLights (at_index idx (Store.spotLightCount s) f (Store.spotLights s)) s.

Definition updateSpotLightAnimation (s : Store.t) (idx : Z) (animFlags : Z)
    (circSpeed circRadius : f32)
    (targetX targetY targetZ duration delay : f32) (linearMode : Z)
    (waveAxisX waveAxisY waveAxisZ waveSpeed waveAmplitude wavePhase : f32)
    (flickerSpeed flickerIntensity flickerSeed : f32)
    (pulseSpeed pulseAmount : f32) (pulseTarget : Z)
    (rotAxisX rotAxisY rotAxisZ rotSpeed rotAngle : f32) (rotMode : Z) : Store.t :=
  if in_range idx (Store.spotLightCount s) then
    match Store.spotLights s !! Z.to_nat idx with
    | Some l =>
        let oldFlags := AnimationParams.flags (SpotLight.anim l) in
        let a := updated_anim animFlags circSpeed circRadius targetX targetY targetZ
                   duration delay linearMode waveAxisX waveAxisY waveAxisZ waveSpeed
                   waveAmplitude wavePhase flickerSpeed flickerIntensity flickerSeed
                   pulseSpeed pulseAmount pulseTarget (SpotLight.anim l) in
        let a := store_rotation animFlags rotAxisX rotAxisY rotAxisZ rotSpeed rotAngle
                   rotMode a in
        let l' := SpotLight.set_dirty (Z.lor (SpotLight.dirty l) DIRTY_ALL)
                    (spot_with_anim a l) in
        flags_changed
          (Store.set_spotLights (<[Z.to_nat idx := l']> (Store.spotLights s)) s)
          oldFlags animFlags
    | None => s
    end
  else s.

Definition updateRectLightSize (s : Store.t) (idx : Z) (width height : f32) : Store.t :=
  let f (l : RectLight.t) :=
    RectLight.set_dirty (Z.lor (RectLight.dirty l) DIRTY_PARAMS)
      (rect_with_size (Vec4.set_y height (Vec4.set_x width (RectLight.size l))) l) in
  Store.set_rectLights (at_index idx (Store.rectLightCount s) f (Store.rectLights s)) s.

Definition updateRectLightNormal (s : Store.t) (idx : Z) (nx ny nz : f32) : Store.t :=
  let f (l : RectLight.t) :=
    let len := len3 nx ny nz in
    if F32.gt len F32.c1em4 then
      let n := Vec4.mk (nx ⊘ len) (ny ⊘ len) (nz ⊘ len) (Vec4.w (RectLight.normal l)) in
      let '(tangent, bitangent) := buildOrthonormalBasis n in
      RectLight.set_dirty (Z.lor (RectLight.dirty l) DIRTY_PARAMS)
        (rect_with_basis n tangent bitangent l)
    else l in
  Store.set_rectLights (at_index idx (Store.rectLightCount s) f (Store.rectLights s)) s.

Definition updateRectLightAnimation (s : Store.t) (idx : Z) (animFlags : Z)
    (circSpeed circRadius : f32)
    (targetX targetY targetZ duration delay : f32) (linearMode : Z)
    (waveAxisX waveAxisY waveAxisZ waveSpeed waveAmplitude wavePhase : f32)
    (flickerSpeed flickerIntensity flickerSeed : f32)
    (pulseSpeed pulseAmount : f32) (pulseTarget : Z)
    (rotAxisX rotAxisY rotAxisZ rotSpeed rotAngle : f32) (rotMode : Z) : Store.t :=
  if in_range idx (Store.rectLightCount s) then
    match Store.rectLights s !! Z.to_nat idx with
    | Some l =>
        let oldFlags := AnimationParams.flags (RectLight.anim l) in
        let a := updated_anim animFlags circSpeed circRadius targetX targetY targetZ
                   duration delay linearMode waveAxisX waveAxisY waveAxisZ waveSpeed
                   waveAmplitude wavePhase flickerSpeed flickerIntensity flickerSeed
                   pulseSpeed pulseAmount pulseTarget (RectLight.anim l) in
        let a := store_rotation animFlags rotAxisX rotAxisY rotAxisZ rotSpeed rotAngle
                   rotMode a in
        let l' := RectLight.set_dirty (Z.lor (RectLight.dirty l) DIRTY_ALL)
                    (rect_with_anim a l) in
        flags_changed
          (Store.set_rectLights (<[Z.to_nat idx := l']> (Store.rectLights s)) s)
          oldFlags animFlags
    | None => s
    end
  else s.

(* ================================================================== *)
(** * The circular fast path *)
(* ================================================================== *)

(** The three assignments both builds of [updateCircularFast] make to
    light [i]. *)
Definition circular_fast `{Platform} (time : f32) (i : Z) (l : PointLight.t)
    : PointLight.t :=
  let c := AnimationParams.circular (PointLight.anim l) in
  let phase := time ⊗ CircularParams.speed c ⊕ F32.of_Z i ⊗ F32.c0_1 in
  let l := PointLight.set_worldPos
             (Vec4.set_x (Vec4.x (PointLight.baseWorldPos l)
                          ⊕ sinf phase ⊗ CircularParams.radius c)
                (PointLight.worldPos l)) l in
  PointLight.set_worldPos
    (Vec4.set_z (Vec4.z (PointLight.baseWorldPos l)
                 ⊕ cosf phase ⊗ CircularParams.radius c)
       (PointLight.worldPos l)) l.

(** One iteration of the scalar loop. *)
Definition circular_step `{Platform} (time : f32) (ls : list PointLight.t) (i : nat)
    : list PointLight.t :=
  match ls !! i with
  | Some l =>
      if has_flag (AnimationParams.flags (PointLight.anim l)) ANIM_CIRCULAR
      then <[i := circular_fast time (Z.of_nat i) l]> ls
      else ls
  | None => ls
  end.

(** [for (; i < pointLightCount; i++)] from [lo]. *)
Definition circular_for `{Platform} (time : f32) (lo hi : nat) (ls : list PointLight.t)
    : list PointLight.t :=
  fold_left (circular_step time) (seq lo (hi - lo)) ls.

(** The mask of a batch of eight: bit [j] for light [i + j]. *)
Definition circular_mask (ls : list PointLight.t) (i : nat) : Z :=
  fold_left
    (fun animMask j =>
       match ls !! (i + j)%nat with
       | Some l =>
           if has_flag (AnimationParams.flags (PointLight.anim l)) ANIM_CIRCULAR
           then Z.lor animMask (Z.shiftl 1 (Z.of_nat j))
           else animMask
       | None => animMask
       end)
    (seq 0 8) 0.

(** One iteration of the 8-wide loop. *)
Definition circular_batch `{Platform} (time : f32) (i : nat) (ls : list PointLight.t)
    : list PointLight.t :=
  let animMask := circular_mask ls i in
  if truthy animMask then
    fold_left
      (fun ls j =>
         if negb (Z.land animMask (Z.shiftl 1 (Z.of_nat j)) =? 0) then
           match ls !! (i + j)%nat with
           | Some l => <[(i + j)%nat := circular_fast time (Z.of_nat (i + j)) l]> ls
           | None => ls
           end
         else ls)
      (seq 0 8) ls
  else ls.

(** [for (; i + 7 < pointLightCount; i += 8)]; returns the final [i]. *)
Fixpoint circular_batches `{Platform} (fuel : nat) (time : f32) (count : Z) (i : nat)
    (ls : list PointLight.t) : nat * list PointLight.t :=
  match fuel with
  | O => (i, ls)
  | S fuel' =>
      if Z.of_nat i + 7 <? count
      then circular_batches fuel' time count (i + 8)%nat (circular_batch time i ls)
      else (i, ls)
  end.

Definition updateCircularFast `{Platform} (s : Store.t) (time : f32) : Store.t :=
  let n := Store.pointLightCount s in
  let ls :=
    if wasm_simd128 then
      let '(i, ls) := circular_batches (Z.to_nat n) time n 0%nat (Store.pointLights s) in
      circular_for time i (Z.to_nat n) ls
    else circular_for time 0 (Z.to_nat n) (Store.pointLights s) in
  Store.set_pointLights ls s.

(* ================================================================== *)
(** * State exposed to the caller *)
(* ================================================================== *)

Definition getPointLightCount (s : Store.t) : Z := Store.pointLightCount s.
Definition getSpotLightCount (s : Store.t) : Z := Store.spotLightCount s.
Definition getRectLightCount (s : Store.t) : Z := Store.rectLightCount s.
Definition getHasAnimatedLights (s : Store.t) : Z := Store.hasAnimatedLights s.
Definition getHasPointLights (s : Store.t) : Z := Store.hasPointLights s.
Definition getHasSpotLights (s : Store.t) : Z := Store.hasSpotLights s.
Definition getHasRectLights (s : Store.t) : Z := Store.hasRectLights s.

(** [if (idx >= 0 && idx < count) return array[idx].field; return 0;] *)
Definition read_at {A : Type} (idx count : Z) (field : A -> Z) (a : list A) : Z :=
  if in_range idx count then from_option field 0 (a !! Z.to_nat idx) else 0.

Definition getPointLightAnimFlags (s : Store.t) (idx : Z) : Z :=
  read_at idx (Store.pointLightCount s) pflags (Store.pointLights s).
Definition getSpotLightAnimFlags (s : Store.t) (idx : Z) : Z :=
  read_at idx (Store.spotLightCount s) sflags (Store.spotLights s).
Definition getRectLightAnimFlags (s : Store.t) (idx : Z) : Z :=
  read_at idx (Store.rectLightCount s) rflags (Store.rectLights s).

Definition getPointLightLOD (s : Store.t) (idx : Z) : Z :=
  read_at idx (Store.pointLightCount s) PointLight.lodLevel (Store.pointLights s).
Definition getSpotLightLOD (s : Store.t) (idx : Z) : Z :=
  read_at idx (Store.spotLightCount s) SpotLight.lodLevel (Store.spotLights s).
Definition getRectLightLOD (s : Store.t) (idx : Z) : Z :=
  read_at idx (Store.rectLightCount s) RectLight.lodLevel (Store.rectLights s).

(* ================================================================== *)
(** * Verification *)
(* ================================================================== *)

(** ** C1: the radix sort *)

(** *** Stable partition into buckets *)
Section Buckets.
Context {T : Type} (d : T -> nat).

(** The elements of [xs] whose bucket is [b], in their order in [xs]. *)
Definition bucket (xs : list T) (b : nat) : list T := filter (fun x => d x = b) xs.

(** The buckets [bs] one after the other. *)
Definition bucketed (bs : list nat) (xs : list T) : list T := flat_map (bucket xs) bs.

Lemma bucketed_cons b bs xs : bucketed (b :: bs) xs = bucket xs b ++ bucketed bs xs.
Proof. reflexivity. Qed.

Lemma bucketed_app bs1 bs2 xs : bucketed (bs1 ++ bs2) xs = bucketed bs1 xs ++ bucketed bs2 xs.
Proof. apply flat_map_app. Qed.

Lemma bucketed_nil bs : bucketed bs [] = [].
Proof. induction bs as [|b bs IH]; [done|]. by rewrite bucketed_cons, IH. Qed.

Lemma bucket_cons_eq x xs : bucket (x :: xs) (d x) = x :: bucket xs (d x).
Proof. unfold bucket. by rewrite filter_cons_True. Qed.

Lemma bucket_cons_ne x xs b : d x ≠ b -> bucket (x :: xs) b = bucket xs b.
Proof. intros. unfold bucket. by rewrite filter_cons_False. Qed.

Lemma bucket_snoc_eq x xs : bucket (xs ++ [x]) (d x) = bucket xs (d x) ++ [x].
Proof. unfold bucket. rewrite filter_app. f_equal. by rewrite filter_cons_True. Qed.

Lemma bucket_snoc_ne x xs b : d x ≠ b -> bucket (xs ++ [x]) b = bucket xs b.
Proof.
  intros. unfold bucket. rewrite filter_app, filter_cons_False by done.
  by rewrite app_nil_r.
Qed.

Lemma elem_of_bucket x xs b : x ∈ bucket xs b <-> x ∈ xs /\ d x = b.
Proof. unfold bucket. rewrite list_elem_of_filter. tauto. Qed.

Lemma bucketed_absent x xs bs :
  d x ∉ bs -> bucketed bs (x :: xs) = bucketed bs xs.
Proof.
  induction bs as [|b bs IH]; intros Hn; [done|].
  rewrite not_elem_of_cons in Hn. destruct Hn as [Hb Hn].
  rewrite !bucketed_cons, bucket_cons_ne by done. by rewrite IH.
Qed.

Lemma bucketed_perm_cons x xs bs :
  NoDup bs -> d x ∈ bs -> Permutation (bucketed bs (x :: xs)) (x :: bucketed bs xs).
Proof.
  induction bs as [|b bs IH]; intros Hnd Hin.
  - by apply elem_of_nil in Hin.
  - apply NoDup_cons in Hnd as [Hb Hnd]. rewrite !bucketed_cons.
    destruct (decide (d x = b)) as [<-|Hne].
    + rewrite bucket_cons_eq, bucketed_absent by done. done.
    + rewrite bucket_cons_ne by done.
      apply elem_of_cons in Hin as [?|Hin]; [done|].
      rewrite (IH Hnd Hin). by rewrite Permutation_middle.
Qed.

Lemma bucketed_perm xs bs :
  NoDup bs -> (forall x, x ∈ xs -> d x ∈ bs) -> Permutation (bucketed bs xs) xs.
Proof.
  intros Hnd. induction xs as [|x xs IH]; intros Hall.
  - by rewrite bucketed_nil.
  - rewrite bucketed_perm_cons; [|done|apply Hall; by left].
    f_equiv. apply IH. intros y Hy. apply Hall. by right.
Qed.

Lemma filter_bucket_other (P : T -> Prop) `{forall x, Decision (P x)} b0 b xs :
  (forall x, P x -> d x = b0) -> b ≠ b0 -> filter P (bucket xs b) = [].
Proof.
  intros HP Hne. unfold bucket. rewrite list_filter_filter.
  induction xs as [|x xs IHx]; [done|].
  rewrite filter_cons_False; [done|]. intros [HPx Hd]. apply HP in HPx. congruence.
Qed.

Lemma filter_bucket_same (P : T -> Prop) `{forall x, Decision (P x)} b0 xs :
  (forall x, P x -> d x = b0) -> filter P (bucket xs b0) = filter P xs.
Proof.
  intros HP. unfold bucket. rewrite list_filter_filter. apply list_filter_iff.
  intros x. split; [tauto|]. intros HPx. split; [done|]. by apply HP.
Qed.

(** Filtering by a property that fixes the bucket commutes with the
    partition: this is stability. *)
Lemma filter_bucketed (P : T -> Prop) `{forall x, Decision (P x)} b0 xs bs :
  (forall x, P x -> d x = b0) -> NoDup bs -> b0 ∈ bs ->
  filter P (bucketed bs xs) = filter P xs.
Proof.
  intros HP.
  assert (Hout : forall bs', b0 ∉ bs' -> filter P (bucketed bs' xs) = []).
  { induction bs' as [|b bs' IH]; intros Hn; [done|].
    rewrite not_elem_of_cons in Hn. destruct Hn as [Hb Hn].
    rewrite bucketed_cons, filter_app, IH, app_nil_r by done.
    apply (filter_bucket_other P b0); [done|congruence]. }
  induction bs as [|b bs IH]; intros Hnd Hin.
  - by apply elem_of_nil in Hin.
  - apply NoDup_cons in Hnd as [Hb Hnd]. rewrite bucketed_cons, filter_app.
    destruct (decide (b = b0)) as [->|Hne].
    + rewrite Hout, app_nil_r by done. by apply filter_bucket_same.
    + apply elem_of_cons in Hin as [?|Hin]; [done|].
      rewrite IH by done. by rewrite (filter_bucket_other P b0).
Qed.

(** Sortedness of the partition for an order that agrees with the bucket
    order across buckets. *)
Lemma bucketed_sorted (R : T -> T -> Prop) xs bs :
  StronglySorted lt bs ->
  (forall b, b ∈ bs -> StronglySorted R (bucket xs b)) ->
  (forall x y, x ∈ xs -> y ∈ xs -> (d x < d y)%nat -> R x y) ->
  StronglySorted R (bucketed bs xs).
Proof.
  intros Hbs Hin Hacross. induction Hbs as [|b bs Hbs IH Hall].
  - constructor.
  - rewrite bucketed_cons. apply StronglySorted_app. split_and!.
    + intros x y Hx Hy. apply elem_of_bucket in Hx as [Hx <-].
      unfold bucketed in Hy. apply list_elem_of_In, in_flat_map in Hy as (b' & Hb' & Hy).
      apply list_elem_of_In, elem_of_bucket in Hy as [Hy <-].
      apply Hacross; [done..|]. rewrite Forall_forall in Hall. apply Hall. by apply list_elem_of_In.
    + apply Hin. by left.
    + apply IH. intros b' Hb'. apply Hin. by right.
Qed.

End Buckets.

Lemma fold_left_index {S T : Type} (step : S -> nat -> S) (g : S -> T -> S)
    (src : list T) (n : nat) (s : S) :
  (forall s i, step s i = match src !! i with Some x => g s x | None => s end) ->
  (n <= length src)%nat ->
  fold_left step (seq 0 n) s = fold_left g (take n src) s.
Proof.
  intros Hstep. induction n as [|n IH]; intros Hn; [done|].
  destruct (lookup_lt_is_Some_2 src n) as [x Hx]; [lia|].
  rewrite seq_S, fold_left_app, (take_S_r _ _ x), fold_left_app, IH by (done || lia).
  simpl. by rewrite Hstep, Hx.
Qed.

Fixpoint start (c : nat -> nat) (B : nat) : nat :=
  match B with O => O | S B' => (start c B' + c B')%nat end.

Lemma start_mono c B B' : (B <= B')%nat -> (start c B <= start c B')%nat.
Proof. induction 1; simpl; lia. Qed.

Lemma start_succ_le c b B : (b < B)%nat -> (start c b + c b <= start c B)%nat.
Proof. intros. apply (start_mono c (S b) B). lia. Qed.

Lemma start_ext c c' B : (forall b, (b < B)%nat -> c b = c' b) -> start c B = start c' B.
Proof.
  induction B as [|B IH]; intros Hc; [done|]. simpl.
  rewrite IH, Hc by (intros; try apply Hc; lia). done.
Qed.

Lemma start_add c c' B : start (fun b => (c b + c' b)%nat) B = (start c B + start c' B)%nat.
Proof. induction B as [|B IH]; [done|]. simpl. lia. Qed.

Lemma start_indicator b0 B :
  start (fun b => if decide (b = b0) then 1%nat else 0%nat) B = if decide (b0 < B)%nat then 1%nat else 0%nat.
Proof.
  induction B as [|B IH]; [done|]. simpl. rewrite IH.
  repeat case_decide; lia.
Qed.

Section Pass.
Context {T : Type} (key : T -> Z) (sh : Z).

Definition dn (x : T) : nat := Z.to_nat (digit key sh x).

Lemma digit_range x : 0 <= digit key sh x < 256.
Proof.
  unfold digit. change 255 with (Z.ones 8). rewrite Z.land_ones by lia.
  apply Z.mod_pos_bound. lia.
Qed.

Lemma dn_lt x : (dn x < 256)%nat.
Proof. unfold dn. pose proof (digit_range x). lia. Qed.

Definition cnt (xs : list T) (b : nat) : nat := length (bucket dn xs b).

Lemma cnt_cons x xs b :
  cnt (x :: xs) b = ((if decide (b = dn x) then 1 else 0) + cnt xs b)%nat.
Proof.
  unfold cnt. case_decide as Hb.
  - subst b. by rewrite bucket_cons_eq.
  - by rewrite bucket_cons_ne.
Qed.

Lemma cnt_snoc x xs b :
  cnt (xs ++ [x]) b = (cnt xs b + (if decide (b = dn x) then 1 else 0))%nat.
Proof.
  unfold cnt. case_decide as Hb.
  - subst b. rewrite bucket_snoc_eq, length_app. simpl. lia.
  - rewrite bucket_snoc_ne by done. lia.
Qed.

Lemma cnt_le xs b : (cnt xs b <= length xs)%nat.
Proof. unfold cnt, bucket. apply length_filter. Qed.

Lemma cnt_app_le xs ys b : (cnt xs b <= cnt (xs ++ ys) b)%nat.
Proof. unfold cnt, bucket. rewrite filter_app, length_app. lia. Qed.

Lemma start_cnt_total xs : start (cnt xs) 256 = length xs.
Proof.
  induction xs as [|x xs IH].
  - generalize 256%nat as B. induction B as [|B IHB]; simpl; [done|].
    rewrite IHB. done.
  - rewrite (start_ext _ (fun b => ((if decide (b = dn x) then 1 else 0) + cnt xs b)%nat))
      by (intros; apply cnt_cons).
    rewrite start_add, start_indicator, IH. pose proof (dn_lt x).
    case_decide; simpl; lia.
Qed.

Definition hist_is (h : list Z) (f : nat -> nat) : Prop :=
  length h = 256%nat /\ forall b, (b < 256)%nat -> h !! b = Some (Z.of_nat (f b)).

Lemma hist_is_ext h f f' :
  (forall b, (b < 256)%nat -> f b = f' b) -> hist_is h f -> hist_is h f'.
Proof. intros Hf [Hl Hh]. split; [done|]. intros b Hb. rewrite Hh, Hf by done. done. Qed.

Definition count_elem (h : list Z) (x : T) : list Z :=
  alter (fun c => u32 (c + 1)) (dn x) h.

Lemma count_elems_spec xs : forall h f,
  hist_is h f ->
  (forall b, (b < 256)%nat -> Z.of_nat (f b + cnt xs b) < 4294967296) ->
  hist_is (fold_left count_elem xs h) (fun b => (f b + cnt xs b)%nat).
Proof.
  induction xs as [|x xs IH]; intros h f Hh Hbound.
  - simpl. apply (hist_is_ext h f); [|done].
    intros. unfold cnt. simpl. lia.
  - simpl. eapply hist_is_ext; cycle 1.
    + apply (IH _ (fun b => (f b + (if decide (b = dn x) then 1 else 0))%nat)).
      * destruct Hh as [Hl Hh]. split; [unfold count_elem; by rewrite length_alter|].
        intros b Hb. unfold count_elem. rewrite list_lookup_alter.
        specialize (Hbound b Hb). rewrite cnt_cons in Hbound.
        destruct (decide (dn x = b)) as [<-|Hne].
        -- rewrite Hh by done. rewrite decide_True in * by done. simpl. f_equal.
           unfold u32. rewrite Z.mod_small; lia.
        -- rewrite Hh by done. rewrite decide_False by done. f_equal. lia.
      * intros b Hb. specialize (Hbound b Hb). rewrite cnt_cons in Hbound. lia.
    + intros b Hb. simpl. rewrite cnt_cons. lia.
Qed.

Lemma histogram_spec src n :
  (n <= length src)%nat -> Z.of_nat n < 4294967296 ->
  hist_is (histogram key sh src n) (cnt (take n src)).
Proof.
  intros Hn Hb. unfold histogram.
  rewrite (fold_left_index _ count_elem src n) by done.
  eapply hist_is_ext; cycle 1.
  - apply (count_elems_spec _ _ (fun _ => 0%nat)).
    + split; [by rewrite length_replicate|]. intros b Hlt.
      by rewrite lookup_replicate_2.
    + intros b _. simpl. pose proof (cnt_le (take n src) b).
      rewrite length_take in *. lia.
  - done.
Qed.

Lemma prefix_fold_spec h c B :
  hist_is h c -> Z.of_nat (start c 256) < 2147483648 -> (B <= 256)%nat ->
  exists h', fold_left prefix_step (seq 0 B) (h, 0) = (h', Z.of_nat (start c B)) /\
    length h' = 256%nat /\
    (forall b, (b < B)%nat -> h' !! b = Some (Z.of_nat (start c b))) /\
    (forall b, (B <= b < 256)%nat -> h' !! b = Some (Z.of_nat (c b))).
Proof.
  intros [Hl Hh] Hbound. induction B as [|B IH]; intros HB.
  - exists h. repeat split; [done| lia |]. intros b Hb. apply Hh. lia.
  - destruct IH as (h' & Hfold & Hl' & Hlo & Hhi); [lia|].
    rewrite seq_S, fold_left_app, Hfold. simpl.
    rewrite (Hhi B) by lia.
    pose proof (start_succ_le c B 256 ltac:(lia)) as Hle.
    assert (Hi : i32 (Z.of_nat (c B)) = Z.of_nat (c B)).
    { unfold i32. rewrite Z.mod_small; lia. }
    rewrite Hi. eexists. split; [f_equal|].
    + unfold i32. rewrite Z.mod_small by lia. lia.
    + split; [by rewrite length_insert|]. split.
      * intros b Hb. destruct (decide (b = B)) as [->|Hne].
        -- rewrite list_lookup_insert_eq by lia. f_equal.
           pose proof (start_mono c B 256 ltac:(lia)).
           unfold u32. rewrite Z.mod_small; lia.
        -- rewrite list_lookup_insert_ne by done. apply Hlo. lia.
      * intros b Hb. rewrite list_lookup_insert_ne by lia. apply Hhi. lia.
Qed.

Lemma prefix_sums_spec h c :
  hist_is h c -> Z.of_nat (start c 256) < 2147483648 ->
  hist_is (prefix_sums h) (start c).
Proof.
  intros Hh Hb. destruct (prefix_fold_spec h c 256 Hh Hb ltac:(lia)) as (h' & Hf & Hl & Hlo & _).
  unfold prefix_sums. rewrite Hf. simpl. split; [done|]. done.
Qed.


Definition scatter_elem (st : list Z * list T) (x : T) : list Z * list T :=
  let '(hist, dst) := st in
  match hist !! dn x with
  | Some h => (<[dn x := u32 (h + 1)]> hist, <[Z.to_nat h := x]> dst)
  | None => st
  end.

Lemma scatter_elems_spec rest : forall done h dst,
  Z.of_nat (length (done ++ rest)) < 4294967296 ->
  (length (done ++ rest) <= length dst)%nat ->
  hist_is h (fun b => (start (cnt (done ++ rest)) b + cnt done b)%nat) ->
  (forall b j, (b < 256)%nat -> (j < cnt done b)%nat ->
     dst !! (start (cnt (done ++ rest)) b + j)%nat = bucket dn done b !! j) ->
  length (fold_left scatter_elem rest (h, dst)).2 = length dst /\
  (forall b j, (b < 256)%nat -> (j < cnt (done ++ rest) b)%nat ->
     (fold_left scatter_elem rest (h, dst)).2 !! (start (cnt (done ++ rest)) b + j)%nat
     = bucket dn (done ++ rest) b !! j).
Proof.
  induction rest as [|x rest IH]; intros done h dst Hlen Hdst Hh Hpos.
  - simpl. rewrite app_nil_r in *. done.
  - simpl. replace (done ++ x :: rest) with ((done ++ [x]) ++ rest) in *
      by (by rewrite <- app_assoc).
    set (all := (done ++ [x]) ++ rest) in *.
    pose proof (dn_lt x) as Hdx.
    destruct Hh as [Hhl Hh].
    rewrite (Hh (dn x)) by done.
    assert (Hlt : (cnt done (dn x) < cnt all (dn x))%nat).
    { pose proof (cnt_app_le (done ++ [x]) rest (dn x)) as Hle. fold all in Hle.
      rewrite cnt_snoc, decide_True in Hle by done. lia. }
    pose proof (start_succ_le (cnt all) (dn x) 256 Hdx) as Hs1.
    pose proof (start_cnt_total all) as Htot.
    rewrite Nat2Z.id.
    destruct (IH (done ++ [x])
               (<[dn x := u32 (Z.of_nat (start (cnt all) (dn x) + cnt done (dn x)) + 1)]> h)
               (<[(start (cnt all) (dn x) + cnt done (dn x))%nat := x]> dst))
      as [IHl IHp]; try done.
    + by rewrite length_insert.
    + split; [by rewrite length_insert|]. intros b Hb. fold all.
      rewrite cnt_snoc. destruct (decide (b = dn x)) as [->|Hne].
      * rewrite list_lookup_insert_eq by lia. f_equal.
        unfold u32. rewrite Z.mod_small; lia.
      * rewrite list_lookup_insert_ne by done. rewrite Hh by done. f_equal. lia.
    + intros b j Hb Hj. fold all. rewrite cnt_snoc in Hj.
      destruct (decide (b = dn x)) as [->|Hne].
      * rewrite bucket_snoc_eq.
        destruct (decide (j = cnt done (dn x))) as [->|Hnj].
        -- rewrite list_lookup_insert_eq by lia.
           unfold cnt. by rewrite list_lookup_middle.
        -- rewrite list_lookup_insert_ne by lia.
           rewrite lookup_app_l by (fold (cnt done (dn x)); lia).
           apply Hpos; [done|lia].
      * rewrite bucket_snoc_ne by done. rewrite Nat.add_0_r in Hj.
        rewrite list_lookup_insert_ne; [by apply Hpos|].
        pose proof (cnt_app_le done ([x] ++ rest) b) as Hle.
        rewrite app_assoc in Hle. fold all in Hle.
        destruct (decide (b < dn x)%nat).
        -- pose proof (start_succ_le (cnt all) b (dn x) ltac:(lia)). lia.
        -- pose proof (start_succ_le (cnt all) (dn x) b ltac:(lia)). lia.
    + rewrite length_insert in IHl. split; [done|]. exact IHp.
Qed.

Lemma positions_bucketed (all dst : list T) (B : nat) :
  (forall b j, (b < B)%nat -> (j < cnt all b)%nat ->
     dst !! (start (cnt all) b + j)%nat = bucket dn all b !! j) ->
  take (start (cnt all) B) dst = bucketed dn (seq 0 B) all.
Proof.
  induction B as [|B IH]; intros Hpos; [done|].
  rewrite seq_S, bucketed_app, <- IH by (intros; apply Hpos; lia).
  simpl. rewrite <- take_take_drop. f_equal.
  rewrite app_nil_r.
  apply list_eq. intros i. destruct (decide (i < cnt all B)%nat).
  - rewrite lookup_take_lt, lookup_drop by done. apply Hpos; lia.
  - rewrite lookup_take_ge by lia. symmetry. apply lookup_ge_None_2.
    fold (cnt all B). lia.
Qed.

Lemma radix_pass_spec (n : nat) (src dst : list T) :
  (n <= length src)%nat -> (n <= length dst)%nat -> Z.of_nat n < 2147483648 ->
  take n (radix_pass key sh n src dst) = bucketed dn (seq 0 256) (take n src)
  /\ length (radix_pass key sh n src dst) = length dst.
Proof.
  intros Hsrc Hdst Hn. unfold radix_pass.
  set (all := take n src).
  assert (Hall : length all = n) by (unfold all; rewrite length_take; lia).
  pose proof (histogram_spec src n Hsrc ltac:(lia)) as Hhist. fold all in Hhist.
  pose proof (start_cnt_total all) as Htot.
  pose proof (prefix_sums_spec _ _ Hhist ltac:(lia)) as Hpre.
  rewrite (fold_left_index _ scatter_elem src n); [|intros [h d] i; reflexivity|done].
  fold all.
  assert (Hh0 : hist_is (prefix_sums (histogram key sh src n))
                 (fun b => (start (cnt ([] ++ all)) b + cnt [] b)%nat)).
  { eapply hist_is_ext; [|exact Hpre]. intros b _. rewrite app_nil_l.
    change (cnt [] b) with 0%nat. lia. }
  assert (Hp0 : forall b j, (b < 256)%nat -> (j < cnt [] b)%nat ->
            dst !! (start (cnt ([] ++ all)) b + j)%nat = bucket dn [] b !! j).
  { intros b j _ Hj. change (cnt [] b) with 0%nat in Hj. lia. }
  destruct (scatter_elems_spec all [] _ dst ltac:(rewrite app_nil_l; lia)
              ltac:(rewrite app_nil_l; lia) Hh0 Hp0) as [Hl Hp].
  rewrite app_nil_l in Hp. split; [|exact Hl].
  rewrite <- (positions_bucketed all _ 256) by (intros; by apply Hp).
  by rewrite Htot, Hall.
Qed.

End Pass.

Lemma StronglySorted_seq j n : StronglySorted lt (seq j n).
Proof.
  revert j. induction n as [|n IH]; intros j; simpl; constructor; [apply IH|].
  apply Forall_seq. intros. lia.
Qed.

Lemma StronglySorted_filter {A} (R : A -> A -> Prop) (P : A -> Prop)
    `{forall x, Decision (P x)} l :
  StronglySorted R l -> StronglySorted R (filter P l).
Proof.
  induction 1 as [|x l Hl IH Hall]; [constructor|].
  rewrite filter_cons. case_decide; [|done].
  constructor; [done|]. rewrite Forall_forall in *. intros y Hy.
  apply Hall. by apply list_elem_of_filter in Hy as [].
Qed.

Lemma StronglySorted_weaken {A} (R R' : A -> A -> Prop) l :
  (forall x y, x ∈ l -> y ∈ l -> R x y -> R' x y) ->
  StronglySorted R l -> StronglySorted R' l.
Proof.
  intros HR Hs. induction Hs as [|x l Hl IH Hall]; [constructor|].
  constructor.
  - apply IH. intros a b Ha Hb. apply HR; by right.
  - rewrite Forall_forall in *. intros y Hy. apply HR; [by left| |by apply Hall].
    by right.
Qed.

Section LSD.
Context {T : Type} (key : T -> Z).

Definition sorted_by (f : T -> Z) (l : list T) : Prop :=
  StronglySorted (fun a b => f a <= f b) l.

(** The key restricted to its [p] low bytes. *)
Definition low (p : Z) (x : T) : Z := key x mod 2 ^ (8 * p).

(** What one pass computes on the live part of the array. *)
Definition pass_spec (sh : Z) (xs : list T) : list T :=
  bucketed (dn key sh) (seq 0 256) xs.

Lemma digit_div_mod sh x : 0 <= sh -> digit key sh x = (key x / 2 ^ sh) mod 256.
Proof.
  intros. unfold digit. change 255 with (Z.ones 8).
  rewrite Z.land_ones, Z.shiftr_div_pow2 by lia. done.
Qed.

Lemma low_succ p x : 0 <= p ->
  low (p + 1) x = low p x + 2 ^ (8 * p) * digit key (8 * p) x.
Proof.
  intros. unfold low. rewrite digit_div_mod by lia.
  replace (8 * (p + 1)) with (8 * p + 8) by lia.
  rewrite Z.pow_add_r by lia. change (2 ^ 8) with 256.
  apply Z.rem_mul_r; lia.
Qed.

Lemma low_range p x : 0 <= p -> 0 <= low p x < 2 ^ (8 * p).
Proof. intros. unfold low. apply Z.mod_pos_bound. apply Z.pow_pos_nonneg; lia. Qed.

Lemma pass_spec_perm sh xs : Permutation (pass_spec sh xs) xs.
Proof.
  apply bucketed_perm; [apply NoDup_seq|]. intros x _.
  apply elem_of_seq. pose proof (dn_lt key sh x). lia.
Qed.

Lemma pass_spec_stable sh k xs :
  filter (fun x => key x = k) (pass_spec sh xs) = filter (fun x => key x = k) xs.
Proof.
  apply (filter_bucketed _ _ (Z.to_nat (Z.land (Z.shiftr k sh) 255))).
  - intros x <-. reflexivity.
  - apply NoDup_seq.
  - apply elem_of_seq. split; [lia|]. simpl.
    assert (0 <= Z.land (Z.shiftr k sh) 255 < 256); [|lia].
    change 255 with (Z.ones 8). rewrite Z.land_ones by lia. apply Z.mod_pos_bound. lia.
Qed.

Lemma pass_spec_sorted p xs : 0 <= p ->
  sorted_by (low p) xs -> sorted_by (low (p + 1)) (pass_spec (8 * p) xs).
Proof.
  intros Hp Hs. apply bucketed_sorted.
  - apply StronglySorted_seq.
  - intros b _. unfold bucket.
    apply (StronglySorted_weaken (fun a b => low p a <= low p b)).
    + intros x y Hx Hy Hle. apply list_elem_of_filter in Hx as [Hx _], Hy as [Hy _].
      rewrite !low_succ by done. unfold dn in *.
      pose proof (digit_range key (8 * p) x). pose proof (digit_range key (8 * p) y).
      assert (digit key (8 * p) x = digit key (8 * p) y) as -> by lia. lia.
    + by apply StronglySorted_filter.
  - intros x y _ _ Hlt. rewrite !low_succ by done. unfold dn in Hlt.
    pose proof (digit_range key (8 * p) x). pose proof (digit_range key (8 * p) y).
    pose proof (low_range p x Hp). pose proof (low_range p y Hp).
    assert (digit key (8 * p) x + 1 <= digit key (8 * p) y) by lia.
    assert (0 < 2 ^ (8 * p)) by (apply Z.pow_pos_nonneg; lia). nia.
Qed.

(** The four passes, least significant byte first. *)
Definition lsd_sort (xs : list T) : list T :=
  pass_spec 24 (pass_spec 16 (pass_spec 8 (pass_spec 0 xs))).

Lemma lsd_sort_perm xs : Permutation xs (lsd_sort xs).
Proof. unfold lsd_sort. by rewrite !pass_spec_perm. Qed.

Lemma lsd_sort_stable k xs :
  filter (fun x => key x = k) (lsd_sort xs) = filter (fun x => key x = k) xs.
Proof. unfold lsd_sort. by rewrite !pass_spec_stable. Qed.

Lemma lsd_sort_sorted xs :
  (forall x, x ∈ xs -> 0 <= key x < 4294967296) -> sorted_by key (lsd_sort xs).
Proof.
  intros Hrange.
  assert (H0 : sorted_by (low 0) xs).
  { unfold sorted_by, low. simpl. clear. induction xs as [|x xs IH]; constructor; [done|].
    apply Forall_forall. intros y _. rewrite !Z.mod_1_r. done. }
  apply (pass_spec_sorted 0) in H0; [|lia].
  apply (pass_spec_sorted 1) in H0; [|lia].
  apply (pass_spec_sorted 2) in H0; [|lia].
  apply (pass_spec_sorted 3) in H0; [|lia].
  simpl in H0. fold (lsd_sort xs) in H0.
  eapply StronglySorted_weaken; [|exact H0].
  intros x y Hx Hy Hle. simpl in Hle. unfold low in Hle. simpl in Hle.
  rewrite <- lsd_sort_perm in Hx, Hy.
  rewrite !Z.mod_small in Hle by (by apply Hrange). done.
Qed.

(** Two sorted lists with the same elements per key, in the same order,
    are equal. *)
Lemma sorted_stable_unique (l l' : list T) :
  sorted_by key l -> sorted_by key l' ->
  (forall k, filter (fun x => key x = k) l = filter (fun x => key x = k) l') ->
  l = l'.
Proof.
  intros Hl. revert l'. induction Hl as [|x l Hl IH Hall]; intros l' Hl' Hf.
  - destruct l' as [|y l']; [done|]. specialize (Hf (key y)).
    rewrite filter_nil, filter_cons_True in Hf by done. done.
  - destruct Hl' as [|y l' Hl' Hall'].
    + specialize (Hf (key x)). rewrite filter_nil, filter_cons_True in Hf by done. done.
    + assert (Hxy : key x = key y).
      { pose proof (Hf (key x)) as Hx. pose proof (Hf (key y)) as Hy.
        rewrite filter_cons_True in Hx by done.
        rewrite (filter_cons_True _ y l') in Hy by done.
        assert (x ∈ filter (fun z => key z = key x) (y :: l')) as Hx' by (rewrite <- Hx; by left).
        assert (y ∈ filter (fun z => key z = key y) (x :: l)) as Hy' by (rewrite Hy; by left).
        apply list_elem_of_filter in Hx' as [_ Hx'], Hy' as [_ Hy'].
        rewrite Forall_forall in Hall, Hall'.
        apply elem_of_cons in Hx' as [->|Hx']; [done|].
        apply elem_of_cons in Hy' as [->|Hy']; [done|].
        apply Hall' in Hx'. apply Hall in Hy'. lia. }
      pose proof (Hf (key x)) as Hx.
      rewrite filter_cons_True, filter_cons_True in Hx by done.
      injection Hx as -> Hx. f_equal. apply IH; [done|].
      intros k. destruct (decide (key y = k)) as [<-|Hne]; [done|].
      specialize (Hf k). by rewrite !filter_cons_False in Hf.
Qed.

Lemma lsd_sort_sorted_id xs :
  (forall x, x ∈ xs -> 0 <= key x < 4294967296) ->
  sorted_by key xs -> lsd_sort xs = xs.
Proof.
  intros Hr Hs. apply sorted_stable_unique; [by apply lsd_sort_sorted|done|].
  intros k. apply lsd_sort_stable.
Qed.

(** The macro computes [lsd_sort] on the first [count] elements. *)
Lemma RADIX_SORT_IMPL_spec (a b : list T) (count : Z) :
  (Z.to_nat count <= length a)%nat -> (Z.to_nat count <= length b)%nat ->
  count < 2147483648 ->
  let n := Z.to_nat count in
  take n (RADIX_SORT_IMPL key a b count).1 = lsd_sort (take n a)
  /\ length (RADIX_SORT_IMPL key a b count).1 = length a
  /\ length (RADIX_SORT_IMPL key a b count).2 = length b.
Proof.
  intros Ha Hb Hc n. unfold RADIX_SORT_IMPL. fold n.
  assert (Hn : Z.of_nat n < 2147483648) by lia.
  assert (Hp : radix_passes key 4 0 n a b false =
               (radix_pass key 24 n (radix_pass key 16 n (radix_pass key 8 n
                  (radix_pass key 0 n a b) a) (radix_pass key 0 n a b))
                  (radix_pass key 8 n (radix_pass key 0 n a b) a),
                radix_pass key 16 n (radix_pass key 8 n (radix_pass key 0 n a b) a)
                  (radix_pass key 0 n a b), false)) by reflexivity.
  rewrite Hp. clear Hp.
  destruct (radix_pass_spec key 0 n a b) as [E1 L1]; [lia..|].
  set (b1 := radix_pass key 0 n a b) in *.
  destruct (radix_pass_spec key 8 n b1 a) as [E2 L2]; [lia..|].
  set (a2 := radix_pass key 8 n b1 a) in *.
  destruct (radix_pass_spec key 16 n a2 b1) as [E3 L3]; [lia..|].
  set (b3 := radix_pass key 16 n a2 b1) in *.
  destruct (radix_pass_spec key 24 n b3 a2) as [E4 L4]; [lia..|].
  set (a4 := radix_pass key 24 n b3 a2) in *.
  split; [|split].
  - change (take n a4 = lsd_sort (take n a)). unfold lsd_sort, pass_spec.
    by rewrite E4, E3, E2, E1.
  - change (length a4 = length a). lia.
  - change (length b3 = length b). lia.
Qed.

End LSD.

(** The first [count] elements of an array: the live lights. *)
Definition live {A : Type} (count : Z) (a : list A) : list A := take (Z.to_nat count) a.

(** What the claim asks of a sort: [after] is the stable sort of [before]. *)
Record stable_sort_of {A : Type} (key : A -> Z) (before after : list A) : Prop := {
  sort_perm : Permutation before after;
  sort_sorted : sorted_by key after;
  sort_stable : forall k, filter (fun x => key x = k) after = filter (fun x => key x = k) before;
  sort_fixes_sorted : sorted_by key before -> after = before
}.

Lemma stable_sort_of_short {A : Type} (key : A -> Z) (l : list A) :
  (length l <= 1)%nat -> stable_sort_of key l l.
Proof.
  intros Hl. split; try done.
  destruct l as [|x [|y l]]; simpl in Hl; [constructor| |lia].
  repeat constructor.
Qed.

(** The array of one kind after [sort], as [sort] computes it. *)
Definition sorted_array {A : Type} (key : A -> Z) (count : Z) (a scratch : list A) : list A :=
  if 1 <? count then (RADIX_SORT_IMPL key a scratch count).1 else a.

Lemma sorted_array_spec {A : Type} (key : A -> Z) (count : Z) (a scratch : list A) :
  (Z.to_nat count <= length a)%nat -> (Z.to_nat count <= length scratch)%nat ->
  count < 2147483648 ->
  (forall x, x ∈ live count a -> 0 <= key x < 4294967296) ->
  stable_sort_of key (live count a) (live count (sorted_array key count a scratch)).
Proof.
  intros Ha Hs Hc Hk. unfold sorted_array. destruct (Z.ltb_spec 1 count) as [H1|H1].
  - destruct (RADIX_SORT_IMPL_spec key a scratch count Ha Hs Hc) as (E & _ & _).
    unfold live. rewrite E. split.
    + apply (lsd_sort_perm key).
    + by apply (lsd_sort_sorted key).
    + intros k. apply (lsd_sort_stable key).
    + by apply (lsd_sort_sorted_id key).
  - apply stable_sort_of_short. unfold live. rewrite length_take. lia.
Qed.

(** The arrays have room for the live lights, the counts are C [int]s and
    the keys are [uint32_t]s. *)
Record sortable (s : Store.t) : Prop := {
  sortable_points : (Z.to_nat (Store.pointLightCount s) <= length (Store.pointLights s))%nat;
  sortable_points_scratch :
    (Z.to_nat (Store.pointLightCount s) <= length (Store.pointLightsScratch s))%nat;
  sortable_spots : (Z.to_nat (Store.spotLightCount s) <= length (Store.spotLights s))%nat;
  sortable_spots_scratch :
    (Z.to_nat (Store.spotLightCount s) <= length (Store.spotLightsScratch s))%nat;
  sortable_rects : (Z.to_nat (Store.rectLightCount s) <= length (Store.rectLights s))%nat;
  sortable_rects_scratch :
    (Z.to_nat (Store.rectLightCount s) <= length (Store.rectLightsScratch s))%nat;
  sortable_point_int : Store.pointLightCount s < 2147483648;
  sortable_spot_int : Store.spotLightCount s < 2147483648;
  sortable_rect_int : Store.rectLightCount s < 2147483648;
  sortable_point_keys :
    forall l, l ∈ live (Store.pointLightCount s) (Store.pointLights s) ->
      0 <= PointLight.morton l < 4294967296;
  sortable_spot_keys :
    forall l, l ∈ live (Store.spotLightCount s) (Store.spotLights s) ->
      0 <= SpotLight.morton l < 4294967296;
  sortable_rect_keys :
    forall l, l ∈ live (Store.rectLightCount s) (Store.rectLights s) ->
      0 <= RectLight.morton l < 4294967296
}.

Lemma radixSortPointLights_eq s n :
  radixSortPointLights s n =
  Store.set_points
    (RADIX_SORT_IMPL PointLight.morton (Store.pointLights s) (Store.pointLightsScratch s) n).1
    (RADIX_SORT_IMPL PointLight.morton (Store.pointLights s) (Store.pointLightsScratch s) n).2
    (Store.pointLightTexture s) s.
Proof. unfold radixSortPointLights. by destruct (RADIX_SORT_IMPL _ _ _ _). Qed.

Lemma radixSortSpotLights_eq s n :
  radixSortSpotLights s n =
  Store.set_spots
    (RADIX_SORT_IMPL SpotLight.morton (Store.spotLights s) (Store.spotLightsScratch s) n).1
    (RADIX_SORT_IMPL SpotLight.morton (Store.spotLights s) (Store.spotLightsScratch s) n).2
    (Store.spotLightTexture s) s.
Proof. unfold radixSortSpotLights. by destruct (RADIX_SORT_IMPL _ _ _ _). Qed.

Lemma radixSortRectLights_eq s n :
  radixSortRectLights s n =
  Store.set_rects
    (RADIX_SORT_IMPL RectLight.morton (Store.rectLights s) (Store.rectLightsScratch s) n).1
    (RADIX_SORT_IMPL RectLight.morton (Store.rectLights s) (Store.rectLightsScratch s) n).2
    (Store.rectLightTexture s) s.
Proof. unfold radixSortRectLights. by destruct (RADIX_SORT_IMPL _ _ _ _). Qed.

Lemma sort_arrays (s : Store.t) :
  Store.needsSort s <> 0 ->
  Store.pointLights (sort s)
    = sorted_array PointLight.morton (Store.pointLightCount s) (Store.pointLights s)
        (Store.pointLightsScratch s)
  /\ Store.spotLights (sort s)
    = sorted_array SpotLight.morton (Store.spotLightCount s) (Store.spotLights s)
        (Store.spotLightsScratch s)
  /\ Store.rectLights (sort s)
    = sorted_array RectLight.morton (Store.rectLightCount s) (Store.rectLights s)
        (Store.rectLightsScratch s)
  /\ Store.pointLightCount (sort s) = Store.pointLightCount s
  /\ Store.spotLightCount (sort s) = Store.spotLightCount s
  /\ Store.rectLightCount (sort s) = Store.rectLightCount s
  /\ Store.needsSort (sort s) = 0.
Proof.
  intros Hn. unfold sort, truthy, sorted_array.
  destruct (Store.needsSort s =? 0) eqn:E; [apply Z.eqb_eq in E; done|]. simpl.
  destruct (1 <? Store.pointLightCount s);
    rewrite ?radixSortPointLights_eq; cbn;
    (destruct (1 <? Store.spotLightCount s);
     rewrite ?radixSortSpotLights_eq; cbn;
     (destruct (1 <? Store.rectLightCount s);
      rewrite ?radixSortRectLights_eq; cbn; repeat split)).
Qed.

(** C1: when [needsSort] is set, [sort] leaves the live lights of each
    kind in non-decreasing order of their [morton] keys; the result is a
    permutation of the live lights it found; lights with equal keys keep
    their relative order; and live lights that were already in order are
    left as they were. *)
Theorem C1_sort_is_stable_radix_sort (s : Store.t) :
  Store.needsSort s <> 0 -> sortable s ->
  stable_sort_of PointLight.morton
    (live (Store.pointLightCount s) (Store.pointLights s))
    (live (Store.pointLightCount (sort s)) (Store.pointLights (sort s)))
  /\ stable_sort_of SpotLight.morton
    (live (Store.spotLightCount s) (Store.spotLights s))
    (live (Store.spotLightCount (sort s)) (Store.spotLights (sort s)))
  /\ stable_sort_of RectLight.morton
    (live (Store.rectLightCount s) (Store.rectLights s))
    (live (Store.rectLightCount (sort s)) (Store.rectLights (sort s))).
Proof.
  intros Hn Hs. destruct (sort_arrays s Hn) as (-> & -> & -> & -> & -> & -> & _).
  destruct Hs. split_and!; by apply sorted_array_spec.
Qed.


(* ------------------------------------------------------------------ *)
(** ** Binary32 facts *)
(* ------------------------------------------------------------------ *)

Lemma enc_dec (b : f32) :
  0 <= b < 4294967296 -> F32.is_nan b = false -> F32.enc (F32.dec b) = b.
Proof.
  intros Hb Hnan. unfold F32.is_nan in Hnan. revert Hnan. unfold F32.dec, F32.enc.
  pose proof (Z.div_mod b 8388608 ltac:(lia)) as Hdm.
  pose proof (Z.mod_pos_bound b 8388608 ltac:(lia)) as Hm.
  assert (Hq : 0 <= b / 8388608 < 512).
  { split; [apply Z.div_pos; lia|]. apply Z.div_lt_upper_bound; lia. }
  pose proof (Z.div_mod (b / 8388608) 256 ltac:(lia)) as Hdm2.
  pose proof (Z.mod_pos_bound (b / 8388608) 256 ltac:(lia)) as Hm2.
  assert (Hq2 : 0 <= b / 8388608 / 256 < 2).
  { split; [apply Z.div_pos; lia|]. apply Z.div_lt_upper_bound; lia. }
  set (q := b / 8388608) in *. set (m := b mod 8388608) in *.
  set (e := q mod 256) in *. set (h := q / 256) in *.
  assert (Hs : F32.sign_bit (2147483648 <=? b) = h * 2147483648).
  { unfold F32.sign_bit. destruct (Z.leb_spec 2147483648 b); lia. }
  destruct (Z.eqb_spec e 0) as [He0|He0].
  - destruct m as [|p|p] eqn:Em; intros _; try lia.
    destruct (Z.ltb_spec (Z.pos p) 8388608); [|lia].
    rewrite Z.mod_small; lia.
  - destruct (Z.eqb_spec e 255) as [He1|He1].
    + destruct (Z.eqb_spec m 0); [intros _; lia|done].
    + destruct (m + 8388608) as [|p|p] eqn:Em; intros _; try lia.
      destruct (Z.ltb_spec (Z.pos p) 8388608); [lia|].
      rewrite Z.mod_small; lia.
Qed.

Lemma enc_range (x : spec_float) : 0 <= F32.enc x < 4294967296.
Proof.
  destruct x as [s|s| |s m e]; simpl; try (destruct s; simpl; lia); [lia|].
  apply Z.mod_pos_bound. lia.
Qed.

(** Decoded values are canonical binary32 numbers. *)
Lemma digits2_pos_bounds (p : positive) :
  2 ^ (Z.pos (digits2_pos p) - 1) <= Z.pos p < 2 ^ Z.pos (digits2_pos p).
Proof.
  induction p as [p IH|p IH|]; simpl digits2_pos.
  - rewrite Pos2Z.inj_succ. replace (Z.succ (Z.pos (digits2_pos p)) - 1) with (Z.pos (digits2_pos p)) by lia.
    rewrite Z.pow_succ_r by lia.
    replace (Z.pos (digits2_pos p)) with ((Z.pos (digits2_pos p) - 1) + 1) at 1 by lia.
    rewrite Z.pow_add_r by lia. lia.
  - rewrite Pos2Z.inj_succ. replace (Z.succ (Z.pos (digits2_pos p)) - 1) with (Z.pos (digits2_pos p)) by lia.
    rewrite Z.pow_succ_r by lia.
    replace (Z.pos (digits2_pos p)) with ((Z.pos (digits2_pos p) - 1) + 1) at 1 by lia.
    rewrite Z.pow_add_r by lia. lia.
  - simpl. lia.
Qed.

Lemma digits2_pos_unique (p : positive) (n : Z) :
  2 ^ (n - 1) <= Z.pos p < 2 ^ n -> Z.pos (digits2_pos p) = n.
Proof.
  intros [Hlo Hhi]. pose proof (digits2_pos_bounds p) as [Hlo' Hhi'].
  assert (0 < n).
  { destruct (Z.ltb_spec 0 n); [done|]. 
    assert (2 ^ n <= 2 ^ 0) by (destruct (Z.ltb_spec n 0); [rewrite Z.pow_neg_r by lia; lia|apply Z.pow_le_mono_r; lia]).
    simpl in *. lia. }
  destruct (Z.lt_trichotomy (Z.pos (digits2_pos p)) n) as [Hlt|[Heq|Hgt]]; [|done|].
  - assert (2 ^ Z.pos (digits2_pos p) <= 2 ^ (n - 1)) by (apply Z.pow_le_mono_r; lia). lia.
  - assert (2 ^ n <= 2 ^ (Z.pos (digits2_pos p) - 1)) by (apply Z.pow_le_mono_r; lia). lia.
Qed.

Lemma dec_bounded (b : f32) s m e :
  0 <= b < 4294967296 ->
  F32.dec b = S754_finite s m e -> bounded F32.prec F32.emax m e = true.
Proof.
  intros Hb. unfold F32.dec.
  pose proof (Z.mod_pos_bound b 8388608 ltac:(lia)) as Hm.
  pose proof (Z.mod_pos_bound (b / 8388608) 256 ltac:(lia)) as Hm2.
  set (mm := b mod 8388608) in *. set (ee := (b / 8388608) mod 256) in *.
  unfold bounded, canonical_mantissa, fexp, emin, F32.prec, F32.emax.
  destruct (Z.eqb_spec ee 0) as [He0|He0].
  - destruct mm as [|p|p] eqn:Em; intros [= <- <- <-]. 
    pose proof (digits2_pos_bounds p) as [Hlo Hhi].
    assert (Z.pos (digits2_pos p) <= 23).
    { destruct (Z.leb_spec (Z.pos (digits2_pos p)) 23); [done|].
      assert (2 ^ 23 <= 2 ^ (Z.pos (digits2_pos p) - 1)) by (apply Z.pow_le_mono_r; lia).
      change (2 ^ 23) with 8388608 in *. lia. }
    apply andb_true_intro. split; [apply Z.eqb_eq|apply Z.leb_le]; lia.
  - destruct (Z.eqb_spec ee 255) as [He1|He1].
    + destruct (mm =? 0); done.
    + destruct (mm + 8388608) as [|p|p] eqn:Em; intros [= <- <- <-].
      rewrite (digits2_pos_unique p 24) by (change (2 ^ (24 - 1)) with 8388608; change (2 ^ 24) with 16777216; lia).
      apply andb_true_intro. split; [apply Z.eqb_eq|apply Z.leb_le]; lia.
Qed.

Definition sf_one : spec_float := S754_finite false 8388608 (-23).

Lemma dec_one : F32.dec F32.one = sf_one.
Proof. reflexivity. Qed.

Lemma dec_zero : F32.dec F32.zero = S754_zero false.
Proof. reflexivity. Qed.

Lemma SFcompare_refl (x : spec_float) : x <> S754_nan -> SFcompare x x = Some Eq.
Proof.
  destruct x as [s|s| |s m e]; intros Hx; simpl; try done.
  - by destruct s.
  - rewrite Z.compare_refl, Pos.compare_cont_refl. by destruct s.
Qed.

Lemma SFltb_irrefl (x : spec_float) : SFltb x x = false.
Proof.
  unfold SFltb. destruct x as [s|s| |s m e]; try done; by rewrite SFcompare_refl.
Qed.

Lemma SFsub_diag (x : spec_float) :
  match x with S754_zero _ | S754_finite _ _ _ => True | _ => False end ->
  SFsub F32.prec F32.emax x x = S754_zero false.
Proof.
  destruct x as [s|s| |s m e]; intros Hx; try done.
  - by destruct s.
  - unfold SFsub. rewrite Z.sub_diag. reflexivity.
Qed.

Lemma SFdiv_diag s m e :
  SFdiv F32.prec F32.emax (S754_finite s m e) (S754_finite s m e) = sf_one.
Proof.
  unfold SFdiv, SFdiv_core_binary.
  replace (Zdigits2 (Z.pos m) + e - (Zdigits2 (Z.pos m) + e)) with 0 by lia.
  rewrite Z.sub_diag. change (Z.min (fexp F32.prec F32.emax 0) 0) with (-24).
  change (0 - -24) with 24. cbv iota.
  rewrite Z.shiftl_mul_pow2 by lia. change (2 ^ 24) with 16777216.
  assert (Hd : Z.div_eucl (Z.pos m * 16777216) (Z.pos m) = (16777216, 0)).
  { pose proof (Z.div_eucl_eq (Z.pos m * 16777216) (Z.pos m) ltac:(lia)) as Heq.
    pose proof (Z.mod_pos_bound (Z.pos m * 16777216) (Z.pos m) ltac:(lia)) as Hr.
    unfold Z.modulo in Hr. destruct (Z.div_eucl _ _) as [q r].
    assert (q = 16777216) by nia. subst q. f_equal. lia. }
  rewrite Hd. rewrite xorb_nilpotent.
  assert (Hl : new_location (Z.pos m) 0 = loc_Exact).
  { unfold new_location, new_location_even, new_location_odd. by destruct (Z.even _). }
  rewrite Hl. reflexivity.
Qed.

Lemma mul_2p23 (p : positive) : (8388608 * p = p~0~0~0~0~0~0~0~0~0~0~0~0~0~0~0~0~0~0~0~0~0~0~0)%positive.
Proof. reflexivity. Qed.

Lemma iter_pos_shr_1_zeros (p : positive) :
  SpecFloat.iter_pos shr_1 23 (Build_shr_record (Z.pos (8388608 * p)) false false)
  = Build_shr_record (Z.pos p) false false.
Proof. rewrite mul_2p23. reflexivity. Qed.

Lemma digits2_pos_shift23 (p : positive) :
  Z.pos (digits2_pos (8388608 * p)) = Z.pos (digits2_pos p) + 23.
Proof. rewrite mul_2p23. simpl digits2_pos. lia. Qed.

Lemma SFmul_one_r s m e :
  bounded F32.prec F32.emax m e = true ->
  SFmul F32.prec F32.emax (S754_finite s m e) sf_one = S754_finite s m e.
Proof.
  intros Hb. unfold bounded, canonical_mantissa in Hb.
  apply andb_prop in Hb as [Hc He]. apply Z.eqb_eq in Hc. apply Z.leb_le in He.
  unfold SFmul, sf_one. rewrite xorb_false_r, Pos.mul_comm.
  unfold binary_round_aux, shr_fexp.
  cbn [Zdigits2]. rewrite digits2_pos_shift23.
  replace (Z.pos (digits2_pos m) + 23 + (e + -23)) with (Z.pos (digits2_pos m) + e) by lia.
  rewrite Hc. replace (e - (e + -23)) with 23 by lia.
  cbn [shr_record_of_loc shr]. rewrite iter_pos_shr_1_zeros.
  cbn [shr_m loc_of_shr_record round_nearest_even Zdigits2].
  replace (e + -23 + 23) with e by lia. rewrite Hc, Z.sub_diag.
  cbn [shr shr_m shr_record_of_loc]. 
  destruct (Z.leb_spec e (F32.emax - F32.prec)); [done|lia].
Qed.

(** Finite values, written on the decoded float. *)
Definition sf_finite (x : spec_float) : Prop :=
  match x with S754_zero _ | S754_finite _ _ _ => True | _ => False end.

Lemma is_finite_dec (a : f32) : F32.is_finite a = true -> sf_finite (F32.dec a).
Proof. unfold F32.is_finite, sf_finite. by destruct (F32.dec a). Qed.

Lemma is_finite_not_nan (a : f32) : F32.is_finite a = true -> F32.is_nan a = false.
Proof. unfold F32.is_finite, F32.is_nan. by destruct (F32.dec a). Qed.

Lemma f32_sub_diag (a : f32) : F32.is_finite a = true -> a ⊖ a = F32.zero.
Proof.
  intros Ha. unfold F32.sub. rewrite SFsub_diag by (by apply is_finite_dec). reflexivity.
Qed.

Lemma f32_ge_refl (a : f32) : F32.is_finite a = true -> F32.ge a a = true.
Proof.
  intros Ha. unfold F32.ge, SFleb. rewrite SFcompare_refl; [done|].
  apply is_finite_dec in Ha. by destruct (F32.dec a).
Qed.

Lemma f32_lt_irrefl (a : f32) : F32.lt a a = false.
Proof. apply SFltb_irrefl. Qed.

Lemma f32_gt_irrefl (a : f32) : F32.gt a a = false.
Proof. apply SFltb_irrefl. Qed.

(** A positive value decodes to a positive finite number or to +infinity. *)
Lemma f32_gt_zero_dec (a : f32) :
  F32.gt a F32.zero = true ->
  (exists m e, F32.dec a = S754_finite false m e) \/ F32.dec a = S754_infinity false.
Proof.
  unfold F32.gt, SFltb. rewrite dec_zero.
  destruct (F32.dec a) as [s|[]| |[] m e]; simpl; try done; eauto.
Qed.

Lemma f32_zero_div_pos (a : f32) : F32.gt a F32.zero = true -> F32.zero ⊘ a = F32.zero.
Proof.
  intros Ha. unfold F32.div. rewrite dec_zero.
  destruct (f32_gt_zero_dec a Ha) as [(m & e & ->)| ->]; reflexivity.
Qed.

Lemma f32_div_diag (a : f32) :
  F32.is_finite a = true -> F32.gt a F32.zero = true -> a ⊘ a = F32.one.
Proof.
  intros Hf Ha. unfold F32.div.
  destruct (f32_gt_zero_dec a Ha) as [(m & e & E)|E].
  - rewrite E, SFdiv_diag. reflexivity.
  - unfold F32.is_finite in Hf. by rewrite E in Hf.
Qed.

Lemma f32_sub_zero_r (a : f32) :
  0 <= a < 4294967296 -> F32.is_finite a = true -> a ⊖ F32.zero = a.
Proof.
  intros Hr Ha. unfold F32.sub. rewrite dec_zero.
  rewrite <- (enc_dec a Hr (is_finite_not_nan a Ha)) at 2. f_equal.
  apply is_finite_dec in Ha. by destruct (F32.dec a) as [[]|[]| |s m e].
Qed.

Lemma dec_sign_bit (s : bool) : F32.dec (F32.sign_bit s) = S754_zero s.
Proof. by destruct s. Qed.

(** [0 + d * 0 = +0] for a finite [d]. *)
Lemma f32_mul_zero_r_add (a : f32) :
  F32.is_finite a = true -> F32.zero ⊕ a ⊗ F32.zero = F32.zero.
Proof.
  intros Ha. apply is_finite_dec in Ha. unfold F32.add, F32.mul. rewrite dec_zero.
  destruct (F32.dec a) as [s|s| |s m e]; try done; simpl SFmul; unfold F32.enc at 2;
    rewrite dec_sign_bit; by destruct s.
Qed.

Lemma lerpf_zero (d : f32) :
  0 <= d < 4294967296 -> F32.is_finite d = true -> lerpf F32.zero d F32.zero = F32.zero.
Proof.
  intros Hr Hd. unfold lerpf. rewrite f32_sub_zero_r by done.
  by apply f32_mul_zero_r_add.
Qed.

Lemma f32_mul_one_r (a : f32) :
  0 <= a < 4294967296 -> F32.is_finite a = true -> a ⊗ F32.one = a.
Proof.
  intros Hr Ha. unfold F32.mul. rewrite dec_one.
  rewrite <- (enc_dec a Hr (is_finite_not_nan a Ha)) at 2. f_equal.
  apply is_finite_dec in Ha. destruct (F32.dec a) as [s|s| |s m e] eqn:E; try done.
  - simpl. by rewrite xorb_false_r.
  - apply SFmul_one_r. by apply (dec_bounded a s m e).
Qed.

Lemma f32_eq_refl (a : f32) : F32.is_finite a = true -> F32.eq a a = true.
Proof.
  intros Ha. unfold F32.eq, SFeqb. rewrite SFcompare_refl; [done|].
  apply is_finite_dec in Ha. by destruct (F32.dec a).
Qed.

(** [0 + d * 1 == d] for a finite [d]: the sum is [d] itself, or [+0] when
    [d] is [-0]. *)
Lemma lerpf_one (d : f32) :
  0 <= d < 4294967296 -> F32.is_finite d = true ->
  F32.eq (lerpf F32.zero d F32.one) d = true.
Proof.
  intros Hr Hd. unfold lerpf. rewrite f32_sub_zero_r, f32_mul_one_r by done.
  pose proof (is_finite_dec d Hd) as Hf.
  unfold F32.add, F32.eq, SFeqb. rewrite dec_zero.
  destruct (F32.dec d) as [s|s| |s m e] eqn:E; try done.
  - by destruct s.
  - simpl SFadd. rewrite <- E, enc_dec by (done || by apply is_finite_not_nan).
    rewrite SFcompare_refl; [done|]. by rewrite E.
Qed.

Lemma clampf_zero : clampf F32.zero F32.zero F32.one = F32.zero.
Proof. reflexivity. Qed.

Lemma clampf_one : clampf F32.one F32.zero F32.one = F32.one.
Proof. reflexivity. Qed.

Lemma f32_sub_range (a b : f32) : 0 <= a ⊖ b < 4294967296.
Proof. apply enc_range. Qed.

(* ------------------------------------------------------------------ *)
(** ** The animation functions in closed form *)
(* ------------------------------------------------------------------ *)

Section ClosedForm.
Context `{P : Platform}.

(** The offset after the circular, linear and wave blocks. *)
Definition off_circular (a : AnimationParams.t) (time : f32) (off : Vec4.t) : Vec4.t :=
  if has_flag (AnimationParams.flags a) ANIM_CIRCULAR then
    let c := AnimationParams.circular a in
    let phase := time ⊗ CircularParams.speed c in
    Vec4.set_z (cosf phase ⊗ CircularParams.radius c)
      (Vec4.set_x (sinf phase ⊗ CircularParams.radius c) off)
  else off.

Definition off_linear (a : AnimationParams.t) (base : Vec4.t) (time : f32)
    (off : Vec4.t) : Vec4.t :=
  if has_flag (AnimationParams.flags a) ANIM_LINEAR
  then linear_offset (AnimationParams.linear a) base time off
  else off.

Definition off_wave (a : AnimationParams.t) (time : f32) (off : Vec4.t) : Vec4.t :=
  if has_flag (AnimationParams.flags a) ANIM_WAVE then
    let wv := AnimationParams.wave a in
    let wave := sinf (time ⊗ WaveParams.speed wv ⊕ WaveParams.phase wv)
                ⊗ WaveParams.amplitude wv in
    Vec4.mk (Vec4.x off ⊕ Vec4.x (WaveParams.axis wv) ⊗ wave)
            (Vec4.y off ⊕ Vec4.y (WaveParams.axis wv) ⊗ wave)
            (Vec4.z off ⊕ Vec4.z (WaveParams.axis wv) ⊗ wave)
            (Vec4.w off)
  else off.

(** [base + off] with the radius [r] in [w]. *)
Definition placed (base off : Vec4.t) (r : f32) : Vec4.t :=
  Vec4.mk (Vec4.x base ⊕ Vec4.x off) (Vec4.y base ⊕ Vec4.y off)
          (Vec4.z base ⊕ Vec4.z off) r.

(** The radius after the pulse block. *)
Definition pulsed_radius (a : AnimationParams.t) (time : f32) (wp : Vec4.t) (r0 : f32)
    : Vec4.t :=
  if has_flag (AnimationParams.flags a) ANIM_PULSE
     && has_flag (PulseParams.target (AnimationParams.pulse a)) PULSE_RADIUS
  then Vec4.set_w (r0 ⊗ pulse_factor (AnimationParams.pulse a) time) wp
  else wp.

(** The colour of a point light after the flicker and pulse blocks: both
    scale the authored intensity [bw]. *)
Definition point_flickered (a : AnimationParams.t) (time : f32) (bw : f32) (c : Vec4.t)
    : Vec4.t :=
  if has_flag (AnimationParams.flags a) ANIM_FLICKER
  then Vec4.set_w (bw ⊗ flicker_factor (AnimationParams.flicker a) time) c
  else c.

Definition point_pulsed (a : AnimationParams.t) (time : f32) (bw : f32) (c : Vec4.t)
    : Vec4.t :=
  if has_flag (AnimationParams.flags a) ANIM_PULSE
     && has_flag (PulseParams.target (AnimationParams.pulse a)) PULSE_INTENSITY
  then Vec4.set_w (bw ⊗ pulse_factor (AnimationParams.pulse a) time) c
  else c.

(** The colour of a spot or rect light after the same blocks: both scale
    the current intensity. *)
Definition area_flickered (a : AnimationParams.t) (time : f32) (c : Vec4.t) : Vec4.t :=
  if has_flag (AnimationParams.flags a) ANIM_FLICKER
  then Vec4.set_w (Vec4.w c ⊗ flicker_factor (AnimationParams.flicker a) time) c
  else c.

Definition area_pulsed (a : AnimationParams.t) (time : f32) (c : Vec4.t) : Vec4.t :=
  if has_flag (AnimationParams.flags a) ANIM_PULSE
     && has_flag (PulseParams.target (AnimationParams.pulse a)) PULSE_INTENSITY
  then Vec4.set_w (Vec4.w c ⊗ pulse_factor (AnimationParams.pulse a) time) c
  else c.

Definition rotated (a : AnimationParams.t) (time : f32) (v : Vec4.t) : Vec4.t :=
  rotateAroundAxis v (RotationParams.axis (AnimationParams.rotation a))
    (rotation_angle (AnimationParams.rotation a) time).

Definition when_rotating (a : AnimationParams.t) (time : f32) (base cur : Vec4.t)
    : Vec4.t :=
  if has_flag (AnimationParams.flags a) ANIM_ROTATE then rotated a time base else cur.

Definition animated (a : AnimationParams.t) : bool :=
  negb (AnimationParams.flags a =? ANIM_NONE).

Definition point_offset (a : AnimationParams.t) (base : Vec4.t) (time : f32) : Vec4.t :=
  if animated a
  then off_wave a time (off_linear a base time (off_circular a time Vec4.zero))
  else Vec4.zero.

Definition point_worldPos (a : AnimationParams.t) (base : Vec4.t) (time : f32) : Vec4.t :=
  if animated a
  then pulsed_radius a time (placed base (point_offset a base time) (Vec4.w base))
         (Vec4.w base)
  else base.

Definition point_color (a : AnimationParams.t) (bc : Vec4.t) (time : f32) : Vec4.t :=
  if animated a
  then point_pulsed a time (Vec4.w bc) (point_flickered a time (Vec4.w bc) bc)
  else bc.

Lemma processPointLightAnimation_closed (l : PointLight.t) (time : f32) :
  processPointLightAnimation l time =
  let a := PointLight.anim l in
  let base := PointLight.baseWorldPos l in
  PointLight.set_color (point_color a (PointLight.baseColor l) time)
    (PointLight.set_worldPos (point_worldPos a base time)
       (PointLight.set_animOffset (point_offset a base time) l)).
Proof.
  destruct l as [base off wp col vp bcol a dcy mor dty vis lod cs si].
  unfold processPointLightAnimation, point_worldPos, point_color, point_offset, animated.
  cbn [PointLight.anim PointLight.baseWorldPos PointLight.baseColor].
  destruct (AnimationParams.flags a =? ANIM_NONE); [reflexivity|].
  cbn [negb].
  unfold point_pulse, pulsed_radius, point_pulsed.
  destruct (has_flag (AnimationParams.flags a) ANIM_PULSE); cbn [andb];
    [destruct (has_flag (PulseParams.target (AnimationParams.pulse a)) PULSE_INTENSITY);
     destruct (has_flag (PulseParams.target (AnimationParams.pulse a)) PULSE_RADIUS)|];
    unfold point_flicker, point_flickered;
    destruct (has_flag (AnimationParams.flags a) ANIM_FLICKER);
    unfold point_wave, off_wave;
    destruct (has_flag (AnimationParams.flags a) ANIM_WAVE);
    unfold point_linear, off_linear;
    destruct (has_flag (AnimationParams.flags a) ANIM_LINEAR);
    unfold point_circular, off_circular;
    destruct (has_flag (AnimationParams.flags a) ANIM_CIRCULAR);
    reflexivity.
Qed.

Definition area_offset (a : AnimationParams.t) (base : Vec4.t) (time : f32) : Vec4.t :=
  if animated a then off_linear a base time Vec4.zero else Vec4.zero.

Definition area_color (a : AnimationParams.t) (c : Vec4.t) (time : f32) : Vec4.t :=
  if animated a then area_pulsed a time (area_flickered a time c) else c.

Definition spot_worldPos (a : AnimationParams.t) (base : Vec4.t) (time : f32) : Vec4.t :=
  if animated a then
    let wp := placed base (area_offset a base time) (Vec4.w base) in
    pulsed_radius a time (when_rotating a time wp wp) (Vec4.w base)
  else base.

Definition spot_direction (a : AnimationParams.t) (baseDir : Vec4.t) (time : f32)
    : Vec4.t :=
  if animated a then when_rotating a time baseDir baseDir else baseDir.



Definition rect_worldPos (a : AnimationParams.t) (base : Vec4.t) (time : f32) : Vec4.t :=
  if animated a then placed base (area_offset a base time) (Vec4.w base) else base.

(** A basis vector of a rect light: rotated from its base when the
    rotation block runs, left as it is otherwise. *)
Definition rect_axis (a : AnimationParams.t) (time : f32) (base cur : Vec4.t) : Vec4.t :=
  if animated a then when_rotating a time base cur else cur.



End ClosedForm.

Ltac vec_norm :=
  cbn [Vec4.set_w Vec4.x Vec4.y Vec4.z Vec4.w Vec4.zero].

Ltac point_norm :=
  cbv [PointLight.baseWorldPos PointLight.animOffset PointLight.worldPos
       PointLight.color PointLight.viewPos PointLight.baseColor PointLight.anim
       PointLight.decay PointLight.morton PointLight.dirty PointLight.visible
       PointLight.lodLevel PointLight.castsShadow PointLight.shadowIntensity
       PointLight.set_baseWorldPos PointLight.set_animOffset PointLight.set_worldPos
       PointLight.set_color PointLight.set_viewPos PointLight.set_anim
       PointLight.set_morton PointLight.set_dirty PointLight.set_visible
       PointLight.set_lodLevel];
  vec_norm.

Ltac spot_norm :=
  cbv [SpotLight.baseWorldPos SpotLight.animOffset SpotLight.worldPos SpotLight.color
       SpotLight.direction SpotLight.viewPos SpotLight.viewDir SpotLight.baseDir
       SpotLight.anim SpotLight.decay SpotLight.angle SpotLight.penumbra
       SpotLight.morton SpotLight.dirty SpotLight.visible SpotLight.lodLevel
       SpotLight.castsShadow SpotLight.shadowIntensity
       SpotLight.set_baseWorldPos SpotLight.set_animOffset SpotLight.set_worldPos
       SpotLight.set_color SpotLight.set_direction SpotLight.set_viewPos
       SpotLight.set_viewDir SpotLight.set_morton SpotLight.set_dirty
       SpotLight.set_visible SpotLight.set_lodLevel];
  vec_norm.

Ltac rect_norm :=
  cbv [RectLight.baseWorldPos RectLight.animOffset RectLight.worldPos RectLight.color
       RectLight.size RectLight.normal RectLight.tangent RectLight.bitangent
       RectLight.viewPos RectLight.viewNormal RectLight.viewTangent
       RectLight.baseNormal RectLight.baseTangent RectLight.baseBitangent
       RectLight.anim RectLight.decay RectLight.morton RectLight.dirty
       RectLight.visible RectLight.lodLevel RectLight.castsShadow
       RectLight.shadowIntensity
       RectLight.set_baseWorldPos RectLight.set_animOffset RectLight.set_worldPos
       RectLight.set_color RectLight.set_normal RectLight.set_tangent
       RectLight.set_bitangent RectLight.set_viewPos RectLight.set_viewNormal
       RectLight.set_viewTangent RectLight.set_morton RectLight.set_dirty
       RectLight.set_visible RectLight.set_lodLevel];
  vec_norm.

Section ClosedArea.
Context `{Platform}.

Lemma processSpotLightAnimation_closed (l : SpotLight.t) (time : f32) :
  processSpotLightAnimation l time =
  let a := SpotLight.anim l in
  let base := SpotLight.baseWorldPos l in
  SpotLight.set_color (area_color a (SpotLight.color l) time)
    (SpotLight.set_direction (spot_direction a (SpotLight.baseDir l) time)
       (SpotLight.set_worldPos (spot_worldPos a base time)
          (SpotLight.set_animOffset (area_offset a base time) l))).
Proof.
  destruct l as [base off wp col dir vp vd bdir a dcy ang pen mor dty vis lod cs si].
  cbv beta zeta delta [processSpotLightAnimation].
  cbv [spot_worldPos spot_direction area_color area_offset animated pulsed_radius
       when_rotating rotated area_pulsed area_flickered off_linear placed].
  unfold spot_reset; spot_norm.
  destruct (AnimationParams.flags a =? ANIM_NONE); [reflexivity|].
  cbn [negb].
  unfold spot_linear; destruct (has_flag (AnimationParams.flags a) ANIM_LINEAR);
    spot_norm;
    unfold spot_apply_offset, apply_offset; spot_norm;
    unfold spot_rotate; destruct (has_flag (AnimationParams.flags a) ANIM_ROTATE);
    spot_norm;
    unfold spot_flicker; destruct (has_flag (AnimationParams.flags a) ANIM_FLICKER);
    spot_norm;
    unfold spot_pulse; destruct (has_flag (AnimationParams.flags a) ANIM_PULSE);
    cbn [andb]; spot_norm; try reflexivity;
    destruct (has_flag (PulseParams.target (AnimationParams.pulse a)) PULSE_INTENSITY);
    spot_norm;
    destruct (has_flag (PulseParams.target (AnimationParams.pulse a)) PULSE_RADIUS);
    spot_norm; reflexivity.
Qed.

Lemma processRectLightAnimation_closed (l : RectLight.t) (time : f32) :
  processRectLightAnimation l time =
  let a := RectLight.anim l in
  let base := RectLight.baseWorldPos l in
  RectLight.set_color (area_color a (RectLight.color l) time)
    (RectLight.set_bitangent
       (rect_axis a time (RectLight.baseBitangent l) (RectLight.bitangent l))
       (RectLight.set_tangent
          (rect_axis a time (RectLight.baseTangent l) (RectLight.tangent l))
          (RectLight.set_normal
             (rect_axis a time (RectLight.baseNormal l) (RectLight.baseNormal l))
             (RectLight.set_worldPos (rect_worldPos a base time)
                (RectLight.set_animOffset (area_offset a base time) l))))).
Proof.
  destruct l as [base off wp col sz nor tan bit vp vn vt bnor btan bbit a dcy mor dty vis
                   lod cs si].
  cbv beta zeta delta [processRectLightAnimation].
  cbv [rect_worldPos rect_axis area_color area_offset animated
       when_rotating rotated area_pulsed area_flickered off_linear placed].
  unfold rect_reset; rect_norm.
  destruct (AnimationParams.flags a =? ANIM_NONE); [reflexivity|].
  cbn [negb].
  unfold rect_linear; destruct (has_flag (AnimationParams.flags a) ANIM_LINEAR);
    rect_norm;
    unfold rect_apply_offset, apply_offset; rect_norm;
    unfold rect_rotate; destruct (has_flag (AnimationParams.flags a) ANIM_ROTATE);
    rect_norm;
    unfold rect_flicker; destruct (has_flag (AnimationParams.flags a) ANIM_FLICKER);
    rect_norm;
    unfold rect_pulse; destruct (has_flag (AnimationParams.flags a) ANIM_PULSE);
    cbn [andb]; rect_norm; try reflexivity;
    destruct (has_flag (PulseParams.target (AnimationParams.pulse a)) PULSE_INTENSITY);
    rect_norm; reflexivity.
Qed.

End ClosedArea.

(* ------------------------------------------------------------------ *)
(** ** C7: linear motion *)
(* ------------------------------------------------------------------ *)

(** What the C standard fixes about [fmodf] at the two arguments the
    linear motion meets at its end points. *)
Class FmodExact (P : Platform) : Prop := {
  fmodf_zero_one : fmodf F32.zero F32.one = F32.zero;
  fmodf_one_one : fmodf F32.one F32.one = F32.zero
}.

Section Linear.
Context `{P : Platform}.

Lemma has_flag_nonzero flags bit : has_flag flags bit = true -> (flags =? ANIM_NONE) = false.
Proof.
  unfold has_flag, ANIM_NONE. intros H. destruct (Z.eqb_spec flags 0) as [->|]; [|done].
  by rewrite Z.land_0_l in H.
Qed.

(** The displacement the linear motion interpolates towards. *)
Definition linear_delta (lin : LinearParams.t) (base : Vec4.t) : Vec4.t :=
  let tp := LinearParams.targetPos lin in
  Vec4.mk (Vec4.x tp ⊖ Vec4.x base) (Vec4.y tp ⊖ Vec4.y base)
          (Vec4.z tp ⊖ Vec4.z base) F32.zero.

Definition finite3 (v : Vec4.t) : Prop :=
  F32.is_finite (Vec4.x v) = true /\ F32.is_finite (Vec4.y v) = true
  /\ F32.is_finite (Vec4.z v) = true.

(** Equality of the three coordinates as C [==] reads it. *)
Definition eq3 (u v : Vec4.t) : Prop :=
  F32.eq (Vec4.x u) (Vec4.x v) = true /\ F32.eq (Vec4.y u) (Vec4.y v) = true
  /\ F32.eq (Vec4.z u) (Vec4.z v) = true.

Lemma linear_t_at_delay `{!FmodExact P} (lin : LinearParams.t) :
  F32.is_finite (LinearParams.delay lin) = true ->
  F32.gt (LinearParams.duration lin) F32.zero = true ->
  linear_t lin (LinearParams.delay lin) = F32.zero.
Proof.
  intros Hd Hdur. unfold linear_t.
  rewrite f32_sub_diag, f32_zero_div_pos by done.
  destruct (_ =? LINEAR_LOOP); [apply fmodf_zero_one|].
  destruct (_ =? LINEAR_PINGPONG); [|reflexivity].
  change (fptosi32 F32.zero) with 0. simpl. apply fmodf_zero_one.
Qed.

Lemma linear_t_at_end_once (lin : LinearParams.t) (time : f32) :
  LinearParams.mode lin = LINEAR_ONCE ->
  F32.is_finite (LinearParams.duration lin) = true ->
  F32.gt (LinearParams.duration lin) F32.zero = true ->
  time ⊖ LinearParams.delay lin = LinearParams.duration lin ->
  linear_t lin time = F32.one.
Proof.
  intros Hm Hf Hdur Ht. unfold linear_t. rewrite Hm, Ht, f32_div_diag by done.
  reflexivity.
Qed.

Lemma linear_t_at_end_loop `{!FmodExact P} (lin : LinearParams.t) (time : f32) :
  LinearParams.mode lin = LINEAR_LOOP ->
  F32.is_finite (LinearParams.duration lin) = true ->
  F32.gt (LinearParams.duration lin) F32.zero = true ->
  time ⊖ LinearParams.delay lin = LinearParams.duration lin ->
  linear_t lin time = F32.zero.
Proof.
  intros Hm Hf Hdur Ht. unfold linear_t. rewrite Hm, Ht, f32_div_diag by done.
  simpl. apply fmodf_one_one.
Qed.

Lemma linear_offset_t_zero lin base time off :
  F32.ge time (LinearParams.delay lin) = true ->
  finite3 (linear_delta lin base) ->
  linear_t lin time = F32.zero ->
  linear_offset lin base time off = Vec4.mk F32.zero F32.zero F32.zero (Vec4.w off).
Proof.
  intros Hge (Hx & Hy & Hz) Ht. unfold linear_offset. rewrite Hge, Ht.
  simpl in Hx, Hy, Hz.
  by rewrite !lerpf_zero by (done || apply f32_sub_range).
Qed.

Lemma linear_offset_t_one lin base time off :
  F32.ge time (LinearParams.delay lin) = true ->
  finite3 (linear_delta lin base) ->
  linear_t lin time = F32.one ->
  eq3 (linear_offset lin base time off) (linear_delta lin base)
  /\ Vec4.w (linear_offset lin base time off) = Vec4.w off.
Proof.
  intros Hge (Hx & Hy & Hz) Ht. unfold linear_offset. rewrite Hge, Ht.
  simpl in Hx, Hy, Hz. split; [|done].
  repeat split; simpl; apply lerpf_one; done || apply f32_sub_range.
Qed.

(** The offset each animation function leaves, when the linear block runs
    and (for point lights) no wave is added on top. *)
Lemma point_animOffset_linear (l : PointLight.t) (time : f32) :
  let a := PointLight.anim l in
  has_flag (AnimationParams.flags a) ANIM_LINEAR = true ->
  has_flag (AnimationParams.flags a) ANIM_WAVE = false ->
  exists off, Vec4.w off = F32.zero /\
    PointLight.animOffset (processPointLightAnimation l time)
    = linear_offset (AnimationParams.linear a) (PointLight.baseWorldPos l) time off.
Proof.
  intros a Hl Hw. rewrite processPointLightAnimation_closed. fold a.
  destruct l; cbn [PointLight.animOffset PointLight.set_color PointLight.set_worldPos
                   PointLight.set_animOffset PointLight.baseWorldPos].
  unfold point_offset, animated, off_wave, off_linear.
  rewrite (has_flag_nonzero _ _ Hl), Hl, Hw. cbn [negb].
  eexists; split; [|reflexivity].
  unfold off_circular. by destruct (has_flag _ ANIM_CIRCULAR).
Qed.

Lemma spot_animOffset_linear (l : SpotLight.t) (time : f32) :
  let a := SpotLight.anim l in
  has_flag (AnimationParams.flags a) ANIM_LINEAR = true ->
  SpotLight.animOffset (processSpotLightAnimation l time)
  = linear_offset (AnimationParams.linear a) (SpotLight.baseWorldPos l) time Vec4.zero.
Proof.
  intros a Hl. rewrite processSpotLightAnimation_closed. fold a.
  destruct l; cbn [SpotLight.animOffset SpotLight.set_color SpotLight.set_worldPos
                   SpotLight.set_direction SpotLight.set_animOffset
                   SpotLight.baseWorldPos].
  unfold area_offset, animated, off_linear.
  by rewrite (has_flag_nonzero _ _ Hl), Hl.
Qed.

Lemma rect_animOffset_linear (l : RectLight.t) (time : f32) :
  let a := RectLight.anim l in
  has_flag (AnimationParams.flags a) ANIM_LINEAR = true ->
  RectLight.animOffset (processRectLightAnimation l time)
  = linear_offset (AnimationParams.linear a) (RectLight.baseWorldPos l) time Vec4.zero.
Proof.
  intros a Hl. rewrite processRectLightAnimation_closed. fold a.
  destruct l; cbn [RectLight.animOffset RectLight.set_color RectLight.set_worldPos
                   RectLight.set_normal RectLight.set_tangent RectLight.set_bitangent
                   RectLight.set_animOffset RectLight.baseWorldPos].
  unfold area_offset, animated, off_linear.
  by rewrite (has_flag_nonzero _ _ Hl), Hl.
Qed.

End Linear.

(** A linear descriptor the claim speaks about: finite delay, positive
    finite duration, and a displacement that does not overflow. *)
Record linear_ok (lin : LinearParams.t) (base : Vec4.t) : Prop := {
  linear_delay_finite : F32.is_finite (LinearParams.delay lin) = true;
  linear_duration_finite : F32.is_finite (LinearParams.duration lin) = true;
  linear_duration_pos : F32.gt (LinearParams.duration lin) F32.zero = true;
  linear_delta_finite : finite3 (linear_delta lin base)
}.

(** The three statements about an offset as a function of time: at the
    delay, and at the times from the delay on where the elapsed time the
    code computes, the binary32 difference [time - delay], is the
    duration.  The sum [delay + duration] is such a time when the
    subtraction gives the duration back, and not otherwise. *)
Definition linear_end_points (lin : LinearParams.t) (base : Vec4.t)
    (offset_at : f32 -> Vec4.t) : Prop :=
  offset_at (LinearParams.delay lin) = Vec4.zero
  /\ (LinearParams.mode lin = LINEAR_ONCE ->
      forall time, F32.ge time (LinearParams.delay lin) = true ->
        time ⊖ LinearParams.delay lin = LinearParams.duration lin ->
        eq3 (offset_at time) (linear_delta lin base))
  /\ (LinearParams.mode lin = LINEAR_LOOP ->
      forall time, F32.ge time (LinearParams.delay lin) = true ->
        time ⊖ LinearParams.delay lin = LinearParams.duration lin ->
        offset_at time = offset_at (LinearParams.delay lin)).

Lemma linear_offset_end_points `{P : Platform} `{!FmodExact P} lin base off :
  linear_ok lin base -> Vec4.w off = F32.zero ->
  (forall time, Vec4.w (linear_offset lin base time off) = F32.zero)
  /\ linear_end_points lin base (fun time => linear_offset lin base time off).
Proof.
  intros [Hd Hf Hp Hdelta] Hw. split.
  { intros time. unfold linear_offset. by destruct (F32.ge _ _). }
  assert (H0 : linear_offset lin base (LinearParams.delay lin) off = Vec4.zero).
  { rewrite linear_offset_t_zero; [by rewrite Hw|by apply f32_ge_refl|done|].
    by apply linear_t_at_delay. }
  split; [done|]. split.
  - intros Hm time Hge Ht.
    by apply linear_offset_t_one, linear_t_at_end_once.
  - intros Hm time Hge Ht. rewrite H0.
    rewrite linear_offset_t_zero; [by rewrite Hw|done..|].
    by apply linear_t_at_end_loop.
Qed.

Lemma linear_offset_loop_end `{P : Platform} `{!FmodExact P} lin base time off :
  linear_ok lin base -> Vec4.w off = F32.zero ->
  LinearParams.mode lin = LINEAR_LOOP ->
  F32.ge time (LinearParams.delay lin) = true ->
  time ⊖ LinearParams.delay lin = LinearParams.duration lin ->
  linear_offset lin base time off = Vec4.zero.
Proof.
  intros [Hd Hf Hp Hdelta] Hw Hm Hge Ht.
  rewrite linear_offset_t_zero; [by rewrite Hw|done..|].
  by apply linear_t_at_end_loop.
Qed.

(** C7 (as the code has it): on a platform whose [fmodf] is exact at
    (0, 1) and (1, 1), for a light of any kind with the linear motion on,
    a finite delay, a finite positive duration and a finite displacement
    [targetPos - baseWorldPos]: the animation offset at [time = delay] is
    zero; at every time from the delay on where the elapsed time the code
    computes, the binary32 difference [time - delay], is the duration,
    the offset equals the displacement in mode Once, and the offset at
    [time = delay] in mode Loop.  For a point light this is the offset
    when no wave is active; in general it is the offset the wave block
    then adds to. *)
Theorem C7_linear_end_points `{P : Platform} `{!FmodExact P} :
  (forall l : PointLight.t,
     has_flag (AnimationParams.flags (PointLight.anim l)) ANIM_LINEAR = true ->
     has_flag (AnimationParams.flags (PointLight.anim l)) ANIM_WAVE = false ->
     linear_ok (AnimationParams.linear (PointLight.anim l)) (PointLight.baseWorldPos l) ->
     linear_end_points (AnimationParams.linear (PointLight.anim l))
       (PointLight.baseWorldPos l)
       (fun time => PointLight.animOffset (processPointLightAnimation l time)))
  /\ (forall l : PointLight.t,
     has_flag (AnimationParams.flags (PointLight.anim l)) ANIM_LINEAR = true ->
     linear_ok (AnimationParams.linear (PointLight.anim l)) (PointLight.baseWorldPos l) ->
     exists linear_part : f32 -> Vec4.t,
       (forall time,
          PointLight.animOffset (processPointLightAnimation l time)
          = off_wave (PointLight.anim l) time (linear_part time))
       /\ linear_end_points (AnimationParams.linear (PointLight.anim l))
            (PointLight.baseWorldPos l) linear_part)
  /\ (forall l : SpotLight.t,
     has_flag (AnimationParams.flags (SpotLight.anim l)) ANIM_LINEAR = true ->
     linear_ok (AnimationParams.linear (SpotLight.anim l)) (SpotLight.baseWorldPos l) ->
     linear_end_points (AnimationParams.linear (SpotLight.anim l))
       (SpotLight.baseWorldPos l)
       (fun time => SpotLight.animOffset (processSpotLightAnimation l time)))
  /\ (forall l : RectLight.t,
     has_flag (AnimationParams.flags (RectLight.anim l)) ANIM_LINEAR = true ->
     linear_ok (AnimationParams.linear (RectLight.anim l)) (RectLight.baseWorldPos l) ->
     linear_end_points (AnimationParams.linear (RectLight.anim l))
       (RectLight.baseWorldPos l)
       (fun time => RectLight.animOffset (processRectLightAnimation l time))).
Proof.
  split_and!.
  - intros l Hl Hw Hok.
    set (lin := AnimationParams.linear (PointLight.anim l)) in *.
    assert (Hd0 : F32.ge (LinearParams.delay lin) (LinearParams.delay lin) = true)
      by (apply f32_ge_refl; by destruct Hok).
    unfold linear_end_points. split_and!.
    + destruct (point_animOffset_linear l (LinearParams.delay lin) Hl Hw) as (off & Hoff & ->).
      by apply linear_offset_end_points.
    + intros Hm time Hge Ht.
      destruct (point_animOffset_linear l time Hl Hw) as (off & Hoff & ->).
      by apply (linear_offset_end_points lin _ off).
    + intros Hm time Hge Ht.
      destruct (point_animOffset_linear l time Hl Hw) as (off & Hoff & ->).
      destruct (point_animOffset_linear l (LinearParams.delay lin) Hl Hw) as (off' & Hoff' & ->).
      destruct (linear_offset_end_points lin (PointLight.baseWorldPos l) off Hok Hoff)
        as (_ & E0 & _ & Hloop).
      destruct (linear_offset_end_points lin (PointLight.baseWorldPos l) off' Hok Hoff')
        as (_ & E0' & _).
      specialize (Hloop Hm time Hge Ht). fold lin. congruence.
  - intros l Hl Hok.
    exists (fun time =>
              linear_offset (AnimationParams.linear (PointLight.anim l))
                (PointLight.baseWorldPos l) time
                (off_circular (PointLight.anim l) time Vec4.zero)).
    split.
    + intros time. rewrite processPointLightAnimation_closed.
      destruct l; cbn [PointLight.animOffset PointLight.set_color PointLight.set_worldPos
                       PointLight.set_animOffset PointLight.baseWorldPos PointLight.anim]
        in *.
      unfold point_offset, animated, off_linear.
      by rewrite (has_flag_nonzero _ _ Hl), Hl.
    + set (lin := AnimationParams.linear (PointLight.anim l)) in *.
      set (base := PointLight.baseWorldPos l) in *.
      assert (Hw : forall time, Vec4.w (off_circular (PointLight.anim l) time Vec4.zero)
                                = F32.zero).
      { intros time. unfold off_circular. by destruct (has_flag _ ANIM_CIRCULAR). }
      assert (Hd0 : F32.ge (LinearParams.delay lin) (LinearParams.delay lin) = true)
        by (apply f32_ge_refl; by destruct Hok).
      unfold linear_end_points. split_and!.
      * by apply (linear_offset_end_points lin base _ Hok (Hw _)).
      * intros Hm time Hge Ht.
        by apply (linear_offset_end_points lin base _ Hok (Hw time)).
      * intros Hm time Hge Ht.
        destruct (linear_offset_end_points lin base _ Hok (Hw time)) as (_ & _ & _ & Hloop).
        destruct (linear_offset_end_points lin base _ Hok (Hw (LinearParams.delay lin)))
          as (_ & E0 & _).
        pose proof (linear_offset_loop_end lin base time
                      (off_circular (PointLight.anim l) time Vec4.zero) Hok (Hw time) Hm
                      Hge Ht) as E.
        cbv beta in *. congruence.
  - intros l Hl Hok. unfold linear_end_points.
    setoid_rewrite (spot_animOffset_linear l _ Hl).
    by apply linear_offset_end_points.
  - intros l Hl Hok. unfold linear_end_points.
    setoid_rewrite (rect_animOffset_linear l _ Hl).
    by apply linear_offset_end_points.
Qed.

(* ------------------------------------------------------------------ *)
(** ** Examples: a platform and stores *)
(* ------------------------------------------------------------------ *)

(** *** A platform for the examples *)

(** [fmodf] computed exactly: the remainder of the two magnitudes, with the
    sign of [x]. *)
Definition fmodf_exact (x y : f32) : f32 :=
  match F32.dec x, F32.dec y with
  | S754_nan, _ | _, S754_nan => F32.enc S754_nan
  | S754_infinity _, _ => F32.enc S754_nan
  | _, S754_zero _ => F32.enc S754_nan
  | S754_zero _, _ => x
  | S754_finite _ _ _, S754_infinity _ => x
  | S754_finite sx mx ex, S754_finite _ my ey =>
      let e := Z.min ex ey in
      let r := (Z.pos mx * 2 ^ (ex - e)) mod (Z.pos my * 2 ^ (ey - e)) in
      F32.enc (binary_normalize F32.prec F32.emax (if sx then - r else r) e sx)
  end.

(** [sinf] and [cosf] at the arguments the examples use, correctly
    rounded: sin(0) = 0, sin(1) = 0.84147096 (0x3F576AA4); cos(0) = 1,
    cos(1.7f) = -0.12884454 (0xBE03EFD3).  Elsewhere the table has no
    entry and answers NaN. *)
Definition sinf_table (x : f32) : f32 :=
  if x =? F32.zero then F32.zero
  else if x =? F32.one then 1062693540
  else F32.enc S754_nan.

Definition cosf_table (x : f32) : f32 :=
  if x =? F32.zero then F32.one
  else if x =? F32.c1_7 then 3187929043
  else F32.enc S754_nan.

Definition example_platform (simd : bool) : Platform :=
  {| sinf := sinf_table; cosf := cosf_table; fmodf := fmodf_exact;
     fptoint_oor := fun _ => 0; wasm_simd128 := simd |}.

Lemma example_platform_fmod simd : FmodExact (example_platform simd).
Proof. split; reflexivity. Defined.

(** *** Memory and stores for the examples *)

Definition zero_anim : AnimationParams.t :=
  AnimationParams.mk ANIM_NONE (CircularParams.mk 0 0)
    (LinearParams.mk Vec4.zero 0 0 0) (WaveParams.mk Vec4.zero 0 0 0)
    (FlickerParams.mk 0 0 0) (PulseParams.mk 0 0 0)
    (RotationParams.mk Vec4.zero 0 0 0).

Definition zero_point : PointLight.t :=
  PointLight.mk Vec4.zero Vec4.zero Vec4.zero Vec4.zero Vec4.zero Vec4.zero zero_anim
    0 0 0 0 0 0 0.

Definition zero_spot : SpotLight.t :=
  SpotLight.mk Vec4.zero Vec4.zero Vec4.zero Vec4.zero Vec4.zero Vec4.zero Vec4.zero
    Vec4.zero zero_anim 0 0 0 0 0 0 0 0 0.

Definition zero_rect : RectLight.t :=
  RectLight.mk Vec4.zero Vec4.zero Vec4.zero Vec4.zero Vec4.zero Vec4.zero Vec4.zero
    Vec4.zero Vec4.zero Vec4.zero Vec4.zero Vec4.zero Vec4.zero Vec4.zero zero_anim
    0 0 0 0 0 0 0.

Definition zero_point_record : PointLightDataOptimized.t :=
  PointLightDataOptimized.mk Vec4.zero Vec4.zero.
Definition zero_spot_record : SpotLightData.t :=
  SpotLightData.mk Vec4.zero Vec4.zero Vec4.zero Vec4.zero.
Definition zero_rect_record : RectLightData.t :=
  RectLightData.mk Vec4.zero Vec4.zero Vec4.zero Vec4.zero Vec4.zero.

(** The identity camera matrix, column-major. *)
Definition identity_matrix : list f32 :=
  [F32.one; 0; 0; 0;  0; F32.one; 0; 0;  0; 0; F32.one; 0;  0; 0; 0; F32.one].

(** Zeroed memory for [n] lights of each kind, with the camera matrix
    [m] as the host wrote it. *)
Definition zero_mem (m : list f32) (n : nat) : Store.t :=
  Store.mk (replicate n zero_point) (replicate n zero_spot) (replicate n zero_rect)
    (replicate n zero_point) (replicate n zero_spot) (replicate n zero_rect)
    (replicate n zero_point_record) (replicate n zero_spot_record)
    (replicate n zero_rect_record) m
    0 0 0 0 0 0 0 0 0
    (ViewMat.mk 0 0 0 0 0 0 0 0 0 0 0 0) F32.c0_1 F32.c100 F32.one.

(** A store of capacity [n]: near plane 0.1, far plane 100, LOD bias 1,
    identity camera. *)
Definition empty_store_under (m : list f32) (n : nat) : Store.t :=
  init (zero_mem m n) (Z.of_nat n).

Definition empty_store (n : nat) : Store.t := empty_store_under identity_matrix n.

(* ------------------------------------------------------------------ *)
(** ** The loops of update *)
(* ------------------------------------------------------------------ *)

Section ForLights.
Context {L D : Type} (flagsOf : L -> Z) (body : L -> L * D).

(** What a pass over the indices [lo .. lo+n-1] leaves: every light of the
    range replaced by the body's light, every record of the range by the
    body's record, and nothing else touched. *)
Record pass_of (lo n : nat) (ls : list L) (tex : list D)
    (ls' : list L) (tex' : list D) : Prop := {
  pass_length_lights : length ls' = length ls;
  pass_length_records : length tex' = length tex;
  pass_light_in : forall j l, (lo <= j < lo + n)%nat -> ls !! j = Some l ->
                  ls' !! j = Some (body l).1;
  pass_light_out : forall j, ~ (lo <= j < lo + n)%nat -> ls' !! j = ls !! j;
  pass_record_in : forall j l, (lo <= j < lo + n)%nat -> ls !! j = Some l ->
                   (j < length tex)%nat -> tex' !! j = Some (body l).2;
  pass_record_out : forall j, ~ (lo <= j < lo + n)%nat -> tex' !! j = tex !! j
}.

Lemma for_lights_seq n : forall lo ls tex an,
  exists ls' tex' an',
    fold_left (fun st i => light_step flagsOf body i st) (seq lo n) (ls, tex, an)
    = (ls', tex', an') /\ pass_of lo n ls tex ls' tex'.
Proof.
  induction n as [|n IH]; intros lo ls tex an.
  - exists ls, tex, an. split; [done|]. split; try done; intros; lia.
  - cbn [seq fold_left]. unfold light_step at 2.
    destruct (ls !! lo) as [l0|] eqn:E0.
    + destruct (body l0) as [l0' d0] eqn:Eb.
      destruct (IH (S lo) (<[lo:=l0']> ls) (<[lo:=d0]> tex)
                  (if flagsOf l0 =? ANIM_NONE then an else 1))
        as (ls' & tex' & an' & -> & [H1 H2 H3 H4 H5 H6]).
      exists ls', tex', an'. split; [done|].
      rewrite length_insert in H1. rewrite length_insert in H2.
      split; [done|done|..].
      * intros j l Hj Hl. destruct (decide (j = lo)) as [->|Hne].
        -- rewrite H4 by lia. rewrite list_lookup_insert_eq by (by eapply lookup_lt_Some).
           rewrite E0 in Hl. injection Hl as <-. by rewrite Eb.
        -- apply H3; [lia|]. by rewrite list_lookup_insert_ne.
      * intros j Hj. rewrite H4 by lia. by rewrite list_lookup_insert_ne by lia.
      * intros j l Hj Hl Hlt. destruct (decide (j = lo)) as [->|Hne].
        -- rewrite H6 by lia. rewrite list_lookup_insert_eq by done.
           rewrite E0 in Hl. injection Hl as <-. by rewrite Eb.
        -- apply H5; [lia| |by rewrite length_insert]. by rewrite list_lookup_insert_ne.
      * intros j Hj. rewrite H6 by lia. by rewrite list_lookup_insert_ne by lia.
    + destruct (IH (S lo) ls tex an) as (ls' & tex' & an' & -> & [H1 H2 H3 H4 H5 H6]).
      exists ls', tex', an'. split; [done|].
      split; [done|done|..].
      * intros j l Hj Hl. apply H3; [|done].
        destruct (decide (j = lo)) as [->|]; [congruence|lia].
      * intros j Hj. apply H4. lia.
      * intros j l Hj Hl. apply H5; [|done].
        destruct (decide (j = lo)) as [->|]; [congruence|lia].
      * intros j Hj. apply H6. lia.
Qed.

Lemma for_lights_pass lo hi ls tex an :
  exists ls' tex' an',
    for_lights flagsOf body lo hi (ls, tex, an) = (ls', tex', an')
    /\ pass_of lo (hi - lo) ls tex ls' tex'.
Proof. apply for_lights_seq. Qed.

End ForLights.

(** *** The batched point-light pass, lane by lane *)

Section Lanes.
Context `{P : Platform}.

Lemma calculateLOD_SIMD_lanes lodBias z0 r0 z1 r1 z2 r2 z3 r3 :
  calculateLOD_SIMD lodBias z0 r0 z1 r1 z2 r2 z3 r3
  = (calculateLOD lodBias z0 r0, calculateLOD lodBias z1 r1,
     calculateLOD lodBias z2 r2, calculateLOD lodBias z3 r3).
Proof.
  unfold calculateLOD_SIMD, calculateLOD.
  cbv [wasm_f32x4_make wasm_f32x4_splat wasm_f32x4_div wasm_f32x4_gt wasm_v128_bitselect
       wasm_f32x4_extract_lane V128.map2 V128.map3 V128.lane0 V128.lane1 V128.lane2
       V128.lane3 Z.eqb].
  f_equal; [f_equal; [f_equal|]|];
    repeat match goal with
    | |- context [F32.gt ?u ?v] => destruct (F32.gt u v)
    end; vm_compute; reflexivity.
Qed.

(** The view transform as a batch computes it: the four terms of a row
    are summed in pairs. *)
Definition worldToView_pairwise (e : ViewMat.t) (x y z r : f32) : Vec4.t :=
  Vec4.mk
    ((ViewMat.e0 e ⊗ x ⊕ ViewMat.e4 e ⊗ y) ⊕ (ViewMat.e8 e ⊗ z ⊕ ViewMat.e12 e))
    ((ViewMat.e1 e ⊗ x ⊕ ViewMat.e5 e ⊗ y) ⊕ (ViewMat.e9 e ⊗ z ⊕ ViewMat.e13 e))
    ((ViewMat.e2 e ⊗ x ⊕ ViewMat.e6 e ⊗ y) ⊕ (ViewMat.e10 e ⊗ z ⊕ ViewMat.e14 e))
    r.

(** The point-light pipeline after the animation step, over a view
    transform [xf]: transform, LOD, culling, packing. *)
Definition pointPipeline (xf : ViewMat.t -> f32 -> f32 -> f32 -> f32 -> Vec4.t)
    (env : Env.t) (l : PointLight.t) : PointLight.t * PointLightDataOptimized.t :=
  let wp := PointLight.worldPos l in
  let l := PointLight.set_viewPos
             (xf (Env.view env) (Vec4.x wp) (Vec4.y wp) (Vec4.z wp) (Vec4.w wp)) l in
  let l := PointLight.set_lodLevel
             (calculateLOD (Env.lodBias env) (Vec4.z (PointLight.viewPos l)) (Vec4.w wp)) l in
  let culled := culled_of (Env.viewNear env) (Env.viewFar env)
                  (Vec4.z (PointLight.viewPos l)) (Vec4.w wp) in
  (PointLight.set_dirty 0 l, packPoint l culled).

Lemma updatePointScalar_pipeline env time l :
  updatePointScalar env time l = pointPipeline worldToView env (animatePoint time l).
Proof. reflexivity. Qed.

(** One lane of a batch whose flags OR to [anyFlags]. *)
Definition updatePointLane (env : Env.t) (time : f32) (anyFlags : Z) (l : PointLight.t)
    : PointLight.t * PointLightDataOptimized.t :=
  pointPipeline worldToView_pairwise env (animateBatch anyFlags time l).

Definition batchFlags (l0 l1 l2 l3 : PointLight.t) : Z :=
  let fl (l : PointLight.t) := AnimationParams.flags (PointLight.anim l) in
  Z.lor (Z.lor (Z.lor (fl l0) (fl l1)) (fl l2)) (fl l3).

Lemma updatePointBatchSIMD_lanes env time l0 l1 l2 l3 :
  updatePointBatchSIMD env time l0 l1 l2 l3 =
  let lane := updatePointLane env time (batchFlags l0 l1 l2 l3) in
  (((lane l0).1, (lane l1).1, (lane l2).1, (lane l3).1),
   ((lane l0).2, (lane l1).2, (lane l2).2, (lane l3).2)).
Proof.
  unfold updatePointBatchSIMD. cbv zeta. rewrite calculateLOD_SIMD_lanes.
  reflexivity.
Qed.

End Lanes.

(** *** The batched loop *)

Lemma batch_base (i k : nat) : (i mod 4 = 0)%nat -> (k < 4)%nat -> (4 * ((i + k) / 4) = i)%nat.
Proof.
  intros Hi Hk. pose proof (Nat.div_mod_eq i 4) as E. rewrite Hi in E.
  set (q := (i / 4)%nat) in *. replace i with (q * 4)%nat at 1 by lia.
  rewrite Nat.div_add_l by lia. rewrite (Nat.div_small k 4) by lia. lia.
Qed.
Lemma batch_step (i : nat) : (i mod 4 = 0)%nat -> ((i + 4) mod 4 = 0)%nat.
Proof.
  intros Hi. replace (i + 4)%nat with (i + 1 * 4)%nat by lia.
  by rewrite Nat.Div0.mod_add.
Qed.
Lemma batch_rest (i j : nat) : (i mod 4 = 0)%nat -> (i <= j)%nat -> (i <= 4 * (j / 4))%nat.
Proof.
  intros Hi Hj. pose proof (Nat.div_mod_eq i 4) as E. rewrite Hi in E.
  assert (i / 4 <= j / 4)%nat by (apply Nat.Div0.div_le_mono; lia). lia.
Qed.
Lemma batch_before (i j : nat) : (i mod 4 = 0)%nat -> (j < i)%nat -> (4 * (j / 4) + 3 < i)%nat.
Proof.
  intros Hi Hj. pose proof (Nat.div_mod_eq i 4) as E. rewrite Hi in E.
  pose proof (Nat.div_mod_eq j 4) as Ej.
  pose proof (Nat.mod_upper_bound j 4 ltac:(lia)).
  assert (j / 4 < i / 4)%nat; [|lia].
  apply Nat.Div0.div_lt_upper_bound. lia.
Qed.


Section SimdLoop.
Context `{P : Platform}.
Variables (env : Env.t) (time : f32).

Definition flags_at (ls : list PointLight.t) (k : nat) : Z :=
  from_option (fun l => AnimationParams.flags (PointLight.anim l)) 0 (ls !! k).

Definition batch_flags_at (ls : list PointLight.t) (b : nat) : Z :=
  Z.lor (Z.lor (Z.lor (flags_at ls b) (flags_at ls (b + 1))) (flags_at ls (b + 2)))
        (flags_at ls (b + 3)).

(** Index [j] of [n] lights falls in a full batch of four. *)
Definition in_batch (n j : nat) : bool := (4 * (j / 4) + 3 <? n)%nat.

(** What [updatePointLightsSIMD] does to light [j]: its lane of the batch
    when it falls in a full batch, the scalar iteration otherwise. *)
Definition simd_body (n : nat) (ls0 : list PointLight.t) (j : nat) (l : PointLight.t)
    : PointLight.t * PointLightDataOptimized.t :=
  if in_batch n j
  then updatePointLane env time (batch_flags_at ls0 (4 * (j / 4))) l
  else updatePointScalar env time l.

Record simd_inv (n : nat) (ls0 : list PointLight.t) (tex0 : list PointLightDataOptimized.t)
    (i : nat) (ls : list PointLight.t) (tex : list PointLightDataOptimized.t) : Prop := {
  simd_inv_lights : length ls = length ls0;
  simd_inv_records : length tex = length tex0;
  simd_inv_done : forall j l, (j < i)%nat -> ls0 !! j = Some l ->
      ls !! j = Some (simd_body n ls0 j l).1
      /\ tex !! j = Some (simd_body n ls0 j l).2;
  simd_inv_todo : forall j, (i <= j)%nat -> ls !! j = ls0 !! j /\ tex !! j = tex0 !! j
}.

Lemma simd_loop_inv n ls0 tex0 :
  (n <= length ls0)%nat -> (n <= length tex0)%nat ->
  forall fuel i ls tex,
    (i mod 4 = 0)%nat -> (i <= n)%nat ->
    simd_inv n ls0 tex0 i ls tex ->
    exists i' ls' tex',
      simd_loop fuel env time (Z.of_nat n) i (ls, tex) = (i', (ls', tex'))
      /\ simd_inv n ls0 tex0 i' ls' tex'
      /\ (i' mod 4 = 0)%nat /\ (i' <= n)%nat
      /\ ((i + 4 * fuel >= n)%nat -> (n <= i' + 3)%nat).
Proof.
  intros Hn Hn'. induction fuel as [|fuel IH]; intros i ls tex Hi Hle Hinv.
  - exists i, ls, tex. split_and!; try done. lia.
  - cbn [simd_loop]. destruct (Z.ltb_spec (Z.of_nat i + 3) (Z.of_nat n)) as [Hlt|Hge].
    + destruct Hinv as [H1 H2 H3 H4].
      assert (Hex : forall k, (k < 4)%nat -> exists l, ls0 !! (i + k)%nat = Some l).
      { intros k Hk. apply lookup_lt_is_Some_2. lia. }
      destruct (Hex 0%nat) as [l0 E0]; [lia|]. destruct (Hex 1%nat) as [l1 E1]; [lia|].
      destruct (Hex 2%nat) as [l2 E2]; [lia|]. destruct (Hex 3%nat) as [l3 E3]; [lia|].
      rewrite Nat.add_0_r in E0.
      unfold simd_step.
      rewrite (proj1 (H4 i ltac:(lia))), (proj1 (H4 (i + 1)%nat ltac:(lia))),
        (proj1 (H4 (i + 2)%nat ltac:(lia))), (proj1 (H4 (i + 3)%nat ltac:(lia))).
      rewrite E0, E1, E2, E3. rewrite updatePointBatchSIMD_lanes. cbv zeta.
      set (lane := updatePointLane env time (batchFlags l0 l1 l2 l3)).
      assert (Hb : forall k, (k < 4)%nat -> forall l,
                 simd_body n ls0 (i + k) l = lane l).
      { intros k Hk l. unfold simd_body, in_batch.
        assert (Hq : (4 * ((i + k) / 4) = i)%nat) by by apply batch_base. rewrite Hq.
        destruct (Nat.ltb_spec (i + 3) n); [|lia].
        unfold lane, batch_flags_at, flags_at, batchFlags.
        by rewrite E0, E1, E2, E3. }
      edestruct (IH (i + 4)%nat) as (i' & ls' & tex' & -> & Hinv' & Hm & Hle' & Hf);
        [by apply batch_step|lia| |].
      2:{ exists i', ls', tex'. split_and!; try done. lia. }
      split.
      * by rewrite !length_insert.
      * by rewrite !length_insert.
      * intros j l Hj Hl.
        destruct (decide (j < i)%nat) as [Hlo|Hhi].
        { split; repeat (rewrite list_lookup_insert_ne by lia); by apply H3. }
        assert (Hk : exists k, (k < 4)%nat /\ j = (i + k)%nat) by (exists (j - i)%nat; lia).
        destruct Hk as (k & Hk & ->). rewrite Hb by done.
        assert (Hlen : (i + 3 < length ls)%nat) by lia.
        assert (Hlen' : (i + 3 < length tex)%nat) by lia.
        destruct k as [|[|[|[|]]]]; [..|lia]; rewrite ?Nat.add_0_r in *;
          (split;
           repeat (rewrite list_lookup_insert_ne by lia);
           (rewrite list_lookup_insert_eq by (rewrite ?length_insert; lia));
           by simplify_eq).
      * intros j Hj. split; repeat (rewrite list_lookup_insert_ne by lia); apply H4; lia.
    + exists i, ls, tex. split_and!; try done. lia.
Qed.

End SimdLoop.

(** *** [update] as three passes *)

Lemma for_lights_animated {L D : Type} (flagsOf : L -> Z) (body : L -> L * D) lo hi
    ls tex an an' :
  (for_lights flagsOf body lo hi (ls, tex, an)).1
  = (for_lights flagsOf body lo hi (ls, tex, an')).1.
Proof.
  unfold for_lights. generalize (hi - lo)%nat as n. intros n.
  revert lo ls tex an an'. induction n as [|n IH]; intros lo ls tex an an'; [done|].
  cbn [seq fold_left]. unfold light_step at 2 4.
  destruct (ls !! lo); [|apply IH]. destruct (body l). apply IH.
Qed.

Section Passes.
Context `{P : Platform}.

Definition pointsPass (time : f32) (s : Store.t) : Store.t :=
  (updatePoints false time 0 s).1.
Definition spotsPass (time : f32) (s : Store.t) : Store.t := (updateSpots time 0 s).1.
Definition rectsPass (time : f32) (s : Store.t) : Store.t := (updateRects time 0 s).1.

Lemma updatePoints_pass general time an s :
  (updatePoints general time an s).1 = pointsPass time s.
Proof.
  unfold pointsPass, updatePoints. destruct wasm_simd128.
  - by destruct (updatePointLightsSIMD _ _ _ _).
  - pose proof (for_lights_animated
      (fun l => AnimationParams.flags (PointLight.anim l))
      (updatePointScalar (env_of s) time) 0 (Z.to_nat (Store.pointLightCount s))
      (Store.pointLights s) (Store.pointLightTexture s) an 0) as E.
    destruct (for_lights _ _ _ _ (_, _, an)) as [[ls tex] a1].
    destruct (for_lights _ _ _ _ (_, _, 0)) as [[ls' tex'] a2].
    cbn in E. by simplify_eq.
Qed.

Lemma updateSpots_pass time an s : (updateSpots time an s).1 = spotsPass time s.
Proof.
  unfold spotsPass, updateSpots.
  pose proof (for_lights_animated
    (fun l => AnimationParams.flags (SpotLight.anim l))
    (updateSpotScalar (env_of s) time) 0 (Z.to_nat (Store.spotLightCount s))
    (Store.spotLights s) (Store.spotLightTexture s) an 0) as E.
  destruct (for_lights _ _ _ _ (_, _, an)) as [[ls tex] a1].
  destruct (for_lights _ _ _ _ (_, _, 0)) as [[ls' tex'] a2].
  cbn in E. by simplify_eq.
Qed.

Lemma updateRects_pass time an s : (updateRects time an s).1 = rectsPass time s.
Proof.
  unfold rectsPass, updateRects.
  pose proof (for_lights_animated
    (fun l => AnimationParams.flags (RectLight.anim l))
    (updateRectScalar (env_of s) time) 0 (Z.to_nat (Store.rectLightCount s))
    (Store.rectLights s) (Store.rectLightTexture s) an 0) as E.
  destruct (for_lights _ _ _ _ (_, _, an)) as [[ls tex] a1].
  destruct (for_lights _ _ _ _ (_, _, 0)) as [[ls' tex'] a2].
  cbn in E. by simplify_eq.
Qed.

(** The store [update] leaves: the view matrix cached, then the pass of
    each kind that has lights, in the order point, spot, rect. *)
Definition frame (s : Store.t) (time : f32) : Store.t :=
  let s0 := Store.set_view (load_view (Store.cameraMatrix s)) s in
  let s1 := if truthy (Store.hasPointLights s) then pointsPass time s0 else s0 in
  let s2 := if truthy (Store.hasSpotLights s) then spotsPass time s1 else s1 in
  if truthy (Store.hasRectLights s) then rectsPass time s2 else s2.

Lemma update_frame s time : (update s time).1 = frame s time.
Proof.
  unfold update, frame. cbv zeta.
  change (Store.hasPointLights (Store.set_view _ s)) with (Store.hasPointLights s).
  change (Store.hasSpotLights (Store.set_view _ s)) with (Store.hasSpotLights s).
  change (Store.hasRectLights (Store.set_view _ s)) with (Store.hasRectLights s).
  set (s0 := Store.set_view _ s).
  destruct (truthy (Store.hasPointLights s)), (truthy (Store.hasSpotLights s)),
    (truthy (Store.hasRectLights s)); cbn [andb negb fst];
    repeat match goal with
    | |- context [updatePoints ?g ?t ?a ?x] =>
        let E := fresh "E" in
        pose proof (updatePoints_pass g t a x) as E;
        destruct (updatePoints g t a x); cbn [fst] in E; subst
    | |- context [updateSpots ?t ?a ?x] =>
        let E := fresh "E" in
        pose proof (updateSpots_pass t a x) as E;
        destruct (updateSpots t a x); cbn [fst] in E; subst
    | |- context [updateRects ?t ?a ?x] =>
        let E := fresh "E" in
        pose proof (updateRects_pass t a x) as E;
        destruct (updateRects t a x); cbn [fst] in E; subst
    end; reflexivity.
Qed.

End Passes.

(** *** The records a frame writes *)

Section Frame.
Context `{P : Platform}.

Lemma updatePointLightsSIMD_spec env time (n : nat) ls tex :
  (n <= length ls)%nat -> (n <= length tex)%nat ->
  exists ls' tex',
    updatePointLightsSIMD env time (Z.of_nat n) (ls, tex) = (ls', tex')
    /\ length ls' = length ls /\ length tex' = length tex
    /\ (forall j l, (j < n)%nat -> ls !! j = Some l ->
          ls' !! j = Some (simd_body env time n ls j l).1
          /\ tex' !! j = Some (simd_body env time n ls j l).2)
    /\ (forall j, (n <= j)%nat -> ls' !! j = ls !! j /\ tex' !! j = tex !! j).
Proof.
  intros Hn Hn'. unfold updatePointLightsSIMD. rewrite Nat2Z.id.
  destruct (simd_loop_inv env time n ls tex Hn Hn' n 0%nat ls tex)
    as (i & ls1 & tex1 & -> & [H1 H2 H3 H4] & Hm & Hle & Hf); [done|lia| |].
  { split; try done. intros; lia. }
  specialize (Hf ltac:(lia)).
  destruct (for_lights_pass (fun l => AnimationParams.flags (PointLight.anim l))
              (updatePointScalar env time) i n ls1 tex1 0)
    as (ls' & tex' & an' & -> & [G1 G2 G3 G4 G5 G6]).
  exists ls', tex'. split; [done|]. split_and!; [congruence|congruence|..].
  - intros j l Hj Hl. destruct (decide (j < i)%nat) as [Hlo|Hhi].
    + rewrite G4, G6 by lia. by apply H3.
    + assert (Hs : simd_body env time n ls j l = updatePointScalar env time l).
      { unfold simd_body, in_batch.
        pose proof (batch_rest i j Hm ltac:(lia)).
        by destruct (Nat.ltb_spec (4 * (j / 4) + 3) n); [lia|]. }
      rewrite Hs. destruct (H4 j ltac:(lia)) as [E1 E2]. rewrite <- E1 in Hl.
      split; [apply G3; [lia|done]|apply G5; [lia|done|lia]].
  - intros j Hj. rewrite G4, G6 by lia. apply H4. lia.
Qed.

(** What the lights of a frame read from the store. *)
Definition frame_env (s : Store.t) : Env.t :=
  Env.mk (load_view (Store.cameraMatrix s)) (Store.viewNear s) (Store.viewFar s)
         (Store.lodBias s).

(** The iteration light [j] of each kind goes through. *)
Definition point_body (s : Store.t) (time : f32) (j : nat) (l : PointLight.t)
    : PointLight.t * PointLightDataOptimized.t :=
  if wasm_simd128
  then simd_body (frame_env s) time (Z.to_nat (Store.pointLightCount s))
         (Store.pointLights s) j l
  else updatePointScalar (frame_env s) time l.

Definition spot_body (s : Store.t) (time : f32) (l : SpotLight.t)
    : SpotLight.t * SpotLightData.t :=
  updateSpotScalar (frame_env s) time l.

Definition rect_body (s : Store.t) (time : f32) (l : RectLight.t)
    : RectLight.t * RectLightData.t :=
  updateRectScalar (frame_env s) time l.

(** The arrays hold the live lights, and a kind with live lights is
    flagged as present. *)
Record frame_ok (s : Store.t) : Prop := {
  ok_points : (Z.to_nat (Store.pointLightCount s) <= length (Store.pointLights s))%nat;
  ok_point_records :
    (Z.to_nat (Store.pointLightCount s) <= length (Store.pointLightTexture s))%nat;
  ok_spots : (Z.to_nat (Store.spotLightCount s) <= length (Store.spotLights s))%nat;
  ok_spot_records :
    (Z.to_nat (Store.spotLightCount s) <= length (Store.spotLightTexture s))%nat;
  ok_rects : (Z.to_nat (Store.rectLightCount s) <= length (Store.rectLights s))%nat;
  ok_rect_records :
    (Z.to_nat (Store.rectLightCount s) <= length (Store.rectLightTexture s))%nat;
  ok_has_points : 0 < Store.pointLightCount s -> Store.hasPointLights s <> 0;
  ok_has_spots : 0 < Store.spotLightCount s -> Store.hasSpotLights s <> 0;
  ok_has_rects : 0 < Store.rectLightCount s -> Store.hasRectLights s <> 0
}.

Lemma truthy_nonzero n : n <> 0 -> truthy n = true.
Proof. unfold truthy. by destruct (Z.eqb_spec n 0). Qed.

Lemma pointsPass_spec time s :
  (Z.to_nat (Store.pointLightCount s) <= length (Store.pointLights s))%nat ->
  (Z.to_nat (Store.pointLightCount s) <= length (Store.pointLightTexture s))%nat ->
  exists ls' tex',
    pointsPass time s = Store.set_points ls' (Store.pointLightsScratch s) tex' s
    /\ forall j l, (j < Z.to_nat (Store.pointLightCount s))%nat ->
         Store.pointLights s !! j = Some l ->
         ls' !! j = Some ((if wasm_simd128
                           then simd_body (env_of s) time
                                  (Z.to_nat (Store.pointLightCount s))
                                  (Store.pointLights s) j l
                           else updatePointScalar (env_of s) time l)).1
         /\ tex' !! j = Some ((if wasm_simd128
                           then simd_body (env_of s) time
                                  (Z.to_nat (Store.pointLightCount s))
                                  (Store.pointLights s) j l
                           else updatePointScalar (env_of s) time l)).2.
Proof.
  intros Hn Hn'. unfold pointsPass, updatePoints. destruct wasm_simd128.
  - destruct (Z.le_gt_cases 0 (Store.pointLightCount s)) as [Hc|Hc].
    + destruct (updatePointLightsSIMD_spec (env_of s) time _ _ _ Hn Hn')
        as (ls' & tex' & E & _ & _ & Hin & _).
      rewrite Z2Nat.id in E by done. rewrite E. exists ls', tex'. split; [done|].
      intros j l Hj Hl. by apply Hin.
    + destruct (updatePointLightsSIMD _ _ _ _) as [ls' tex']. exists ls', tex'.
      split; [done|]. intros; lia.
  - destruct (for_lights_pass (fun l => AnimationParams.flags (PointLight.anim l))
                (updatePointScalar (env_of s) time) 0
                (Z.to_nat (Store.pointLightCount s))
                (Store.pointLights s) (Store.pointLightTexture s) 0)
      as (ls' & tex' & an' & -> & [G1 G2 G3 G4 G5 G6]).
    exists ls', tex'. split; [done|]. intros j l Hj Hl.
    split; [apply G3; [lia|done]|apply G5; [lia|done|lia]].
Qed.

Lemma spotsPass_spec time s :
  (Z.to_nat (Store.spotLightCount s) <= length (Store.spotLightTexture s))%nat ->
  exists ls' tex',
    spotsPass time s = Store.set_spots ls' (Store.spotLightsScratch s) tex' s
    /\ forall j l, (j < Z.to_nat (Store.spotLightCount s))%nat ->
         Store.spotLights s !! j = Some l ->
         ls' !! j = Some (updateSpotScalar (env_of s) time l).1
         /\ tex' !! j = Some (updateSpotScalar (env_of s) time l).2.
Proof.
  intros Hn'. unfold spotsPass, updateSpots.
  destruct (for_lights_pass (fun l => AnimationParams.flags (SpotLight.anim l))
              (updateSpotScalar (env_of s) time) 0
              (Z.to_nat (Store.spotLightCount s))
              (Store.spotLights s) (Store.spotLightTexture s) 0)
    as (ls' & tex' & an' & -> & [G1 G2 G3 G4 G5 G6]).
  exists ls', tex'. split; [done|]. intros j l Hj Hl.
  split; [apply G3; [lia|done]|apply G5; [lia|done|lia]].
Qed.

Lemma rectsPass_spec time s :
  (Z.to_nat (Store.rectLightCount s) <= length (Store.rectLightTexture s))%nat ->
  exists ls' tex',
    rectsPass time s = Store.set_rects ls' (Store.rectLightsScratch s) tex' s
    /\ forall j l, (j < Z.to_nat (Store.rectLightCount s))%nat ->
         Store.rectLights s !! j = Some l ->
         ls' !! j = Some (updateRectScalar (env_of s) time l).1
         /\ tex' !! j = Some (updateRectScalar (env_of s) time l).2.
Proof.
  intros Hn'. unfold rectsPass, updateRects.
  destruct (for_lights_pass (fun l => AnimationParams.flags (RectLight.anim l))
              (updateRectScalar (env_of s) time) 0
              (Z.to_nat (Store.rectLightCount s))
              (Store.rectLights s) (Store.rectLightTexture s) 0)
    as (ls' & tex' & an' & -> & [G1 G2 G3 G4 G5 G6]).
  exists ls', tex'. split; [done|]. intros j l Hj Hl.
  split; [apply G3; [lia|done]|apply G5; [lia|done|lia]].
Qed.

(** Each pass leaves the other kinds and the settings alone. *)
Lemma pointsPass_frame time s :
  exists ls tex, pointsPass time s = Store.set_points ls (Store.pointLightsScratch s) tex s.
Proof.
  unfold pointsPass, updatePoints. destruct wasm_simd128.
  - destruct (updatePointLightsSIMD _ _ _ _) as [ls tex]. by exists ls, tex.
  - destruct (for_lights _ _ _ _ _) as [[ls tex] an]. by exists ls, tex.
Qed.

Lemma spotsPass_frame time s :
  exists ls tex, spotsPass time s = Store.set_spots ls (Store.spotLightsScratch s) tex s.
Proof.
  unfold spotsPass, updateSpots.
  destruct (for_lights _ _ _ _ _) as [[ls tex] an]. by exists ls, tex.
Qed.

Lemma rectsPass_frame time s :
  exists ls tex, rectsPass time s = Store.set_rects ls (Store.rectLightsScratch s) tex s.
Proof.
  unfold rectsPass, updateRects.
  destruct (for_lights _ _ _ _ _) as [[ls tex] an]. by exists ls, tex.
Qed.

Theorem frame_point_record s time j l :
  frame_ok s -> (j < Z.to_nat (Store.pointLightCount s))%nat ->
  Store.pointLights s !! j = Some l ->
  Store.pointLights (update s time).1 !! j = Some (point_body s time j l).1
  /\ Store.pointLightTexture (update s time).1 !! j = Some (point_body s time j l).2.
Proof.
  intros Hok Hj Hl. rewrite update_frame. unfold frame.
  rewrite (truthy_nonzero (Store.hasPointLights s)) by (apply Hok; lia).
  set (s0 := Store.set_view _ s).
  destruct (pointsPass_spec time s0) as (ls' & tex' & E & Hin);
    [apply Hok|apply Hok|].
  rewrite E. specialize (Hin j l Hj Hl).
  set (s1 := Store.set_points ls' _ tex' s0).
  assert (Hkeep : forall s2, (exists a b, s2 = Store.set_spots a (Store.spotLightsScratch s1) b s1)
            \/ s2 = s1 ->
            Store.pointLights s2 = ls' /\ Store.pointLightTexture s2 = tex'
            /\ forall s3, (exists a b, s3 = Store.set_rects a (Store.rectLightsScratch s2) b s2)
                 \/ s3 = s2 ->
                 Store.pointLights s3 = ls' /\ Store.pointLightTexture s3 = tex').
  { intros s2 [(a & b & ->)| ->]; (split_and!; [done|done|]);
      by intros s3 [(a' & b' & ->)| ->]. }
  assert (Hfin : Store.pointLights
            (if truthy (Store.hasRectLights s)
             then rectsPass time (if truthy (Store.hasSpotLights s)
                                  then spotsPass time s1 else s1)
             else if truthy (Store.hasSpotLights s) then spotsPass time s1 else s1) = ls'
          /\ Store.pointLightTexture
            (if truthy (Store.hasRectLights s)
             then rectsPass time (if truthy (Store.hasSpotLights s)
                                  then spotsPass time s1 else s1)
             else if truthy (Store.hasSpotLights s) then spotsPass time s1 else s1) = tex').
  { set (s2 := if truthy (Store.hasSpotLights s) then spotsPass time s1 else s1).
    assert (H2 : (exists a b, s2 = Store.set_spots a (Store.spotLightsScratch s1) b s1)
                 \/ s2 = s1).
    { unfold s2. destruct (truthy (Store.hasSpotLights s)); [left|by right].
      apply spotsPass_frame. }
    destruct (Hkeep s2 H2) as (_ & _ & H3).
    apply H3. destruct (truthy (Store.hasRectLights s)); [left|by right].
    apply rectsPass_frame. }
  destruct Hfin as [-> ->]. unfold point_body. apply Hin.
Qed.

Theorem frame_spot_record s time j l :
  frame_ok s -> (j < Z.to_nat (Store.spotLightCount s))%nat ->
  Store.spotLights s !! j = Some l ->
  Store.spotLights (update s time).1 !! j = Some (spot_body s time l).1
  /\ Store.spotLightTexture (update s time).1 !! j = Some (spot_body s time l).2.
Proof.
  intros Hok Hj Hl. rewrite update_frame. unfold frame.
  rewrite (truthy_nonzero (Store.hasSpotLights s)) by (apply Hok; lia).
  set (s0 := Store.set_view _ s).
  set (s1 := if truthy (Store.hasPointLights s) then pointsPass time s0 else s0).
  assert (H1 : exists a b, s1 = Store.set_points a (Store.pointLightsScratch s0) b s0).
  { unfold s1. destruct (truthy (Store.hasPointLights s)); [apply pointsPass_frame|].
    exists (Store.pointLights s0), (Store.pointLightTexture s0). by destruct s. }
  destruct H1 as (a & b & E1).
  destruct (spotsPass_spec time s1) as (ls' & tex' & E & Hin).
  { rewrite E1. apply Hok. }
  rewrite E. specialize (Hin j l). rewrite E1 in Hin. specialize (Hin Hj Hl).
  set (s2 := Store.set_spots ls' _ tex' s1).
  assert (Hfin : Store.spotLights
            (if truthy (Store.hasRectLights s) then rectsPass time s2 else s2) = ls'
          /\ Store.spotLightTexture
            (if truthy (Store.hasRectLights s) then rectsPass time s2 else s2) = tex').
  { destruct (truthy (Store.hasRectLights s)); [|done].
    by destruct (rectsPass_frame time s2) as (a' & b' & ->). }
  destruct Hfin as [-> ->]. apply Hin.
Qed.

Theorem frame_rect_record s time j l :
  frame_ok s -> (j < Z.to_nat (Store.rectLightCount s))%nat ->
  Store.rectLights s !! j = Some l ->
  Store.rectLights (update s time).1 !! j = Some (rect_body s time l).1
  /\ Store.rectLightTexture (update s time).1 !! j = Some (rect_body s time l).2.
Proof.
  intros Hok Hj Hl. rewrite update_frame. unfold frame.
  rewrite (truthy_nonzero (Store.hasRectLights s)) by (apply Hok; lia).
  set (s0 := Store.set_view _ s).
  set (s1 := if truthy (Store.hasPointLights s) then pointsPass time s0 else s0).
  assert (H1 : exists a b, s1 = Store.set_points a (Store.pointLightsScratch s0) b s0).
  { unfold s1. destruct (truthy (Store.hasPointLights s)); [apply pointsPass_frame|].
    exists (Store.pointLights s0), (Store.pointLightTexture s0). by destruct s. }
  destruct H1 as (a & b & E1).
  set (s2 := if truthy (Store.hasSpotLights s) then spotsPass time s1 else s1).
  assert (H2 : exists c d, s2 = Store.set_spots c (Store.spotLightsScratch s1) d s1).
  { unfold s2. destruct (truthy (Store.hasSpotLights s)); [apply spotsPass_frame|].
    exists (Store.spotLights s1), (Store.spotLightTexture s1). by destruct s1. }
  destruct H2 as (c & d & E2).
  destruct (rectsPass_spec time s2) as (ls' & tex' & E & Hin).
  { rewrite E2, E1. apply Hok. }
  rewrite E. specialize (Hin j l). rewrite E2, E1 in Hin. by specialize (Hin Hj Hl).
Qed.

End Frame.

(* ------------------------------------------------------------------ *)
(** ** C10 and C5: what a frame writes *)
(* ------------------------------------------------------------------ *)

(** *** The visible flag and the frustum planes in a frame *)

Section Visibility.
Context `{P : Platform}.

(** The animation functions never read [visible]. *)
Lemma processPointLightAnimation_visible v l time :
  processPointLightAnimation (PointLight.set_visible v l) time
  = PointLight.set_visible v (processPointLightAnimation l time).
Proof. rewrite !processPointLightAnimation_closed. by destruct l. Qed.

Lemma processSpotLightAnimation_visible v l time :
  processSpotLightAnimation (SpotLight.set_visible v l) time
  = SpotLight.set_visible v (processSpotLightAnimation l time).
Proof. rewrite !processSpotLightAnimation_closed. by destruct l. Qed.

Lemma processRectLightAnimation_visible v l time :
  processRectLightAnimation (RectLight.set_visible v l) time
  = RectLight.set_visible v (processRectLightAnimation l time).
Proof. rewrite !processRectLightAnimation_closed. by destruct l. Qed.

Lemma animatePoint_visible v l time :
  animatePoint time (PointLight.set_visible v l)
  = PointLight.set_visible v (animatePoint time l).
Proof.
  unfold animatePoint. rewrite processPointLightAnimation_visible.
  destruct l; cbn. by destruct (_ =? _).
Qed.

Lemma animateBatch_visible any v l time :
  animateBatch any time (PointLight.set_visible v l)
  = PointLight.set_visible v (animateBatch any time l).
Proof.
  unfold animateBatch. rewrite processPointLightAnimation_visible.
  destruct l; cbn. by destruct (_ =? _).
Qed.

Lemma animateSpot_visible v l time :
  animateSpot time (SpotLight.set_visible v l)
  = SpotLight.set_visible v (animateSpot time l).
Proof.
  unfold animateSpot. rewrite processSpotLightAnimation_visible.
  destruct l; cbn. by destruct (_ =? _).
Qed.

Lemma animateRect_visible v l time :
  animateRect time (RectLight.set_visible v l)
  = RectLight.set_visible v (animateRect time l).
Proof.
  unfold animateRect. rewrite processRectLightAnimation_visible.
  destruct l; cbn. by destruct (_ =? _).
Qed.

(** Everything a record holds but the packed float. *)
Definition point_payload (d : PointLightDataOptimized.t) : Vec4.t * f32 * f32 * f32 :=
  let c := PointLightDataOptimized.colorDecayVisible d in
  (PointLightDataOptimized.positionRadius d, Vec4.x c, Vec4.y c, Vec4.z c).

Definition spot_payload (d : SpotLightData.t) : Vec4.t * Vec4.t * Vec4.t * f32 * f32 * f32 :=
  let a := SpotLightData.angleParams d in
  (SpotLightData.positionRadius d, SpotLightData.colorIntensity d,
   SpotLightData.direction d, Vec4.x a, Vec4.y a, Vec4.z a).

Definition rect_payload (d : RectLightData.t)
    : Vec4.t * Vec4.t * f32 * f32 * f32 * Vec4.t * Vec4.t :=
  let a := RectLightData.sizeParams d in
  (RectLightData.positionRadius d, RectLightData.colorIntensity d,
   Vec4.x a, Vec4.y a, Vec4.z a, RectLightData.normal d, RectLightData.tangent d).

Definition point_packed (d : PointLightDataOptimized.t) : f32 :=
  Vec4.w (PointLightDataOptimized.colorDecayVisible d).
Definition spot_packed (d : SpotLightData.t) : f32 := Vec4.w (SpotLightData.angleParams d).
Definition rect_packed (d : RectLightData.t) : f32 := Vec4.w (RectLightData.sizeParams d).

(** The payload a light's record is written with: the view-space position
    and radius and the (for point lights premultiplied) colour of the
    updated light, and the other parameters of its kind. *)
Definition point_payload_of (l : PointLight.t) : Vec4.t * f32 * f32 * f32 :=
  let c := PointLight.color l in
  (PointLight.viewPos l, Vec4.x c ⊗ Vec4.w c, Vec4.y c ⊗ Vec4.w c, Vec4.z c ⊗ Vec4.w c).

Definition spot_payload_of (l : SpotLight.t)
    : Vec4.t * Vec4.t * Vec4.t * f32 * f32 * f32 :=
  (SpotLight.viewPos l, SpotLight.color l, SpotLight.viewDir l,
   cosf (SpotLight.angle l), cosf (SpotLight.angle l ⊖ SpotLight.penumbra l),
   SpotLight.decay l).

Definition rect_payload_of (l : RectLight.t)
    : Vec4.t * Vec4.t * f32 * f32 * f32 * Vec4.t * Vec4.t :=
  (RectLight.viewPos l, RectLight.color l, Vec4.x (RectLight.size l),
   Vec4.y (RectLight.size l), RectLight.decay l, RectLight.viewNormal l,
   RectLight.viewTangent l).

(** Two environments with the same view matrix and LOD bias. *)
Definition same_view (e e' : Env.t) : Prop :=
  Env.view e' = Env.view e /\ Env.lodBias e' = Env.lodBias e.

(** Two lights that differ at most in [visible]. *)
Definition point_alike (l l' : PointLight.t) : Prop :=
  l' = PointLight.set_visible (PointLight.visible l') l.
Definition spot_alike (l l' : SpotLight.t) : Prop :=
  l' = SpotLight.set_visible (SpotLight.visible l') l.
Definition rect_alike (l l' : RectLight.t) : Prop :=
  l' = RectLight.set_visible (RectLight.visible l') l.

(** Two written records: the same payload, and packed floats that differ
    at most in the visibility they pack. *)
Definition point_written (l' : PointLight.t) (d : PointLightDataOptimized.t) (v : Z)
    : Prop :=
  point_payload d = point_payload_of l'
  /\ point_packed d = packLightParams (PointLight.decay l') v (PointLight.lodLevel l').

Definition spot_written (l' : SpotLight.t) (d : SpotLightData.t) (v : Z) : Prop :=
  spot_payload d = spot_payload_of l'
  /\ spot_packed d = packVisibleLOD v (SpotLight.lodLevel l').

Definition rect_written (l' : RectLight.t) (d : RectLightData.t) (v : Z) : Prop :=
  rect_payload d = rect_payload_of l'
  /\ rect_packed d = packVisibleLOD v (RectLight.lodLevel l').

Lemma pointPipeline_written xf env l :
  let r := pointPipeline xf env l in
  point_written r.1 r.2
    (visible_and_not (PointLight.visible l)
       (culled_of (Env.viewNear env) (Env.viewFar env)
          (Vec4.z (PointLight.viewPos r.1)) (Vec4.w (PointLight.worldPos r.1)))).
Proof. by destruct l. Qed.

Lemma pointPipeline_alike xf env env' l l' :
  same_view env env' -> point_alike l l' ->
  point_alike (pointPipeline xf env l).1 (pointPipeline xf env' l').1.
Proof.
  intros [Hv Hb] ->. unfold pointPipeline, point_alike. rewrite Hv, Hb.
  by destruct l.
Qed.

Lemma updateSpotScalar_written env time l :
  let r := updateSpotScalar env time l in
  spot_written r.1 r.2
    (visible_and_not (SpotLight.visible (animateSpot time l))
       (culled_of (Env.viewNear env) (Env.viewFar env)
          (Vec4.z (SpotLight.viewPos r.1)) (Vec4.w (SpotLight.worldPos r.1)))).
Proof.
  unfold updateSpotScalar. destruct (animateSpot time l).
  cbv [spot_written spot_payload spot_payload_of spot_packed fst snd
       SpotLightData.positionRadius SpotLightData.colorIntensity
       SpotLightData.direction SpotLightData.angleParams].
  spot_norm. split; reflexivity.
Qed.

Lemma updateSpotScalar_alike env env' time l l' :
  same_view env env' -> spot_alike l l' ->
  spot_alike (updateSpotScalar env time l).1 (updateSpotScalar env' time l').1.
Proof.
  intros [Hv Hb] ->. unfold updateSpotScalar, spot_alike.
  rewrite animateSpot_visible, Hv, Hb. destruct (animateSpot time l).
  cbv [fst]. spot_norm. reflexivity.
Qed.

Lemma updateRectScalar_written env time l :
  let r := updateRectScalar env time l in
  rect_written r.1 r.2
    (visible_and_not (RectLight.visible (animateRect time l))
       (culled_of (Env.viewNear env) (Env.viewFar env)
          (Vec4.z (RectLight.viewPos r.1)) (Vec4.w (RectLight.worldPos r.1)))).
Proof.
  unfold updateRectScalar. destruct (animateRect time l).
  cbv [rect_written rect_payload rect_payload_of rect_packed fst snd
       RectLightData.positionRadius RectLightData.colorIntensity
       RectLightData.sizeParams RectLightData.normal RectLightData.tangent].
  rect_norm. split; reflexivity.
Qed.

Lemma updateRectScalar_alike env env' time l l' :
  same_view env env' -> rect_alike l l' ->
  rect_alike (updateRectScalar env time l).1 (updateRectScalar env' time l').1.
Proof.
  intros [Hv Hb] ->. unfold updateRectScalar, rect_alike.
  rewrite animateRect_visible, Hv, Hb. destruct (animateRect time l).
  cbv [fst]. rect_norm. reflexivity.
Qed.

Lemma animatePoint_visible_eq time l :
  PointLight.visible (animatePoint time l) = PointLight.visible l.
Proof.
  unfold animatePoint. rewrite processPointLightAnimation_closed.
  destruct l; cbn. by destruct (_ =? _).
Qed.

Lemma animateBatch_visible_eq any time l :
  PointLight.visible (animateBatch any time l) = PointLight.visible l.
Proof.
  unfold animateBatch. rewrite processPointLightAnimation_closed.
  destruct l; cbn. by destruct (_ =? _).
Qed.

Lemma animateSpot_visible_eq time l :
  SpotLight.visible (animateSpot time l) = SpotLight.visible l.
Proof.
  unfold animateSpot. rewrite processSpotLightAnimation_closed.
  destruct l; cbn. by destruct (_ =? _).
Qed.

Lemma animateRect_visible_eq time l :
  RectLight.visible (animateRect time l) = RectLight.visible l.
Proof.
  unfold animateRect. rewrite processRectLightAnimation_closed.
  destruct l; cbn. by destruct (_ =? _).
Qed.

Lemma alike_flags_at ls ls' k :
  Forall2 point_alike ls ls' -> flags_at ls' k = flags_at ls k.
Proof.
  intros HF. unfold flags_at.
  destruct (ls !! k) as [l|] eqn:E.
  - destruct (Forall2_lookup_l _ _ _ _ _ HF E) as (l' & -> & Hl). cbn.
    rewrite Hl. by destruct l.
  - assert (E' : ls' !! k = None).
    { apply lookup_ge_None. rewrite <- (Forall2_length _ _ _ HF).
      by apply lookup_ge_None. }
    by rewrite E'.
Qed.

(** The visibility a point light's record packs: the flag of the light
    and the culling test on the updated light. *)
Definition point_visibility (env : Env.t) (l l' : PointLight.t) : Z :=
  visible_and_not (PointLight.visible l)
    (culled_of (Env.viewNear env) (Env.viewFar env)
       (Vec4.z (PointLight.viewPos l')) (Vec4.w (PointLight.worldPos l'))).

Definition spot_visibility (env : Env.t) (l l' : SpotLight.t) : Z :=
  visible_and_not (SpotLight.visible l)
    (culled_of (Env.viewNear env) (Env.viewFar env)
       (Vec4.z (SpotLight.viewPos l')) (Vec4.w (SpotLight.worldPos l'))).

Definition rect_visibility (env : Env.t) (l l' : RectLight.t) : Z :=
  visible_and_not (RectLight.visible l)
    (culled_of (Env.viewNear env) (Env.viewFar env)
       (Vec4.z (RectLight.viewPos l')) (Vec4.w (RectLight.worldPos l'))).

Lemma point_body_written s time j l :
  let r := point_body s time j l in
  point_written r.1 r.2 (point_visibility (frame_env s) l r.1).
Proof.
  unfold point_body, simd_body, updatePointLane, point_visibility.
  destruct wasm_simd128; [destruct (in_batch _ _)|];
    rewrite ?updatePointScalar_pipeline;
    [rewrite <- (animateBatch_visible_eq (batch_flags_at (Store.pointLights s)
                                            (4 * (j / 4))) time l)
    |rewrite <- (animatePoint_visible_eq time l)
    |rewrite <- (animatePoint_visible_eq time l)];
    apply pointPipeline_written.
Qed.

Lemma spot_body_written s time l :
  let r := spot_body s time l in
  spot_written r.1 r.2 (spot_visibility (frame_env s) l r.1).
Proof.
  unfold spot_body, spot_visibility. rewrite <- (animateSpot_visible_eq time l).
  apply updateSpotScalar_written.
Qed.

Lemma rect_body_written s time l :
  let r := rect_body s time l in
  rect_written r.1 r.2 (rect_visibility (frame_env s) l r.1).
Proof.
  unfold rect_body, rect_visibility. rewrite <- (animateRect_visible_eq time l).
  apply updateRectScalar_written.
Qed.

(** Two stores that differ at most in the visible flags of their lights,
    in the frustum planes, and in what the output buffers, the scratch
    arrays and the bookkeeping outside the frame hold. *)
Record visibility_variant (s s' : Store.t) : Prop := {
  vv_points : Forall2 point_alike (Store.pointLights s) (Store.pointLights s');
  vv_spots : Forall2 spot_alike (Store.spotLights s) (Store.spotLights s');
  vv_rects : Forall2 rect_alike (Store.rectLights s) (Store.rectLights s');
  vv_point_records :
    length (Store.pointLightTexture s') = length (Store.pointLightTexture s);
  vv_spot_records :
    length (Store.spotLightTexture s') = length (Store.spotLightTexture s);
  vv_rect_records :
    length (Store.rectLightTexture s') = length (Store.rectLightTexture s);
  vv_camera : Store.cameraMatrix s' = Store.cameraMatrix s;
  vv_lodBias : Store.lodBias s' = Store.lodBias s;
  vv_point_count : Store.pointLightCount s' = Store.pointLightCount s;
  vv_spot_count : Store.spotLightCount s' = Store.spotLightCount s;
  vv_rect_count : Store.rectLightCount s' = Store.rectLightCount s;
  vv_has_points : Store.hasPointLights s' = Store.hasPointLights s;
  vv_has_spots : Store.hasSpotLights s' = Store.hasSpotLights s;
  vv_has_rects : Store.hasRectLights s' = Store.hasRectLights s
}.

Lemma visibility_variant_ok s s' : frame_ok s -> visibility_variant s s' -> frame_ok s'.
Proof.
  intros [] [H1 H2 H3 ? ? ? ? ? ? ? ? ? ? ?].
  apply Forall2_length in H1, H2, H3.
  split; try congruence; lia.
Qed.

Lemma variant_frame_env s s' : visibility_variant s s' -> same_view (frame_env s) (frame_env s').
Proof. intros Hv. unfold same_view, frame_env; cbn. by rewrite (vv_camera _ _ Hv), (vv_lodBias _ _ Hv). Qed.

Lemma point_body_alike s s' time j l l' :
  visibility_variant s s' -> point_alike l l' ->
  point_alike (point_body s time j l).1 (point_body s' time j l').1.
Proof.
  intros Hv Hl. pose proof (variant_frame_env _ _ Hv) as He.
  unfold point_body, simd_body, updatePointLane.
  rewrite (vv_point_count _ _ Hv).
  assert (Hb : forall b, batch_flags_at (Store.pointLights s') b
                         = batch_flags_at (Store.pointLights s) b).
  { intros b. unfold batch_flags_at.
    by rewrite !(alike_flags_at _ _ _ (vv_points _ _ Hv)). }
  rewrite Hb.
  destruct wasm_simd128; [destruct (in_batch _ _)|];
    rewrite ?updatePointScalar_pipeline;
    (apply pointPipeline_alike; [done|]); rewrite Hl;
    rewrite ?animateBatch_visible, ?animatePoint_visible;
    unfold point_alike;
    [destruct (animateBatch _ _ _)|destruct (animatePoint _ _)
    |destruct (animatePoint _ _)]; reflexivity.
Qed.

Lemma point_alike_payload l l' : point_alike l l' ->
  point_payload_of l' = point_payload_of l
  /\ PointLight.decay l' = PointLight.decay l
  /\ PointLight.lodLevel l' = PointLight.lodLevel l.
Proof. intros ->. by destruct l. Qed.

Lemma spot_alike_payload l l' : spot_alike l l' ->
  spot_payload_of l' = spot_payload_of l
  /\ SpotLight.lodLevel l' = SpotLight.lodLevel l.
Proof. intros ->. by destruct l. Qed.

Lemma rect_alike_payload l l' : rect_alike l l' ->
  rect_payload_of l' = rect_payload_of l
  /\ RectLight.lodLevel l' = RectLight.lodLevel l.
Proof. intros ->. by destruct l. Qed.

End Visibility.

(** Two records of one light that differ at most in the visibility their
    last float packs. *)
Definition point_records_agree (d d' : PointLightDataOptimized.t) : Prop :=
  point_payload d = point_payload d'
  /\ exists decay lod v v',
       point_packed d = packLightParams decay v lod
       /\ point_packed d' = packLightParams decay v' lod.

Definition spot_records_agree (d d' : SpotLightData.t) : Prop :=
  spot_payload d = spot_payload d'
  /\ exists lod v v',
       spot_packed d = packVisibleLOD v lod /\ spot_packed d' = packVisibleLOD v' lod.

Definition rect_records_agree (d d' : RectLightData.t) : Prop :=
  rect_payload d = rect_payload d'
  /\ exists lod v v',
       rect_packed d = packVisibleLOD v lod /\ rect_packed d' = packVisibleLOD v' lod.

(** C10: [update] writes the record of every live light of every kind,
    whatever the output buffer held before; the view-space position and
    radius, the colour (premultiplied for point lights) and the other
    parameters it writes are those of the updated light, and they are the
    same whatever the light's visible flag and the near and far planes
    are: those reach only the visibility packed in the record's last
    float. *)
Theorem C10_records_written_regardless_of_visibility `{P : Platform}
    (s s' : Store.t) (time : f32) :
  frame_ok s -> visibility_variant s s' ->
  (forall j, (j < Z.to_nat (Store.pointLightCount s))%nat ->
     exists l d d',
       Store.pointLights (update s time).1 !! j = Some l
       /\ Store.pointLightTexture (update s time).1 !! j = Some d
       /\ Store.pointLightTexture (update s' time).1 !! j = Some d'
       /\ point_payload d = point_payload_of l
       /\ point_records_agree d d')
  /\ (forall j, (j < Z.to_nat (Store.spotLightCount s))%nat ->
     exists l d d',
       Store.spotLights (update s time).1 !! j = Some l
       /\ Store.spotLightTexture (update s time).1 !! j = Some d
       /\ Store.spotLightTexture (update s' time).1 !! j = Some d'
       /\ spot_payload d = spot_payload_of l
       /\ spot_records_agree d d')
  /\ (forall j, (j < Z.to_nat (Store.rectLightCount s))%nat ->
     exists l d d',
       Store.rectLights (update s time).1 !! j = Some l
       /\ Store.rectLightTexture (update s time).1 !! j = Some d
       /\ Store.rectLightTexture (update s' time).1 !! j = Some d'
       /\ rect_payload d = rect_payload_of l
       /\ rect_records_agree d d').
Proof.
  intros Hok Hv. pose proof (visibility_variant_ok _ _ Hok Hv) as Hok'.
  split_and!.
  - intros j Hj.
    destruct (lookup_lt_is_Some_2 (Store.pointLights s) j) as [l0 E0];
      [pose proof (ok_points _ Hok); lia|].
    destruct (Forall2_lookup_l _ _ _ _ _ (vv_points _ _ Hv) E0) as (l0' & E0' & Hl).
    destruct (frame_point_record s time j l0 Hok Hj E0) as [R1 R2].
    destruct (frame_point_record s' time j l0' Hok') as [R1' R2'];
      [by rewrite (vv_point_count _ _ Hv)|done|].
    destruct (point_body_written s time j l0) as [W1 W2].
    destruct (point_body_written s' time j l0') as [W1' W2'].
    destruct (point_alike_payload _ _ (point_body_alike s s' time j l0 l0' Hv Hl))
      as (A1 & A2 & A3).
    eexists _, _, _. split_and!; [exact R1|exact R2|exact R2'|exact W1|].
    split; [congruence|]. eexists _, _, _, _. split; [exact W2|].
    rewrite W2', A2, A3. reflexivity.
  - intros j Hj.
    destruct (lookup_lt_is_Some_2 (Store.spotLights s) j) as [l0 E0];
      [pose proof (ok_spots _ Hok); lia|].
    destruct (Forall2_lookup_l _ _ _ _ _ (vv_spots _ _ Hv) E0) as (l0' & E0' & Hl).
    destruct (frame_spot_record s time j l0 Hok Hj E0) as [R1 R2].
    destruct (frame_spot_record s' time j l0' Hok') as [R1' R2'];
      [by rewrite (vv_spot_count _ _ Hv)|done|].
    destruct (spot_body_written s time l0) as [W1 W2].
    destruct (spot_body_written s' time l0') as [W1' W2'].
    destruct (spot_alike_payload _ _
                (updateSpotScalar_alike _ _ time l0 l0' (variant_frame_env _ _ Hv) Hl))
      as (A1 & A2).
    eexists _, _, _. split_and!; [exact R1|exact R2|exact R2'|exact W1|].
    split; [unfold spot_body in *; congruence|]. eexists _, _, _. split; [exact W2|].
    rewrite W2'. unfold spot_body. rewrite A2. reflexivity.
  - intros j Hj.
    destruct (lookup_lt_is_Some_2 (Store.rectLights s) j) as [l0 E0];
      [pose proof (ok_rects _ Hok); lia|].
    destruct (Forall2_lookup_l _ _ _ _ _ (vv_rects _ _ Hv) E0) as (l0' & E0' & Hl).
    destruct (frame_rect_record s time j l0 Hok Hj E0) as [R1 R2].
    destruct (frame_rect_record s' time j l0' Hok') as [R1' R2'];
      [by rewrite (vv_rect_count _ _ Hv)|done|].
    destruct (rect_body_written s time l0) as [W1 W2].
    destruct (rect_body_written s' time l0') as [W1' W2'].
    destruct (rect_alike_payload _ _
                (updateRectScalar_alike _ _ time l0 l0' (variant_frame_env _ _ Hv) Hl))
      as (A1 & A2).
    eexists _, _, _. split_and!; [exact R1|exact R2|exact R2'|exact W1|].
    split; [unfold rect_body in *; congruence|]. eexists _, _, _. split; [exact W2|].
    rewrite W2'. unfold rect_body. rewrite A2. reflexivity.
Qed.

(** *** The culling test *)

Lemma SFltb_asym (x y : spec_float) : SFltb x y = true -> SFltb y x = false.
Proof.
  unfold SFltb.
  destruct x as [sx|sx| |sx mx ex], y as [sy|sy| |sy my ey]; cbn;
    try destruct sx; try destruct sy; try done.
  - rewrite (Z.compare_antisym ex ey).
    change (Pos.compare_cont Eq mx my) with (mx ?= my)%positive.
    change (Pos.compare_cont Eq my mx) with (my ?= mx)%positive.
    rewrite (Pos.compare_antisym mx my).
    destruct (ex ?= ey); cbn; try done.
    by destruct (mx ?= my)%positive.
  - rewrite (Z.compare_antisym ex ey).
    change (Pos.compare_cont Eq mx my) with (mx ?= my)%positive.
    change (Pos.compare_cont Eq my mx) with (my ?= mx)%positive.
    rewrite (Pos.compare_antisym mx my).
    destruct (ex ?= ey); cbn; try done.
    by destruct (mx ?= my)%positive.
Qed.

Lemma f32_lt_not_gt (a b : f32) : F32.lt a b = true -> F32.gt a b = false.
Proof. apply SFltb_asym. Qed.

(** At [viewZ = radius - near] the near test does not fire: only the far
    test can cull. *)
Lemma culled_of_at_near near far radius :
  culled_of near far (radius ⊖ near) radius
  = if F32.lt (radius ⊖ near) (F32.neg far ⊖ radius) then 1 else 0.
Proof. unfold culled_of. by rewrite f32_gt_irrefl. Qed.

Lemma culled_of_closer near far viewZ radius :
  F32.lt viewZ (radius ⊖ near) = true ->
  culled_of near far viewZ radius
  = if F32.lt viewZ (F32.neg far ⊖ radius) then 1 else 0.
Proof. intros H. unfold culled_of. by rewrite (f32_lt_not_gt _ _ H). Qed.

Lemma culled_of_spec near far viewZ radius :
  culled_of near far viewZ radius = 1
  <-> F32.gt viewZ (radius ⊖ near) = true \/ F32.lt viewZ (F32.neg far ⊖ radius) = true.
Proof.
  unfold culled_of. destruct (F32.gt _ _), (F32.lt _ _); cbn; split; intros; try done;
    try (by left); try (by right); by destruct H.
Qed.

Lemma visible_and_not_spec visible culled :
  visible_and_not visible culled = 1 <-> visible <> 0 /\ culled = 0.
Proof.
  unfold visible_and_not.
  destruct (Z.eqb_spec visible 0), (Z.eqb_spec culled 0); cbn; split; try done;
    intros []; done.
Qed.

Lemma visible_and_not_bool visible culled :
  visible_and_not visible culled = 0 \/ visible_and_not visible culled = 1.
Proof. unfold visible_and_not. destruct (_ && _); auto. Qed.

(** C5 (as the code has it): both culling comparisons are strict.  A light
    is culled exactly when [viewZ > radius - near] or
    [viewZ < -far - radius]; at [viewZ = radius - near] the near test does
    not fire, and neither does it for a smaller [viewZ].  In every loop of
    [update] the record of a live light packs [visible && !culled], which
    is 1 exactly when the flag is set and the light is not culled. *)
Theorem C5_culling_is_strict_and_anded_with_visible `{P : Platform}
    (s : Store.t) (time : f32) :
  frame_ok s ->
  (forall near far viewZ radius,
     culled_of near far viewZ radius = 1
     <-> F32.gt viewZ (radius ⊖ near) = true
         \/ F32.lt viewZ (F32.neg far ⊖ radius) = true)
  /\ (forall near far radius,
        culled_of near far (radius ⊖ near) radius
        = if F32.lt (radius ⊖ near) (F32.neg far ⊖ radius) then 1 else 0)
  /\ (forall near far viewZ radius,
        F32.lt viewZ (radius ⊖ near) = true ->
        culled_of near far viewZ radius
        = if F32.lt viewZ (F32.neg far ⊖ radius) then 1 else 0)
  /\ (forall visible culled,
        visible_and_not visible culled = 1 <-> visible <> 0 /\ culled = 0)
  /\ (forall j, (j < Z.to_nat (Store.pointLightCount s))%nat ->
        exists l0 l d,
          Store.pointLights s !! j = Some l0
          /\ Store.pointLights (update s time).1 !! j = Some l
          /\ Store.pointLightTexture (update s time).1 !! j = Some d
          /\ point_packed d
             = packLightParams (PointLight.decay l)
                 (visible_and_not (PointLight.visible l0)
                    (culled_of (Store.viewNear s) (Store.viewFar s)
                       (Vec4.z (PointLight.viewPos l)) (Vec4.w (PointLight.worldPos l))))
                 (PointLight.lodLevel l))
  /\ (forall j, (j < Z.to_nat (Store.spotLightCount s))%nat ->
        exists l0 l d,
          Store.spotLights s !! j = Some l0
          /\ Store.spotLights (update s time).1 !! j = Some l
          /\ Store.spotLightTexture (update s time).1 !! j = Some d
          /\ spot_packed d
             = packVisibleLOD
                 (visible_and_not (SpotLight.visible l0)
                    (culled_of (Store.viewNear s) (Store.viewFar s)
                       (Vec4.z (SpotLight.viewPos l)) (Vec4.w (SpotLight.worldPos l))))
                 (SpotLight.lodLevel l))
  /\ (forall j, (j < Z.to_nat (Store.rectLightCount s))%nat ->
        exists l0 l d,
          Store.rectLights s !! j = Some l0
          /\ Store.rectLights (update s time).1 !! j = Some l
          /\ Store.rectLightTexture (update s time).1 !! j = Some d
          /\ rect_packed d
             = packVisibleLOD
                 (visible_and_not (RectLight.visible l0)
                    (culled_of (Store.viewNear s) (Store.viewFar s)
                       (Vec4.z (RectLight.viewPos l)) (Vec4.w (RectLight.worldPos l))))
                 (RectLight.lodLevel l)).
Proof.
  intros Hok. split_and!.
  - apply culled_of_spec.
  - apply culled_of_at_near.
  - apply culled_of_closer.
  - apply visible_and_not_spec.
  - intros j Hj.
    destruct (lookup_lt_is_Some_2 (Store.pointLights s) j) as [l0 E0];
      [pose proof (ok_points _ Hok); lia|].
    destruct (frame_point_record s time j l0 Hok Hj E0) as [R1 R2].
    destruct (point_body_written s time j l0) as [_ W].
    eexists _, _, _. split_and!; [exact E0|exact R1|exact R2|exact W].
  - intros j Hj.
    destruct (lookup_lt_is_Some_2 (Store.spotLights s) j) as [l0 E0];
      [pose proof (ok_spots _ Hok); lia|].
    destruct (frame_spot_record s time j l0 Hok Hj E0) as [R1 R2].
    destruct (spot_body_written s time l0) as [_ W].
    eexists _, _, _. split_and!; [exact E0|exact R1|exact R2|exact W].
  - intros j Hj.
    destruct (lookup_lt_is_Some_2 (Store.rectLights s) j) as [l0 E0];
      [pose proof (ok_rects _ Hok); lia|].
    destruct (frame_rect_record s time j l0 Hok Hj E0) as [R1 R2].
    destruct (rect_body_written s time l0) as [_ W].
    eexists _, _, _. split_and!; [exact E0|exact R1|exact R2|exact W].
Qed.

(** A point light of radius 1 at [z = 1 - 0.1] under the identity camera,
    near plane 0.1: its view-space z is exactly [radius - near]. *)
Definition boundary_store : Store.t :=
  (@add (example_platform false) (empty_store 1)
     0 0 (F32.one ⊖ F32.c0_1) F32.one F32.one F32.one F32.one F32.one 0 0 F32.one).1.

Lemma boundary_store_ok : frame_ok boundary_store.
Proof. split; vm_compute; first [lia | discriminate | intros _; discriminate]. Defined.

Lemma C5_witness :
  frame_ok boundary_store
  /\ exists l0 l d,
       Store.pointLights boundary_store !! 0%nat = Some l0
       /\ Store.pointLights (@update (example_platform false) boundary_store 0).1 !! 0%nat
          = Some l
       /\ Store.pointLightTexture (@update (example_platform false) boundary_store 0).1
            !! 0%nat = Some d
       /\ point_packed d
          = packLightParams (PointLight.decay l)
              (visible_and_not (PointLight.visible l0)
                 (culled_of (Store.viewNear boundary_store) (Store.viewFar boundary_store)
                    (Vec4.z (PointLight.viewPos l)) (Vec4.w (PointLight.worldPos l))))
              (PointLight.lodLevel l).
Proof.
  split; [exact boundary_store_ok|].
  apply (proj1 (proj2 (proj2 (proj2 (proj2
           (@C5_culling_is_strict_and_anded_with_visible (example_platform false)
              boundary_store 0 boundary_store_ok)))))).
  vm_compute. lia.
Defined.

(** The claim's boundary case fails: after a frame, the light of
    [boundary_store] has view-space z equal to radius minus near
    (0x3F666666 = 1 - 0.1f), it is not culled, and its record packs
    visibility 1 (113 = decay 1 * 100 + 10 + LOD 3). *)
Lemma C5_counterexample :
  exists l d,
    Store.pointLights (@update (example_platform false) boundary_store 0).1 !! 0%nat
    = Some l
    /\ Store.pointLightTexture (@update (example_platform false) boundary_store 0).1
         !! 0%nat = Some d
    /\ Vec4.z (PointLight.viewPos l)
       = Vec4.w (PointLight.worldPos l) ⊖ Store.viewNear boundary_store
    /\ culled_of (Store.viewNear boundary_store) (Store.viewFar boundary_store)
         (Vec4.z (PointLight.viewPos l)) (Vec4.w (PointLight.worldPos l)) = 0
    /\ point_packed d = packLightParams F32.one 1 LOD_FULL.
Proof. eexists _, _. split_and!; [reflexivity|reflexivity|..]; by vm_compute. Qed.

(* ------------------------------------------------------------------ *)
(** ** C3: authored position and Morton key *)
(* ------------------------------------------------------------------ *)

(** *** The authored position and the Morton key across frames *)

(** What [update] must leave alone in a light. *)
Definition point_key (l : PointLight.t) : Vec4.t * Z :=
  (PointLight.baseWorldPos l, PointLight.morton l).
Definition spot_key (l : SpotLight.t) : Vec4.t * Z :=
  (SpotLight.baseWorldPos l, SpotLight.morton l).
Definition rect_key (l : RectLight.t) : Vec4.t * Z :=
  (RectLight.baseWorldPos l, RectLight.morton l).

Section Keys.
Context {L D X : Type} (K : L -> X) (flagsOf : L -> Z) (body : L -> L * D).
Hypothesis body_key : forall l, K (body l).1 = K l.

Lemma insert_key (ls : list L) i l l' :
  ls !! i = Some l -> K l' = K l -> K <$> <[i:=l']> ls = K <$> ls.
Proof.
  intros Hl Hk. rewrite list_fmap_insert. apply list_insert_id.
  by rewrite list_lookup_fmap, Hl, Hk.
Qed.

Lemma for_lights_keys lo hi ls tex an :
  K <$> (for_lights flagsOf body lo hi (ls, tex, an)).1.1 = K <$> ls.
Proof.
  unfold for_lights. generalize (hi - lo)%nat as n. intros n.
  revert lo ls tex an. induction n as [|n IH]; intros lo ls tex an; [done|].
  cbn [seq fold_left]. unfold light_step at 2.
  destruct (ls !! lo) as [l|] eqn:E; [|apply IH].
  pose proof (body_key l) as Hk. destruct (body l) as [l' d]. rewrite IH.
  by apply (insert_key _ _ l).
Qed.

End Keys.

Section Frames.
Context `{P : Platform}.

Lemma processPointLightAnimation_key l time :
  point_key (processPointLightAnimation l time) = point_key l.
Proof. rewrite processPointLightAnimation_closed. by destruct l. Qed.

Lemma processSpotLightAnimation_key l time :
  spot_key (processSpotLightAnimation l time) = spot_key l.
Proof. rewrite processSpotLightAnimation_closed. by destruct l. Qed.

Lemma processRectLightAnimation_key l time :
  rect_key (processRectLightAnimation l time) = rect_key l.
Proof. rewrite processRectLightAnimation_closed. by destruct l. Qed.

Lemma animatePoint_key time l : point_key (animatePoint time l) = point_key l.
Proof.
  unfold animatePoint. destruct (_ =? _); [by destruct l|].
  apply processPointLightAnimation_key.
Qed.

Lemma animateBatch_key any time l : point_key (animateBatch any time l) = point_key l.
Proof.
  unfold animateBatch. destruct (_ =? _); [by destruct l|].
  apply processPointLightAnimation_key.
Qed.

Lemma pointPipeline_key xf env l : point_key (pointPipeline xf env l).1 = point_key l.
Proof. by destruct l. Qed.

Lemma updatePointScalar_key env time l :
  point_key (updatePointScalar env time l).1 = point_key l.
Proof.
  rewrite updatePointScalar_pipeline, pointPipeline_key. apply animatePoint_key.
Qed.

Lemma updatePointLane_key env time any l :
  point_key (updatePointLane env time any l).1 = point_key l.
Proof. unfold updatePointLane. rewrite pointPipeline_key. apply animateBatch_key. Qed.

Lemma animateSpot_key time l : spot_key (animateSpot time l) = spot_key l.
Proof.
  unfold animateSpot. destruct (_ =? _); [by destruct l|].
  apply processSpotLightAnimation_key.
Qed.

Lemma animateRect_key time l : rect_key (animateRect time l) = rect_key l.
Proof.
  unfold animateRect. destruct (_ =? _); [by destruct l|].
  apply processRectLightAnimation_key.
Qed.

Lemma updateSpotScalar_key env time l :
  spot_key (updateSpotScalar env time l).1 = spot_key l.
Proof.
  rewrite <- (animateSpot_key time l). unfold updateSpotScalar.
  destruct (animateSpot time l). reflexivity.
Qed.

Lemma updateRectScalar_key env time l :
  rect_key (updateRectScalar env time l).1 = rect_key l.
Proof.
  rewrite <- (animateRect_key time l). unfold updateRectScalar.
  destruct (animateRect time l). reflexivity.
Qed.

Lemma simd_step_keys env time i ls tex :
  point_key <$> (simd_step env time i (ls, tex)).1 = point_key <$> ls.
Proof.
  unfold simd_step.
  destruct (ls !! i) as [l0|] eqn:E0; [|done].
  destruct (ls !! (i + 1)%nat) as [l1|] eqn:E1; [|done].
  destruct (ls !! (i + 2)%nat) as [l2|] eqn:E2; [|done].
  destruct (ls !! (i + 3)%nat) as [l3|] eqn:E3; [|done].
  rewrite updatePointBatchSIMD_lanes. cbn [fst].
  rewrite (insert_key point_key _ _ l3); [|by rewrite !list_lookup_insert_ne by lia
                                          |apply updatePointLane_key].
  rewrite (insert_key point_key _ _ l2); [|by rewrite !list_lookup_insert_ne by lia
                                          |apply updatePointLane_key].
  rewrite (insert_key point_key _ _ l1); [|by rewrite !list_lookup_insert_ne by lia
                                          |apply updatePointLane_key].
  by rewrite (insert_key point_key _ _ l0); [|done|apply updatePointLane_key].
Qed.

Lemma simd_loop_keys env time count fuel : forall i ls tex,
  point_key <$> (simd_loop fuel env time count i (ls, tex)).2.1 = point_key <$> ls.
Proof.
  induction fuel as [|fuel IH]; intros i ls tex; [done|].
  cbn [simd_loop]. destruct (_ <? _); [|done].
  pose proof (simd_step_keys env time i ls tex) as Hs.
  destruct (simd_step env time i (ls, tex)) as [ls1 tex1]. by rewrite IH.
Qed.

Lemma updatePointLightsSIMD_keys env time count ls tex :
  point_key <$> (updatePointLightsSIMD env time count (ls, tex)).1 = point_key <$> ls.
Proof.
  unfold updatePointLightsSIMD.
  pose proof (simd_loop_keys env time count (Z.to_nat count) 0%nat ls tex) as H1.
  destruct (simd_loop _ _ _ _ _ _) as [i [ls1 tex1]]. cbn in H1.
  pose proof (for_lights_keys point_key
                (fun l => AnimationParams.flags (PointLight.anim l))
                (updatePointScalar env time) (updatePointScalar_key env time)
                i (Z.to_nat count) ls1 tex1 0) as H2.
  destruct (for_lights _ _ _ _ _) as [[ls2 tex2] an]. cbn in H2. cbn. congruence.
Qed.

Lemma pointsPass_keys time s :
  point_key <$> Store.pointLights (pointsPass time s) = point_key <$> Store.pointLights s
  /\ Store.spotLights (pointsPass time s) = Store.spotLights s
  /\ Store.rectLights (pointsPass time s) = Store.rectLights s.
Proof.
  unfold pointsPass, updatePoints. destruct wasm_simd128.
  - pose proof (updatePointLightsSIMD_keys (env_of s) time (Store.pointLightCount s)
                  (Store.pointLights s) (Store.pointLightTexture s)) as H1.
    by destruct (updatePointLightsSIMD _ _ _ _) as [ls tex].
  - pose proof (for_lights_keys point_key
                  (fun l => AnimationParams.flags (PointLight.anim l))
                  (updatePointScalar (env_of s) time) (updatePointScalar_key _ time)
                  0 (Z.to_nat (Store.pointLightCount s)) (Store.pointLights s)
                  (Store.pointLightTexture s) 0) as H2.
    by destruct (for_lights _ _ _ _ _) as [[ls tex] an].
Qed.

Lemma spotsPass_keys time s :
  Store.pointLights (spotsPass time s) = Store.pointLights s
  /\ spot_key <$> Store.spotLights (spotsPass time s) = spot_key <$> Store.spotLights s
  /\ Store.rectLights (spotsPass time s) = Store.rectLights s.
Proof.
  unfold spotsPass, updateSpots.
  pose proof (for_lights_keys spot_key
                (fun l => AnimationParams.flags (SpotLight.anim l))
                (updateSpotScalar (env_of s) time) (updateSpotScalar_key _ time)
                0 (Z.to_nat (Store.spotLightCount s)) (Store.spotLights s)
                (Store.spotLightTexture s) 0) as H2.
  by destruct (for_lights _ _ _ _ _) as [[ls tex] an].
Qed.

Lemma rectsPass_keys time s :
  Store.pointLights (rectsPass time s) = Store.pointLights s
  /\ Store.spotLights (rectsPass time s) = Store.spotLights s
  /\ rect_key <$> Store.rectLights (rectsPass time s) = rect_key <$> Store.rectLights s.
Proof.
  unfold rectsPass, updateRects.
  pose proof (for_lights_keys rect_key
                (fun l => AnimationParams.flags (RectLight.anim l))
                (updateRectScalar (env_of s) time) (updateRectScalar_key _ time)
                0 (Z.to_nat (Store.rectLightCount s)) (Store.rectLights s)
                (Store.rectLightTexture s) 0) as H2.
  by destruct (for_lights _ _ _ _ _) as [[ls tex] an].
Qed.

Lemma update_keys s time :
  point_key <$> Store.pointLights (update s time).1 = point_key <$> Store.pointLights s
  /\ spot_key <$> Store.spotLights (update s time).1 = spot_key <$> Store.spotLights s
  /\ rect_key <$> Store.rectLights (update s time).1 = rect_key <$> Store.rectLights s.
Proof.
  rewrite update_frame. unfold frame.
  set (s0 := Store.set_view _ s).
  change (Store.pointLights s) with (Store.pointLights s0).
  change (Store.spotLights s) with (Store.spotLights s0).
  change (Store.rectLights s) with (Store.rectLights s0).
  generalize s0. clear s0. intros s0.
  set (s1 := if truthy (Store.hasPointLights s) then pointsPass time s0 else s0).
  assert (H1 : point_key <$> Store.pointLights s1 = point_key <$> Store.pointLights s0
               /\ Store.spotLights s1 = Store.spotLights s0
               /\ Store.rectLights s1 = Store.rectLights s0).
  { unfold s1. destruct (truthy _); [apply pointsPass_keys|done]. }
  destruct H1 as (<- & <- & <-). generalize s1. clear s1 s0. intros s1.
  set (s2 := if truthy (Store.hasSpotLights s) then spotsPass time s1 else s1).
  assert (H2 : Store.pointLights s2 = Store.pointLights s1
               /\ spot_key <$> Store.spotLights s2 = spot_key <$> Store.spotLights s1
               /\ Store.rectLights s2 = Store.rectLights s1).
  { unfold s2. destruct (truthy _); [apply spotsPass_keys|done]. }
  destruct H2 as (<- & <- & <-). generalize s2. clear s2 s1. intros s2.
  destruct (truthy _); [|done].
  destruct (rectsPass_keys time s2) as (-> & -> & ->). done.
Qed.

End Frames.

(** The store after the frames at [times], in order. *)
Definition frames `{Platform} (s : Store.t) (times : list f32) : Store.t :=
  fold_left (fun s time => (update s time).1) times s.

Lemma alter_key {L X : Type} (K : L -> X) (f : L -> L) (i : nat) (ls : list L) :
  (forall l, K (f l) = K l) -> K <$> alter f i ls = K <$> ls.
Proof.
  intros Hf. revert i. induction ls as [|l ls IH]; intros [|i]; cbn; [done..| |].
  - by rewrite Hf.
  - f_equal. apply IH.
Qed.

Lemma at_index_key {L X : Type} (K : L -> X) (f : L -> L) idx count (ls : list L) :
  (forall l, K (f l) = K l) -> K <$> at_index idx count f ls = K <$> ls.
Proof. intros Hf. unfold at_index. destruct (_ && _); [by apply alter_key|done]. Qed.

Lemma at_index_lookup {L : Type} (f : L -> L) idx count (ls : list L) l :
  in_range idx count = true -> ls !! Z.to_nat idx = Some l ->
  at_index idx count f ls !! Z.to_nat idx = Some (f l).
Proof.
  unfold in_range, at_index. intros -> Hl.
  rewrite list_lookup_alter_eq. by rewrite Hl.
Qed.

Lemma frames_keys `{P : Platform} (times : list f32) : forall s,
  point_key <$> Store.pointLights (frames s times) = point_key <$> Store.pointLights s
  /\ spot_key <$> Store.spotLights (frames s times) = spot_key <$> Store.spotLights s
  /\ rect_key <$> Store.rectLights (frames s times) = rect_key <$> Store.rectLights s.
Proof.
  unfold frames. induction times as [|t times IH]; intros s; [done|].
  cbn [fold_left]. destruct (IH (update s t).1) as (-> & -> & ->). apply update_keys.
Qed.

(** C3: no sequence of [update] calls changes the [baseWorldPos] or the
    [morton] key of any light of any kind, whatever its animation flags.
    An explicit position change sets the three coordinates of
    [baseWorldPos] and recomputes [morton] from the new x and z; an
    explicit radius change sets [baseWorldPos.w] and leaves [morton]
    alone. *)
Theorem C3_frames_keep_base_position_and_morton `{P : Platform}
    (s : Store.t) (times : list f32) :
  (point_key <$> Store.pointLights (frames s times) = point_key <$> Store.pointLights s
   /\ spot_key <$> Store.spotLights (frames s times) = spot_key <$> Store.spotLights s
   /\ rect_key <$> Store.rectLights (frames s times) = rect_key <$> Store.rectLights s)
  /\ (forall idx x y z l,
        in_range idx (Store.pointLightCount s) = true ->
        Store.pointLights s !! Z.to_nat idx = Some l ->
        exists l',
          Store.pointLights (updatePointLightPosition s idx x y z) !! Z.to_nat idx
          = Some l'
          /\ point_key l' = (set_xyz x y z (PointLight.baseWorldPos l), computeMorton x z))
  /\ (forall idx x y z l,
        in_range idx (Store.spotLightCount s) = true ->
        Store.spotLights s !! Z.to_nat idx = Some l ->
        exists l',
          Store.spotLights (updateSpotLightPosition s idx x y z) !! Z.to_nat idx
          = Some l'
          /\ spot_key l' = (set_xyz x y z (SpotLight.baseWorldPos l), computeMorton x z))
  /\ (forall idx x y z l,
        in_range idx (Store.rectLightCount s) = true ->
        Store.rectLights s !! Z.to_nat idx = Some l ->
        exists l',
          Store.rectLights (updateRectLightPosition s idx x y z) !! Z.to_nat idx
          = Some l'
          /\ rect_key l' = (set_xyz x y z (RectLight.baseWorldPos l), computeMorton x z))
  /\ (forall idx radius,
        PointLight.morton <$> Store.pointLights (updatePointLightRadius s idx radius)
        = PointLight.morton <$> Store.pointLights s)
  /\ (forall idx radius,
        SpotLight.morton <$> Store.spotLights (updateSpotLightRadius s idx radius)
        = SpotLight.morton <$> Store.spotLights s)
  /\ (forall idx radius,
        RectLight.morton <$> Store.rectLights (updateRectLightRadius s idx radius)
        = RectLight.morton <$> Store.rectLights s).
Proof.
  split; [apply frames_keys|]. split_and!.
  - intros idx x y z l Hr Hl. unfold updatePointLightPosition. rewrite Hr.
    eexists. split; [by apply at_index_lookup|]. by destruct l.
  - intros idx x y z l Hr Hl. unfold updateSpotLightPosition. rewrite Hr.
    eexists. split; [by apply at_index_lookup|]. by destruct l.
  - intros idx x y z l Hr Hl. unfold updateRectLightPosition. rewrite Hr.
    eexists. split; [by apply at_index_lookup|]. by destruct l.
  - intros idx radius. unfold updatePointLightRadius.
    apply (at_index_key PointLight.morton). by intros [].
  - intros idx radius. unfold updateSpotLightRadius.
    apply (at_index_key SpotLight.morton). by intros [].
  - intros idx radius. unfold updateRectLightRadius.
    apply (at_index_key RectLight.morton). by intros [].
Qed.

(* ------------------------------------------------------------------ *)
(** ** C2 and C6: intensity *)
(* ------------------------------------------------------------------ *)

(** *** Evaluating the animation twice *)

Section Twice.
Context `{P : Platform}.

Lemma processPointLightAnimation_twice l time :
  processPointLightAnimation (processPointLightAnimation l time) time
  = processPointLightAnimation l time.
Proof.
  rewrite (processPointLightAnimation_closed (processPointLightAnimation l time)).
  rewrite processPointLightAnimation_closed. by destruct l.
Qed.

Lemma processSpotLightAnimation_twice l time :
  processSpotLightAnimation (processSpotLightAnimation l time) time
  = SpotLight.set_color
      (area_color (SpotLight.anim l)
         (SpotLight.color (processSpotLightAnimation l time)) time)
      (processSpotLightAnimation l time).
Proof.
  rewrite (processSpotLightAnimation_closed (processSpotLightAnimation l time)).
  rewrite processSpotLightAnimation_closed. by destruct l.
Qed.

Lemma processRectLightAnimation_twice l time :
  processRectLightAnimation (processRectLightAnimation l time) time
  = RectLight.set_color
      (area_color (RectLight.anim l)
         (RectLight.color (processRectLightAnimation l time)) time)
      (processRectLightAnimation l time).
Proof.
  rewrite (processRectLightAnimation_closed (processRectLightAnimation l time)).
  rewrite processRectLightAnimation_closed.
  destruct l as [base off wp col sz nor tan bit vp vn vt bnor btan bbit a dcy mor dty vis
                   lod cs si].
  rect_norm. unfold rect_axis.
  destruct (animated a); [|reflexivity].
  unfold when_rotating. by destruct (has_flag _ _).
Qed.

End Twice.

(** A spot light and a rect light of intensity 1 whose only animation is
    a pulse of the intensity, speed 1 and amount 1, as
    [addSpotWithAnimation] and [addRectWithAnimation] set them up. *)
Definition pulsing_spot : SpotLight.t :=
  @addSpotWithAnimation_slot (example_platform false) zero_spot
    0 0 0 F32.one  F32.one F32.one F32.one  0 0 F32.one  F32.one 0 F32.one F32.one
    ANIM_PULSE  0 0 0 0 0 0  0 0 0 0 0 0  0 0 0  F32.one F32.one PULSE_INTENSITY.

Definition pulsing_rect : RectLight.t :=
  @addRectWithAnimation_slot (example_platform false) zero_rect
    0 0 0 F32.one F32.one 0 0 F32.one  F32.one F32.one F32.one F32.one F32.one F32.one
    ANIM_PULSE  0 0 0 0 0 0  0 0 0 0 0 0  0 0 0  F32.one F32.one PULSE_INTENSITY.

(** C2: evaluating [processPointLightAnimation] twice with the same time
    gives the light of one evaluation.  For spot and rect lights the
    second evaluation reproduces the animation offset, the world position
    and the direction or basis of the first, and scales the colour the
    first one left once more by the flicker and pulse factors: with a
    pulse of the intensity at time 1 the intensity 1 becomes 1.8414709
    (0x3FEBB552) after one evaluation and 3.3910151 (0x40590665) after
    two. *)
Theorem C2_animation_evaluated_twice :
  (forall (P : Platform) (l : PointLight.t) (time : f32),
     processPointLightAnimation (processPointLightAnimation l time) time
     = processPointLightAnimation l time)
  /\ (forall (P : Platform) (l : SpotLight.t) (time : f32),
        processSpotLightAnimation (processSpotLightAnimation l time) time
        = SpotLight.set_color
            (area_color (SpotLight.anim l)
               (SpotLight.color (processSpotLightAnimation l time)) time)
            (processSpotLightAnimation l time))
  /\ (forall (P : Platform) (l : RectLight.t) (time : f32),
        processRectLightAnimation (processRectLightAnimation l time) time
        = RectLight.set_color
            (area_color (RectLight.anim l)
               (RectLight.color (processRectLightAnimation l time)) time)
            (processRectLightAnimation l time))
  /\ (let once := @processSpotLightAnimation (example_platform false) pulsing_spot F32.one in
      let twice := @processSpotLightAnimation (example_platform false) once F32.one in
      Vec4.w (SpotLight.color once) = 1072411986
      /\ Vec4.w (SpotLight.color twice) = 1079576165)
  /\ (let once := @processRectLightAnimation (example_platform false) pulsing_rect F32.one in
      let twice := @processRectLightAnimation (example_platform false) once F32.one in
      Vec4.w (RectLight.color once) = 1072411986
      /\ Vec4.w (RectLight.color twice) = 1079576165).
Proof.
  split_and!.
  - intros. apply processPointLightAnimation_twice.
  - intros. apply processSpotLightAnimation_twice.
  - intros. apply processRectLightAnimation_twice.
  - by vm_compute.
  - by vm_compute.
Qed.

(** *** Flicker and pulse on the intensity *)

Section FlickerPulse.
Context `{P : Platform}.

Lemma point_intensity_flicker_pulse (l : PointLight.t) (time : f32) :
  let a := PointLight.anim l in
  has_flag (AnimationParams.flags a) ANIM_FLICKER = true ->
  has_flag (AnimationParams.flags a) ANIM_PULSE = true ->
  has_flag (PulseParams.target (AnimationParams.pulse a)) PULSE_INTENSITY = true ->
  Vec4.w (PointLight.color (processPointLightAnimation l time))
  = Vec4.w (PointLight.baseColor l) ⊗ pulse_factor (AnimationParams.pulse a) time.
Proof.
  intros a Hf Hp Ht. rewrite processPointLightAnimation_closed. fold a.
  destruct l. cbn [PointLight.color PointLight.set_color PointLight.baseColor].
  unfold point_color, animated, point_pulsed.
  rewrite (has_flag_nonzero _ _ Hf), Hp, Ht. reflexivity.
Qed.

Lemma spot_intensity_flicker_pulse (l : SpotLight.t) (time : f32) :
  let a := SpotLight.anim l in
  has_flag (AnimationParams.flags a) ANIM_FLICKER = true ->
  has_flag (AnimationParams.flags a) ANIM_PULSE = true ->
  has_flag (PulseParams.target (AnimationParams.pulse a)) PULSE_INTENSITY = true ->
  Vec4.w (SpotLight.color (processSpotLightAnimation l time))
  = Vec4.w (SpotLight.color l) ⊗ flicker_factor (AnimationParams.flicker a) time
    ⊗ pulse_factor (AnimationParams.pulse a) time.
Proof.
  intros a Hf Hp Ht. rewrite processSpotLightAnimation_closed. fold a.
  destruct l. cbn [SpotLight.color SpotLight.set_color].
  unfold area_color, animated, area_pulsed, area_flickered.
  rewrite (has_flag_nonzero _ _ Hf), Hp, Ht, Hf. reflexivity.
Qed.

Lemma rect_intensity_flicker_pulse (l : RectLight.t) (time : f32) :
  let a := RectLight.anim l in
  has_flag (AnimationParams.flags a) ANIM_FLICKER = true ->
  has_flag (AnimationParams.flags a) ANIM_PULSE = true ->
  has_flag (PulseParams.target (AnimationParams.pulse a)) PULSE_INTENSITY = true ->
  Vec4.w (RectLight.color (processRectLightAnimation l time))
  = Vec4.w (RectLight.color l) ⊗ flicker_factor (AnimationParams.flicker a) time
    ⊗ pulse_factor (AnimationParams.pulse a) time.
Proof.
  intros a Hf Hp Ht. rewrite processRectLightAnimation_closed. fold a.
  destruct l. cbn [RectLight.color RectLight.set_color].
  unfold area_color, animated, area_pulsed, area_flickered.
  rewrite (has_flag_nonzero _ _ Hf), Hp, Ht, Hf. reflexivity.
Qed.

End FlickerPulse.

(** A point light of intensity 1 with a flicker (speed 1, intensity 1,
    seed 0) and a pulse of the intensity (speed 1, amount 1), as
    [addPointWithAnimation] sets it up. *)
Definition flicker_pulse_point : PointLight.t :=
  @addPointWithAnimation_slot (example_platform false) zero_point
    0 0 0 F32.one  F32.one F32.one F32.one F32.one F32.one
    (Z.lor ANIM_FLICKER ANIM_PULSE)  0 0  0 0 0 0 0 0  0 0 0 0 0 0
    F32.one F32.one 0  F32.one F32.one PULSE_INTENSITY.

(** C6: with flicker and a pulse of the intensity both active, the
    intensity [processPointLightAnimation] leaves is the authored
    intensity times the pulse multiplier alone: the pulse block assigns
    [baseColor.w * pulse] over the flickered value.  At time 1 the
    example light has flicker factor 0.8915811 (0x3F643EA8) and pulse
    multiplier 1.8414709 (0x3FEBB552); its intensity becomes 1.8414709,
    where the product of the two would be 1.6418207 (0x3FD2272E). *)
Theorem C6_point_pulse_replaces_flicker :
  (forall (P : Platform) (l : PointLight.t) (time : f32),
     has_flag (AnimationParams.flags (PointLight.anim l)) ANIM_FLICKER = true ->
     has_flag (AnimationParams.flags (PointLight.anim l)) ANIM_PULSE = true ->
     has_flag (PulseParams.target (AnimationParams.pulse (PointLight.anim l)))
       PULSE_INTENSITY = true ->
     Vec4.w (PointLight.color (processPointLightAnimation l time))
     = Vec4.w (PointLight.baseColor l)
       ⊗ pulse_factor (AnimationParams.pulse (PointLight.anim l)) time)
  /\ (let a := PointLight.anim flicker_pulse_point in
      let flicker :=
        @flicker_factor (example_platform false) (AnimationParams.flicker a) F32.one in
      let pulse :=
        @pulse_factor (example_platform false) (AnimationParams.pulse a) F32.one in
      flicker = 1063534248 /\ pulse = 1072411986
      /\ Vec4.w (PointLight.baseColor flicker_pulse_point) ⊗ flicker ⊗ pulse = 1070737198
      /\ Vec4.w (PointLight.color
                   (@processPointLightAnimation (example_platform false)
                      flicker_pulse_point F32.one))
         = 1072411986).
Proof.
  split.
  - intros. by apply point_intensity_flicker_pulse.
  - by vm_compute.
Qed.

(* ------------------------------------------------------------------ *)
(** ** C8 and C9: creation and capacity *)
(* ------------------------------------------------------------------ *)

(** *** Bulk ingestion against the single-light entry points *)

(** One spot light with direction (0, 0, 2), ingested by [bulkAddLights]
    and created by [addSpot] from the same parameters. *)
Definition bulk_spot_example : Store.t * Z :=
  @bulkAddLights (example_platform false) (empty_store 1) 1 [1]
    [0; 0; 0; F32.one] [F32.one; F32.one; F32.one; F32.one] [F32.one] None []
    [0; 0; F32.two; F32.one; 0; 0] [].

Definition single_spot_example : Store.t * Z :=
  @addSpot (example_platform false) (empty_store 1)
    0 0 0 F32.one  F32.one F32.one F32.one  0 0 F32.two  F32.one 0 F32.one F32.one.

(** C8: the spot branch of [bulkAddLights] stores the direction it is
    given, where [addSpot] and [addSpotWithAnimation] store it normalised;
    the rect branch normalises the normal and builds the basis as
    [addRect] does.  Ingesting the direction (0, 0, 2) leaves a light with
    direction (0, 0, 2); [addSpot] leaves (0, 0, 1). *)
Theorem C8_bulk_spot_direction_is_not_normalized :
  (forall (P : Platform) old i spotIdx positions colors decays animFlags animParams
          spotParams,
     SpotLight.direction
       (bulk_spot_slot old i spotIdx positions colors decays animFlags animParams
          spotParams)
     = Vec4.mk (rd spotParams (spotIdx * 6)) (rd spotParams (spotIdx * 6 + 1))
         (rd spotParams (spotIdx * 6 + 2)) F32.zero)
  /\ (forall (P : Platform) old px py pz radius r g b dx dy dz angle penumbra decay
             intensity,
        SpotLight.direction
          (addSpot_slot old px py pz radius r g b dx dy dz angle penumbra decay intensity)
        = normalize_inv dx dy dz)
  /\ (forall (P : Platform) old i rectIdx positions colors decays animFlags animParams
             rectParams,
        let l := bulk_rect_slot old i rectIdx positions colors decays animFlags animParams
                   rectParams in
        RectLight.normal l
        = normalize_inv (rd rectParams (rectIdx * 6 + 2)) (rd rectParams (rectIdx * 6 + 3))
            (rd rectParams (rectIdx * 6 + 4))
        /\ (RectLight.tangent l, RectLight.bitangent l)
           = buildOrthonormalBasis (RectLight.normal l))
  /\ (bulk_spot_example.2 = 1
      /\ SpotLight.direction <$> Store.spotLights bulk_spot_example.1 !! 0%nat
         = Some (Vec4.mk 0 0 F32.two 0))
  /\ (single_spot_example.2 = 0
      /\ SpotLight.direction <$> Store.spotLights single_spot_example.1 !! 0%nat
         = Some (Vec4.mk 0 0 F32.one 0)).
Proof.
  split_and!.
  - reflexivity.
  - reflexivity.
  - intros. unfold l, bulk_rect_slot.
    destruct (buildOrthonormalBasis _) as [t b] eqn:E.
    cbn [RectLight.normal RectLight.tangent RectLight.bitangent]. by rewrite E.
  - by vm_compute.
  - by vm_compute.
  - by vm_compute.
  - by vm_compute.
Qed.

(** *** Capacity *)

(** The counts of a store are within its capacity. *)
Record counts_ok (s : Store.t) : Prop := {
  points_within : 0 <= Store.pointLightCount s <= Store.maxLights s;
  spots_within : 0 <= Store.spotLightCount s <= Store.maxLights s;
  rects_within : 0 <= Store.rectLightCount s <= Store.maxLights s
}.

(** What a creation call answers: at capacity the sentinel and the store
    as it was; below capacity the index of the new light, which is the
    old count, and a store with that count one higher and the others and
    the capacity as they were. *)
Definition created (count : Store.t -> Z) (others : Store.t -> Z * Z * Z)
    (s : Store.t) (r : Store.t * Z) : Prop :=
  if Store.maxLights s <=? count s
  then r = (s, -1)
  else r.2 = count s /\ count r.1 = count s + 1 /\ others r.1 = others s.

Definition but_points (s : Store.t) : Z * Z * Z :=
  (Store.spotLightCount s, Store.rectLightCount s, Store.maxLights s).
Definition but_spots (s : Store.t) : Z * Z * Z :=
  (Store.pointLightCount s, Store.rectLightCount s, Store.maxLights s).
Definition but_rects (s : Store.t) : Z * Z * Z :=
  (Store.pointLightCount s, Store.spotLightCount s, Store.maxLights s).

Ltac creation f :=
  intros; unfold created, f;
  match goal with s : Store.t |- _ => destruct s end;
  cbn [Store.maxLights Store.pointLightCount Store.spotLightCount Store.rectLightCount];
  destruct (_ <=? _); [reflexivity|];
  repeat match goal with |- context [if ?b then _ else _] => destruct b end;
  split_and!; reflexivity.

Section Creation.
Context `{P : Platform}.

Lemma add_created s px py pz radius r g b decay speed animRadius intensity :
  created Store.pointLightCount but_points s
    (add s px py pz radius r g b decay speed animRadius intensity).
Proof. creation @add. Qed.

Lemma addFast_created s px py pz radius r g b intensity :
  created Store.pointLightCount but_points s (addFast s px py pz radius r g b intensity).
Proof. creation @addFast. Qed.

Lemma addPointWithAnimation_created s px py pz radius r g b intensity decay animFlags
    circSpeed circRadius targetX targetY targetZ duration delay linearMode
    waveAxisX waveAxisY waveAxisZ waveSpeed waveAmplitude wavePhase
    flickerSpeed flickerIntensity flickerSeed pulseSpeed pulseAmount pulseTarget :
  created Store.pointLightCount but_points s
    (addPointWithAnimation s px py pz radius r g b intensity decay animFlags
       circSpeed circRadius targetX targetY targetZ duration delay linearMode
       waveAxisX waveAxisY waveAxisZ waveSpeed waveAmplitude wavePhase
       flickerSpeed flickerIntensity flickerSeed pulseSpeed pulseAmount pulseTarget).
Proof. creation @addPointWithAnimation. Qed.

Lemma addSpot_created s px py pz radius r g b dx dy dz angle penumbra decay intensity :
  created Store.spotLightCount but_spots s
    (addSpot s px py pz radius r g b dx dy dz angle penumbra decay intensity).
Proof. creation @addSpot. Qed.

Lemma addSpotWithAnimation_created s px py pz radius r g b dx dy dz angle penumbra decay
    intensity animFlags targetX targetY targetZ duration delay linearMode
    rotAxisX rotAxisY rotAxisZ rotSpeed rotAngle rotMode
    flickerSpeed flickerIntensity flickerSeed pulseSpeed pulseAmount pulseTarget :
  created Store.spotLightCount but_spots s
    (addSpotWithAnimation s px py pz radius r g b dx dy dz angle penumbra decay
       intensity animFlags targetX targetY targetZ duration delay linearMode
       rotAxisX rotAxisY rotAxisZ rotSpeed rotAngle rotMode
       flickerSpeed flickerIntensity flickerSeed pulseSpeed pulseAmount pulseTarget).
Proof. creation @addSpotWithAnimation. Qed.

Lemma addRect_created s px py pz width height nx ny nz r g b intensity decay radius :
  created Store.rectLightCount but_rects s
    (addRect s px py pz width height nx ny nz r g b intensity decay radius).
Proof. creation @addRect. Qed.

Lemma addRectWithAnimation_created s px py pz width height nx ny nz r g b intensity decay
    radius animFlags targetX targetY targetZ duration delay linearMode
    rotAxisX rotAxisY rotAxisZ rotSpeed rotAngle rotMode
    flickerSpeed flickerIntensity flickerSeed pulseSpeed pulseAmount pulseTarget :
  created Store.rectLightCount but_rects s
    (addRectWithAnimation s px py pz width height nx ny nz r g b intensity decay
       radius animFlags targetX targetY targetZ duration delay linearMode
       rotAxisX rotAxisY rotAxisZ rotSpeed rotAngle rotMode
       flickerSpeed flickerIntensity flickerSeed pulseSpeed pulseAmount pulseTarget).
Proof. creation @addRectWithAnimation. Qed.

End Creation.

(** *** Bulk ingestion and capacity *)

Lemma i32_id (n : Z) : - 2147483648 <= n < 2147483648 -> i32 n = n.
Proof. intros H. unfold i32. rewrite Z.mod_small; lia. Qed.

Section Bulk.
Context `{P : Platform}.

(** The number of lights [bulkAddPointLights] ingests. *)
Definition bulk_points_taken (s : Store.t) (count : Z) : Z :=
  Z.max 0 (if Store.maxLights s <? i32 (Store.pointLightCount s + count)
           then i32 (Store.maxLights s - Store.pointLightCount s)
           else count).

Lemma bulkAddPointLights_counts s count positions colors decays animFlags animParams :
  let r := bulkAddPointLights s count positions colors decays animFlags animParams in
  r.2 = bulk_points_taken s count
  /\ Store.pointLightCount r.1 = Store.pointLightCount s + bulk_points_taken s count
  /\ but_points r.1 = but_points s.
Proof.
  unfold bulkAddPointLights, bulk_points_taken.
  set (n := if _ <? _ then _ else _).
  destruct (fold_left _ _ _) as [ls an]. destruct s. cbn.
  rewrite ZifyInst.of_nat_to_nat_eq. done.
Qed.

(** How many of the first [n] entries of [types] ask for kind [k]. *)
Definition requested (types : list Z) (n : nat) (k : Z) : Z :=
  Z.of_nat (length (filter (fun i => nth i types 0 = k) (seq 0 n))).

Lemma requested_S types n k :
  requested types (S n) k
  = requested types n k + (if nth n types 0 =? k then 1 else 0).
Proof.
  unfold requested. rewrite seq_S, filter_app, length_app. cbn [Nat.add].
  rewrite filter_cons, filter_nil.
  destruct (Z.eqb_spec (nth n types 0) k); destruct (decide _); try done; cbn; lia.
Qed.

Lemma requested_nonneg types n k : 0 <= requested types n k.
Proof. unfold requested. lia. Qed.

Lemma requested_total types n :
  requested types n 0 + requested types n 1 + requested types n 2 <= Z.of_nat n.
Proof.
  induction n as [|n IH]; [done|]. rewrite !requested_S.
  destruct (Z.eqb_spec (nth n types 0) 0), (Z.eqb_spec (nth n types 0) 1),
    (Z.eqb_spec (nth n types 0) 2); lia.
Qed.

(** The counters of the loop of [bulkAddLights]. *)
Definition bulk_summary (st : Bulk.t) : Z * Z * Z * Z * (Z * Z * Z) :=
  (Store.pointLightCount (Bulk.store st), Store.spotLightCount (Bulk.store st),
   Store.rectLightCount (Bulk.store st), Store.maxLights (Bulk.store st),
   (Bulk.pointAdded st, Bulk.spotAdded st, Bulk.rectAdded st)).

Lemma bulk_step_summary types positions colors decays animFlags animParams spotParams
    rectParams st k :
  bulk_summary (bulk_step types positions colors decays animFlags animParams spotParams
                  rectParams st k)
  = let '(pc, sc, rc, mx, (pa, sa, ra)) := bulk_summary st in
    let ty := nth k types 0 in
    if ty =? 0 then if mx <=? pc then (pc, sc, rc, mx, (pa, sa, ra))
                    else (pc + 1, sc, rc, mx, (pa + 1, sa, ra))
    else if ty =? 1 then if mx <=? sc then (pc, sc, rc, mx, (pa, sa, ra))
                         else (pc, sc + 1, rc, mx, (pa, sa + 1, ra))
    else if ty =? 2 then if mx <=? rc then (pc, sc, rc, mx, (pa, sa, ra))
                         else (pc, sc, rc + 1, mx, (pa, sa, ra + 1))
    else (pc, sc, rc, mx, (pa, sa, ra)).
Proof.
  unfold bulk_step, bulk_summary. destruct st as [s pa sa ra si ri]. destruct s.
  cbn [Bulk.store Bulk.pointAdded Bulk.spotAdded Bulk.rectAdded Store.maxLights
       Store.pointLightCount Store.spotLightCount Store.rectLightCount].
  destruct (_ =? 0); [|destruct (_ =? 1); [|destruct (_ =? 2)]];
    try reflexivity;
    (destruct (_ <=? _); [reflexivity|]);
    destruct (sets_animated _ _); reflexivity.
Qed.

(** After [n] entries each kind has taken what was asked of it, up to the
    room it had. *)
Lemma bulk_fold_summary types positions colors decays animFlags animParams spotParams
    rectParams s : counts_ok s -> forall n,
  bulk_summary
    (fold_left (bulk_step types positions colors decays animFlags animParams spotParams
                  rectParams) (seq 0 n) (Bulk.mk s 0 0 0 0 0))
  = let room c := Store.maxLights s - c s in
    let took c k := Z.min (requested types n k) (room c) in
    (Store.pointLightCount s + took Store.pointLightCount 0,
     Store.spotLightCount s + took Store.spotLightCount 1,
     Store.rectLightCount s + took Store.rectLightCount 2,
     Store.maxLights s,
     (took Store.pointLightCount 0, took Store.spotLightCount 1,
      took Store.rectLightCount 2)).
Proof.
  intros [Hp Hs Hr]. induction n as [|n IH].
  - cbn. unfold bulk_summary, requested. cbn.
    rewrite !Z.min_l by lia.
    repeat match goal with |- (_, _) = (_, _) => f_equal end; lia.
  - rewrite seq_S, fold_left_app. cbn [fold_left Nat.add].
    rewrite bulk_step_summary, IH. cbv zeta. rewrite !requested_S.
    pose proof (requested_nonneg types n 0). pose proof (requested_nonneg types n 1).
    pose proof (requested_nonneg types n 2).
    destruct (Z.eqb_spec (nth n types 0) 0) as [E0|E0];
      [|destruct (Z.eqb_spec (nth n types 0) 1) as [E1|E1];
        [|destruct (Z.eqb_spec (nth n types 0) 2) as [E2|E2]]];
      rewrite ?E0, ?E1, ?E2; cbn [Z.eqb Pos.eqb];
      try match goal with |- context [?a <=? ?b] => destruct (Z.leb_spec a b) end;
      repeat match goal with |- context [?a =? ?b] =>
        destruct (Z.eqb_spec a b); [lia|] end;
      repeat match goal with |- (_, _) = (_, _) => f_equal end; lia.
Qed.

Lemma bulkAddLights_counts s count types positions colors decays animFlags animParams
    spotParams rectParams :
  counts_ok s ->
  let r := bulkAddLights s count types positions colors decays animFlags animParams
             spotParams rectParams in
  let room c := Store.maxLights s - c s in
  let took c k := Z.min (requested types (Z.to_nat count) k) (room c) in
  Store.pointLightCount r.1 = Store.pointLightCount s + took Store.pointLightCount 0
  /\ Store.spotLightCount r.1 = Store.spotLightCount s + took Store.spotLightCount 1
  /\ Store.rectLightCount r.1 = Store.rectLightCount s + took Store.rectLightCount 2
  /\ Store.maxLights r.1 = Store.maxLights s
  /\ r.2 = took Store.pointLightCount 0 + took Store.spotLightCount 1
           + took Store.rectLightCount 2.
Proof.
  intros Hok. unfold bulkAddLights.
  pose proof (bulk_fold_summary types positions colors decays animFlags animParams
                spotParams rectParams s Hok (Z.to_nat count)) as H.
  destruct (fold_left _ _ _) as [s' pa sa ra si ri]. unfold bulk_summary in H.
  cbn in H. destruct s'. cbn in *. by simplify_eq.
Qed.

End Bulk.

(** A creation call reports through its answer alone: [created], the
    counts still within capacity, and the sentinel exactly at capacity. *)
Definition reported (count : Store.t -> Z) (others : Store.t -> Z * Z * Z)
    (s : Store.t) (r : Store.t * Z) : Prop :=
  created count others s r
  /\ counts_ok r.1
  /\ (r.2 = -1 <-> Store.maxLights s <= count s).

Lemma created_points s r : counts_ok s ->
  created Store.pointLightCount but_points s r ->
  reported Store.pointLightCount but_points s r.
Proof.
  intros [Hp Hs Hr] Hc. split; [done|]. unfold created, but_points in Hc.
  destruct (Z.leb_spec (Store.maxLights s) (Store.pointLightCount s)).
  - subst r. cbn. split; [by split|]. done.
  - destruct Hc as (E1 & E2 & E3). simplify_eq. split; [split; lia|]. lia.
Qed.

Lemma created_spots s r : counts_ok s ->
  created Store.spotLightCount but_spots s r ->
  reported Store.spotLightCount but_spots s r.
Proof.
  intros [Hp Hs Hr] Hc. split; [done|]. unfold created, but_spots in Hc.
  destruct (Z.leb_spec (Store.maxLights s) (Store.spotLightCount s)).
  - subst r. cbn. split; [by split|]. done.
  - destruct Hc as (E1 & E2 & E3). simplify_eq. split; [split; lia|]. lia.
Qed.

Lemma created_rects s r : counts_ok s ->
  created Store.rectLightCount but_rects s r ->
  reported Store.rectLightCount but_rects s r.
Proof.
  intros [Hp Hs Hr] Hc. split; [done|]. unfold created, but_rects in Hc.
  destruct (Z.leb_spec (Store.maxLights s) (Store.rectLightCount s)).
  - subst r. cbn. split; [by split|]. done.
  - destruct Hc as (E1 & E2 & E3). simplify_eq. split; [split; lia|]. lia.
Qed.

(** C9: every creation entry point called at capacity answers -1 and
    leaves the store as it was; below capacity it answers the index of
    the new light, which is not -1.  [bulkAddPointLights] asked for more
    than the room left ingests exactly the room left and answers that
    number, which is less than the number asked for; [bulkAddLights]
    ingests of each kind what is asked up to the room of that kind,
    answers the total, and answers less than the number asked for when
    some kind is asked for more than its room.  All of them keep the
    counts within the capacity. *)
Theorem C9_capacity_is_reported_by_return_values `{P : Platform} (s : Store.t) :
  counts_ok s ->
  (forall px py pz radius r g b decay speed animRadius intensity,
     reported Store.pointLightCount but_points s
       (add s px py pz radius r g b decay speed animRadius intensity))
  /\ (forall px py pz radius r g b intensity,
        reported Store.pointLightCount but_points s
          (addFast s px py pz radius r g b intensity))
  /\ (forall px py pz radius r g b intensity decay animFlags
             circSpeed circRadius targetX targetY targetZ duration delay linearMode
             waveAxisX waveAxisY waveAxisZ waveSpeed waveAmplitude wavePhase
             flickerSpeed flickerIntensity flickerSeed pulseSpeed pulseAmount pulseTarget,
        reported Store.pointLightCount but_points s
          (addPointWithAnimation s px py pz radius r g b intensity decay animFlags
             circSpeed circRadius targetX targetY targetZ duration delay linearMode
             waveAxisX waveAxisY waveAxisZ waveSpeed waveAmplitude wavePhase
             flickerSpeed flickerIntensity flickerSeed pulseSpeed pulseAmount pulseTarget))
  /\ (forall px py pz radius r g b dx dy dz angle penumbra decay intensity,
        reported Store.spotLightCount but_spots s
          (addSpot s px py pz radius r g b dx dy dz angle penumbra decay intensity))
  /\ (forall px py pz radius r g b dx dy dz angle penumbra decay intensity animFlags
             targetX targetY targetZ duration delay linearMode
             rotAxisX rotAxisY rotAxisZ rotSpeed rotAngle rotMode
             flickerSpeed flickerIntensity flickerSeed pulseSpeed pulseAmount pulseTarget,
        reported Store.spotLightCount but_spots s
          (addSpotWithAnimation s px py pz radius r g b dx dy dz angle penumbra decay
             intensity animFlags targetX targetY targetZ duration delay linearMode
             rotAxisX rotAxisY rotAxisZ rotSpeed rotAngle rotMode
             flickerSpeed flickerIntensity flickerSeed pulseSpeed pulseAmount pulseTarget))
  /\ (forall px py pz width height nx ny nz r g b intensity decay radius,
        reported Store.rectLightCount but_rects s
          (addRect s px py pz width height nx ny nz r g b intensity decay radius))
  /\ (forall px py pz width height nx ny nz r g b intensity decay radius animFlags
             targetX targetY targetZ duration delay linearMode
             rotAxisX rotAxisY rotAxisZ rotSpeed rotAngle rotMode
             flickerSpeed flickerIntensity flickerSeed pulseSpeed pulseAmount pulseTarget,
        reported Store.rectLightCount but_rects s
          (addRectWithAnimation s px py pz width height nx ny nz r g b intensity decay
             radius animFlags targetX targetY targetZ duration delay linearMode
             rotAxisX rotAxisY rotAxisZ rotSpeed rotAngle rotMode
             flickerSpeed flickerIntensity flickerSeed pulseSpeed pulseAmount pulseTarget))
  /\ (forall count positions colors decays animFlags animParams,
        0 <= count -> Store.pointLightCount s + count < 2147483648 ->
        Store.maxLights s < 2147483648 ->
        let r := bulkAddPointLights s count positions colors decays animFlags animParams in
        let room := Store.maxLights s - Store.pointLightCount s in
        r.2 = Z.min count room
        /\ (room < count -> r.2 < count)
        /\ Store.pointLightCount r.1 = Store.pointLightCount s + r.2
        /\ but_points r.1 = but_points s
        /\ counts_ok r.1)
  /\ (forall count types positions colors decays animFlags animParams spotParams
             rectParams,
        let r := bulkAddLights s count types positions colors decays animFlags animParams
                   spotParams rectParams in
        let asked := requested types (Z.to_nat count) in
        let room c := Store.maxLights s - c s in
        Store.pointLightCount r.1
        = Store.pointLightCount s + Z.min (asked 0) (room Store.pointLightCount)
        /\ Store.spotLightCount r.1
           = Store.spotLightCount s + Z.min (asked 1) (room Store.spotLightCount)
        /\ Store.rectLightCount r.1
           = Store.rectLightCount s + Z.min (asked 2) (room Store.rectLightCount)
        /\ Store.maxLights r.1 = Store.maxLights s
        /\ r.2 = Z.min (asked 0) (room Store.pointLightCount)
                 + Z.min (asked 1) (room Store.spotLightCount)
                 + Z.min (asked 2) (room Store.rectLightCount)
        /\ (room Store.pointLightCount < asked 0 \/ room Store.spotLightCount < asked 1
            \/ room Store.rectLightCount < asked 2 -> r.2 < count)
        /\ counts_ok r.1).
Proof.
  intros Hok. split_and!.
  - intros. apply created_points, add_created; done.
  - intros. apply created_points, addFast_created; done.
  - intros. apply created_points, addPointWithAnimation_created; done.
  - intros. apply created_spots, addSpot_created; done.
  - intros. apply created_spots, addSpotWithAnimation_created; done.
  - intros. apply created_rects, addRect_created; done.
  - intros. apply created_rects, addRectWithAnimation_created; done.
  - intros count positions colors decays animFlags animParams Hc Hsum Hmax r room.
    destruct (bulkAddPointLights_counts s count positions colors decays animFlags
                animParams) as (E1 & E2 & E3).
    fold r in E1, E2, E3. destruct Hok as [Hp Hs Hr].
    assert (Ht : bulk_points_taken s count = Z.min count room).
    { unfold bulk_points_taken, room. rewrite !i32_id by lia.
      destruct (Z.ltb_spec (Store.maxLights s) (Store.pointLightCount s + count)); lia. }
    rewrite Ht in E1, E2. unfold but_points in E3.
    split_and!; [done|lia|lia|done|]. simplify_eq. split; unfold room in *; lia.
  - intros count types positions colors decays animFlags animParams spotParams
      rectParams r asked room.
    destruct (bulkAddLights_counts s count types positions colors decays animFlags
                animParams spotParams rectParams Hok) as (E1 & E2 & E3 & E4 & E5).
    fold r in E1, E2, E3, E4, E5. fold asked in E1, E2, E3, E5.
    pose proof (requested_total types (Z.to_nat count)) as Ht. fold asked in Ht.
    pose proof (requested_nonneg types (Z.to_nat count) 0) as H0.
    pose proof (requested_nonneg types (Z.to_nat count) 1) as H1.
    pose proof (requested_nonneg types (Z.to_nat count) 2) as H2.
    fold asked in H0, H1, H2. destruct Hok as [Hp Hs Hr].
    split_and!; [done..| |split; unfold room; lia].
    unfold room. lia.
Qed.

(* ------------------------------------------------------------------ *)
(** ** C4: the batched path *)
(* ------------------------------------------------------------------ *)

(** *** The batched path against the scalar path *)

Section Paths.
Context `{P : Platform}.

(** The record of a light depends on its world position, colour, decay
    and visible flag only. *)
Lemma pointPipeline_record xf xf' env l l' :
  PointLight.worldPos l' = PointLight.worldPos l ->
  PointLight.color l' = PointLight.color l ->
  PointLight.decay l' = PointLight.decay l ->
  PointLight.visible l' = PointLight.visible l ->
  (let wp := PointLight.worldPos l in
   xf' (Env.view env) (Vec4.x wp) (Vec4.y wp) (Vec4.z wp) (Vec4.w wp)
   = xf (Env.view env) (Vec4.x wp) (Vec4.y wp) (Vec4.z wp) (Vec4.w wp)) ->
  (pointPipeline xf' env l').2 = (pointPipeline xf env l).2.
Proof.
  destruct l, l'. cbn [PointLight.worldPos PointLight.color PointLight.decay
                       PointLight.visible]. intros -> -> -> -> E.
  unfold pointPipeline, packPoint.
  cbn [PointLight.worldPos PointLight.set_viewPos PointLight.set_lodLevel
       PointLight.viewPos PointLight.color PointLight.decay PointLight.visible
       PointLight.lodLevel snd].
  by rewrite E.
Qed.

(** A batch without animation holds no animated light. *)
Lemma batch_flags_own ls j l :
  ls !! j = Some l -> batch_flags_at ls (4 * (j / 4)) = ANIM_NONE ->
  AnimationParams.flags (PointLight.anim l) = ANIM_NONE.
Proof.
  intros Hl E. unfold batch_flags_at, ANIM_NONE in *.
  assert (Hj : flags_at ls j = AnimationParams.flags (PointLight.anim l))
    by (unfold flags_at; by rewrite Hl).
  apply Z.lor_eq_0_iff in E as [E E3]. apply Z.lor_eq_0_iff in E as [E E2].
  apply Z.lor_eq_0_iff in E as [E0 E1].
  pose proof (Nat.div_mod_eq j 4) as Hd.
  pose proof (Nat.mod_upper_bound j 4 ltac:(lia)) as Hm.
  assert (Hc : (j mod 4 = 0 \/ j mod 4 = 1 \/ j mod 4 = 2 \/ j mod 4 = 3)%nat) by lia.
  destruct Hc as [Hc|[Hc|[Hc|Hc]]]; rewrite Hc in Hd;
    [replace (4 * (j / 4))%nat with j in E0 by lia
    |replace (4 * (j / 4) + 1)%nat with j in E1 by lia
    |replace (4 * (j / 4) + 2)%nat with j in E2 by lia
    |replace (4 * (j / 4) + 3)%nat with j in E3 by lia]; congruence.
Qed.

(** The animation step of a batch is that of the scalar loop for a light
    that is animated and for a light of a batch without animation. *)
Lemma animateBatch_animatePoint ls j l time :
  ls !! j = Some l ->
  batch_flags_at ls (4 * (j / 4)) = ANIM_NONE
  \/ AnimationParams.flags (PointLight.anim l) <> ANIM_NONE ->
  animateBatch (batch_flags_at ls (4 * (j / 4))) time l = animatePoint time l.
Proof.
  intros Hl H. unfold animateBatch, animatePoint.
  destruct (Z.eqb_spec (batch_flags_at ls (4 * (j / 4))) ANIM_NONE) as [E|E].
  - by rewrite (batch_flags_own ls j l Hl E).
  - destruct H as [H|H]; [done|].
    by destruct (Z.eqb_spec (AnimationParams.flags (PointLight.anim l)) ANIM_NONE).
Qed.

End Paths.

(** C4 (as the code has it): both paths map the relative distance to
    the LOD tiers in the same way, thresholds included.  A light outside
    the full batches of four, and every light when the batched path is not
    compiled in, gets the record of the scalar iteration.  A light in a
    full batch that is animated, or whose batch holds no animated light,
    gets the record of the scalar pipeline with one change: the four terms
    of each row of the view transform are summed in pairs.  That record is
    the scalar record whenever the two sums give the same floats. *)
Theorem C4_batched_path_sums_in_pairs `{P : Platform} (s : Store.t) (time : f32) :
  frame_ok s ->
  (forall lodBias z0 r0 z1 r1 z2 r2 z3 r3,
     calculateLOD_SIMD lodBias z0 r0 z1 r1 z2 r2 z3 r3
     = (calculateLOD lodBias z0 r0, calculateLOD lodBias z1 r1,
        calculateLOD lodBias z2 r2, calculateLOD lodBias z3 r3))
  /\ (forall j l,
        (j < Z.to_nat (Store.pointLightCount s))%nat ->
        Store.pointLights s !! j = Some l ->
        (wasm_simd128 && in_batch (Z.to_nat (Store.pointLightCount s)) j = false ->
         Store.pointLightTexture (update s time).1 !! j
         = Some (updatePointScalar (frame_env s) time l).2)
        /\ (wasm_simd128 && in_batch (Z.to_nat (Store.pointLightCount s)) j = true ->
            batch_flags_at (Store.pointLights s) (4 * (j / 4)) = ANIM_NONE
            \/ AnimationParams.flags (PointLight.anim l) <> ANIM_NONE ->
            Store.pointLightTexture (update s time).1 !! j
            = Some (pointPipeline worldToView_pairwise (frame_env s)
                      (animatePoint time l)).2))
  /\ (forall env l,
        (let wp := PointLight.worldPos (animatePoint time l) in
         worldToView_pairwise (Env.view env) (Vec4.x wp) (Vec4.y wp) (Vec4.z wp) (Vec4.w wp)
         = worldToView (Env.view env) (Vec4.x wp) (Vec4.y wp) (Vec4.z wp) (Vec4.w wp)) ->
        (pointPipeline worldToView_pairwise env (animatePoint time l)).2
        = (updatePointScalar env time l).2).
Proof.
  intros Hok. split_and!.
  - apply calculateLOD_SIMD_lanes.
  - intros j l Hj Hl.
    destruct (frame_point_record s time j l Hok Hj Hl) as [_ ->].
    unfold point_body, simd_body, updatePointLane. split.
    + intros E. by destruct wasm_simd128, (in_batch _ _).
    + intros E H. apply andb_true_iff in E as [-> ->].
      by rewrite (animateBatch_animatePoint _ j l time Hl H).
  - intros env l Hxf. rewrite updatePointScalar_pipeline.
    by apply pointPipeline_record.
Qed.

(** A camera matrix with e2 = e10 = e14 = 1: view-space z is
    x + z + 1. *)
Definition skewed_matrix : list f32 :=
  [F32.one; 0; F32.one; 0;  0; F32.one; 0; 0;  0; 0; F32.one; 0;
   0; 0; F32.one; F32.one].

Definition plain_point (s : Store.t) (x z : f32) : Store.t :=
  (@add (example_platform false) s x 0 z F32.one F32.one F32.one F32.one F32.one 0 0
     F32.one).1.

(** Four point lights without animation, the first at x = 2^24
    (0x4B800000), z = 1. *)
Definition four_points : Store.t :=
  plain_point (plain_point (plain_point (plain_point (empty_store_under skewed_matrix 4)
    1266679808 F32.one) 0 0) 0 0) 0 0.

Lemma four_points_ok : frame_ok four_points.
Proof. split; vm_compute; first [lia | discriminate | intros _; discriminate]. Defined.

Lemma C4_witness :
  frame_ok four_points
  /\ exists l,
       Store.pointLights four_points !! 0%nat = Some l
       /\ batch_flags_at (Store.pointLights four_points) (4 * (0 / 4)) = ANIM_NONE
       /\ Store.pointLightTexture (@update (example_platform true) four_points 0).1 !! 0%nat
          = Some (pointPipeline worldToView_pairwise (frame_env four_points)
                    (@animatePoint (example_platform true) 0 l)).2.
Proof.
  split; [exact four_points_ok|]. eexists. split_and!; [reflexivity|reflexivity|].
  apply (proj2 (proj1 (proj2 (@C4_batched_path_sums_in_pairs
                                (example_platform true) four_points 0 four_points_ok))
                  0%nat _ ltac:(vm_compute; lia) eq_refl)).
  - reflexivity.
  - left. reflexivity.
Defined.

(** 5.0f *)
Definition five : f32 := 1084227584.

(** Four point lights at the origin under the identity camera, the last
    one with a pulsing intensity; the intensity of the first was then set
    to 5 with [updatePointLightIntensity]. *)
Definition beside_pulsing : Store.t :=
  updatePointLightIntensity
    (@addPointWithAnimation (example_platform false)
       (plain_point (plain_point (plain_point (empty_store 4) 0 0) 0 0) 0 0)
       0 0 0 F32.one  F32.one F32.one F32.one F32.one F32.one  ANIM_PULSE
       0 0  0 0 0 0 0 0  0 0 0 0 0 0  0 0 0  F32.one F32.one PULSE_INTENSITY).1
    0 five.

(** The two paths write different records, in two ways.  For the first
    light of [four_points] the view-space z is 2^24 + 1 + 1, which the
    batched path computes as (2^24 + 0) + (1 + 1) = 16777218 (0x4B800001)
    and the scalar path as ((2^24 + 0) + 1) + 1 = 16777216 (0x4B800000).
    For the first light of [beside_pulsing], which is not animated, the
    scalar path writes the red channel 1 * 5 = 5 of the colour the light
    has, and the batched path, which sends the whole batch through
    [processPointLightAnimation] because its fourth light is animated,
    writes 1 * 1 = 1 from [baseColor]; the positions agree. *)
Lemma C4_counterexample :
  (exists d d',
     Store.pointLightTexture (@update (example_platform true) four_points 0).1 !! 0%nat
     = Some d
     /\ Store.pointLightTexture (@update (example_platform false) four_points 0).1 !! 0%nat
        = Some d'
     /\ Vec4.z (PointLightDataOptimized.positionRadius d) = 1266679809
     /\ Vec4.z (PointLightDataOptimized.positionRadius d') = 1266679808)
  /\ (exists l d d',
        Store.pointLights beside_pulsing !! 0%nat = Some l
        /\ AnimationParams.flags (PointLight.anim l) = ANIM_NONE
        /\ Store.pointLightTexture (@update (example_platform true) beside_pulsing 0).1
             !! 0%nat = Some d
        /\ Store.pointLightTexture (@update (example_platform false) beside_pulsing 0).1
             !! 0%nat = Some d'
        /\ PointLightDataOptimized.positionRadius d
           = PointLightDataOptimized.positionRadius d'
        /\ Vec4.x (PointLightDataOptimized.colorDecayVisible d) = F32.one
        /\ Vec4.x (PointLightDataOptimized.colorDecayVisible d') = five).
Proof.
  split.
  - eexists _, _. split_and!; [reflexivity|reflexivity|..]; by vm_compute.
  - eexists _, _, _. split_and!; [reflexivity|reflexivity|reflexivity|reflexivity|..];
      by vm_compute.
Qed.

(* ------------------------------------------------------------------ *)
(** ** Instances of the theorems *)
(* ------------------------------------------------------------------ *)

(** Three point lights created in the order of Morton keys 7, 9, 7. *)
Definition lit (s : Store.t) (x y z : f32) : Store.t :=
  (@add (example_platform false) s x y z F32.one F32.one F32.one F32.one F32.one 0 0
     F32.one).1.

Definition unsorted_points : Store.t :=
  lit (lit (lit (empty_store 3) F32.three 0 F32.one) F32.one 0 F32.two)
    F32.three F32.one F32.one.

(** Checking the range of the keys of a list by computation. *)
Lemma keys_checked {A : Type} (key : A -> Z) (l : list A) :
  forallb (fun x => (0 <=? key x) && (key x <? 4294967296)) l = true ->
  forall x, x ∈ l -> 0 <= key x < 4294967296.
Proof.
  intros H x Hx. apply list_elem_of_In in Hx.
  pose proof (proj1 (forallb_forall _ _) H x Hx) as Hb.
  apply andb_true_iff in Hb as [H1 H2]. lia.
Qed.

Lemma unsorted_points_sortable : sortable unsorted_points.
Proof.
  split; [vm_compute; lia..|reflexivity|reflexivity|reflexivity| | |];
    apply keys_checked; reflexivity.
Defined.

Lemma C1_witness :
  Store.needsSort unsorted_points = 1
  /\ sortable unsorted_points
  /\ PointLight.morton <$> live (Store.pointLightCount unsorted_points)
                             (Store.pointLights unsorted_points) = [7; 9; 7]
  /\ stable_sort_of PointLight.morton
       (live (Store.pointLightCount unsorted_points) (Store.pointLights unsorted_points))
       (live (Store.pointLightCount (sort unsorted_points))
          (Store.pointLights (sort unsorted_points))).
Proof.
  split_and!; [reflexivity|exact unsorted_points_sortable|reflexivity|].
  apply (C1_sort_is_stable_radix_sort unsorted_points);
    [discriminate|exact unsorted_points_sortable].
Defined.

(** A point light at the origin moving to (1, 2, 3) once, over 2 seconds
    after a delay of 1 second. *)
Definition linear_point : PointLight.t :=
  @addPointWithAnimation_slot (example_platform false) zero_point
    0 0 0 F32.one  F32.one F32.one F32.one F32.one F32.one
    ANIM_LINEAR  0 0  F32.one F32.two F32.three F32.two F32.one LINEAR_ONCE
    0 0 0 0 0 0  0 0 0  0 0 0.

Lemma linear_point_ok :
  linear_ok (AnimationParams.linear (PointLight.anim linear_point))
    (PointLight.baseWorldPos linear_point).
Proof. split; [reflexivity..|]. by split_and!. Defined.

Lemma C7_witness :
  has_flag (AnimationParams.flags (PointLight.anim linear_point)) ANIM_LINEAR = true
  /\ has_flag (AnimationParams.flags (PointLight.anim linear_point)) ANIM_WAVE = false
  /\ linear_ok (AnimationParams.linear (PointLight.anim linear_point))
       (PointLight.baseWorldPos linear_point)
  /\ linear_end_points (AnimationParams.linear (PointLight.anim linear_point))
       (PointLight.baseWorldPos linear_point)
       (fun time =>
          PointLight.animOffset
            (@processPointLightAnimation (example_platform false) linear_point time))
  /\ (F32.one ⊕ F32.two) ⊖ F32.one = F32.two
  /\ eq3 (PointLight.animOffset
            (@processPointLightAnimation (example_platform false) linear_point
               (F32.one ⊕ F32.two)))
       (linear_delta (AnimationParams.linear (PointLight.anim linear_point))
          (PointLight.baseWorldPos linear_point)).
Proof.
  pose proof (proj1 (@C7_linear_end_points (example_platform false)
                       (example_platform_fmod false)) linear_point
                eq_refl eq_refl linear_point_ok) as H.
  split_and!; [reflexivity|reflexivity|exact linear_point_ok|exact H|reflexivity|].
  apply (proj1 (proj2 H) eq_refl (F32.one ⊕ F32.two)); reflexivity.
Defined.

(** A point light at the origin moving to (1, 0, 0) over 1 second after a
    delay of 0.3f, in the given mode. *)
Definition late_point (mode : Z) : PointLight.t :=
  @addPointWithAnimation_slot (example_platform false) zero_point
    0 0 0 F32.one  F32.one F32.one F32.one F32.one F32.one
    ANIM_LINEAR  0 0  F32.one 0 0 F32.one F32.c0_3 mode
    0 0 0 0 0 0  0 0 0  0 0 0.

(** The time [delay + duration] of the claim, as a binary32 sum. *)
Definition late_time : f32 := F32.c0_3 ⊕ F32.one.

Lemma late_point_ok (mode : Z) :
  linear_ok (AnimationParams.linear (PointLight.anim (late_point mode)))
    (PointLight.baseWorldPos (late_point mode)).
Proof. split; [reflexivity..|]. by split_and!. Qed.

(** At [time = delay + duration] the claim fails for [late_point]: the
    elapsed time (0.3f + 1) - 0.3f is 0.99999994 (0x3F7FFFFF), not the
    duration 1.  In mode Once the x offset is 0.99999994 where the
    displacement is 1, and in mode Loop the x offset is 0.99999994 where
    the offset at [time = delay] is zero: the phase has not wrapped. *)
Lemma C7_counterexample :
  has_flag (AnimationParams.flags (PointLight.anim (late_point LINEAR_ONCE))) ANIM_LINEAR
  = true
  /\ linear_ok (AnimationParams.linear (PointLight.anim (late_point LINEAR_ONCE)))
       (PointLight.baseWorldPos (late_point LINEAR_ONCE))
  /\ linear_ok (AnimationParams.linear (PointLight.anim (late_point LINEAR_LOOP)))
       (PointLight.baseWorldPos (late_point LINEAR_LOOP))
  /\ late_time ⊖ F32.c0_3 = 1065353215
  /\ Vec4.x (PointLight.animOffset
               (@processPointLightAnimation (example_platform false)
                  (late_point LINEAR_ONCE) late_time)) = 1065353215
  /\ Vec4.x (linear_delta
               (AnimationParams.linear (PointLight.anim (late_point LINEAR_ONCE)))
               (PointLight.baseWorldPos (late_point LINEAR_ONCE))) = F32.one
  /\ F32.eq 1065353215 F32.one = false
  /\ Vec4.x (PointLight.animOffset
               (@processPointLightAnimation (example_platform false)
                  (late_point LINEAR_LOOP) late_time)) = 1065353215
  /\ PointLight.animOffset
       (@processPointLightAnimation (example_platform false)
          (late_point LINEAR_LOOP) F32.c0_3) = Vec4.zero.
Proof.
  split_and!; [reflexivity|apply late_point_ok|apply late_point_ok|by vm_compute..].
Qed.

(** A store of capacity 1 holding one point light. *)
Definition full_store : Store.t := lit (empty_store 1) 0 0 0.

Lemma full_store_ok : counts_ok full_store.
Proof. split; vm_compute; split; discriminate. Defined.

Lemma C9_witness :
  counts_ok full_store
  /\ reported Store.pointLightCount but_points full_store
       (@add (example_platform false) full_store 0 0 0 F32.one F32.one F32.one F32.one
          F32.one 0 0 F32.one).
Proof.
  split; [exact full_store_ok|].
  apply (proj1 (@C9_capacity_is_reported_by_return_values (example_platform false)
                  full_store full_store_ok)).
Defined.

(** [boundary_store] with its light hidden and the frustum moved. *)
Definition hidden_store : Store.t :=
  setViewFrustum (updatePointLightVisibility boundary_store 0 0) F32.one F32.two.

Lemma hidden_store_variant : visibility_variant boundary_store hidden_store.
Proof.
  split; [| | |by vm_compute..];
    vm_compute; repeat (apply Forall2_cons_2; [reflexivity|]); apply Forall2_nil_2.
Defined.

Lemma C10_witness :
  frame_ok boundary_store
  /\ visibility_variant boundary_store hidden_store
  /\ exists l d d',
       Store.pointLights (@update (example_platform false) boundary_store 0).1 !! 0%nat
       = Some l
       /\ Store.pointLightTexture (@update (example_platform false) boundary_store 0).1
            !! 0%nat = Some d
       /\ Store.pointLightTexture (@update (example_platform false) hidden_store 0).1
            !! 0%nat = Some d'
       /\ point_payload d = point_payload_of l
       /\ point_records_agree d d'.
Proof.
  split_and!; [exact boundary_store_ok|exact hidden_store_variant|].
  apply (proj1 (@C10_records_written_regardless_of_visibility (example_platform false)
                  boundary_store hidden_store 0 boundary_store_ok hidden_store_variant)).
  vm_compute. lia.
Defined.

(* ------------------------------------------------------------------ *)
(** ** Further properties of the code *)
(* ------------------------------------------------------------------ *)

(** *** The Morton key, bit by bit *)

Lemma testbit_above (a n k : Z) : 0 <= a < 2 ^ n -> n <= k -> Z.testbit a k = false.
Proof.
  intros Ha Hk. destruct (Z.eq_dec a 0) as [->|Hne]; [apply Z.bits_0|].
  apply Z.bits_above_log2; [lia|].
  assert (Z.log2 a < n); [|lia]. apply Z.log2_lt_pow2; lia.
Qed.

Lemma u32_bits (a k : Z) : Z.testbit (u32 a) k = (k <? 32) && Z.testbit a k.
Proof. unfold u32. change 4294967296 with (2 ^ 32). by apply Z.testbit_mod_pow2. Qed.

Lemma u32_range (a : Z) : 0 <= u32 a < 4294967296.
Proof. unfold u32. apply Z.mod_pos_bound. lia. Qed.

(** Bit [k] of a literal, by computation. *)
Ltac literal_bits :=
  repeat match goal with
  | |- context [Z.testbit (Zpos ?m) ?k] =>
      let b := eval vm_compute in (Z.testbit (Zpos m) k) in
      change (Z.testbit (Zpos m) k) with b
  | |- context [(?a <? ?b)] =>
      let c := eval vm_compute in (a <? b) in
      match c with
      | true => change (a <? b) with true
      | false => change (a <? b) with false
      end
  end.

(** A bit of a shifted value, at literal positions. *)
Ltac shift_bits :=
  repeat match goal with
  | |- context [Z.testbit (Z.shiftl ?a ?n) ?m] =>
      first [ rewrite (Z.shiftl_spec_low a n m) by (vm_compute; reflexivity)
            | rewrite (Z.shiftl_spec a n m) by (vm_compute; discriminate) ]
  end.

(** The bits of [x] at a literal index: out of range below 0 and from 16. *)
Ltac input_bits x Hx :=
  repeat match goal with
  | |- context [Z.testbit x ?k] =>
      let k' := eval vm_compute in k in
      lazymatch k' with
      | Zneg _ => rewrite (Z.testbit_neg_r x k) by reflexivity
      | _ =>
          first
            [ rewrite (testbit_above x 16 k Hx) by (vm_compute; discriminate)
            | progress change (Z.testbit x k) with (Z.testbit x k')
            | fail 1 ]
      end
  end.

Lemma land_mask_range (a m n : Z) :
  0 <= n -> Z.land m (Z.ones n) = m -> 0 <= Z.land a m < 2 ^ n.
Proof.
  intros Hn Hm. rewrite <- Hm, Z.land_assoc, Z.land_ones by done.
  apply Z.mod_pos_bound. lia.
Qed.

Lemma interleaveBits_range (x : Z) : 0 <= interleaveBits x < 2 ^ 31.
Proof. unfold interleaveBits. by apply land_mask_range. Qed.

Lemma lor_range (a b n : Z) :
  0 <= n -> 0 <= a < 2 ^ n -> 0 <= b < 2 ^ n -> 0 <= Z.lor a b < 2 ^ n.
Proof.
  intros Hn Ha Hb.
  assert (E : Z.lor a b = Z.lor a b mod 2 ^ n).
  { apply Z.bits_inj'. intros k Hk. rewrite Z.testbit_mod_pow2 by done.
    destruct (Z.ltb_spec k n); [done|].
    by rewrite Z.lor_spec, (testbit_above a n k), (testbit_above b n k). }
  rewrite E. apply Z.mod_pos_bound. lia.
Qed.

(** Below 65536 the bits of the argument land on the even positions, in
    their order, and the odd positions are clear. *)
Lemma interleaveBits_low (x : Z) (Hx : 0 <= x < 2 ^ 16) (i : Z) :
  0 <= i < 16 ->
  Z.testbit (interleaveBits x) (2 * i) = Z.testbit x i
  /\ Z.testbit (interleaveBits x) (2 * i + 1) = false.
Proof.
  intros Hi.
  assert (Hc : i = 0 \/ i = 1 \/ i = 2 \/ i = 3 \/ i = 4 \/ i = 5 \/ i = 6 \/ i = 7
               \/ i = 8 \/ i = 9 \/ i = 10 \/ i = 11 \/ i = 12 \/ i = 13 \/ i = 14
               \/ i = 15) by lia.
  unfold interleaveBits.
  repeat destruct Hc as [->|Hc]; try subst i;
    split;
    repeat (rewrite ?Z.land_spec, ?Z.lor_spec, ?u32_bits; shift_bits);
    literal_bits; input_bits x Hx;
    rewrite ?andb_false_r, ?andb_true_r, ?orb_false_r, ?andb_false_l, ?andb_true_l,
      ?orb_false_l;
    reflexivity.
Qed.

Lemma interleaveBits_high (x : Z) (k : Z) : 31 <= k -> Z.testbit (interleaveBits x) k = false.
Proof. intros Hk. apply (testbit_above _ 31); [apply interleaveBits_range|done]. Qed.

Lemma interleaveBits_even_odd (x i : Z) :
  0 <= x < 65536 -> 0 <= i ->
  Z.testbit (interleaveBits x) (2 * i) = Z.testbit x i
  /\ Z.testbit (interleaveBits x) (2 * i + 1) = false.
Proof.
  intros Hx Hi. change 65536 with (2 ^ 16) in Hx.
  destruct (Z.lt_ge_cases i 16) as [Hlt|Hge].
  - apply interleaveBits_low; [done|lia].
  - rewrite !interleaveBits_high by lia. by rewrite (testbit_above x 16 i).
Qed.

(** X1: for an argument below 65536, [interleaveBits] moves bit [i] of
    the argument to bit [2 i] of the result and leaves every odd bit
    clear. *)
Theorem X1_interleaveBits_spreads_the_bits (x i : Z) :
  0 <= x < 65536 -> 0 <= i ->
  Z.testbit (interleaveBits x) (2 * i) = Z.testbit x i
  /\ Z.testbit (interleaveBits x) (2 * i + 1) = false.
Proof. apply interleaveBits_even_odd. Qed.

Section Morton.
Context `{P : Platform}.

Lemma fptoui32_range (x : f32) : 0 <= fptoui32 x < 4294967296.
Proof.
  unfold fptoui32. destruct (F32.trunc x) as [n|]; [|apply u32_range].
  destruct (0 <=? n) eqn:E1; [|apply u32_range].
  destruct (n <? 4294967296) eqn:E2; [|apply u32_range].
  cbn [andb]. lia.
Qed.

Lemma shifted_u32 (x : Z) : u32 (Z.shiftl (interleaveBits x) 1) = Z.shiftl (interleaveBits x) 1.
Proof.
  unfold u32. apply Z.mod_small. rewrite Z.shiftl_mul_pow2 by lia.
  pose proof (interleaveBits_range x) as H. change (2 ^ 31) with 2147483648 in H.
  change (2 ^ 1) with 2. lia.
Qed.

Lemma computeMorton_range (x z : f32) : 0 <= computeMorton x z < 4294967296.
Proof.
  unfold computeMorton. apply (lor_range _ _ 32); [lia| |apply u32_range].
  pose proof (interleaveBits_range (fptoui32 x)) as H.
  change (2 ^ 31) with 2147483648 in H. change (2 ^ 32) with 4294967296. lia.
Qed.

(** The key interleaves the integer parts of the two coordinates:
    [x] on the even bits, [z] on the odd ones. *)
Lemma computeMorton_bits (x z : f32) (i : Z) :
  0 <= fptoui32 x < 65536 -> 0 <= fptoui32 z < 65536 -> 0 <= i ->
  Z.testbit (computeMorton x z) (2 * i) = Z.testbit (fptoui32 x) i
  /\ Z.testbit (computeMorton x z) (2 * i + 1) = Z.testbit (fptoui32 z) i.
Proof.
  intros Hx Hz Hi. unfold computeMorton. rewrite shifted_u32, !Z.lor_spec.
  rewrite !Z.shiftl_spec by lia.
  destruct (interleaveBits_even_odd (fptoui32 x) i Hx Hi) as [-> ->].
  replace (2 * i + 1 - 1) with (2 * i) by lia.
  destruct (interleaveBits_even_odd (fptoui32 z) i Hz Hi) as [-> _].
  split; [|done].
  destruct (Z.eq_dec i 0) as [->|Hne].
  - rewrite (Z.testbit_neg_r _ (2 * 0 - 1)) by lia. apply orb_false_r.
  - replace (2 * i - 1) with (2 * (i - 1) + 1) by lia.
    destruct (interleaveBits_even_odd (fptoui32 z) (i - 1) Hz ltac:(lia)) as [_ ->].
    by rewrite orb_false_r.
Qed.

(** X2: the Morton key is always a 32-bit value, and on coordinates
    whose integer parts are below 65536 it determines both integer
    parts: lights with equal keys lie in the same unit cell. *)
Theorem X2_computeMorton_is_injective_on_cells (x z x' z' : f32) :
  0 <= computeMorton x z < 4294967296
  /\ (0 <= fptoui32 x < 65536 -> 0 <= fptoui32 z < 65536 ->
      0 <= fptoui32 x' < 65536 -> 0 <= fptoui32 z' < 65536 ->
      (computeMorton x z = computeMorton x' z'
       <-> fptoui32 x = fptoui32 x' /\ fptoui32 z = fptoui32 z')).
Proof.
  split; [apply computeMorton_range|]. intros Hx Hz Hx' Hz'. split.
  - intros E. split; apply Z.bits_inj'; intros i Hi.
    + rewrite <- (proj1 (computeMorton_bits x z i Hx Hz Hi)).
      rewrite <- (proj1 (computeMorton_bits x' z' i Hx' Hz' Hi)). by rewrite E.
    + rewrite <- (proj2 (computeMorton_bits x z i Hx Hz Hi)).
      rewrite <- (proj2 (computeMorton_bits x' z' i Hx' Hz' Hi)). by rewrite E.
  - intros [E1 E2]. unfold computeMorton. by rewrite E1, E2.
Qed.

End Morton.

(** *** The store invariant *)

(** Every array has the [maxLights] elements [init] allocates for it. *)
Record allocated (s : Store.t) : Prop := {
  alloc_points : Z.of_nat (length (Store.pointLights s)) = Store.maxLights s;
  alloc_spots : Z.of_nat (length (Store.spotLights s)) = Store.maxLights s;
  alloc_rects : Z.of_nat (length (Store.rectLights s)) = Store.maxLights s;
  alloc_points_scratch :
    Z.of_nat (length (Store.pointLightsScratch s)) = Store.maxLights s;
  alloc_spots_scratch : Z.of_nat (length (Store.spotLightsScratch s)) = Store.maxLights s;
  alloc_rects_scratch : Z.of_nat (length (Store.rectLightsScratch s)) = Store.maxLights s;
  alloc_point_records : Z.of_nat (length (Store.pointLightTexture s)) = Store.maxLights s;
  alloc_spot_records : Z.of_nat (length (Store.spotLightTexture s)) = Store.maxLights s;
  alloc_rect_records : Z.of_nat (length (Store.rectLightTexture s)) = Store.maxLights s
}.

(** The invariant of the store: the arrays are allocated, the capacity is
    a C [int], the counts are within the capacity, and a kind with live
    lights is flagged as present. *)
Record store_ok (s : Store.t) : Prop := {
  inv_allocated : allocated s;
  inv_capacity : Store.maxLights s < 2147483648;
  inv_counts : counts_ok s;
  inv_has_points : 0 < Store.pointLightCount s -> Store.hasPointLights s <> 0;
  inv_has_spots : 0 < Store.spotLightCount s -> Store.hasSpotLights s <> 0;
  inv_has_rects : 0 < Store.rectLightCount s -> Store.hasRectLights s <> 0
}.

Lemma store_ok_frame_ok s : store_ok s -> frame_ok s.
Proof.
  intros [[] ? [] ? ? ?]. split; try done; lia.
Qed.

(** *** Removal *)

Lemma memmove_down_length {A : Type} (i n : nat) (a : list A) :
  (i < n <= length a)%nat -> length (memmove_down i n a) = length a.
Proof.
  intros H. unfold memmove_down.
  rewrite !length_app, !length_take, !length_drop. lia.
Qed.

(** The live elements after the move: the old ones but the one at [i]. *)
Lemma memmove_down_live {A : Type} (i n : nat) (a : list A) :
  (i < n <= length a)%nat ->
  take (n - 1) (memmove_down i n a) = delete i (take n a).
Proof.
  intros H. unfold memmove_down. rewrite app_assoc.
  rewrite take_app_length'.
  2:{ rewrite length_app, !length_take, length_drop. lia. }
  rewrite delete_take_drop, take_take, Nat.min_l by lia.
  f_equal. rewrite skipn_firstn_comm. rewrite Nat.add_1_r. f_equal. lia.
Qed.

(** The slots from the old count on are not written. *)
Lemma memmove_down_rest {A : Type} (i n : nat) (a : list A) :
  (i < n <= length a)%nat ->
  drop (n - 1) (memmove_down i n a) = drop (n - 1) a.
Proof.
  intros H. unfold memmove_down. rewrite app_assoc.
  rewrite drop_app_length'; [done|].
  rewrite length_app, !length_take, length_drop. lia.
Qed.

(** The array [a] without the element at [idx], when [idx] is the index
    of a live element. *)
Definition without {A : Type} (idx count : Z) (a : list A) : list A :=
  if in_range idx count then delete (Z.to_nat idx) a else a.

(** What a removal leaves of the kind it removes from: the live lights
    but the one at [idx], in their order, the count one lower, and an
    array of the same length. *)
Definition removed {A : Type} (count : Store.t -> Z) (arr : Store.t -> list A)
    (idx : Z) (s s' : Store.t) : Prop :=
  live (count s') (arr s') = without idx (count s) (live (count s) (arr s))
  /\ count s' = (if in_range idx (count s) then count s - 1 else count s)
  /\ length (arr s') = length (arr s).

Ltac store_fields :=
  cbv [fst snd Store.pointLights Store.spotLights Store.rectLights Store.pointLightsScratch
       Store.spotLightsScratch Store.rectLightsScratch Store.pointLightTexture
       Store.spotLightTexture Store.rectLightTexture Store.cameraMatrix
       Store.pointLightCount Store.spotLightCount Store.rectLightCount Store.maxLights
       Store.hasAnimatedLights Store.needsSort Store.hasPointLights Store.hasSpotLights
       Store.hasRectLights Store.view Store.viewNear Store.viewFar Store.lodBias
       Store.set_points Store.set_spots Store.set_rects Store.set_counts Store.set_flags
       Store.set_hasAnimatedLights Store.set_needsSort Store.set_hasPointLights
       Store.set_hasSpotLights Store.set_hasRectLights Store.set_pointLightCount
       Store.set_spotLightCount Store.set_rectLightCount Store.set_pointLights
       Store.set_spotLights Store.set_rectLights Store.set_view Store.set_frustum
       Store.set_lodBias] in *.

Lemma removed_spec {A : Type} (idx n : Z) (a : list A) :
  (Z.to_nat n <= length a)%nat ->
  in_range idx n = true ->
  live (n - 1) (memmove_down (Z.to_nat idx) (Z.to_nat n) a)
  = delete (Z.to_nat idx) (live n a)
  /\ length (memmove_down (Z.to_nat idx) (Z.to_nat n) a) = length a.
Proof.
  intros Hn Hi. unfold in_range in Hi. apply andb_true_iff in Hi as [H0 H1].
  apply Z.leb_le in H0. apply Z.ltb_lt in H1.
  split; [|apply memmove_down_length; lia].
  unfold live. replace (Z.to_nat (n - 1)) with (Z.to_nat n - 1)%nat by lia.
  apply memmove_down_live. lia.
Qed.

Lemma removePointLight_removed s idx :
  (Z.to_nat (Store.pointLightCount s) <= length (Store.pointLights s))%nat ->
  removed Store.pointLightCount Store.pointLights idx s (removePointLight s idx).
Proof.
  intros Hn. unfold removed, without, removePointLight. fold (in_range idx (Store.pointLightCount s)).
  destruct (in_range idx (Store.pointLightCount s)) eqn:Hi; [|done].
  destruct (removed_spec idx _ _ Hn Hi) as [E1 E2].
  destruct (Store.pointLights s !! Z.to_nat idx) as [l|]; [destruct (pflags l =? ANIM_NONE)|];
    destruct s; store_fields; done.
Qed.

Lemma removeSpotLight_removed s idx :
  (Z.to_nat (Store.spotLightCount s) <= length (Store.spotLights s))%nat ->
  removed Store.spotLightCount Store.spotLights idx s (removeSpotLight s idx).
Proof.
  intros Hn. unfold removed, without, removeSpotLight. fold (in_range idx (Store.spotLightCount s)).
  destruct (in_range idx (Store.spotLightCount s)) eqn:Hi; [|done].
  destruct (removed_spec idx _ _ Hn Hi) as [E1 E2].
  destruct (Store.spotLights s !! Z.to_nat idx) as [l|]; [destruct (sflags l =? ANIM_NONE)|];
    destruct s; store_fields; done.
Qed.

Lemma removeRectLight_removed s idx :
  (Z.to_nat (Store.rectLightCount s) <= length (Store.rectLights s))%nat ->
  removed Store.rectLightCount Store.rectLights idx s (removeRectLight s idx).
Proof.
  intros Hn. unfold removed, without, removeRectLight. fold (in_range idx (Store.rectLightCount s)).
  destruct (in_range idx (Store.rectLightCount s)) eqn:Hi; [|done].
  destruct (removed_spec idx _ _ Hn Hi) as [E1 E2].
  destruct (Store.rectLights s !! Z.to_nat idx) as [l|]; [destruct (rflags l =? ANIM_NONE)|];
    destruct s; store_fields; done.
Qed.

(** The arrays and counts of the three kinds. *)
Definition points_of (s : Store.t) : list PointLight.t * Z :=
  (Store.pointLights s, Store.pointLightCount s).
Definition spots_of (s : Store.t) : list SpotLight.t * Z :=
  (Store.spotLights s, Store.spotLightCount s).
Definition rects_of (s : Store.t) : list RectLight.t * Z :=
  (Store.rectLights s, Store.rectLightCount s).

Lemma removePointLight_others s idx :
  spots_of (removePointLight s idx) = spots_of s
  /\ rects_of (removePointLight s idx) = rects_of s.
Proof.
  unfold removePointLight. destruct (_ && _); [|done].
  destruct (Store.pointLights s !! Z.to_nat idx) as [l|]; [destruct (pflags l =? ANIM_NONE)|];
    by destruct s.
Qed.

Lemma removeSpotLight_others s idx :
  points_of (removeSpotLight s idx) = points_of s
  /\ rects_of (removeSpotLight s idx) = rects_of s.
Proof.
  unfold removeSpotLight. destruct (_ && _); [|done].
  destruct (Store.spotLights s !! Z.to_nat idx) as [l|]; [destruct (sflags l =? ANIM_NONE)|];
    by destruct s.
Qed.

Lemma removeRectLight_others s idx :
  points_of (removeRectLight s idx) = points_of s
  /\ spots_of (removeRectLight s idx) = spots_of s.
Proof.
  unfold removeRectLight. destruct (_ && _); [|done].
  destruct (Store.rectLights s !! Z.to_nat idx) as [l|]; [destruct (rflags l =? ANIM_NONE)|];
    by destruct s.
Qed.

(** X3: a removal with the index of a live light deletes that light from
    the live lights of its kind, keeps the others in their order and
    lowers the count by one; with any other index it changes nothing.
    The arrays and counts of the other two kinds are as they were. *)
Theorem X3_remove_deletes_one_live_light (s : Store.t) (idx : Z) :
  store_ok s ->
  (removed Store.pointLightCount Store.pointLights idx s (removePointLight s idx)
   /\ spots_of (removePointLight s idx) = spots_of s
   /\ rects_of (removePointLight s idx) = rects_of s
   /\ (in_range idx (Store.pointLightCount s) = false -> removePointLight s idx = s))
  /\ (removed Store.spotLightCount Store.spotLights idx s (removeSpotLight s idx)
      /\ points_of (removeSpotLight s idx) = points_of s
      /\ rects_of (removeSpotLight s idx) = rects_of s
      /\ (in_range idx (Store.spotLightCount s) = false -> removeSpotLight s idx = s))
  /\ (removed Store.rectLightCount Store.rectLights idx s (removeRectLight s idx)
      /\ points_of (removeRectLight s idx) = points_of s
      /\ spots_of (removeRectLight s idx) = spots_of s
      /\ (in_range idx (Store.rectLightCount s) = false -> removeRectLight s idx = s)).
Proof.
  intros Hok. pose proof (store_ok_frame_ok s Hok) as [].
  split_and!;
    try apply removePointLight_removed; try apply removeSpotLight_removed;
    try apply removeRectLight_removed; try done;
    try apply removePointLight_others; try apply removeSpotLight_others;
    try apply removeRectLight_others;
    unfold in_range, removePointLight, removeSpotLight, removeRectLight;
    by intros ->.
Qed.

(** Whether some live light, of any kind, is animated. *)
Definition some_animated (s : Store.t) : bool :=
  any_animated pflags (Store.pointLightCount s) (Store.pointLights s)
  || any_animated sflags (Store.spotLightCount s) (Store.spotLights s)
  || any_animated rflags (Store.rectLightCount s) (Store.rectLights s).

Lemma any_animated_removed {A : Type} (f : A -> Z) (idx n : Z) (a : list A) :
  (Z.to_nat n <= length a)%nat -> in_range idx n = true ->
  any_animated f n (delete (Z.to_nat idx) (take (Z.to_nat n) a))
  = any_animated f (n - 1) (memmove_down (Z.to_nat idx) (Z.to_nat n) a).
Proof.
  intros Hn Hi. unfold any_animated.
  destruct (removed_spec idx n a Hn Hi) as [E _]. unfold live in E. rewrite E.
  f_equal. apply take_ge. rewrite length_delete.
  - rewrite length_take. lia.
  - apply lookup_lt_is_Some. rewrite length_take. unfold in_range in Hi.
    apply andb_true_iff in Hi as [H0 H1]. apply Z.leb_le in H0. apply Z.ltb_lt in H1. lia.
Qed.

Lemma removePointLight_flag s idx l :
  (Z.to_nat (Store.pointLightCount s) <= length (Store.pointLights s))%nat ->
  in_range idx (Store.pointLightCount s) = true ->
  Store.pointLights s !! Z.to_nat idx = Some l ->
  Store.hasAnimatedLights (removePointLight s idx)
  = if pflags l =? ANIM_NONE then Store.hasAnimatedLights s
    else of_bool (some_animated (removePointLight s idx)).
Proof.
  intros Hn Hi Hl. unfold removePointLight.
  fold (in_range idx (Store.pointLightCount s)). rewrite Hi, Hl.
  destruct (pflags l =? ANIM_NONE); [by destruct s|].
  unfold rescan_animated, some_animated. rewrite (any_animated_removed _ _ _ _ Hn Hi).
  by destruct s.
Qed.

Lemma removeSpotLight_flag s idx l :
  (Z.to_nat (Store.spotLightCount s) <= length (Store.spotLights s))%nat ->
  in_range idx (Store.spotLightCount s) = true ->
  Store.spotLights s !! Z.to_nat idx = Some l ->
  Store.hasAnimatedLights (removeSpotLight s idx)
  = if sflags l =? ANIM_NONE then Store.hasAnimatedLights s
    else of_bool (some_animated (removeSpotLight s idx)).
Proof.
  intros Hn Hi Hl. unfold removeSpotLight.
  fold (in_range idx (Store.spotLightCount s)). rewrite Hi, Hl.
  destruct (sflags l =? ANIM_NONE); [by destruct s|].
  unfold rescan_animated, some_animated. rewrite (any_animated_removed _ _ _ _ Hn Hi).
  destruct s; store_fields. f_equal.
  by destruct (any_animated sflags _ _), (any_animated pflags _ _).
Qed.

Lemma removeRectLight_flag s idx l :
  (Z.to_nat (Store.rectLightCount s) <= length (Store.rectLights s))%nat ->
  in_range idx (Store.rectLightCount s) = true ->
  Store.rectLights s !! Z.to_nat idx = Some l ->
  Store.hasAnimatedLights (removeRectLight s idx)
  = if rflags l =? ANIM_NONE then Store.hasAnimatedLights s
    else of_bool (some_animated (removeRectLight s idx)).
Proof.
  intros Hn Hi Hl. unfold removeRectLight.
  fold (in_range idx (Store.rectLightCount s)). rewrite Hi, Hl.
  destruct (rflags l =? ANIM_NONE); [by destruct s|].
  unfold rescan_animated, some_animated. rewrite (any_animated_removed _ _ _ _ Hn Hi).
  destruct s; store_fields. f_equal.
  by destruct (any_animated rflags _ _), (any_animated pflags _ _),
    (any_animated sflags _ _).
Qed.

(** X4: removing an animated light recomputes [hasAnimatedLights]
    exactly: afterwards it is 1 when some light that is still live, of
    any kind, is animated, and 0 otherwise.  Removing a light that is not
    animated leaves the flag as it was. *)
Theorem X4_remove_recomputes_hasAnimatedLights (s : Store.t) (idx : Z) :
  store_ok s ->
  (forall l, in_range idx (Store.pointLightCount s) = true ->
     Store.pointLights s !! Z.to_nat idx = Some l ->
     Store.hasAnimatedLights (removePointLight s idx)
     = if pflags l =? ANIM_NONE then Store.hasAnimatedLights s
       else of_bool (some_animated (removePointLight s idx)))
  /\ (forall l, in_range idx (Store.spotLightCount s) = true ->
        Store.spotLights s !! Z.to_nat idx = Some l ->
        Store.hasAnimatedLights (removeSpotLight s idx)
        = if sflags l =? ANIM_NONE then Store.hasAnimatedLights s
          else of_bool (some_animated (removeSpotLight s idx)))
  /\ (forall l, in_range idx (Store.rectLightCount s) = true ->
        Store.rectLights s !! Z.to_nat idx = Some l ->
        Store.hasAnimatedLights (removeRectLight s idx)
        = if rflags l =? ANIM_NONE then Store.hasAnimatedLights s
          else of_bool (some_animated (removeRectLight s idx))).
Proof.
  intros Hok. pose proof (store_ok_frame_ok s Hok) as [].
  split_and!; intros l Hi Hl.
  - by apply removePointLight_flag.
  - by apply removeSpotLight_flag.
  - by apply removeRectLight_flag.
Qed.

(** *** The invariant through the life of a store *)

Lemma of_bool_nonzero (b : bool) : b = true -> of_bool b <> 0.
Proof. by intros ->. Qed.

Lemma to_nat_zero (n : Z) : ~ 0 < n -> Z.to_nat n = 0%nat.
Proof. lia. Qed.

Lemma truthy_false (n : Z) : truthy n = false -> n = 0.
Proof. unfold truthy. destruct (Z.eqb_spec n 0); [done|discriminate]. Qed.

Ltac ok_open H :=
  destruct H as [[Ha1 Ha2 Ha3 Ha4 Ha5 Ha6 Ha7 Ha8 Ha9] Hcap [Hc1 Hc2 Hc3] Hh1 Hh2 Hh3].

Ltac ok_split := split; [split|idtac|split|idtac..].

Lemma init_ok mem count :
  0 <= count < 2147483648 -> allocated (init mem count) -> store_ok (init mem count).
Proof.
  intros Hc Ha. split; [done|cbn; lia|split; cbn; lia|cbn; lia..].
Qed.

Lemma reset_ok s : store_ok s -> store_ok (reset s).
Proof.
  intros H. ok_open H. unfold reset. destruct s; store_fields.
  ok_split; store_fields; try done; lia.
Qed.

Lemma setPointLightCount_ok s count : store_ok s -> store_ok (setPointLightCount s count).
Proof.
  intros H. unfold setPointLightCount.
  destruct (Z.leb_spec 0 count); [|done].
  destruct (Z.leb_spec count (Store.maxLights s)); [|done]. cbn [andb].
  ok_open H. destruct s; store_fields.
  ok_split; store_fields; try done; try lia.
  intros Hp. apply of_bool_nonzero. by apply Z.ltb_lt.
Qed.

Lemma setSpotLightCount_ok s count : store_ok s -> store_ok (setSpotLightCount s count).
Proof.
  intros H. unfold setSpotLightCount.
  destruct (Z.leb_spec 0 count); [|done].
  destruct (Z.leb_spec count (Store.maxLights s)); [|done]. cbn [andb].
  ok_open H. destruct s; store_fields.
  ok_split; store_fields; try done; try lia.
  intros Hp. apply of_bool_nonzero. by apply Z.ltb_lt.
Qed.

Lemma setRectLightCount_ok s count : store_ok s -> store_ok (setRectLightCount s count).
Proof.
  intros H. unfold setRectLightCount.
  destruct (Z.leb_spec 0 count); [|done].
  destruct (Z.leb_spec count (Store.maxLights s)); [|done]. cbn [andb].
  ok_open H. destruct s; store_fields.
  ok_split; store_fields; try done; try lia.
  intros Hp. apply of_bool_nonzero. by apply Z.ltb_lt.
Qed.

Lemma removePointLight_ok s idx : store_ok s -> store_ok (removePointLight s idx).
Proof.
  intros H. unfold removePointLight.
  destruct (Z.leb_spec 0 idx); [|done].
  destruct (Z.ltb_spec idx (Store.pointLightCount s)); [|done]. cbn [andb].
  ok_open H.
  assert (Hl : length (memmove_down (Z.to_nat idx) (Z.to_nat (Store.pointLightCount s))
                         (Store.pointLights s)) = length (Store.pointLights s))
    by (apply memmove_down_length; lia).
  destruct (Store.pointLights s !! Z.to_nat idx) as [l|]; [destruct (pflags l =? ANIM_NONE)|];
    destruct s; store_fields;
    (ok_split; store_fields; try done; try lia;
     intros Hp; apply of_bool_nonzero; by apply Z.ltb_lt).
Qed.

Lemma removeSpotLight_ok s idx : store_ok s -> store_ok (removeSpotLight s idx).
Proof.
  intros H. unfold removeSpotLight.
  destruct (Z.leb_spec 0 idx); [|done].
  destruct (Z.ltb_spec idx (Store.spotLightCount s)); [|done]. cbn [andb].
  ok_open H.
  assert (Hl : length (memmove_down (Z.to_nat idx) (Z.to_nat (Store.spotLightCount s))
                         (Store.spotLights s)) = length (Store.spotLights s))
    by (apply memmove_down_length; lia).
  destruct (Store.spotLights s !! Z.to_nat idx) as [l|]; [destruct (sflags l =? ANIM_NONE)|];
    destruct s; store_fields;
    (ok_split; store_fields; try done; try lia;
     intros Hp; apply of_bool_nonzero; by apply Z.ltb_lt).
Qed.

Lemma removeRectLight_ok s idx : store_ok s -> store_ok (removeRectLight s idx).
Proof.
  intros H. unfold removeRectLight.
  destruct (Z.leb_spec 0 idx); [|done].
  destruct (Z.ltb_spec idx (Store.rectLightCount s)); [|done]. cbn [andb].
  ok_open H.
  assert (Hl : length (memmove_down (Z.to_nat idx) (Z.to_nat (Store.rectLightCount s))
                         (Store.rectLights s)) = length (Store.rectLights s))
    by (apply memmove_down_length; lia).
  destruct (Store.rectLights s !! Z.to_nat idx) as [l|]; [destruct (rflags l =? ANIM_NONE)|];
    destruct s; store_fields;
    (ok_split; store_fields; try done; try lia;
     intros Hp; apply of_bool_nonzero; by apply Z.ltb_lt).
Qed.

(** X5: [reset], the three [set...LightCount] and the three removals
    keep the store invariant, whatever their argument; and [init] with a
    capacity that is a non-negative C [int], and whose allocations give
    every array that many elements, establishes it. *)
Theorem X5_lifecycle_keeps_the_store_invariant (s : Store.t) :
  store_ok s ->
  store_ok (reset s)
  /\ (forall count, store_ok (setPointLightCount s count))
  /\ (forall count, store_ok (setSpotLightCount s count))
  /\ (forall count, store_ok (setRectLightCount s count))
  /\ (forall idx, store_ok (removePointLight s idx))
  /\ (forall idx, store_ok (removeSpotLight s idx))
  /\ (forall idx, store_ok (removeRectLight s idx))
  /\ (forall mem count, 0 <= count < 2147483648 -> allocated (init mem count) ->
        store_ok (init mem count)).
Proof.
  intros Hok. split_and!; intros.
  - by apply reset_ok.
  - by apply setPointLightCount_ok.
  - by apply setSpotLightCount_ok.
  - by apply setRectLightCount_ok.
  - by apply removePointLight_ok.
  - by apply removeSpotLight_ok.
  - by apply removeRectLight_ok.
  - by apply init_ok.
Qed.

(** *** The invariant through creation *)

Ltac creation_ok f :=
  intros H; unfold f;
  match goal with
  | |- context [Store.maxLights ?s <=? ?n] => destruct (Z.leb_spec (Store.maxLights s) n)
  end; [done|];
  ok_open H;
  match goal with s : Store.t |- _ => destruct s end; store_fields;
  repeat match goal with |- context [if ?b then _ else _] => destruct b end;
  store_fields; (ok_split; store_fields; rewrite ?length_alter; try done; lia).

Section CreationInvariant.
Context `{P : Platform}.

Lemma add_ok s px py pz radius r g b decay speed animRadius intensity :
  store_ok s -> store_ok (add s px py pz radius r g b decay speed animRadius intensity).1.
Proof. creation_ok @add. Qed.

Lemma addFast_ok s px py pz radius r g b intensity :
  store_ok s -> store_ok (addFast s px py pz radius r g b intensity).1.
Proof. creation_ok @addFast. Qed.

Lemma addPointWithAnimation_ok s px py pz radius r g b intensity decay animFlags
    circSpeed circRadius targetX targetY targetZ duration delay linearMode
    waveAxisX waveAxisY waveAxisZ waveSpeed waveAmplitude wavePhase
    flickerSpeed flickerIntensity flickerSeed pulseSpeed pulseAmount pulseTarget :
  store_ok s ->
  store_ok (addPointWithAnimation s px py pz radius r g b intensity decay animFlags
       circSpeed circRadius targetX targetY targetZ duration delay linearMode
       waveAxisX waveAxisY waveAxisZ waveSpeed waveAmplitude wavePhase
       flickerSpeed flickerIntensity flickerSeed pulseSpeed pulseAmount pulseTarget).1.
Proof. creation_ok @addPointWithAnimation. Qed.

Lemma addSpot_ok s px py pz radius r g b dx dy dz angle penumbra decay intensity :
  store_ok s ->
  store_ok (addSpot s px py pz radius r g b dx dy dz angle penumbra decay intensity).1.
Proof. creation_ok @addSpot. Qed.

Lemma addSpotWithAnimation_ok s px py pz radius r g b dx dy dz angle penumbra decay
    intensity animFlags targetX targetY targetZ duration delay linearMode
    rotAxisX rotAxisY rotAxisZ rotSpeed rotAngle rotMode
    flickerSpeed flickerIntensity flickerSeed pulseSpeed pulseAmount pulseTarget :
  store_ok s ->
  store_ok (addSpotWithAnimation s px py pz radius r g b dx dy dz angle penumbra decay
       intensity animFlags targetX targetY targetZ duration delay linearMode
       rotAxisX rotAxisY rotAxisZ rotSpeed rotAngle rotMode
       flickerSpeed flickerIntensity flickerSeed pulseSpeed pulseAmount pulseTarget).1.
Proof. creation_ok @addSpotWithAnimation. Qed.

Lemma addRect_ok s px py pz width height nx ny nz r g b intensity decay radius :
  store_ok s ->
  store_ok (addRect s px py pz width height nx ny nz r g b intensity decay radius).1.
Proof. creation_ok @addRect. Qed.

Lemma addRectWithAnimation_ok s px py pz width height nx ny nz r g b intensity decay
    radius animFlags targetX targetY targetZ duration delay linearMode
    rotAxisX rotAxisY rotAxisZ rotSpeed rotAngle rotMode
    flickerSpeed flickerIntensity flickerSeed pulseSpeed pulseAmount pulseTarget :
  store_ok s ->
  store_ok (addRectWithAnimation s px py pz width height nx ny nz r g b intensity decay
       radius animFlags targetX targetY targetZ duration delay linearMode
       rotAxisX rotAxisY rotAxisZ rotSpeed rotAngle rotMode
       flickerSpeed flickerIntensity flickerSeed pulseSpeed pulseAmount pulseTarget).1.
Proof. creation_ok @addRectWithAnimation. Qed.

Lemma bulk_point_fold_length first positions colors decays animFlags animParams ks :
  forall st,
    length (fold_left (bulk_point_step first positions colors decays animFlags animParams)
              ks st).1 = length st.1.
Proof.
  induction ks as [|k ks IH]; intros [ls an]; [done|].
  cbn [fold_left]. rewrite IH. unfold bulk_point_step. cbn [fst]. apply length_alter.
Qed.

Lemma bulkAddPointLights_ok s count positions colors decays animFlags animParams :
  store_ok s -> Store.pointLightCount s + count < 2147483648 ->
  store_ok (bulkAddPointLights s count positions colors decays animFlags animParams).1.
Proof.
  intros H Hsum.
  destruct (bulkAddPointLights_counts s count positions colors decays animFlags
              animParams) as (_ & E2 & E3).
  assert (Ht : 0 <= bulk_points_taken s count
               <= Store.maxLights s - Store.pointLightCount s).
  { ok_open H. unfold bulk_points_taken.
    destruct (Z.ltb_spec (Store.maxLights s) (i32 (Store.pointLightCount s + count)))
      as [Hlt|Hge].
    - rewrite i32_id by lia. lia.
    - destruct (Z.le_gt_cases (-2147483648) (Store.pointLightCount s + count)).
      + rewrite i32_id in Hge by lia. lia.
      + lia. }
  revert E2 E3 Ht. generalize (bulk_points_taken s count). intros t E2 E3 Ht.
  unfold bulkAddPointLights in *.
  pose proof (bulk_point_fold_length (Store.pointLightCount s) positions colors decays
                animFlags animParams
                (seq 0 (Z.to_nat (if Store.maxLights s <? i32 (Store.pointLightCount s + count)
                                  then i32 (Store.maxLights s - Store.pointLightCount s)
                                  else count)))
                (Store.pointLights s, Store.hasAnimatedLights s)) as Hl.
  destruct (fold_left _ _ _) as [ls an]. cbn [fst] in *.
  ok_open H. unfold but_points in E3. destruct s; store_fields.
  ok_split; store_fields; try done; lia.
Qed.

(** One iteration of [bulkAddLights] keeps the invariant. *)
Lemma bulk_step_ok types positions colors decays animFlags animParams spotParams
    rectParams st k :
  store_ok (Bulk.store st) ->
  store_ok (Bulk.store (bulk_step types positions colors decays animFlags animParams
                          spotParams rectParams st k)).
Proof.
  intros H. unfold bulk_step. destruct st as [s pa sa ra si ri]. cbn [Bulk.store] in *.
  destruct (_ =? 0); [|destruct (_ =? 1); [|destruct (_ =? 2); [|done]]];
    match goal with
    | |- context [Store.maxLights s <=? ?n] => destruct (Z.leb_spec (Store.maxLights s) n)
    end; try done;
    ok_open H; destruct s; store_fields; cbn [Bulk.store];
    destruct (sets_animated _ _); store_fields;
    (ok_split; store_fields; rewrite ?length_alter; try done; lia).
Qed.

Lemma bulkAddLights_ok s count types positions colors decays animFlags animParams
    spotParams rectParams :
  store_ok s ->
  store_ok (bulkAddLights s count types positions colors decays animFlags animParams
              spotParams rectParams).1.
Proof.
  intros H. unfold bulkAddLights. cbn [fst].
  assert (Hf : forall ks st, store_ok (Bulk.store st) ->
             store_ok (Bulk.store
               (fold_left (bulk_step types positions colors decays animFlags animParams
                             spotParams rectParams) ks st))).
  { induction ks as [|k ks IH]; intros st Hst; [done|].
    cbn [fold_left]. apply IH. by apply bulk_step_ok. }
  specialize (Hf (seq 0 (Z.to_nat count)) (Bulk.mk s 0 0 0 0 0) H).
  destruct (fold_left _ _ _) as [s' pa sa ra si ri]. cbn [Bulk.store] in *.
  ok_open Hf. destruct s'; store_fields. ok_split; store_fields; done.
Qed.

(** X6: every creation entry point keeps the store invariant, whether it
    creates a light or answers -1, and so do the two bulk entry points
    ([bulkAddPointLights] as long as the sum of the count and the number
    asked for is a C [int]). *)
Theorem X6_creation_keeps_the_store_invariant (s : Store.t) :
  store_ok s ->
  (forall px py pz radius r g b decay speed animRadius intensity,
     store_ok (add s px py pz radius r g b decay speed animRadius intensity).1)
  /\ (forall px py pz radius r g b intensity,
        store_ok (addFast s px py pz radius r g b intensity).1)
  /\ (forall px py pz radius r g b intensity decay animFlags
             circSpeed circRadius targetX targetY targetZ duration delay linearMode
             waveAxisX waveAxisY waveAxisZ waveSpeed waveAmplitude wavePhase
             flickerSpeed flickerIntensity flickerSeed pulseSpeed pulseAmount pulseTarget,
        store_ok
          (addPointWithAnimation s px py pz radius r g b intensity decay animFlags
             circSpeed circRadius targetX targetY targetZ duration delay linearMode
             waveAxisX waveAxisY waveAxisZ waveSpeed waveAmplitude wavePhase
             flickerSpeed flickerIntensity flickerSeed pulseSpeed pulseAmount
             pulseTarget).1)
  /\ (forall px py pz radius r g b dx dy dz angle penumbra decay intensity,
        store_ok
          (addSpot s px py pz radius r g b dx dy dz angle penumbra decay intensity).1)
  /\ (forall px py pz radius r g b dx dy dz angle penumbra decay intensity animFlags
             targetX targetY targetZ duration delay linearMode
             rotAxisX rotAxisY rotAxisZ rotSpeed rotAngle rotMode
             flickerSpeed flickerIntensity flickerSeed pulseSpeed pulseAmount pulseTarget,
        store_ok
          (addSpotWithAnimation s px py pz radius r g b dx dy dz angle penumbra decay
             intensity animFlags targetX targetY targetZ duration delay linearMode
             rotAxisX rotAxisY rotAxisZ rotSpeed rotAngle rotMode
             flickerSpeed flickerIntensity flickerSeed pulseSpeed pulseAmount
             pulseTarget).1)
  /\ (forall px py pz width height nx ny nz r g b intensity decay radius,
        store_ok
          (addRect s px py pz width height nx ny nz r g b intensity decay radius).1)
  /\ (forall px py pz width height nx ny nz r g b intensity decay radius animFlags
             targetX targetY targetZ duration delay linearMode
             rotAxisX rotAxisY rotAxisZ rotSpeed rotAngle rotMode
             flickerSpeed flickerIntensity flickerSeed pulseSpeed pulseAmount pulseTarget,
        store_ok
          (addRectWithAnimation s px py pz width height nx ny nz r g b intensity decay
             radius animFlags targetX targetY targetZ duration delay linearMode
             rotAxisX rotAxisY rotAxisZ rotSpeed rotAngle rotMode
             flickerSpeed flickerIntensity flickerSeed pulseSpeed pulseAmount
             pulseTarget).1)
  /\ (forall count positions colors decays animFlags animParams,
        Store.pointLightCount s + count < 2147483648 ->
        store_ok
          (bulkAddPointLights s count positions colors decays animFlags animParams).1)
  /\ (forall count types positions colors decays animFlags animParams spotParams
             rectParams,
        store_ok
          (bulkAddLights s count types positions colors decays animFlags animParams
             spotParams rectParams).1).
Proof.
  intros Hok. split_and!; intros.
  - by apply add_ok.
  - by apply addFast_ok.
  - by apply addPointWithAnimation_ok.
  - by apply addSpot_ok.
  - by apply addSpotWithAnimation_ok.
  - by apply addRect_ok.
  - by apply addRectWithAnimation_ok.
  - by apply bulkAddPointLights_ok.
  - by apply bulkAddLights_ok.
Qed.

End CreationInvariant.

(** *** A frame, array by array *)

(** What a frame does to the arrays of one kind: each of the [n] live
    lights and its record are replaced by what the iteration [body] of
    that light gives, and nothing else is written. *)
Record kind_pass {L D : Type} (n : nat) (body : nat -> L -> L * D)
    (ls : list L) (tex : list D) (ls' : list L) (tex' : list D) : Prop := {
  kp_lights : length ls' = length ls;
  kp_records : length tex' = length tex;
  kp_in : forall j l, (j < n)%nat -> ls !! j = Some l ->
          ls' !! j = Some (body j l).1 /\ tex' !! j = Some (body j l).2;
  kp_out : forall j, (n <= j)%nat -> ls' !! j = ls !! j /\ tex' !! j = tex !! j
}.

Lemma kind_pass_none {L D : Type} (body : nat -> L -> L * D) (ls : list L) (tex : list D) :
  kind_pass 0 body ls tex ls tex.
Proof. split; try done. intros; lia. Qed.

(** Two passes over arrays that agree beyond the live lights, with
    bodies that agree on the live lights, leave the same arrays. *)
Lemma kind_pass_agree {L D : Type} (n : nat) (body1 body2 : nat -> L -> L * D)
    (ls1 ls2 : list L) (tex1 tex2 : list D) (ls1' ls2' : list L) (tex1' tex2' : list D) :
  (n <= length ls1)%nat -> (n <= length tex1)%nat ->
  length ls2 = length ls1 -> length tex2 = length tex1 ->
  (forall j l1, (j < n)%nat -> ls1 !! j = Some l1 ->
     exists l2, ls2 !! j = Some l2 /\ body2 j l2 = body1 j l1) ->
  (forall j, (n <= j)%nat -> ls2 !! j = ls1 !! j /\ tex2 !! j = tex1 !! j) ->
  kind_pass n body1 ls1 tex1 ls1' tex1' ->
  kind_pass n body2 ls2 tex2 ls2' tex2' ->
  ls2' = ls1' /\ tex2' = tex1'.
Proof.
  intros Hn Hn' Hl Ht Hin Hout [A1 A2 A3 A4] [B1 B2 B3 B4].
  split; apply list_eq; intros j.
  - destruct (decide (j < n)%nat) as [Hj|Hj].
    + destruct (lookup_lt_is_Some_2 ls1 j ltac:(lia)) as [l1 E1].
      destruct (Hin j l1 Hj E1) as (l2 & E2 & Eb).
      rewrite (proj1 (A3 j l1 Hj E1)), (proj1 (B3 j l2 Hj E2)). by rewrite Eb.
    + rewrite (proj1 (A4 j ltac:(lia))), (proj1 (B4 j ltac:(lia))).
      apply Hout. lia.
  - destruct (decide (j < n)%nat) as [Hj|Hj].
    + destruct (lookup_lt_is_Some_2 ls1 j ltac:(lia)) as [l1 E1].
      destruct (Hin j l1 Hj E1) as (l2 & E2 & Eb).
      rewrite (proj2 (A3 j l1 Hj E1)), (proj2 (B3 j l2 Hj E2)). by rewrite Eb.
    + rewrite (proj2 (A4 j ltac:(lia))), (proj2 (B4 j ltac:(lia))).
      apply Hout. lia.
Qed.

Lemma pass_of_kind_pass {L D : Type} (flagsOf : L -> Z) (body : L -> L * D) (n : nat)
    (ls : list L) (tex : list D) (ls' : list L) (tex' : list D) :
  (n <= length tex)%nat ->
  pass_of body 0 n ls tex ls' tex' ->
  kind_pass n (fun _ => body) ls tex ls' tex'.
Proof.
  intros Hn [H1 H2 H3 H4 H5 H6]. split; [done|done|..].
  - intros j l Hj Hl. split; [apply H3; [lia|done]|apply H5; [lia|done|lia]].
  - intros j Hj. split; [apply H4; lia|apply H6; lia].
Qed.

Section FramePasses.
Context `{P : Platform}.

(** The iteration of point light [j] under the settings [env]. *)
Definition point_iteration (env : Env.t) (time : f32) (n : nat) (ls : list PointLight.t)
    (j : nat) (l : PointLight.t) : PointLight.t * PointLightDataOptimized.t :=
  if wasm_simd128 then simd_body env time n ls j l else updatePointScalar env time l.

Lemma pointsPass_kind time s :
  (Z.to_nat (Store.pointLightCount s) <= length (Store.pointLights s))%nat ->
  (Z.to_nat (Store.pointLightCount s) <= length (Store.pointLightTexture s))%nat ->
  exists ls' tex',
    pointsPass time s = Store.set_points ls' (Store.pointLightsScratch s) tex' s
    /\ kind_pass (Z.to_nat (Store.pointLightCount s))
         (point_iteration (env_of s) time (Z.to_nat (Store.pointLightCount s))
            (Store.pointLights s))
         (Store.pointLights s) (Store.pointLightTexture s) ls' tex'.
Proof.
  intros Hn Hn'. unfold pointsPass, updatePoints, point_iteration.
  destruct wasm_simd128.
  - destruct (Z.le_gt_cases 0 (Store.pointLightCount s)) as [H0|H0].
    + destruct (updatePointLightsSIMD_spec (env_of s) time _ _ _ Hn Hn')
        as (ls' & tex' & E & L1 & L2 & Hin & Hout).
      rewrite Z2Nat.id in E by done. rewrite E. exists ls', tex'. split; [done|].
      by split.
    + assert (E0 : Z.to_nat (Store.pointLightCount s) = 0%nat) by lia.
      unfold updatePointLightsSIMD. rewrite E0. cbn [simd_loop].
      unfold for_lights. cbn [seq Nat.sub fold_left].
      exists (Store.pointLights s), (Store.pointLightTexture s). split; [done|].
      apply kind_pass_none.
  - destruct (for_lights_pass (fun l => AnimationParams.flags (PointLight.anim l))
                (updatePointScalar (env_of s) time) 0
                (Z.to_nat (Store.pointLightCount s))
                (Store.pointLights s) (Store.pointLightTexture s) 0)
      as (ls' & tex' & an' & -> & Hp).
    exists ls', tex'. split; [done|].
    rewrite Nat.sub_0_r in Hp. by eapply pass_of_kind_pass.
Qed.

Lemma spotsPass_kind time s :
  (Z.to_nat (Store.spotLightCount s) <= length (Store.spotLightTexture s))%nat ->
  exists ls' tex',
    spotsPass time s = Store.set_spots ls' (Store.spotLightsScratch s) tex' s
    /\ kind_pass (Z.to_nat (Store.spotLightCount s))
         (fun _ => updateSpotScalar (env_of s) time)
         (Store.spotLights s) (Store.spotLightTexture s) ls' tex'.
Proof.
  intros Hn'. unfold spotsPass, updateSpots.
  destruct (for_lights_pass (fun l => AnimationParams.flags (SpotLight.anim l))
              (updateSpotScalar (env_of s) time) 0
              (Z.to_nat (Store.spotLightCount s))
              (Store.spotLights s) (Store.spotLightTexture s) 0)
    as (ls' & tex' & an' & -> & Hp).
  exists ls', tex'. split; [done|].
  rewrite Nat.sub_0_r in Hp. by eapply pass_of_kind_pass.
Qed.

Lemma rectsPass_kind time s :
  (Z.to_nat (Store.rectLightCount s) <= length (Store.rectLightTexture s))%nat ->
  exists ls' tex',
    rectsPass time s = Store.set_rects ls' (Store.rectLightsScratch s) tex' s
    /\ kind_pass (Z.to_nat (Store.rectLightCount s))
         (fun _ => updateRectScalar (env_of s) time)
         (Store.rectLights s) (Store.rectLightTexture s) ls' tex'.
Proof.
  intros Hn'. unfold rectsPass, updateRects.
  destruct (for_lights_pass (fun l => AnimationParams.flags (RectLight.anim l))
              (updateRectScalar (env_of s) time) 0
              (Z.to_nat (Store.rectLightCount s))
              (Store.rectLights s) (Store.rectLightTexture s) 0)
    as (ls' & tex' & an' & -> & Hp).
  exists ls', tex'. split; [done|].
  rewrite Nat.sub_0_r in Hp. by eapply pass_of_kind_pass.
Qed.

(** The store a frame leaves, field by field: the three pairs of arrays
    as the passes leave them, the view matrix cached, and every other
    field as it was. *)
Record framed (s : Store.t) (time : f32) (s' : Store.t) : Prop := {
  framed_points :
    kind_pass (Z.to_nat (Store.pointLightCount s))
      (point_iteration (frame_env s) time (Z.to_nat (Store.pointLightCount s))
         (Store.pointLights s))
      (Store.pointLights s) (Store.pointLightTexture s)
      (Store.pointLights s') (Store.pointLightTexture s');
  framed_spots :
    kind_pass (Z.to_nat (Store.spotLightCount s))
      (fun _ => updateSpotScalar (frame_env s) time)
      (Store.spotLights s) (Store.spotLightTexture s)
      (Store.spotLights s') (Store.spotLightTexture s');
  framed_rects :
    kind_pass (Z.to_nat (Store.rectLightCount s))
      (fun _ => updateRectScalar (frame_env s) time)
      (Store.rectLights s) (Store.rectLightTexture s)
      (Store.rectLights s') (Store.rectLightTexture s');
  framed_rest :
    s' = Store.mk (Store.pointLights s') (Store.spotLights s') (Store.rectLights s')
           (Store.pointLightsScratch s) (Store.spotLightsScratch s)
           (Store.rectLightsScratch s) (Store.pointLightTexture s')
           (Store.spotLightTexture s') (Store.rectLightTexture s') (Store.cameraMatrix s)
           (Store.pointLightCount s) (Store.spotLightCount s) (Store.rectLightCount s)
           (Store.maxLights s) (Store.hasAnimatedLights s) (Store.needsSort s)
           (Store.hasPointLights s) (Store.hasSpotLights s) (Store.hasRectLights s)
           (load_view (Store.cameraMatrix s)) (Store.viewNear s) (Store.viewFar s)
           (Store.lodBias s)
}.

Lemma update_framed s time : frame_ok s -> framed s time (update s time).1.
Proof.
  intros [Hp Hp' Hs Hs' Hr Hr' Fp Fs Fr]. rewrite update_frame. unfold frame.
  set (s0 := Store.set_view _ s).
  (* the point pass *)
  assert (H1 : exists pl pt,
             (if truthy (Store.hasPointLights s) then pointsPass time s0 else s0)
             = Store.set_points pl (Store.pointLightsScratch s) pt s0
             /\ kind_pass (Z.to_nat (Store.pointLightCount s))
                  (point_iteration (frame_env s) time
                     (Z.to_nat (Store.pointLightCount s)) (Store.pointLights s))
                  (Store.pointLights s) (Store.pointLightTexture s) pl pt).
  { destruct (truthy (Store.hasPointLights s)) eqn:E.
    - destruct (pointsPass_kind time s0) as (pl & pt & -> & K); [done..|].
      by exists pl, pt.
    - exists (Store.pointLights s), (Store.pointLightTexture s). split; [by destruct s|].
      rewrite to_nat_zero by (intros H; apply Fp in H; by apply truthy_false in E).
      apply kind_pass_none. }
  destruct H1 as (pl & pt & -> & Kp).
  set (s1 := Store.set_points pl _ pt s0).
  assert (H2 : exists sl st,
             (if truthy (Store.hasSpotLights s) then spotsPass time s1 else s1)
             = Store.set_spots sl (Store.spotLightsScratch s) st s1
             /\ kind_pass (Z.to_nat (Store.spotLightCount s))
                  (fun _ => updateSpotScalar (frame_env s) time)
                  (Store.spotLights s) (Store.spotLightTexture s) sl st).
  { destruct (truthy (Store.hasSpotLights s)) eqn:E.
    - destruct (spotsPass_kind time s1) as (sl & st & -> & K); [done|].
      by exists sl, st.
    - exists (Store.spotLights s), (Store.spotLightTexture s). split; [by destruct s|].
      rewrite to_nat_zero by (intros H; apply Fs in H; by apply truthy_false in E).
      apply kind_pass_none. }
  destruct H2 as (sl & st & -> & Ks).
  set (s2 := Store.set_spots sl _ st s1).
  assert (H3 : exists rl rt,
             (if truthy (Store.hasRectLights s) then rectsPass time s2 else s2)
             = Store.set_rects rl (Store.rectLightsScratch s) rt s2
             /\ kind_pass (Z.to_nat (Store.rectLightCount s))
                  (fun _ => updateRectScalar (frame_env s) time)
                  (Store.rectLights s) (Store.rectLightTexture s) rl rt).
  { destruct (truthy (Store.hasRectLights s)) eqn:E.
    - destruct (rectsPass_kind time s2) as (rl & rt & -> & K); [done|].
      by exists rl, rt.
    - exists (Store.rectLights s), (Store.rectLightTexture s). split; [by destruct s|].
      rewrite to_nat_zero by (intros H; apply Fr in H; by apply truthy_false in E).
      apply kind_pass_none. }
  destruct H3 as (rl & rt & -> & Kr).
  by split.
Qed.

End FramePasses.

(** *** What [update] answers *)

Lemma for_lights_answer {L D : Type} (flagsOf : L -> Z) (body : L -> L * D) (n : nat) :
  forall lo ls tex an,
    (fold_left (fun st i => light_step flagsOf body i st) (seq lo n) (ls, tex, an)).2
    = if existsb (fun l => negb (flagsOf l =? ANIM_NONE)) (take n (drop lo ls))
      then 1 else an.
Proof.
  induction n as [|n IH]; intros lo ls tex an; [done|].
  cbn [seq fold_left]. unfold light_step at 2.
  destruct (ls !! lo) as [l|] eqn:E.
  - destruct (body l) as [l' d]. rewrite IH.
    rewrite drop_insert_lt by lia.
    rewrite (drop_S ls l lo E). cbn [take existsb].
    destruct (flagsOf l =? ANIM_NONE); cbn [negb orb]; [done|].
    by destruct (existsb _ _).
  - rewrite IH. rewrite (drop_ge ls lo) by (by apply lookup_ge_None).
    rewrite (drop_ge ls (S lo)) by (apply lookup_ge_None in E; lia).
    by rewrite !take_nil.
Qed.

Lemma for_lights_any {L D : Type} (flagsOf : L -> Z) (body : L -> L * D) (n : Z)
    ls tex an :
  (for_lights flagsOf body 0 (Z.to_nat n) (ls, tex, an)).2
  = if any_animated flagsOf n ls then 1 else an.
Proof.
  unfold for_lights, any_animated. rewrite Nat.sub_0_r, for_lights_answer.
  by rewrite drop_0.
Qed.

Section Answer.
Context `{P : Platform}.

(** Exactly one kind of light is flagged as present: the three fast paths
    of [update]. *)
Definition one_kind (s : Store.t) : bool :=
  let hasP := truthy (Store.hasPointLights s) in
  let hasS := truthy (Store.hasSpotLights s) in
  let hasR := truthy (Store.hasRectLights s) in
  (hasP && negb hasS && negb hasR) || (negb hasP && hasS && negb hasR)
  || (negb hasP && negb hasS && hasR).

(** What the point pass reports about animation: in the scalar build
    whether it met an animated light; in the batched build nothing on a
    fast path and, on the general path, the flag [hasAnimatedLights] when
    there are point lights. *)
Definition points_report (s : Store.t) : bool :=
  if wasm_simd128
  then negb (one_kind s) && truthy (Store.hasAnimatedLights s)
       && (0 <? Store.pointLightCount s)
  else any_animated pflags (Store.pointLightCount s) (Store.pointLights s).

Definition answer (s : Store.t) : Z :=
  of_bool (points_report s
           || any_animated sflags (Store.spotLightCount s) (Store.spotLights s)
           || any_animated rflags (Store.rectLightCount s) (Store.rectLights s)
           || (one_kind s && truthy (Store.hasAnimatedLights s))).

Lemma any_animated_none {A : Type} (f : A -> Z) (n : Z) (a : list A) :
  ~ 0 < n -> any_animated f n a = false.
Proof. intros H. unfold any_animated. by rewrite to_nat_zero. Qed.

Lemma updatePoints_answer general time an s :
  (updatePoints general time an s).2
  = if wasm_simd128
    then (if general
          then of_bool (truthy an || (truthy (Store.hasAnimatedLights s)
                                      && (0 <? Store.pointLightCount s)))
          else an)
    else if any_animated pflags (Store.pointLightCount s) (Store.pointLights s)
         then 1 else an.
Proof.
  unfold updatePoints. destruct wasm_simd128.
  - by destruct (updatePointLightsSIMD _ _ _ _).
  - pose proof (for_lights_any (fun l => AnimationParams.flags (PointLight.anim l))
                  (updatePointScalar (env_of s) time) (Store.pointLightCount s)
                  (Store.pointLights s) (Store.pointLightTexture s) an) as E.
    by destruct (for_lights _ _ _ _ _) as [[ls tex] a].
Qed.

Lemma updateSpots_answer time an s :
  (updateSpots time an s).2
  = if any_animated sflags (Store.spotLightCount s) (Store.spotLights s) then 1 else an.
Proof.
  unfold updateSpots.
  pose proof (for_lights_any (fun l => AnimationParams.flags (SpotLight.anim l))
                (updateSpotScalar (env_of s) time) (Store.spotLightCount s)
                (Store.spotLights s) (Store.spotLightTexture s) an) as E.
  by destruct (for_lights _ _ _ _ _) as [[ls tex] a].
Qed.

Lemma updateRects_answer time an s :
  (updateRects time an s).2
  = if any_animated rflags (Store.rectLightCount s) (Store.rectLights s) then 1 else an.
Proof.
  unfold updateRects.
  pose proof (for_lights_any (fun l => AnimationParams.flags (RectLight.anim l))
                (updateRectScalar (env_of s) time) (Store.rectLightCount s)
                (Store.rectLights s) (Store.rectLightTexture s) an) as E.
  by destruct (for_lights _ _ _ _ _) as [[ls tex] a].
Qed.

(** The three passes, with what each answers. *)
Lemma updatePoints_eq general time an s :
  exists ls tex,
    updatePoints general time an s
    = (Store.set_points ls (Store.pointLightsScratch s) tex s,
       (updatePoints general time an s).2).
Proof.
  destruct (pointsPass_frame time s) as (ls & tex & E). exists ls, tex.
  rewrite <- E, <- (updatePoints_pass general time an s).
  by destruct (updatePoints general time an s).
Qed.

Lemma updateSpots_eq time an s :
  exists ls tex,
    updateSpots time an s
    = (Store.set_spots ls (Store.spotLightsScratch s) tex s, (updateSpots time an s).2).
Proof.
  destruct (spotsPass_frame time s) as (ls & tex & E). exists ls, tex.
  rewrite <- E, <- (updateSpots_pass time an s).
  by destruct (updateSpots time an s).
Qed.

Lemma updateRects_eq time an s :
  exists ls tex,
    updateRects time an s
    = (Store.set_rects ls (Store.rectLightsScratch s) tex s, (updateRects time an s).2).
Proof.
  destruct (rectsPass_frame time s) as (ls & tex & E). exists ls, tex.
  rewrite <- E, <- (updateRects_pass time an s).
  by destruct (updateRects time an s).
Qed.

Lemma update_answer s time : frame_ok s -> (update s time).2 = answer s.
Proof.
  intros [_ _ _ _ _ _ Fp Fs Fr].
  assert (Np : truthy (Store.hasPointLights s) = false ->
               any_animated pflags (Store.pointLightCount s) (Store.pointLights s) = false).
  { intros E. apply any_animated_none. intros H. apply Fp in H. by apply truthy_false in E. }
  assert (Ns : truthy (Store.hasSpotLights s) = false ->
               any_animated sflags (Store.spotLightCount s) (Store.spotLights s) = false).
  { intros E. apply any_animated_none. intros H. apply Fs in H. by apply truthy_false in E. }
  assert (Nr : truthy (Store.hasRectLights s) = false ->
               any_animated rflags (Store.rectLightCount s) (Store.rectLights s) = false).
  { intros E. apply any_animated_none. intros H. apply Fr in H. by apply truthy_false in E. }
  assert (Zp : truthy (Store.hasPointLights s) = false ->
               (0 <? Store.pointLightCount s) = false).
  { intros E. apply Z.ltb_ge. destruct (Z.lt_ge_cases 0 (Store.pointLightCount s)) as [H|H];
      [|lia]. apply Fp in H. by apply truthy_false in E. }
  unfold update, answer, points_report, one_kind.
  set (s0 := Store.set_view _ s).
  change (Store.hasPointLights s0) with (Store.hasPointLights s).
  change (Store.hasSpotLights s0) with (Store.hasSpotLights s).
  change (Store.hasRectLights s0) with (Store.hasRectLights s).
  change (Store.hasAnimatedLights s0) with (Store.hasAnimatedLights s).
  destruct (truthy (Store.hasPointLights s)) eqn:Ep;
    destruct (truthy (Store.hasSpotLights s)) eqn:Es;
    destruct (truthy (Store.hasRectLights s)) eqn:Er;
    cbn [andb negb orb snd fst];
    rewrite ?Np, ?Ns, ?Nr, ?Zp by done;
    repeat match goal with
    | |- context [updatePoints ?g ?t ?a ?x] =>
        let ls := fresh "ls" in let tex := fresh "tex" in let E := fresh "E" in
        destruct (updatePoints_eq g t a x) as (ls & tex & E); rewrite E;
        rewrite updatePoints_answer; clear E
    | |- context [updateSpots ?t ?a ?x] =>
        let ls := fresh "ls" in let tex := fresh "tex" in let E := fresh "E" in
        destruct (updateSpots_eq t a x) as (ls & tex & E); rewrite E;
        rewrite updateSpots_answer; clear E
    | |- context [updateRects ?t ?a ?x] =>
        let ls := fresh "ls" in let tex := fresh "tex" in let E := fresh "E" in
        destruct (updateRects_eq t a x) as (ls & tex & E); rewrite E;
        rewrite updateRects_answer; clear E
    end;
    cbn [snd fst];
    repeat match goal with
    | |- context [Store.pointLightCount ?x] =>
        progress change (Store.pointLightCount x) with (Store.pointLightCount s)
    | |- context [Store.spotLightCount ?x] =>
        progress change (Store.spotLightCount x) with (Store.spotLightCount s)
    | |- context [Store.rectLightCount ?x] =>
        progress change (Store.rectLightCount x) with (Store.rectLightCount s)
    | |- context [Store.hasAnimatedLights ?x] =>
        progress change (Store.hasAnimatedLights x) with (Store.hasAnimatedLights s)
    | |- context [Store.pointLights ?x] =>
        progress change (Store.pointLights x) with (Store.pointLights s)
    | |- context [Store.spotLights ?x] =>
        progress change (Store.spotLights x) with (Store.spotLights s)
    | |- context [Store.rectLights ?x] =>
        progress change (Store.rectLights x) with (Store.rectLights s)
    end;
    rewrite ?Np, ?Ns, ?Nr, ?Zp by done;
    destruct wasm_simd128;
    try destruct (any_animated pflags _ _); try destruct (any_animated sflags _ _);
    try destruct (any_animated rflags _ _);
    try destruct (truthy (Store.hasAnimatedLights s));
    try destruct (0 <? Store.pointLightCount s); reflexivity.
Qed.

Lemma truthy_true (n : Z) : truthy n = true -> n <> 0.
Proof. unfold truthy. by destruct (Z.eqb_spec n 0). Qed.

(** X12: what [update] answers.  The answer is 1 when the spot or the
    rect pass met an animated light, when the point pass reports
    animation, or when a fast path runs and [hasAnimatedLights] is set,
    and 0 otherwise; the scalar point pass reports the animated lights it
    met, the batched one reports [hasAnimatedLights] and only on the
    general path.  So an answer of 1 means that a live light is animated
    or that [hasAnimatedLights] is set, and in the scalar build every
    scene with a live animated light is answered 1. *)
Theorem X12_update_answers_whether_lights_are_animated (s : Store.t) (time : f32) :
  frame_ok s ->
  (update s time).2 = answer s
  /\ ((update s time).2 = 1 ->
      some_animated s = true \/ Store.hasAnimatedLights s <> 0)
  /\ (wasm_simd128 = false -> some_animated s = true -> (update s time).2 = 1).
Proof.
  intros Hok. rewrite update_answer by done. split; [done|].
  unfold answer, points_report, some_animated. split.
  - destruct wasm_simd128;
      destruct (any_animated pflags _ _), (any_animated sflags _ _),
        (any_animated rflags _ _), (one_kind s),
        (truthy (Store.hasAnimatedLights s)) eqn:E,
        (0 <? Store.pointLightCount s); cbn;
      intros H; try discriminate; try (by left); right; by apply truthy_true.
  - intros -> H. rewrite H. reflexivity.
Qed.

End Answer.

(** *** The circular fast path *)

Ltac opt := cbv [fmap option_fmap option_map].

Section Circular.
Context `{P : Platform}.
Variable time : f32.

(** Whether the light at [k] has the circular block enabled. *)
Definition circular_at (ls : list PointLight.t) (k : nat) : bool :=
  from_option (fun l => has_flag (AnimationParams.flags (PointLight.anim l)) ANIM_CIRCULAR)
    false (ls !! k).

(** What [updateCircularFast] does to light [j] of [n] live lights. *)
Definition circled (n : nat) (j : nat) (l : PointLight.t) : PointLight.t :=
  if (j <? n)%nat && has_flag (AnimationParams.flags (PointLight.anim l)) ANIM_CIRCULAR
  then circular_fast time (Z.of_nat j) l else l.

Lemma circular_fast_flags i l :
  PointLight.anim (circular_fast time i l) = PointLight.anim l.
Proof. by destruct l. Qed.

Lemma circular_step_length ls i : length (circular_step time ls i) = length ls.
Proof.
  unfold circular_step. destruct (ls !! i) as [l|]; [|done].
  destruct (has_flag _ _); [|done]. apply length_insert.
Qed.

Lemma circular_step_lookup ls i j :
  circular_step time ls i !! j
  = (fun l => if (j =? i)%nat
                 && has_flag (AnimationParams.flags (PointLight.anim l)) ANIM_CIRCULAR
              then circular_fast time (Z.of_nat j) l else l) <$> ls !! j.
Proof.
  unfold circular_step. destruct (Nat.eqb_spec j i) as [->|Hne]; cbn [andb].
  - destruct (ls !! i) as [l|] eqn:E; [|by rewrite E].
    destruct (has_flag _ _) eqn:F.
    + rewrite list_lookup_insert_eq by (by eapply lookup_lt_Some).
      opt. by rewrite F.
    + rewrite E. opt. by rewrite F.
  - assert (Hid : ls !! j = (fun l => l) <$> ls !! j) by (by destruct (ls !! j)).
    destruct (ls !! i) as [l|] eqn:E; [|done].
    destruct (has_flag _ _); [|done].
    by rewrite list_lookup_insert_ne by done.
Qed.

Lemma circular_for_seq k : forall lo ls j,
  fold_left (circular_step time) (seq lo k) ls !! j
  = (fun l => if (lo <=? j)%nat && (j <? lo + k)%nat
                 && has_flag (AnimationParams.flags (PointLight.anim l)) ANIM_CIRCULAR
              then circular_fast time (Z.of_nat j) l else l) <$> ls !! j.
Proof.
  induction k as [|k IH]; intros lo ls j.
  - cbn [seq fold_left]. destruct (ls !! j) as [l|]; [|done]. opt.
    destruct (Nat.leb_spec lo j), (Nat.ltb_spec j (lo + 0)); try done; lia.
  - cbn [seq fold_left]. rewrite IH, circular_step_lookup.
    destruct (ls !! j) as [l|]; [|done]. opt. f_equal.
    destruct (has_flag (AnimationParams.flags (PointLight.anim l)) ANIM_CIRCULAR) eqn:F.
    + rewrite andb_true_r. destruct (Nat.eqb_spec j lo) as [->|Hne].
      * rewrite circular_fast_flags, F.
        destruct (Nat.leb_spec (S lo) lo); [lia|]. cbn [andb].
        destruct (Nat.leb_spec lo lo); [|lia].
        destruct (Nat.ltb_spec lo (lo + S k)); [done|lia].
      * rewrite F.
        destruct (Nat.leb_spec (S lo) j), (Nat.leb_spec lo j),
          (Nat.ltb_spec j (S lo + k)), (Nat.ltb_spec j (lo + S k)); try done; lia.
    + rewrite !andb_false_r, F. by rewrite !andb_false_r.
Qed.

Lemma circular_for_lookup lo hi ls j :
  (lo <= hi)%nat ->
  circular_for time lo hi ls !! j
  = (fun l => if (lo <=? j)%nat && (j <? hi)%nat
                 && has_flag (AnimationParams.flags (PointLight.anim l)) ANIM_CIRCULAR
              then circular_fast time (Z.of_nat j) l else l) <$> ls !! j.
Proof.
  intros H. unfold circular_for. rewrite circular_for_seq.
  by replace (lo + (hi - lo))%nat with hi by lia.
Qed.

Lemma circular_for_join lo mid hi ls :
  (lo <= mid <= hi)%nat ->
  circular_for time mid hi (circular_for time lo mid ls) = circular_for time lo hi ls.
Proof.
  intros H. unfold circular_for.
  replace (hi - lo)%nat with ((mid - lo) + (hi - mid))%nat by lia.
  rewrite seq_app, fold_left_app. by replace (lo + (mid - lo))%nat with mid by lia.
Qed.

Lemma circular_for_all n ls : circular_for time 0 n ls = imap (circled n) ls.
Proof.
  apply list_eq. intros j. rewrite circular_for_lookup by lia.
  rewrite list_lookup_imap. destruct (ls !! j) as [l|]; [|done]. opt.
  unfold circled. by destruct (Nat.leb_spec 0 j); [|lia].
Qed.

(** **** The mask of a batch *)

Definition mask_step (b : bool) (j : nat) (animMask : Z) : Z :=
  if b then Z.lor animMask (Z.shiftl 1 (Z.of_nat j)) else animMask.

Definition mask8 (b0 b1 b2 b3 b4 b5 b6 b7 : bool) : Z :=
  mask_step b7 7 (mask_step b6 6 (mask_step b5 5 (mask_step b4 4
    (mask_step b3 3 (mask_step b2 2 (mask_step b1 1 (mask_step b0 0 0))))))).

Lemma circular_mask_eq ls i :
  circular_mask ls i
  = mask8 (circular_at ls (i + 0)) (circular_at ls (i + 1)) (circular_at ls (i + 2))
      (circular_at ls (i + 3)) (circular_at ls (i + 4)) (circular_at ls (i + 5))
      (circular_at ls (i + 6)) (circular_at ls (i + 7)).
Proof.
  unfold circular_mask, mask8. cbn [seq fold_left].
  assert (Hs : forall k j m,
             match ls !! k with
             | Some l =>
                 if has_flag (AnimationParams.flags (PointLight.anim l)) ANIM_CIRCULAR
                 then Z.lor m (Z.shiftl 1 (Z.of_nat j)) else m
             | None => m
             end = mask_step (circular_at ls k) j m).
  { intros k j m. unfold circular_at, mask_step. by destruct (ls !! k). }
  by rewrite !Hs.
Qed.

(** Bit [j] of the mask tells whether light [i + j] is circular. *)
Definition mask_bit (animMask : Z) (j : nat) : bool :=
  negb (Z.land animMask (Z.shiftl 1 (Z.of_nat j)) =? 0).

Lemma mask8_bit b0 b1 b2 b3 b4 b5 b6 b7 (j : nat) :
  (j < 8)%nat ->
  mask_bit (mask8 b0 b1 b2 b3 b4 b5 b6 b7) j = nth j [b0; b1; b2; b3; b4; b5; b6; b7] false.
Proof.
  intros Hj.
  do 8 (destruct j as [|j]; [by destruct b0, b1, b2, b3, b4, b5, b6, b7|]). lia.
Qed.

Lemma circular_mask_bit ls i j :
  (j < 8)%nat -> mask_bit (circular_mask ls i) j = circular_at ls (i + j).
Proof.
  intros Hj. rewrite circular_mask_eq, mask8_bit by done.
  do 8 (destruct j as [|j]; [done|]). lia.
Qed.

Lemma mask_bit_zero j : mask_bit 0 j = false.
Proof. unfold mask_bit. by rewrite Z.land_0_l. Qed.

(** One step of the inner loop of a batch, on bit [j] of [animMask]. *)
Definition masked_step (animMask : Z) (i : nat) (ls : list PointLight.t) (j : nat)
    : list PointLight.t :=
  if mask_bit animMask j then
    match ls !! (i + j)%nat with
    | Some l => <[(i + j)%nat := circular_fast time (Z.of_nat (i + j)) l]> ls
    | None => ls
    end
  else ls.

Lemma circular_batch_eq i ls :
  circular_batch time i ls
  = fold_left (masked_step (circular_mask ls i) i) (seq 0 8) ls.
Proof.
  unfold circular_batch. destruct (truthy (circular_mask ls i)) eqn:E; [done|].
  apply truthy_false in E. rewrite E. cbn [seq fold_left]. unfold masked_step.
  by rewrite !mask_bit_zero.
Qed.

Lemma circular_at_step ls k k' : circular_at (circular_step time ls k) k' = circular_at ls k'.
Proof.
  unfold circular_at. rewrite circular_step_lookup.
  destruct (ls !! k') as [l|]; [|done]. opt. cbn [from_option].
  destruct (_ && _); [|done]. by rewrite circular_fast_flags.
Qed.

Lemma masked_steps animMask i ls0 js : forall ls,
  (forall j, j ∈ js -> mask_bit animMask j = circular_at ls0 (i + j)) ->
  (forall k, circular_at ls k = circular_at ls0 k) ->
  fold_left (masked_step animMask i) js ls
  = fold_left (circular_step time) (Nat.add i <$> js) ls.
Proof.
  induction js as [|j js IH]; intros ls Hm Hc; [done|].
  cbn [fold_left fmap list_fmap].
  assert (E : masked_step animMask i ls j = circular_step time ls (i + j)).
  { unfold masked_step, circular_step. rewrite (Hm j) by left.
    rewrite <- Hc. unfold circular_at. destruct (ls !! (i + j)%nat) as [l|]; [|done].
    reflexivity. }
  rewrite E. apply IH.
  - intros j' Hj'. apply Hm. by right.
  - intros k. by rewrite circular_at_step.
Qed.

Lemma circular_batch_scalar i ls :
  circular_batch time i ls = circular_for time i (i + 8) ls.
Proof.
  rewrite circular_batch_eq. rewrite (masked_steps _ i ls).
  - unfold circular_for. replace (i + 8 - i)%nat with 8%nat by lia.
    by rewrite fmap_add_seq, Nat.add_0_r.
  - intros j Hj. apply circular_mask_bit. apply elem_of_seq in Hj. lia.
  - done.
Qed.

(** The 8-wide loop has done what the scalar loop does up to where it
    stops. *)
Lemma circular_batches_scalar fuel count : forall i ls,
  exists i',
    circular_batches fuel time count i ls = (i', circular_for time i i' ls)
    /\ (i <= i')%nat /\ Z.of_nat i' <= Z.max (Z.of_nat i) count.
Proof.
  induction fuel as [|fuel IH]; intros i ls.
  - exists i. opt. unfold circular_for. rewrite Nat.sub_diag. split; [done|lia].
  - cbn [circular_batches]. destruct (Z.ltb_spec (Z.of_nat i + 7) count) as [Hlt|Hge].
    + destruct (IH (i + 8)%nat (circular_batch time i ls)) as (i' & -> & Hle & Hc).
      exists i'. rewrite circular_batch_scalar, circular_for_join by lia.
      split; [done|]. lia.
    + exists i. unfold circular_for. rewrite Nat.sub_diag. split; [done|lia].
Qed.

Lemma updateCircularFast_closed s :
  updateCircularFast s time
  = Store.set_pointLights
      (imap (circled (Z.to_nat (Store.pointLightCount s))) (Store.pointLights s)) s.
Proof.
  unfold updateCircularFast. f_equal. rewrite <- circular_for_all.
  destruct wasm_simd128; [|done].
  destruct (circular_batches_scalar (Z.to_nat (Store.pointLightCount s))
              (Store.pointLightCount s) 0%nat (Store.pointLights s))
    as (i' & -> & Hle & Hc).
  apply circular_for_join. lia.
Qed.

End Circular.

(** *** What a point light's frame depends on *)

(** The fields of a point light that only creation and the setters write. *)
Definition point_inputs (l : PointLight.t)
    : Vec4.t * Vec4.t * AnimationParams.t * f32 * Z * Z * Z * f32 :=
  (PointLight.baseWorldPos l, PointLight.baseColor l, PointLight.anim l,
   PointLight.decay l, PointLight.morton l, PointLight.visible l,
   PointLight.castsShadow l, PointLight.shadowIntensity l).

(** [l'] gives the frame what [l] gives it, when the animation runs
    unless [flags] is [ANIM_NONE]: the same inputs, and the same offset
    and colour where the animation does not recompute them. *)
Definition redo (flags : Z) (l l' : PointLight.t) : Prop :=
  point_inputs l' = point_inputs l
  /\ (flags = ANIM_NONE ->
      PointLight.animOffset l' = PointLight.animOffset l
      /\ PointLight.color l' = PointLight.color l).

Section PointInputs.
Context `{P : Platform}.

Lemma animateBatch_redo flags time l l' :
  redo flags l l' ->
  exists vp dty lod,
    animateBatch flags time l'
    = PointLight.set_lodLevel lod (PointLight.set_dirty dty (PointLight.set_viewPos vp
        (animateBatch flags time l))).
Proof.
  intros [Hi Hc]. unfold animateBatch.
  destruct l as [base off wp col vp bcol a dcy mor dty vis lod cs si].
  destruct l' as [base' off' wp' col' vp' bcol' a' dcy' mor' dty' vis' lod' cs' si'].
  unfold point_inputs in Hi. cbn in Hi, Hc. simplify_eq.
  destruct (Z.eqb_spec flags ANIM_NONE) as [E|E].
  - destruct (Hc E) as [-> ->]. by exists vp', dty', lod'.
  - rewrite !processPointLightAnimation_closed. cbn.
    by exists vp', dty', lod'.
Qed.

Lemma pointPipeline_redo xf env l vp dty lod :
  pointPipeline xf env
    (PointLight.set_lodLevel lod (PointLight.set_dirty dty (PointLight.set_viewPos vp l)))
  = pointPipeline xf env l.
Proof. by destruct l. Qed.

Lemma updatePointLane_redo env time flags l l' :
  redo flags l l' ->
  updatePointLane env time flags l' = updatePointLane env time flags l.
Proof.
  intros H. unfold updatePointLane.
  destruct (animateBatch_redo flags time l l' H) as (vp & dty & lod & ->).
  apply pointPipeline_redo.
Qed.

Lemma animatePoint_batch time l :
  animatePoint time l = animateBatch (AnimationParams.flags (PointLight.anim l)) time l.
Proof. reflexivity. Qed.

Lemma redo_flags flags l l' :
  redo flags l l' ->
  AnimationParams.flags (PointLight.anim l') = AnimationParams.flags (PointLight.anim l).
Proof. intros [Hi _]. unfold point_inputs in Hi. congruence. Qed.

Lemma updatePointScalar_redo env time l l' :
  redo (AnimationParams.flags (PointLight.anim l)) l l' ->
  updatePointScalar env time l' = updatePointScalar env time l.
Proof.
  intros H. rewrite !updatePointScalar_pipeline, !animatePoint_batch.
  rewrite (redo_flags _ _ _ H).
  destruct (animateBatch_redo _ time l l' H) as (vp & dty & lod & ->).
  apply pointPipeline_redo.
Qed.

(** The flags that decide whether the animation of light [j] runs in a
    frame: those of its batch of four in the batched build when it falls
    in a full batch, its own otherwise. *)
Definition frame_flags (ls : list PointLight.t) (n j : nat) : Z :=
  if wasm_simd128 && in_batch n j then batch_flags_at ls (4 * (j / 4)) else flags_at ls j.

Lemma point_iteration_redo env time n ls ls' j l l' :
  ls !! j = Some l ->
  (forall k, flags_at ls' k = flags_at ls k) ->
  redo (frame_flags ls n j) l l' ->
  point_iteration env time n ls' j l' = point_iteration env time n ls j l.
Proof.
  intros Hl Hf H. unfold point_iteration, simd_body, frame_flags in *.
  assert (Hb : forall b, batch_flags_at ls' b = batch_flags_at ls b).
  { intros b. unfold batch_flags_at. by rewrite !Hf. }
  rewrite Hb. destruct wasm_simd128; cbn [andb] in H.
  - destruct (in_batch n j).
    + by apply updatePointLane_redo.
    + apply updatePointScalar_redo. unfold flags_at in H. by rewrite Hl in H.
  - apply updatePointScalar_redo. unfold flags_at in H. by rewrite Hl in H.
Qed.

(** A light with flags of its own is animated in a frame. *)
Lemma frame_flags_own ls n j l :
  ls !! j = Some l -> AnimationParams.flags (PointLight.anim l) <> ANIM_NONE ->
  frame_flags ls n j <> ANIM_NONE.
Proof.
  intros Hl Hf. unfold frame_flags, ANIM_NONE in *.
  assert (Hj : flags_at ls j <> 0) by (unfold flags_at; by rewrite Hl).
  destruct (wasm_simd128 && in_batch n j); [|done].
  unfold batch_flags_at. intros E.
  apply Z.lor_eq_0_iff in E as [E E3]. apply Z.lor_eq_0_iff in E as [E E2].
  apply Z.lor_eq_0_iff in E as [E0 E1].
  pose proof (Nat.div_mod_eq j 4) as Hd.
  pose proof (Nat.mod_upper_bound j 4 ltac:(lia)) as Hm.
  assert (Hc : (j mod 4 = 0 \/ j mod 4 = 1 \/ j mod 4 = 2 \/ j mod 4 = 3)%nat) by lia.
  destruct Hc as [Hc|[Hc|[Hc|Hc]]]; rewrite Hc in Hd;
    [replace (4 * (j / 4))%nat with j in E0 by lia
    |replace (4 * (j / 4) + 1)%nat with j in E1 by lia
    |replace (4 * (j / 4) + 2)%nat with j in E2 by lia
    |replace (4 * (j / 4) + 3)%nat with j in E3 by lia]; done.
Qed.

Lemma flags_at_any (ls ls' : list PointLight.t) (n : Z) :
  length ls' = length ls -> (forall k, flags_at ls' k = flags_at ls k) ->
  any_animated pflags n ls' = any_animated pflags n ls.
Proof.
  intros Hl Hf. unfold any_animated.
  assert (E : pflags <$> ls' = pflags <$> ls).
  { apply list_eq. intros k. rewrite !list_lookup_fmap. specialize (Hf k).
    unfold flags_at in Hf.
    destruct (ls !! k) as [l|] eqn:E1, (ls' !! k) as [l'|] eqn:E2; cbn in *.
    - f_equal. exact Hf.
    - apply lookup_ge_None in E2. apply lookup_lt_Some in E1. lia.
    - apply lookup_ge_None in E1. apply lookup_lt_Some in E2. lia.
    - done. }
  assert (Hm : forall a : list PointLight.t,
             existsb (fun l => negb (pflags l =? ANIM_NONE)) (take (Z.to_nat n) a)
             = existsb (fun f => negb (f =? ANIM_NONE)) (take (Z.to_nat n) (pflags <$> a))).
  { intros a. rewrite <- fmap_take. generalize (take (Z.to_nat n) a). intros b.
    induction b as [|x b IH]; [done|]. cbn. by rewrite IH. }
  by rewrite !Hm, E.
Qed.

Lemma kind_pass_same {L D : Type} (n : nat) (body : nat -> L -> L * D)
    (ls : list L) (tex : list D) (ls1 ls2 : list L) (tex1 tex2 : list D) :
  (n <= length ls)%nat -> (n <= length tex)%nat ->
  kind_pass n body ls tex ls1 tex1 -> kind_pass n body ls tex ls2 tex2 ->
  ls2 = ls1 /\ tex2 = tex1.
Proof.
  intros Hn Hn' K1 K2.
  apply (kind_pass_agree n body body ls ls tex tex ls1 ls2 tex1 tex2); try done.
  intros j l Hj Hl. by exists l.
Qed.

(** A frame over point lights that give it the same inputs is the same
    frame. *)
Lemma update_redo s ls' time :
  frame_ok s -> length ls' = length (Store.pointLights s) ->
  (forall j, (Z.to_nat (Store.pointLightCount s) <= j)%nat ->
     ls' !! j = Store.pointLights s !! j) ->
  (forall j l, (j < Z.to_nat (Store.pointLightCount s))%nat ->
     Store.pointLights s !! j = Some l ->
     exists l', ls' !! j = Some l'
       /\ redo (frame_flags (Store.pointLights s) (Z.to_nat (Store.pointLightCount s)) j)
            l l') ->
  update (Store.set_pointLights ls' s) time = update s time.
Proof.
  intros Hok Hlen Hout Hin. set (s' := Store.set_pointLights ls' s).
  assert (Hok' : frame_ok s').
  { destruct Hok as [H1 H2 H3 H4 H5 H6 H7 H8 H9].
    split; try done. change (Z.to_nat (Store.pointLightCount s) <= length ls')%nat. lia. }
  assert (Hf : forall k, flags_at ls' k = flags_at (Store.pointLights s) k).
  { intros k. unfold flags_at.
    destruct (decide (k < Z.to_nat (Store.pointLightCount s))%nat) as [Hk|Hk].
    - destruct (lookup_lt_is_Some_2 (Store.pointLights s) k) as [l El].
      { destruct Hok. lia. }
      destruct (Hin k l Hk El) as (l' & El' & Hr). rewrite El, El'. cbn.
      by apply redo_flags in Hr.
    - by rewrite Hout by lia. }
  apply injective_projections.
  - pose proof (update_framed s time Hok) as [Kp Ks Kr Er].
    pose proof (update_framed s' time Hok') as [Kp' Ks' Kr' Er'].
    destruct Hok as [Hp Hp' Hs Hs' Hr Hr' _ _ _].
    destruct (kind_pass_same _ _ _ _ _ _ _ _ Hs Hs' Ks Ks') as [Es1 Es2].
    destruct (kind_pass_same _ _ _ _ _ _ _ _ Hr Hr' Kr Kr') as [Er1 Er2].
    assert (Ep : Store.pointLights (update s' time).1 = Store.pointLights (update s time).1
                 /\ Store.pointLightTexture (update s' time).1
                    = Store.pointLightTexture (update s time).1).
    { refine (kind_pass_agree _ _ _ _ _ _ _ _ _ _ _ Hp Hp' Hlen eq_refl _ _ Kp Kp').
      - intros j l Hj Hl. destruct (Hin j l Hj Hl) as (l' & El' & Hr0).
        exists l'. split; [done|]. by apply point_iteration_redo.
      - intros j Hj. split; [by apply Hout|done]. }
    destruct Ep as [Ep1 Ep2].
    rewrite Er', Er. by rewrite Ep1, Ep2, Es1, Es2, Er1, Er2.
  - rewrite !update_answer by done. unfold answer, points_report, one_kind.
    change (Store.pointLights s') with ls'.
    by rewrite (flags_at_any _ _ _ Hlen Hf).
Qed.

Lemma circled_redo time flags n j l : redo flags l (circled time n j l).
Proof.
  unfold circled. destruct (_ && _); [|done]. by destruct l.
Qed.

Lemma update_after_circular s t0 time :
  frame_ok s -> update (updateCircularFast s t0) time = update s time.
Proof.
  intros Hok. rewrite updateCircularFast_closed. apply update_redo; [done|..].
  - apply length_imap.
  - intros j Hj. rewrite list_lookup_imap. destruct (Store.pointLights s !! j) as [l|]; [|done].
    cbn. unfold circled. by destruct (Nat.ltb_spec j (Z.to_nat (Store.pointLightCount s))); [lia|].
  - intros j l Hj Hl. exists (circled t0 (Z.to_nat (Store.pointLightCount s)) j l).
    split; [|apply circled_redo]. by rewrite list_lookup_imap, Hl.
Qed.

(** X7: whichever build runs it, [updateCircularFast] does to every live
    point light with the circular flag what its scalar loop does: it
    places [worldPos.x] and [worldPos.z] on the circle around the base
    position, at the phase [time * speed + i * 0.1f] of the light's index
    [i].  It writes nothing else: no other light, no other field, no
    record. *)
Theorem X7_updateCircularFast_per_light (s : Store.t) (time : f32) :
  frame_ok s ->
  updateCircularFast s time
  = Store.set_pointLights
      (imap (circled time (Z.to_nat (Store.pointLightCount s))) (Store.pointLights s)) s.
Proof. intros _. apply updateCircularFast_closed. Qed.

(** X9: a later [update] recomputes what [updateCircularFast] wrote: the
    frame after [updateCircularFast], store and answer, is the frame
    without it. *)
Theorem X9_update_overwrites_updateCircularFast (s : Store.t) (t0 time : f32) :
  frame_ok s -> update (updateCircularFast s t0) time = update s time.
Proof. apply update_after_circular. Qed.

(** **** The colour setters and animated lights *)

Lemma at_index_redo (idx n : Z) (f : PointLight.t -> PointLight.t) (ls : list PointLight.t) :
  (Z.to_nat n <= length ls)%nat ->
  (forall l, ls !! Z.to_nat idx = Some l ->
     redo (frame_flags ls (Z.to_nat n) (Z.to_nat idx)) l (f l)) ->
  forall j l, (j < Z.to_nat n)%nat -> ls !! j = Some l ->
    exists l', at_index idx n f ls !! j = Some l'
               /\ redo (frame_flags ls (Z.to_nat n) j) l l'.
Proof.
  intros Hn Hf j l Hj Hl. unfold at_index. destruct (_ && _); [|by exists l].
  destruct (decide (j = Z.to_nat idx)) as [->|Hne].
  - exists (f l). rewrite list_lookup_alter_eq, Hl. split; [done|by apply Hf].
  - exists l. by rewrite list_lookup_alter_ne by done.
Qed.

Lemma at_index_out {A : Type} (idx n : Z) (f : A -> A) (ls : list A) (j : nat) :
  (Z.to_nat n <= j)%nat -> at_index idx n f ls !! j = ls !! j.
Proof.
  intros Hj. unfold at_index.
  destruct (Z.leb_spec 0 idx); [|done]. destruct (Z.ltb_spec idx n); [|done]. cbn [andb].
  apply list_lookup_alter_ne. lia.
Qed.

Lemma at_index_length {A : Type} (idx n : Z) (f : A -> A) (ls : list A) :
  length (at_index idx n f ls) = length ls.
Proof. unfold at_index. destruct (_ && _); [apply length_alter|done]. Qed.

Lemma update_after_colour s idx (f : PointLight.t -> PointLight.t) time :
  frame_ok s ->
  (forall l, point_inputs (f l) = point_inputs l) ->
  (forall l, Store.pointLights s !! Z.to_nat idx = Some l ->
     AnimationParams.flags (PointLight.anim l) <> ANIM_NONE) ->
  update (Store.set_pointLights
            (at_index idx (Store.pointLightCount s) f (Store.pointLights s)) s) time
  = update s time.
Proof.
  intros Hok Hf Hl. apply update_redo; [done|apply at_index_length|..].
  - intros j Hj. by apply at_index_out.
  - apply at_index_redo; [apply Hok|]. intros l El. split; [apply Hf|].
    intros E.
    by destruct (frame_flags_own _ (Z.to_nat (Store.pointLightCount s)) _ _ El (Hl l El)).
Qed.

(** X8: on an animated point light [updatePointLightColor] and
    [updatePointLightIntensity] do not outlast a frame: the animation
    restarts from [baseColor], which no setter writes, so the next
    [update] leaves the store, the record of the light included, exactly
    as it would have without the call. *)
Theorem X8_colour_setters_are_lost_on_animated_point_lights
    (s : Store.t) (idx : Z) (l : PointLight.t) (r g b intensity time : f32) :
  frame_ok s ->
  Store.pointLights s !! Z.to_nat idx = Some l ->
  AnimationParams.flags (PointLight.anim l) <> ANIM_NONE ->
  update (updatePointLightColor s idx r g b) time = update s time
  /\ update (updatePointLightIntensity s idx intensity) time = update s time.
Proof.
  intros Hok Hl Hf. split; apply update_after_colour; try done;
    try (intros l0; by destruct l0); intros l0 E; by simplify_eq.
Qed.

End PointInputs.

(** *** Frames of point lights keep no history *)

Section History.
Context `{P : Platform}.

Lemma pipeline_redo xf env flags time l :
  redo flags l (pointPipeline xf env (animateBatch flags time l)).1.
Proof.
  unfold animateBatch. destruct (Z.eqb_spec flags ANIM_NONE) as [E|E].
  - by destruct l.
  - rewrite processPointLightAnimation_closed. by destruct l.
Qed.

Lemma point_iteration_again env time n ls j l :
  ls !! j = Some l -> redo (frame_flags ls n j) l (point_iteration env time n ls j l).1.
Proof.
  intros Hl. unfold point_iteration, simd_body, frame_flags, updatePointLane.
  destruct wasm_simd128; cbn [andb]; [destruct (in_batch n j)|];
    rewrite ?updatePointScalar_pipeline, ?animatePoint_batch;
    unfold flags_at; rewrite ?Hl; apply pipeline_redo.
Qed.

Lemma framed_frame_ok s time s' : frame_ok s -> framed s time s' -> frame_ok s'.
Proof.
  intros [H1 H2 H3 H4 H5 H6 H7 H8 H9] [[A1 A2 _ _] [B1 B2 _ _] [C1 C2 _ _] E].
  rewrite E. split; cbn; try done; lia.
Qed.

Lemma framed_env s time s' : framed s time s' -> frame_env s' = frame_env s.
Proof. intros [_ _ _ E]. by rewrite E. Qed.

Lemma framed_counts s time s' :
  framed s time s' ->
  Store.pointLightCount s' = Store.pointLightCount s
  /\ Store.spotLightCount s' = Store.spotLightCount s
  /\ Store.rectLightCount s' = Store.rectLightCount s.
Proof. intros [_ _ _ E]. by rewrite E. Qed.

Lemma framed_flags_at s time s1 :
  frame_ok s -> framed s time s1 ->
  forall k, flags_at (Store.pointLights s1) k = flags_at (Store.pointLights s) k.
Proof.
  intros Hok [[L1 L2 Hin Hout] _ _ _] k. unfold flags_at.
  destruct (decide (k < Z.to_nat (Store.pointLightCount s))%nat) as [Hk|Hk].
  - destruct (lookup_lt_is_Some_2 (Store.pointLights s) k) as [l El].
    { destruct Hok. lia. }
    rewrite (proj1 (Hin k l Hk El)), El. cbn.
    by rewrite (redo_flags _ _ _ (point_iteration_again _ time _ _ _ _ El)).
  - by rewrite (proj1 (Hout k ltac:(lia))).
Qed.

Lemma update_points_again s t1 t2 :
  frame_ok s ->
  Store.pointLights (update (update s t1).1 t2).1 = Store.pointLights (update s t2).1
  /\ Store.pointLightTexture (update (update s t1).1 t2).1
     = Store.pointLightTexture (update s t2).1.
Proof.
  intros Hok. set (s1 := (update s t1).1).
  pose proof (update_framed s t1 Hok) as F1. fold s1 in F1.
  pose proof (framed_frame_ok _ _ _ Hok F1) as Hok1.
  pose proof (update_framed s1 t2 Hok1) as [K12 _ _ _].
  pose proof (update_framed s t2 Hok) as [K2 _ _ _].
  rewrite (framed_env _ _ _ F1) in K12.
  destruct (framed_counts _ _ _ F1) as (Ec & _ & _). rewrite Ec in K12.
  destruct F1 as [[L1 L2 Hin Hout] _ _ _].
  assert (Hf : forall k, flags_at (Store.pointLights s1) k = flags_at (Store.pointLights s) k).
  { intros k. unfold flags_at.
    destruct (decide (k < Z.to_nat (Store.pointLightCount s))%nat) as [Hk|Hk].
    - destruct (lookup_lt_is_Some_2 (Store.pointLights s) k) as [l El].
      { destruct Hok. lia. }
      rewrite (proj1 (Hin k l Hk El)), El. cbn.
      by rewrite (redo_flags _ _ _ (point_iteration_again _ t1 _ _ _ _ El)).
    - by rewrite (proj1 (Hout k ltac:(lia))). }
  refine (kind_pass_agree _ _ _ _ _ _ _ _ _ _ _ _ _ L1 L2 _ _ K2 K12);
    [apply Hok|apply Hok|..].
  - intros j l Hj Hl. eexists. split; [apply (Hin j l Hj Hl)|].
    apply point_iteration_redo; [done|done|]. by apply point_iteration_again.
  - intros j Hj. apply Hout. lia.
Qed.

(** X10: the frames of point lights keep no history.  The point lights
    and their records after a frame at [t2] are the same whether or not a
    frame at [t1] ran before it: a frame recomputes every field it writes
    from the fields only creation and the setters write. *)
Theorem X10_point_frames_keep_no_history (s : Store.t) (t1 t2 : f32) :
  frame_ok s ->
  Store.pointLights (update (update s t1).1 t2).1 = Store.pointLights (update s t2).1
  /\ Store.pointLightTexture (update (update s t1).1 t2).1
     = Store.pointLightTexture (update s t2).1.
Proof. apply update_points_again. Qed.

End History.

(** *** Scenes without animated lights *)

Section Static.
Context `{P : Platform}.

Lemma any_animated_false {A : Type} (f : A -> Z) (n : Z) (a : list A) (j : nat) (l : A) :
  any_animated f n a = false -> (j < Z.to_nat n)%nat -> a !! j = Some l -> f l = ANIM_NONE.
Proof.
  unfold any_animated. intros H Hj Hl.
  assert (Hin : In l (take (Z.to_nat n) a)).
  { apply list_elem_of_In. apply list_elem_of_lookup. exists j.
    by rewrite lookup_take_lt by done. }
  destruct (Z.eqb_spec (f l) ANIM_NONE) as [E|E]; [done|].
  assert (Ht : existsb (fun l => negb (f l =? ANIM_NONE)) (take (Z.to_nat n) a) = true).
  { apply existsb_exists. exists l. split; [done|].
    by destruct (Z.eqb_spec (f l) ANIM_NONE). }
  congruence.
Qed.

Lemma frame_flags_none ls (n : Z) j :
  any_animated pflags n ls = false -> (j < Z.to_nat n)%nat ->
  frame_flags ls (Z.to_nat n) j = ANIM_NONE.
Proof.
  intros H Hj.
  assert (Hz : forall k, (k < Z.to_nat n)%nat -> flags_at ls k = 0).
  { intros k Hk. unfold flags_at. destruct (ls !! k) as [l|] eqn:E; [|done].
    apply (any_animated_false pflags n ls k l H Hk E). }
  unfold frame_flags. destruct wasm_simd128; cbn [andb]; [|by apply Hz].
  unfold in_batch. destruct (Nat.ltb_spec (4 * (j / 4) + 3) (Z.to_nat n)); [|by apply Hz].
  unfold batch_flags_at. by rewrite !Hz by lia.
Qed.

Lemma animateBatch_static t1 t2 l : animateBatch ANIM_NONE t1 l = animateBatch ANIM_NONE t2 l.
Proof. reflexivity. Qed.

Lemma point_iteration_static env t1 t2 n ls j l :
  ls !! j = Some l -> frame_flags ls n j = ANIM_NONE ->
  point_iteration env t1 n ls j l = point_iteration env t2 n ls j l.
Proof.
  intros Hl. unfold point_iteration, simd_body, frame_flags, updatePointLane.
  destruct wasm_simd128; cbn [andb]; [destruct (in_batch n j)|];
    rewrite ?updatePointScalar_pipeline, ?animatePoint_batch;
    unfold flags_at; rewrite ?Hl; cbn [from_option]; by intros ->.
Qed.

Lemma updateSpotScalar_static env t1 t2 l :
  sflags l = ANIM_NONE -> updateSpotScalar env t1 l = updateSpotScalar env t2 l.
Proof.
  unfold sflags. intros E. unfold updateSpotScalar, animateSpot. rewrite E.
  change (ANIM_NONE =? ANIM_NONE) with true. cbv iota. reflexivity.
Qed.

Lemma updateRectScalar_static env t1 t2 l :
  rflags l = ANIM_NONE -> updateRectScalar env t1 l = updateRectScalar env t2 l.
Proof.
  unfold rflags. intros E. unfold updateRectScalar, animateRect. rewrite E.
  change (ANIM_NONE =? ANIM_NONE) with true. cbv iota. reflexivity.
Qed.

Lemma worldDirToView_again e v out :
  worldDirToView e v (worldDirToView e v out) = worldDirToView e v out.
Proof. unfold worldDirToView. cbv zeta. by destruct (F32.gt _ _). Qed.

(** The iteration of a spot light that is not animated. *)
Definition spot_still (env : Env.t) (l : SpotLight.t) : SpotLight.t * SpotLightData.t :=
  let base := SpotLight.baseWorldPos l in
  let vp := worldToView (Env.view env) (Vec4.x base) (Vec4.y base) (Vec4.z base)
              (Vec4.w base) in
  let vd := worldDirToView (Env.view env) (SpotLight.direction l) (SpotLight.viewDir l) in
  let lod := calculateLOD (Env.lodBias env) (Vec4.z vp) (Vec4.w base) in
  let culled := culled_of (Env.viewNear env) (Env.viewFar env) (Vec4.z vp) (Vec4.w base) in
  (SpotLight.mk base (SpotLight.animOffset l) base (SpotLight.color l)
     (SpotLight.direction l) vp vd (SpotLight.baseDir l) (SpotLight.anim l)
     (SpotLight.decay l) (SpotLight.angle l) (SpotLight.penumbra l) (SpotLight.morton l)
     0 (SpotLight.visible l) lod (SpotLight.castsShadow l) (SpotLight.shadowIntensity l),
   SpotLightData.mk vp (SpotLight.color l) vd
     (Vec4.mk (cosf (SpotLight.angle l))
        (cosf (SpotLight.angle l ⊖ SpotLight.penumbra l)) (SpotLight.decay l)
        (packVisibleLOD (visible_and_not (SpotLight.visible l) culled) lod))).

Lemma updateSpotScalar_still env time l :
  sflags l = ANIM_NONE -> updateSpotScalar env time l = spot_still env l.
Proof.
  unfold sflags. intros E. destruct l. cbn [SpotLight.anim] in E.
  unfold updateSpotScalar, animateSpot, spot_still. spot_norm. rewrite E.
  change (ANIM_NONE =? ANIM_NONE) with true. cbv iota. spot_norm. reflexivity.
Qed.

Lemma spot_still_again env l : spot_still env (spot_still env l).1 = spot_still env l.
Proof.
  destruct l. unfold spot_still. cbn [fst]. spot_norm. by rewrite worldDirToView_again.
Qed.

Lemma updateSpotScalar_again env t1 t2 l :
  sflags l = ANIM_NONE ->
  updateSpotScalar env t2 (updateSpotScalar env t1 l).1 = updateSpotScalar env t1 l.
Proof.
  intros E. rewrite (updateSpotScalar_still env t1 l E).
  rewrite updateSpotScalar_still; [apply spot_still_again|]. by destruct l.
Qed.

(** The iteration of a rect light that is not animated. *)
Definition rect_still (env : Env.t) (l : RectLight.t) : RectLight.t * RectLightData.t :=
  let base := RectLight.baseWorldPos l in
  let vp := worldToView (Env.view env) (Vec4.x base) (Vec4.y base) (Vec4.z base)
              (Vec4.w base) in
  let vn := worldDirToView (Env.view env) (RectLight.normal l) (RectLight.viewNormal l) in
  let vt := worldDirToView (Env.view env) (RectLight.tangent l) (RectLight.viewTangent l) in
  let lod := calculateLOD (Env.lodBias env) (Vec4.z vp) (Vec4.w base) in
  let culled := culled_of (Env.viewNear env) (Env.viewFar env) (Vec4.z vp) (Vec4.w base) in
  (RectLight.mk base (RectLight.animOffset l) base (RectLight.color l) (RectLight.size l)
     (RectLight.normal l) (RectLight.tangent l) (RectLight.bitangent l) vp vn vt
     (RectLight.baseNormal l) (RectLight.baseTangent l) (RectLight.baseBitangent l)
     (RectLight.anim l) (RectLight.decay l) (RectLight.morton l) 0 (RectLight.visible l)
     lod (RectLight.castsShadow l) (RectLight.shadowIntensity l),
   RectLightData.mk vp (RectLight.color l)
     (Vec4.mk (Vec4.x (RectLight.size l)) (Vec4.y (RectLight.size l)) (RectLight.decay l)
        (packVisibleLOD (visible_and_not (RectLight.visible l) culled) lod))
     vn vt).

Lemma updateRectScalar_still env time l :
  rflags l = ANIM_NONE -> updateRectScalar env time l = rect_still env l.
Proof.
  unfold rflags. intros E. destruct l. cbn [RectLight.anim] in E.
  unfold updateRectScalar, animateRect, rect_still. rect_norm. rewrite E.
  change (ANIM_NONE =? ANIM_NONE) with true. cbv iota. rect_norm. reflexivity.
Qed.

Lemma rect_still_again env l : rect_still env (rect_still env l).1 = rect_still env l.
Proof.
  destruct l. unfold rect_still. cbn [fst]. rect_norm. by rewrite !worldDirToView_again.
Qed.

Lemma updateRectScalar_again env t1 t2 l :
  rflags l = ANIM_NONE ->
  updateRectScalar env t2 (updateRectScalar env t1 l).1 = updateRectScalar env t1 l.
Proof.
  intros E. rewrite (updateRectScalar_still env t1 l E).
  rewrite updateRectScalar_still; [apply rect_still_again|]. by destruct l.
Qed.

(** The store a frame leaves is determined by the arrays it leaves. *)
Lemma framed_store_eq s t t' u u' :
  framed s t u -> framed s t' u' ->
  Store.pointLights u' = Store.pointLights u ->
  Store.pointLightTexture u' = Store.pointLightTexture u ->
  Store.spotLights u' = Store.spotLights u ->
  Store.spotLightTexture u' = Store.spotLightTexture u ->
  Store.rectLights u' = Store.rectLights u ->
  Store.rectLightTexture u' = Store.rectLightTexture u ->
  u' = u.
Proof.
  intros [_ _ _ E] [_ _ _ E'] H1 H2 H3 H4 H5 H6.
  rewrite E', E. by rewrite H1, H2, H3, H4, H5, H6.
Qed.

Lemma some_animated_false s :
  some_animated s = false ->
  any_animated pflags (Store.pointLightCount s) (Store.pointLights s) = false
  /\ any_animated sflags (Store.spotLightCount s) (Store.spotLights s) = false
  /\ any_animated rflags (Store.rectLightCount s) (Store.rectLights s) = false.
Proof.
  unfold some_animated. intros H.
  apply orb_false_iff in H as [H Hr]. by apply orb_false_iff in H as [Hp Hs].
Qed.

Lemma update_static s t1 t2 :
  frame_ok s -> some_animated s = false -> update s t1 = update s t2.
Proof.
  intros Hok Hs. destruct (some_animated_false s Hs) as (Ap & As & Ar).
  apply injective_projections; [|by rewrite !update_answer].
  pose proof (update_framed s t1 Hok) as F1.
  pose proof (update_framed s t2 Hok) as F2.
  destruct Hok as [Hp Hp' Hs1 Hs' Hr Hr' _ _ _].
  assert (Ep : Store.pointLights (update s t1).1 = Store.pointLights (update s t2).1
               /\ Store.pointLightTexture (update s t1).1
                  = Store.pointLightTexture (update s t2).1).
  { refine (kind_pass_agree _ _ _ _ _ _ _ _ _ _ _ Hp Hp' eq_refl eq_refl _ _
              (framed_points _ _ _ F2) (framed_points _ _ _ F1)); [|done].
    intros j l Hj Hl. exists l. split; [done|].
    apply point_iteration_static; [done|]. by apply frame_flags_none. }
  assert (Es : Store.spotLights (update s t1).1 = Store.spotLights (update s t2).1
               /\ Store.spotLightTexture (update s t1).1
                  = Store.spotLightTexture (update s t2).1).
  { refine (kind_pass_agree _ _ _ _ _ _ _ _ _ _ _ Hs1 Hs' eq_refl eq_refl _ _
              (framed_spots _ _ _ F2) (framed_spots _ _ _ F1)); [|done].
    intros j l Hj Hl. exists l. split; [done|].
    apply updateSpotScalar_static. by apply (any_animated_false sflags _ _ j l As). }
  assert (Er : Store.rectLights (update s t1).1 = Store.rectLights (update s t2).1
               /\ Store.rectLightTexture (update s t1).1
                  = Store.rectLightTexture (update s t2).1).
  { refine (kind_pass_agree _ _ _ _ _ _ _ _ _ _ _ Hr Hr' eq_refl eq_refl _ _
              (framed_rects _ _ _ F2) (framed_rects _ _ _ F1)); [|done].
    intros j l Hj Hl. exists l. split; [done|].
    apply updateRectScalar_static. by apply (any_animated_false rflags _ _ j l Ar). }
  destruct Ep as [Ep1 Ep2], Es as [Es1 Es2], Er as [Er1 Er2].
  exact (framed_store_eq s t2 t1 _ _ F2 F1 Ep1 Ep2 Es1 Es2 Er1 Er2).
Qed.

(** The flags of the live lights after a frame of a scene without
    animated lights. *)
Lemma any_animated_agree {A : Type} (f : A -> Z) (n : Z) (a a' : list A) :
  (Z.to_nat n <= length a)%nat -> length a' = length a ->
  (forall j l, (j < Z.to_nat n)%nat -> a !! j = Some l ->
     exists l', a' !! j = Some l' /\ f l' = f l) ->
  any_animated f n a' = any_animated f n a.
Proof.
  intros Hn Hl H. unfold any_animated.
  assert (E : f <$> take (Z.to_nat n) a' = f <$> take (Z.to_nat n) a).
  { apply list_eq. intros j. rewrite !list_lookup_fmap.
    destruct (decide (j < Z.to_nat n)%nat) as [Hj|Hj].
    - rewrite !lookup_take_lt by done.
      destruct (lookup_lt_is_Some_2 a j ltac:(lia)) as [l El].
      destruct (H j l Hj El) as (l' & El' & Ef). rewrite El, El'. cbn. by rewrite Ef.
    - by rewrite !lookup_take_ge by lia. }
  assert (Hm : forall b : list A,
             existsb (fun l => negb (f l =? ANIM_NONE)) b
             = existsb (fun x => negb (x =? ANIM_NONE)) (f <$> b)).
  { induction b as [|x b IH]; [done|]. cbn. by rewrite IH. }
  by rewrite !Hm, E.
Qed.

Lemma animateSpot_anim time l : SpotLight.anim (animateSpot time l) = SpotLight.anim l.
Proof.
  unfold animateSpot. destruct (_ =? _); [by destruct l|].
  rewrite processSpotLightAnimation_closed. by destruct l.
Qed.

Lemma animateRect_anim time l : RectLight.anim (animateRect time l) = RectLight.anim l.
Proof.
  unfold animateRect. destruct (_ =? _); [by destruct l|].
  rewrite processRectLightAnimation_closed. by destruct l.
Qed.

Lemma updateSpotScalar_flags env time l : sflags (updateSpotScalar env time l).1 = sflags l.
Proof.
  unfold sflags. rewrite <- (animateSpot_anim time l). unfold updateSpotScalar.
  destruct (animateSpot time l). reflexivity.
Qed.

Lemma updateRectScalar_flags env time l : rflags (updateRectScalar env time l).1 = rflags l.
Proof.
  unfold rflags. rewrite <- (animateRect_anim time l). unfold updateRectScalar.
  destruct (animateRect time l). reflexivity.
Qed.

(** A frame keeps the animation flags of the live lights. *)
Lemma framed_any s time s1 :
  frame_ok s -> framed s time s1 ->
  any_animated pflags (Store.pointLightCount s) (Store.pointLights s1)
  = any_animated pflags (Store.pointLightCount s) (Store.pointLights s)
  /\ any_animated sflags (Store.spotLightCount s) (Store.spotLights s1)
     = any_animated sflags (Store.spotLightCount s) (Store.spotLights s)
  /\ any_animated rflags (Store.rectLightCount s) (Store.rectLights s1)
     = any_animated rflags (Store.rectLightCount s) (Store.rectLights s).
Proof.
  intros Hok F. pose proof (framed_flags_at _ _ _ Hok F) as Hf.
  destruct F as [[Lp _ _ _] [Ls _ His _] [Lr _ Hir _] _].
  destruct Hok as [Hp Hp' Hs Hs' Hr Hr' _ _ _].
  split_and!.
  - by apply flags_at_any.
  - apply any_animated_agree; [done|done|]. intros j l Hj Hl.
    eexists. split; [apply (His j l Hj Hl)|]. apply updateSpotScalar_flags.
  - apply any_animated_agree; [done|done|]. intros j l Hj Hl.
    eexists. split; [apply (Hir j l Hj Hl)|]. apply updateRectScalar_flags.
Qed.

(** A frame that leaves the arrays it found, with the view matrix
    already cached, leaves the store it found. *)
Lemma framed_fixed s time u :
  framed s time u ->
  Store.view s = load_view (Store.cameraMatrix s) ->
  Store.pointLights u = Store.pointLights s ->
  Store.pointLightTexture u = Store.pointLightTexture s ->
  Store.spotLights u = Store.spotLights s ->
  Store.spotLightTexture u = Store.spotLightTexture s ->
  Store.rectLights u = Store.rectLights s ->
  Store.rectLightTexture u = Store.rectLightTexture s ->
  u = s.
Proof.
  intros [_ _ _ E] Hv H1 H2 H3 H4 H5 H6.
  rewrite E, H1, H2, H3, H4, H5, H6, <- Hv. by destruct s.
Qed.

Lemma update_static_again s t1 t2 :
  frame_ok s -> some_animated s = false -> update (update s t1).1 t2 = update s t1.
Proof.
  intros Hok Hs. destruct (some_animated_false s Hs) as (Ap & As & Ar).
  set (s1 := (update s t1).1).
  pose proof (update_framed s t1 Hok) as F1. fold s1 in F1.
  pose proof (framed_frame_ok _ _ _ Hok F1) as Hok1.
  pose proof (update_framed s1 t2 Hok1) as F12.
  destruct (framed_counts _ _ _ F1) as (Ecp & Ecs & Ecr).
  pose proof (framed_env _ _ _ F1) as Eenv.
  pose proof (framed_flags_at _ _ _ Hok F1) as Hf.
  destruct Hok as [Hp Hp' Hs1 Hs' Hr Hr' Gp Gs Gr].
  (* the arrays of the second frame are those of the first *)
  assert (Ep : Store.pointLights (update s1 t2).1 = Store.pointLights s1
               /\ Store.pointLightTexture (update s1 t2).1 = Store.pointLightTexture s1).
  { pose proof (framed_points _ _ _ F12) as K12. rewrite Eenv, Ecp in K12.
    pose proof (framed_points _ _ _ F1) as K1. destruct (K1) as [L1 L2 Hin Hout].
    refine (kind_pass_agree _ _ _ _ _ _ _ _ _ _ _ Hp Hp' L1 L2 _ _ K1 K12).
    - intros j l Hj Hl. eexists. split; [apply (Hin j l Hj Hl)|].
      etrans; [apply point_iteration_redo; [done|done|by apply point_iteration_again]|].
      apply point_iteration_static; [done|]. by apply frame_flags_none.
    - intros j Hj. apply Hout. lia. }
  assert (Es : Store.spotLights (update s1 t2).1 = Store.spotLights s1
               /\ Store.spotLightTexture (update s1 t2).1 = Store.spotLightTexture s1).
  { pose proof (framed_spots _ _ _ F12) as K12. rewrite Eenv, Ecs in K12.
    pose proof (framed_spots _ _ _ F1) as K1. destruct (K1) as [L1 L2 Hin Hout].
    refine (kind_pass_agree _ _ _ _ _ _ _ _ _ _ _ Hs1 Hs' L1 L2 _ _ K1 K12).
    - intros j l Hj Hl. eexists. split; [apply (Hin j l Hj Hl)|].
      apply updateSpotScalar_again. by apply (any_animated_false sflags _ _ j l As).
    - intros j Hj. apply Hout. lia. }
  assert (Er : Store.rectLights (update s1 t2).1 = Store.rectLights s1
               /\ Store.rectLightTexture (update s1 t2).1 = Store.rectLightTexture s1).
  { pose proof (framed_rects _ _ _ F12) as K12. rewrite Eenv, Ecr in K12.
    pose proof (framed_rects _ _ _ F1) as K1. destruct (K1) as [L1 L2 Hin Hout].
    refine (kind_pass_agree _ _ _ _ _ _ _ _ _ _ _ Hr Hr' L1 L2 _ _ K1 K12).
    - intros j l Hj Hl. eexists. split; [apply (Hin j l Hj Hl)|].
      apply updateRectScalar_again. by apply (any_animated_false rflags _ _ j l Ar).
    - intros j Hj. apply Hout. lia. }
  destruct Ep as [Ep1 Ep2], Es as [Es1 Es2], Er as [Er1 Er2].
  apply injective_projections.
  - apply (framed_fixed s1 t2); try done. destruct F1 as [_ _ _ E1]. by rewrite E1.
  - rewrite !update_answer by (done || by split).
    destruct (framed_any s t1 s1) as (Bp & Bs & Br); [by split|done|].
    unfold answer, points_report, one_kind. rewrite Ecp, Ecs, Ecr, Bp, Bs, Br.
    destruct F1 as [_ _ _ E1]. by rewrite E1.
Qed.

(** X11: in a scene without animated lights a frame does not depend on
    the time, and it is a fixed point: running [update] again, at any
    time, leaves the store and answers what the first frame did. *)
Theorem X11_static_scene_frames_are_fixed (s : Store.t) (t1 t2 : f32) :
  frame_ok s -> some_animated s = false ->
  update s t1 = update s t2
  /\ update (update s t1).1 t2 = update s t1.
Proof.
  intros Hok Hs. split; [by apply update_static|by apply update_static_again].
Qed.

End Static.

(** *** The invariant through frames and property updates *)

Lemma radixSortPointLights_ok s :
  store_ok s -> store_ok (radixSortPointLights s (Store.pointLightCount s)).
Proof.
  intros H. ok_open H. rewrite radixSortPointLights_eq.
  destruct (RADIX_SORT_IMPL_spec PointLight.morton (Store.pointLights s)
              (Store.pointLightsScratch s) (Store.pointLightCount s))
    as (_ & L1 & L2); [lia..|].
  destruct s; store_fields. ok_split; store_fields; try done; lia.
Qed.

Lemma radixSortSpotLights_ok s :
  store_ok s -> store_ok (radixSortSpotLights s (Store.spotLightCount s)).
Proof.
  intros H. ok_open H. rewrite radixSortSpotLights_eq.
  destruct (RADIX_SORT_IMPL_spec SpotLight.morton (Store.spotLights s)
              (Store.spotLightsScratch s) (Store.spotLightCount s))
    as (_ & L1 & L2); [lia..|].
  destruct s; store_fields. ok_split; store_fields; try done; lia.
Qed.

Lemma radixSortRectLights_ok s :
  store_ok s -> store_ok (radixSortRectLights s (Store.rectLightCount s)).
Proof.
  intros H. ok_open H. rewrite radixSortRectLights_eq.
  destruct (RADIX_SORT_IMPL_spec RectLight.morton (Store.rectLights s)
              (Store.rectLightsScratch s) (Store.rectLightCount s))
    as (_ & L1 & L2); [lia..|].
  destruct s; store_fields. ok_split; store_fields; try done; lia.
Qed.

Lemma set_needsSort_ok a s : store_ok s -> store_ok (Store.set_needsSort a s).
Proof. intros H. ok_open H. destruct s; store_fields. ok_split; store_fields; done. Qed.

Lemma radixSortPointLights_counts s n :
  Store.spotLightCount (radixSortPointLights s n) = Store.spotLightCount s
  /\ Store.rectLightCount (radixSortPointLights s n) = Store.rectLightCount s.
Proof. rewrite radixSortPointLights_eq. by destruct s. Qed.

Lemma radixSortSpotLights_counts s n :
  Store.rectLightCount (radixSortSpotLights s n) = Store.rectLightCount s.
Proof. rewrite radixSortSpotLights_eq. by destruct s. Qed.

Lemma sort_ok s : store_ok s -> store_ok (sort s).
Proof.
  intros H. unfold sort. destruct (truthy (Store.needsSort s)); [|done].
  apply set_needsSort_ok.
  set (s1 := if 1 <? Store.pointLightCount s then _ else s).
  assert (H1 : store_ok s1 /\ Store.spotLightCount s1 = Store.spotLightCount s
               /\ Store.rectLightCount s1 = Store.rectLightCount s).
  { unfold s1. destruct (1 <? Store.pointLightCount s); [|done].
    split; [by apply radixSortPointLights_ok|apply radixSortPointLights_counts]. }
  destruct H1 as (H1 & Es & Er). clearbody s1.
  set (s2 := if 1 <? Store.spotLightCount s1 then _ else s1).
  assert (H2 : store_ok s2 /\ Store.rectLightCount s2 = Store.rectLightCount s1).
  { unfold s2. destruct (1 <? Store.spotLightCount s1); [|done].
    split; [by apply radixSortSpotLights_ok|apply radixSortSpotLights_counts]. }
  destruct H2 as (H2 & Er2). clearbody s2.
  destruct (1 <? Store.rectLightCount s2); [|done].
  by apply radixSortRectLights_ok.
Qed.

Section FrameInvariant.
Context `{P : Platform}.

Lemma update_ok s time : store_ok s -> store_ok (update s time).1.
Proof.
  intros H. pose proof (update_framed s time (store_ok_frame_ok s H))
    as [[A1 A2 _ _] [B1 B2 _ _] [C1 C2 _ _] E].
  ok_open H. rewrite E. ok_split; store_fields; try done; lia.
Qed.

Lemma updateCircularFast_ok s time : store_ok s -> store_ok (updateCircularFast s time).
Proof.
  intros H. rewrite updateCircularFast_closed. ok_open H.
  pose proof (length_imap (circled time (Z.to_nat (Store.pointLightCount s)))
                (Store.pointLights s)) as L.
  destruct s; store_fields. ok_split; store_fields; try done; lia.
Qed.

End FrameInvariant.

(** *** The property updates *)

Ltac setter_ok f :=
  intros H; unfold f; cbv zeta;
  repeat match goal with
  | |- context [in_range ?i ?n] => destruct (in_range i n)
  | |- store_ok (match ?o with Some _ => _ | None => _ end) => destruct o
  | |- store_ok (flags_changed _ _ _) => unfold flags_changed
  | |- store_ok (if ?b then _ else _) => destruct b
  end; try done;
  ok_open H;
  match goal with s : Store.t |- _ => destruct s end; store_fields;
  (ok_split; store_fields; rewrite ?at_index_length, ?length_insert; done).

Ltac setter_out f :=
  intros H; unfold f, at_index; unfold in_range in *; cbv zeta; rewrite H;
  match goal with s : Store.t |- _ => by destruct s end.

Section Setters.
Context `{P : Platform}.

Lemma updatePointLightPosition_ok s idx x y z :
  store_ok s -> store_ok (updatePointLightPosition s idx x y z).
Proof. setter_ok @updatePointLightPosition. Qed.

Lemma updatePointLightColor_ok s idx r g b :
  store_ok s -> store_ok (updatePointLightColor s idx r g b).
Proof. setter_ok @updatePointLightColor. Qed.

Lemma updatePointLightIntensity_ok s idx intensity :
  store_ok s -> store_ok (updatePointLightIntensity s idx intensity).
Proof. setter_ok @updatePointLightIntensity. Qed.

Lemma updatePointLightRadius_ok s idx radius :
  store_ok s -> store_ok (updatePointLightRadius s idx radius).
Proof. setter_ok @updatePointLightRadius. Qed.

Lemma updatePointLightDecay_ok s idx decay :
  store_ok s -> store_ok (updatePointLightDecay s idx decay).
Proof. setter_ok @updatePointLightDecay. Qed.

Lemma updatePointLightVisibility_ok s idx visible :
  store_ok s -> store_ok (updatePointLightVisibility s idx visible).
Proof. setter_ok @updatePointLightVisibility. Qed.

Lemma updateSpotLightPosition_ok s idx x y z :
  store_ok s -> store_ok (updateSpotLightPosition s idx x y z).
Proof. setter_ok @updateSpotLightPosition. Qed.

Lemma updateSpotLightColor_ok s idx r g b :
  store_ok s -> store_ok (updateSpotLightColor s idx r g b).
Proof. setter_ok @updateSpotLightColor. Qed.

Lemma updateSpotLightIntensity_ok s idx intensity :
  store_ok s -> store_ok (updateSpotLightIntensity s idx intensity).
Proof. setter_ok @updateSpotLightIntensity. Qed.

Lemma updateSpotLightRadius_ok s idx radius :
  store_ok s -> store_ok (updateSpotLightRadius s idx radius).
Proof. setter_ok @updateSpotLightRadius. Qed.

Lemma updateSpotLightDecay_ok s idx decay :
  store_ok s -> store_ok (updateSpotLightDecay s idx decay).
Proof. setter_ok @updateSpotLightDecay. Qed.

Lemma updateSpotLightVisibility_ok s idx visible :
  store_ok s -> store_ok (updateSpotLightVisibility s idx visible).
Proof. setter_ok @updateSpotLightVisibility. Qed.

Lemma updateRectLightPosition_ok s idx x y z :
  store_ok s -> store_ok (updateRectLightPosition s idx x y z).
Proof. setter_ok @updateRectLightPosition. Qed.

Lemma updateRectLightColor_ok s idx r g b :
  store_ok s -> store_ok (updateRectLightColor s idx r g b).
Proof. setter_ok @updateRectLightColor. Qed.

Lemma updateRectLightIntensity_ok s idx intensity :
  store_ok s -> store_ok (updateRectLightIntensity s idx intensity).
Proof. setter_ok @updateRectLightIntensity. Qed.

Lemma updateRectLightRadius_ok s idx radius :
  store_ok s -> store_ok (updateRectLightRadius s idx radius).
Proof. setter_ok @updateRectLightRadius. Qed.

Lemma updateRectLightDecay_ok s idx decay :
  store_ok s -> store_ok (updateRectLightDecay s idx decay).
Proof. setter_ok @updateRectLightDecay. Qed.

Lemma updateRectLightVisibility_ok s idx visible :
  store_ok s -> store_ok (updateRectLightVisibility s idx visible).
Proof. setter_ok @updateRectLightVisibility. Qed.

Lemma updatePointLightAnimation_ok s idx animFlags circSpeed circRadius targetX targetY
    targetZ duration delay linearMode waveAxisX waveAxisY waveAxisZ waveSpeed
    waveAmplitude wavePhase flickerSpeed flickerIntensity flickerSeed pulseSpeed
    pulseAmount pulseTarget :
  store_ok s -> store_ok (updatePointLightAnimation s idx animFlags circSpeed circRadius
    targetX targetY targetZ duration delay linearMode waveAxisX waveAxisY waveAxisZ
    waveSpeed waveAmplitude wavePhase flickerSpeed flickerIntensity flickerSeed
    pulseSpeed pulseAmount pulseTarget).
Proof. setter_ok @updatePointLightAnimation. Qed.

Lemma updateSpotLightDirection_ok s idx dx dy dz :
  store_ok s -> store_ok (updateSpotLightDirection s idx dx dy dz).
Proof. setter_ok @updateSpotLightDirection. Qed.

Lemma updateSpotLightAngle_ok s idx angle penumbra :
  store_ok s -> store_ok (updateSpotLightAngle s idx angle penumbra).
Proof. setter_ok @updateSpotLightAngle. Qed.

Lemma updateSpotLightAnimation_ok s idx animFlags circSpeed circRadius targetX targetY
    targetZ duration delay linearMode waveAxisX waveAxisY waveAxisZ waveSpeed
    waveAmplitude wavePhase flickerSpeed flickerIntensity flickerSeed pulseSpeed
    pulseAmount pulseTarget rotAxisX rotAxisY rotAxisZ rotSpeed rotAngle rotMode :
  store_ok s -> store_ok (updateSpotLightAnimation s idx animFlags circSpeed circRadius
    targetX targetY targetZ duration delay linearMode waveAxisX waveAxisY waveAxisZ
    waveSpeed waveAmplitude wavePhase flickerSpeed flickerIntensity flickerSeed
    pulseSpeed pulseAmount pulseTarget rotAxisX rotAxisY rotAxisZ rotSpeed rotAngle
    rotMode).
Proof. setter_ok @updateSpotLightAnimation. Qed.

Lemma updateRectLightSize_ok s idx width height :
  store_ok s -> store_ok (updateRectLightSize s idx width height).
Proof. setter_ok @updateRectLightSize. Qed.

Lemma updateRectLightNormal_ok s idx nx ny nz :
  store_ok s -> store_ok (updateRectLightNormal s idx nx ny nz).
Proof. setter_ok @updateRectLightNormal. Qed.

Lemma updateRectLightAnimation_ok s idx animFlags circSpeed circRadius targetX targetY
    targetZ duration delay linearMode waveAxisX waveAxisY waveAxisZ waveSpeed
    waveAmplitude wavePhase flickerSpeed flickerIntensity flickerSeed pulseSpeed
    pulseAmount pulseTarget rotAxisX rotAxisY rotAxisZ rotSpeed rotAngle rotMode :
  store_ok s -> store_ok (updateRectLightAnimation s idx animFlags circSpeed circRadius
    targetX targetY targetZ duration delay linearMode waveAxisX waveAxisY waveAxisZ
    waveSpeed waveAmplitude wavePhase flickerSpeed flickerIntensity flickerSeed
    pulseSpeed pulseAmount pulseTarget rotAxisX rotAxisY rotAxisZ rotSpeed rotAngle
    rotMode).
Proof. setter_ok @updateRectLightAnimation. Qed.

Lemma updatePointLightPosition_out s idx x y z :
  in_range idx (Store.pointLightCount s) = false ->
  updatePointLightPosition s idx x y z = s.
Proof. setter_out @updatePointLightPosition. Qed.

Lemma updatePointLightColor_out s idx r g b :
  in_range idx (Store.pointLightCount s) = false ->
  updatePointLightColor s idx r g b = s.
Proof. setter_out @updatePointLightColor. Qed.

Lemma updatePointLightIntensity_out s idx intensity :
  in_range idx (Store.pointLightCount s) = false ->
  updatePointLightIntensity s idx intensity = s.
Proof. setter_out @updatePointLightIntensity. Qed.

Lemma updatePointLightRadius_out s idx radius :
  in_range idx (Store.pointLightCount s) = false ->
  updatePointLightRadius s idx radius = s.
Proof. setter_out @updatePointLightRadius. Qed.

Lemma updatePointLightDecay_out s idx decay :
  in_range idx (Store.pointLightCount s) = false ->
  updatePointLightDecay s idx decay = s.
Proof. setter_out @updatePointLightDecay. Qed.

Lemma updatePointLightVisibility_out s idx visible :
  in_range idx (Store.pointLightCount s) = false ->
  updatePointLightVisibility s idx visible = s.
Proof. setter_out @updatePointLightVisibility. Qed.

Lemma updateSpotLightPosition_out s idx x y z :
  in_range idx (Store.spotLightCount s) = false ->
  updateSpotLightPosition s idx x y z = s.
Proof. setter_out @updateSpotLightPosition. Qed.

Lemma updateSpotLightColor_out s idx r g b :
  in_range idx (Store.spotLightCount s) = false ->
  updateSpotLightColor s idx r g b = s.
Proof. setter_out @updateSpotLightColor. Qed.

Lemma updateSpotLightIntensity_out s idx intensity :
  in_range idx (Store.spotLightCount s) = false ->
  updateSpotLightIntensity s idx intensity = s.
Proof. setter_out @updateSpotLightIntensity. Qed.

Lemma updateSpotLightRadius_out s idx radius :
  in_range idx (Store.spotLightCount s) = false ->
  updateSpotLightRadius s idx radius = s.
Proof. setter_out @updateSpotLightRadius. Qed.

Lemma updateSpotLightDecay_out s idx decay :
  in_range idx (Store.spotLightCount s) = false ->
  updateSpotLightDecay s idx decay = s.
Proof. setter_out @updateSpotLightDecay. Qed.

Lemma updateSpotLightVisibility_out s idx visible :
  in_range idx (Store.spotLightCount s) = false ->
  updateSpotLightVisibility s idx visible = s.
Proof. setter_out @updateSpotLightVisibility. Qed.

Lemma updateRectLightPosition_out s idx x y z :
  in_range idx (Store.rectLightCount s) = false ->
  updateRectLightPosition s idx x y z = s.
Proof. setter_out @updateRectLightPosition. Qed.

Lemma updateRectLightColor_out s idx r g b :
  in_range idx (Store.rectLightCount s) = false ->
  updateRectLightColor s idx r g b = s.
Proof. setter_out @updateRectLightColor. Qed.

Lemma updateRectLightIntensity_out s idx intensity :
  in_range idx (Store.rectLightCount s) = false ->
  updateRectLightIntensity s idx intensity = s.
Proof. setter_out @updateRectLightIntensity. Qed.

Lemma updateRectLightRadius_out s idx radius :
  in_range idx (Store.rectLightCount s) = false ->
  updateRectLightRadius s idx radius = s.
Proof. setter_out @updateRectLightRadius. Qed.

Lemma updateRectLightDecay_out s idx decay :
  in_range idx (Store.rectLightCount s) = false ->
  updateRectLightDecay s idx decay = s.
Proof. setter_out @updateRectLightDecay. Qed.

Lemma updateRectLightVisibility_out s idx visible :
  in_range idx (Store.rectLightCount s) = false ->
  updateRectLightVisibility s idx visible = s.
Proof. setter_out @updateRectLightVisibility. Qed.

Lemma updatePointLightAnimation_out s idx animFlags circSpeed circRadius targetX targetY
    targetZ duration delay linearMode waveAxisX waveAxisY waveAxisZ waveSpeed
    waveAmplitude wavePhase flickerSpeed flickerIntensity flickerSeed pulseSpeed
    pulseAmount pulseTarget :
  in_range idx (Store.pointLightCount s) = false ->
  updatePointLightAnimation s idx animFlags circSpeed circRadius targetX targetY targetZ
    duration delay linearMode waveAxisX waveAxisY waveAxisZ waveSpeed waveAmplitude
    wavePhase flickerSpeed flickerIntensity flickerSeed pulseSpeed pulseAmount
    pulseTarget = s.
Proof. setter_out @updatePointLightAnimation. Qed.

Lemma updateSpotLightDirection_out s idx dx dy dz :
  in_range idx (Store.spotLightCount s) = false ->
  updateSpotLightDirection s idx dx dy dz = s.
Proof. setter_out @updateSpotLightDirection. Qed.

Lemma updateSpotLightAngle_out s idx angle penumbra :
  in_range idx (Store.spotLightCount s) = false ->
  updateSpotLightAngle s idx angle penumbra = s.
Proof. setter_out @updateSpotLightAngle. Qed.

Lemma updateSpotLightAnimation_out s idx animFlags circSpeed circRadius targetX targetY
    targetZ duration delay linearMode waveAxisX waveAxisY waveAxisZ waveSpeed
    waveAmplitude wavePhase flickerSpeed flickerIntensity flickerSeed pulseSpeed
    pulseAmount pulseTarget rotAxisX rotAxisY rotAxisZ rotSpeed rotAngle rotMode :
  in_range idx (Store.spotLightCount s) = false ->
  updateSpotLightAnimation s idx animFlags circSpeed circRadius targetX targetY targetZ
    duration delay linearMode waveAxisX waveAxisY waveAxisZ waveSpeed waveAmplitude
    wavePhase flickerSpeed flickerIntensity flickerSeed pulseSpeed pulseAmount
    pulseTarget rotAxisX rotAxisY rotAxisZ rotSpeed rotAngle rotMode = s.
Proof. setter_out @updateSpotLightAnimation. Qed.

Lemma updateRectLightSize_out s idx width height :
  in_range idx (Store.rectLightCount s) = false ->
  updateRectLightSize s idx width height = s.
Proof. setter_out @updateRectLightSize. Qed.

Lemma updateRectLightNormal_out s idx nx ny nz :
  in_range idx (Store.rectLightCount s) = false ->
  updateRectLightNormal s idx nx ny nz = s.
Proof. setter_out @updateRectLightNormal. Qed.

Lemma updateRectLightAnimation_out s idx animFlags circSpeed circRadius targetX targetY
    targetZ duration delay linearMode waveAxisX waveAxisY waveAxisZ waveSpeed
    waveAmplitude wavePhase flickerSpeed flickerIntensity flickerSeed pulseSpeed
    pulseAmount pulseTarget rotAxisX rotAxisY rotAxisZ rotSpeed rotAngle rotMode :
  in_range idx (Store.rectLightCount s) = false ->
  updateRectLightAnimation s idx animFlags circSpeed circRadius targetX targetY targetZ
    duration delay linearMode waveAxisX waveAxisY waveAxisZ waveSpeed waveAmplitude
    wavePhase flickerSpeed flickerIntensity flickerSeed pulseSpeed pulseAmount
    pulseTarget rotAxisX rotAxisY rotAxisZ rotSpeed rotAngle rotMode = s.
Proof. setter_out @updateRectLightAnimation. Qed.

Lemma settings_ok s : store_ok s ->
  (forall near far, store_ok (setViewFrustum s near far))
  /\ (forall bias, store_ok (setLODBias s bias)).
Proof.
  intros H. ok_open H. destruct s. split; intros; (ok_split; store_fields; done).
Qed.

(** X13: the store invariant is kept by [sort], by [update], by
    [updateCircularFast], by the frustum and LOD settings and by every
    property update, whatever the index and the values they are given. *)
Theorem X13_frames_and_setters_keep_the_store_invariant (s : Store.t) :
  store_ok s ->
  store_ok (sort s)
  /\ (forall time, store_ok (update s time).1)
  /\ (forall time, store_ok (updateCircularFast s time))
  /\ (forall near far, store_ok (setViewFrustum s near far))
  /\ (forall bias, store_ok (setLODBias s bias))
  /\ (forall idx x y z,
        store_ok (updatePointLightPosition s idx x y z))
  /\ (forall idx r g b,
        store_ok (updatePointLightColor s idx r g b))
  /\ (forall idx intensity,
        store_ok (updatePointLightIntensity s idx intensity))
  /\ (forall idx radius,
        store_ok (updatePointLightRadius s idx radius))
  /\ (forall idx decay,
        store_ok (updatePointLightDecay s idx decay))
  /\ (forall idx visible,
        store_ok (updatePointLightVisibility s idx visible))
  /\ (forall idx x y z,
        store_ok (updateSpotLightPosition s idx x y z))
  /\ (forall idx r g b,
        store_ok (updateSpotLightColor s idx r g b))
  /\ (forall idx intensity,
        store_ok (updateSpotLightIntensity s idx intensity))
  /\ (forall idx radius,
        store_ok (updateSpotLightRadius s idx radius))
  /\ (forall idx decay,
        store_ok (updateSpotLightDecay s idx decay))
  /\ (forall idx visible,
        store_ok (updateSpotLightVisibility s idx visible))
  /\ (forall idx x y z,
        store_ok (updateRectLightPosition s idx x y z))
  /\ (forall idx r g b,
        store_ok (updateRectLightColor s idx r g b))
  /\ (forall idx intensity,
        store_ok (updateRectLightIntensity s idx intensity))
  /\ (forall idx radius,
        store_ok (updateRectLightRadius s idx radius))
  /\ (forall idx decay,
        store_ok (updateRectLightDecay s idx decay))
  /\ (forall idx visible,
        store_ok (updateRectLightVisibility s idx visible))
  /\ (forall idx animFlags circSpeed circRadius targetX targetY targetZ duration delay
             linearMode waveAxisX waveAxisY waveAxisZ waveSpeed waveAmplitude wavePhase
             flickerSpeed flickerIntensity flickerSeed pulseSpeed pulseAmount
             pulseTarget,
        store_ok (updatePointLightAnimation s idx animFlags circSpeed circRadius targetX
          targetY targetZ duration delay linearMode waveAxisX waveAxisY waveAxisZ
          waveSpeed waveAmplitude wavePhase flickerSpeed flickerIntensity flickerSeed
          pulseSpeed pulseAmount pulseTarget))
  /\ (forall idx dx dy dz,
        store_ok (updateSpotLightDirection s idx dx dy dz))
  /\ (forall idx angle penumbra,
        store_ok (updateSpotLightAngle s idx angle penumbra))
  /\ (forall idx animFlags circSpeed circRadius targetX targetY targetZ duration delay
             linearMode waveAxisX waveAxisY waveAxisZ waveSpeed waveAmplitude wavePhase
             flickerSpeed flickerIntensity flickerSeed pulseSpeed pulseAmount
             pulseTarget rotAxisX rotAxisY rotAxisZ rotSpeed rotAngle rotMode,
        store_ok (updateSpotLightAnimation s idx animFlags circSpeed circRadius targetX
          targetY targetZ duration delay linearMode waveAxisX waveAxisY waveAxisZ
          waveSpeed waveAmplitude wavePhase flickerSpeed flickerIntensity flickerSeed
          pulseSpeed pulseAmount pulseTarget rotAxisX rotAxisY rotAxisZ rotSpeed
          rotAngle rotMode))
  /\ (forall idx width height,
        store_ok (updateRectLightSize s idx width height))
  /\ (forall idx nx ny nz,
        store_ok (updateRectLightNormal s idx nx ny nz))
  /\ (forall idx animFlags circSpeed circRadius targetX targetY targetZ duration delay
             linearMode waveAxisX waveAxisY waveAxisZ waveSpeed waveAmplitude wavePhase
             flickerSpeed flickerIntensity flickerSeed pulseSpeed pulseAmount
             pulseTarget rotAxisX rotAxisY rotAxisZ rotSpeed rotAngle rotMode,
        store_ok (updateRectLightAnimation s idx animFlags circSpeed circRadius targetX
          targetY targetZ duration delay linearMode waveAxisX waveAxisY waveAxisZ
          waveSpeed waveAmplitude wavePhase flickerSpeed flickerIntensity flickerSeed
          pulseSpeed pulseAmount pulseTarget rotAxisX rotAxisY rotAxisZ rotSpeed
          rotAngle rotMode)).
Proof.
  intros Hok. split_and!; intros.
  - by apply sort_ok.
  - by apply update_ok.
  - by apply updateCircularFast_ok.
  - by apply settings_ok.
  - by apply settings_ok.
  - by apply updatePointLightPosition_ok.
  - by apply updatePointLightColor_ok.
  - by apply updatePointLightIntensity_ok.
  - by apply updatePointLightRadius_ok.
  - by apply updatePointLightDecay_ok.
  - by apply updatePointLightVisibility_ok.
  - by apply updateSpotLightPosition_ok.
  - by apply updateSpotLightColor_ok.
  - by apply updateSpotLightIntensity_ok.
  - by apply updateSpotLightRadius_ok.
  - by apply updateSpotLightDecay_ok.
  - by apply updateSpotLightVisibility_ok.
  - by apply updateRectLightPosition_ok.
  - by apply updateRectLightColor_ok.
  - by apply updateRectLightIntensity_ok.
  - by apply updateRectLightRadius_ok.
  - by apply updateRectLightDecay_ok.
  - by apply updateRectLightVisibility_ok.
  - by apply updatePointLightAnimation_ok.
  - by apply updateSpotLightDirection_ok.
  - by apply updateSpotLightAngle_ok.
  - by apply updateSpotLightAnimation_ok.
  - by apply updateRectLightSize_ok.
  - by apply updateRectLightNormal_ok.
  - by apply updateRectLightAnimation_ok.
Qed.

(** X14: a property update given an index that is not the index of a
    live light of its kind, negative or at or beyond the count, changes
    nothing at all. *)
Theorem X14_property_updates_ignore_indices_out_of_range (s : Store.t) (idx : Z) :
  (in_range idx (Store.pointLightCount s) = false ->
      (forall x y z,
        updatePointLightPosition s idx x y z = s)
      /\ (forall r g b,
        updatePointLightColor s idx r g b = s)
      /\ (forall intensity,
        updatePointLightIntensity s idx intensity = s)
      /\ (forall radius,
        updatePointLightRadius s idx radius = s)
      /\ (forall decay,
        updatePointLightDecay s idx decay = s)
      /\ (forall visible,
        updatePointLightVisibility s idx visible = s)
      /\ (forall animFlags circSpeed circRadius targetX targetY targetZ duration delay
         linearMode waveAxisX waveAxisY waveAxisZ waveSpeed waveAmplitude wavePhase
         flickerSpeed flickerIntensity flickerSeed pulseSpeed pulseAmount pulseTarget,
        updatePointLightAnimation s idx animFlags circSpeed circRadius targetX targetY
          targetZ duration delay linearMode waveAxisX waveAxisY waveAxisZ waveSpeed
          waveAmplitude wavePhase flickerSpeed flickerIntensity flickerSeed pulseSpeed
          pulseAmount pulseTarget = s))
  /\ (in_range idx (Store.spotLightCount s) = false ->
      (forall x y z,
        updateSpotLightPosition s idx x y z = s)
      /\ (forall r g b,
        updateSpotLightColor s idx r g b = s)
      /\ (forall intensity,
        updateSpotLightIntensity s idx intensity = s)
      /\ (forall radius,
        updateSpotLightRadius s idx radius = s)
      /\ (forall decay,
        updateSpotLightDecay s idx decay = s)
      /\ (forall visible,
        updateSpotLightVisibility s idx visible = s)
      /\ (forall dx dy dz,
        updateSpotLightDirection s idx dx dy dz = s)
      /\ (forall angle penumbra,
        updateSpotLightAngle s idx angle penumbra = s)
      /\ (forall animFlags circSpeed circRadius targetX targetY targetZ duration delay
         linearMode waveAxisX waveAxisY waveAxisZ waveSpeed waveAmplitude wavePhase
         flickerSpeed flickerIntensity flickerSeed pulseSpeed pulseAmount pulseTarget rotAxisX
         rotAxisY rotAxisZ rotSpeed rotAngle rotMode,
        updateSpotLightAnimation s idx animFlags circSpeed circRadius targetX targetY
          targetZ duration delay linearMode waveAxisX waveAxisY waveAxisZ waveSpeed
          waveAmplitude wavePhase flickerSpeed flickerIntensity flickerSeed pulseSpeed
          pulseAmount pulseTarget rotAxisX rotAxisY rotAxisZ rotSpeed rotAngle rotMode =
          s))
  /\ (in_range idx (Store.rectLightCount s) = false ->
      (forall x y z,
        updateRectLightPosition s idx x y z = s)
      /\ (forall r g b,
        updateRectLightColor s idx r g b = s)
      /\ (forall intensity,
        updateRectLightIntensity s idx intensity = s)
      /\ (forall radius,
        updateRectLightRadius s idx radius = s)
      /\ (forall decay,
        updateRectLightDecay s idx decay = s)
      /\ (forall visible,
        updateRectLightVisibility s idx visible = s)
      /\ (forall width height,
        updateRectLightSize s idx width height = s)
      /\ (forall nx ny nz,
        updateRectLightNormal s idx nx ny nz = s)
      /\ (forall animFlags circSpeed circRadius targetX targetY targetZ duration delay
         linearMode waveAxisX waveAxisY waveAxisZ waveSpeed waveAmplitude wavePhase
         flickerSpeed flickerIntensity flickerSeed pulseSpeed pulseAmount pulseTarget rotAxisX
         rotAxisY rotAxisZ rotSpeed rotAngle rotMode,
        updateRectLightAnimation s idx animFlags circSpeed circRadius targetX targetY
          targetZ duration delay linearMode waveAxisX waveAxisY waveAxisZ waveSpeed
          waveAmplitude wavePhase flickerSpeed flickerIntensity flickerSeed pulseSpeed
          pulseAmount pulseTarget rotAxisX rotAxisY rotAxisZ rotSpeed rotAngle rotMode =
          s)).
Proof.
  split_and!; intros Hr; split_and!; intros.
  - by apply updatePointLightPosition_out.
  - by apply updatePointLightColor_out.
  - by apply updatePointLightIntensity_out.
  - by apply updatePointLightRadius_out.
  - by apply updatePointLightDecay_out.
  - by apply updatePointLightVisibility_out.
  - by apply updatePointLightAnimation_out.
  - by apply updateSpotLightPosition_out.
  - by apply updateSpotLightColor_out.
  - by apply updateSpotLightIntensity_out.
  - by apply updateSpotLightRadius_out.
  - by apply updateSpotLightDecay_out.
  - by apply updateSpotLightVisibility_out.
  - by apply updateSpotLightDirection_out.
  - by apply updateSpotLightAngle_out.
  - by apply updateSpotLightAnimation_out.
  - by apply updateRectLightPosition_out.
  - by apply updateRectLightColor_out.
  - by apply updateRectLightIntensity_out.
  - by apply updateRectLightRadius_out.
  - by apply updateRectLightDecay_out.
  - by apply updateRectLightVisibility_out.
  - by apply updateRectLightSize_out.
  - by apply updateRectLightNormal_out.
  - by apply updateRectLightAnimation_out.
Qed.

End Setters.

(** *** What a frame leaves in a live light *)

Lemma calculateLOD_range lodBias viewZ radius :
  LOD_SKIP <= calculateLOD lodBias viewZ radius <= LOD_FULL.
Proof.
  unfold calculateLOD, LOD_SKIP, LOD_SIMPLE, LOD_MEDIUM, LOD_FULL. cbv zeta.
  repeat destruct (F32.gt _ _); lia.
Qed.

(** A light as a frame leaves it under the LOD bias [bias]: not dirty,
    its LOD level the one of its view depth and radius, and the radius
    copied to the view position. *)
Definition point_framed (bias : f32) (l : PointLight.t) : Prop :=
  PointLight.dirty l = 0
  /\ PointLight.lodLevel l
     = calculateLOD bias (Vec4.z (PointLight.viewPos l)) (Vec4.w (PointLight.worldPos l))
  /\ Vec4.w (PointLight.viewPos l) = Vec4.w (PointLight.worldPos l).
Definition spot_framed (bias : f32) (l : SpotLight.t) : Prop :=
  SpotLight.dirty l = 0
  /\ SpotLight.lodLevel l
     = calculateLOD bias (Vec4.z (SpotLight.viewPos l)) (Vec4.w (SpotLight.worldPos l))
  /\ Vec4.w (SpotLight.viewPos l) = Vec4.w (SpotLight.worldPos l).
Definition rect_framed (bias : f32) (l : RectLight.t) : Prop :=
  RectLight.dirty l = 0
  /\ RectLight.lodLevel l
     = calculateLOD bias (Vec4.z (RectLight.viewPos l)) (Vec4.w (RectLight.worldPos l))
  /\ Vec4.w (RectLight.viewPos l) = Vec4.w (RectLight.worldPos l).

Section Framed.
Context `{P : Platform}.

Lemma pointPipeline_framed xf env l :
  (forall e x y z r, Vec4.w (xf e x y z r) = r) ->
  point_framed (Env.lodBias env) (pointPipeline xf env l).1.
Proof.
  intros Hw. destruct l. unfold pointPipeline, point_framed. cbn [fst]. point_norm.
  by rewrite Hw.
Qed.

Lemma point_iteration_framed env time n ls j l :
  point_framed (Env.lodBias env) (point_iteration env time n ls j l).1.
Proof.
  unfold point_iteration, simd_body, updatePointLane.
  destruct wasm_simd128; [destruct (in_batch n j)|];
    rewrite ?updatePointScalar_pipeline; by apply pointPipeline_framed.
Qed.

Lemma updateSpotScalar_framed env time l :
  spot_framed (Env.lodBias env) (updateSpotScalar env time l).1.
Proof.
  unfold updateSpotScalar. destruct (animateSpot time l).
  unfold spot_framed. cbn [fst]. spot_norm. unfold worldToView. vec_norm. by split_and!.
Qed.

Lemma updateRectScalar_framed env time l :
  rect_framed (Env.lodBias env) (updateRectScalar env time l).1.
Proof.
  unfold updateRectScalar. destruct (animateRect time l).
  unfold rect_framed. cbn [fst]. rect_norm. unfold worldToView. vec_norm. by split_and!.
Qed.

Lemma read_at_range {A : Type} (idx n : Z) (field : A -> Z) (a : list A) (lo hi : Z) :
  lo <= 0 <= hi ->
  (forall j l, (j < Z.to_nat n)%nat -> a !! j = Some l -> lo <= field l <= hi) ->
  lo <= read_at idx n field a <= hi.
Proof.
  intros H0 H. unfold read_at, in_range.
  destruct (Z.leb_spec 0 idx); [|done]. destruct (Z.ltb_spec idx n); [|done]. cbn [andb].
  destruct (a !! Z.to_nat idx) as [l|] eqn:E; [|done]. cbn. apply (H (Z.to_nat idx)); [lia|done].
Qed.

(** X15: after a frame every live light, of each kind, is clean
    ([dirty] is 0), its LOD level is the one [calculateLOD] gives for the
    view depth and radius the frame stored in it, and its view position
    carries its radius; so the LOD getters answer a level between
    [LOD_SKIP] and [LOD_FULL] for every index, live or not. *)
Theorem X15_update_leaves_clean_lights_with_their_LOD (s : Store.t) (time : f32) :
  frame_ok s ->
  let s' := (update s time).1 in
  (forall j l, (j < Z.to_nat (Store.pointLightCount s))%nat ->
     Store.pointLights s' !! j = Some l -> point_framed (Store.lodBias s) l)
  /\ (forall j l, (j < Z.to_nat (Store.spotLightCount s))%nat ->
        Store.spotLights s' !! j = Some l -> spot_framed (Store.lodBias s) l)
  /\ (forall j l, (j < Z.to_nat (Store.rectLightCount s))%nat ->
        Store.rectLights s' !! j = Some l -> rect_framed (Store.lodBias s) l)
  /\ (forall idx, LOD_SKIP <= getPointLightLOD s' idx <= LOD_FULL
                  /\ LOD_SKIP <= getSpotLightLOD s' idx <= LOD_FULL
                  /\ LOD_SKIP <= getRectLightLOD s' idx <= LOD_FULL).
Proof.
  intros Hok s'. pose proof (update_framed s time Hok) as F. fold s' in F.
  destruct (framed_counts _ _ _ F) as (Ecp & Ecs & Ecr).
  destruct F as [[Lp _ Hip _] [Ls _ His _] [Lr _ Hir _] _].
  destruct Hok as [Hp _ Hs _ Hr _ _ _ _].
  assert (Gp : forall j l, (j < Z.to_nat (Store.pointLightCount s))%nat ->
             Store.pointLights s' !! j = Some l -> point_framed (Store.lodBias s) l).
  { intros j l Hj Hl.
    destruct (lookup_lt_is_Some_2 (Store.pointLights s) j ltac:(lia)) as [l0 E0].
    rewrite (proj1 (Hip j l0 Hj E0)) in Hl. apply (inj Some) in Hl. subst l.
    apply (point_iteration_framed (frame_env s)). }
  assert (Gs : forall j l, (j < Z.to_nat (Store.spotLightCount s))%nat ->
             Store.spotLights s' !! j = Some l -> spot_framed (Store.lodBias s) l).
  { intros j l Hj Hl.
    destruct (lookup_lt_is_Some_2 (Store.spotLights s) j ltac:(lia)) as [l0 E0].
    rewrite (proj1 (His j l0 Hj E0)) in Hl. apply (inj Some) in Hl. subst l.
    apply (updateSpotScalar_framed (frame_env s)). }
  assert (Gr : forall j l, (j < Z.to_nat (Store.rectLightCount s))%nat ->
             Store.rectLights s' !! j = Some l -> rect_framed (Store.lodBias s) l).
  { intros j l Hj Hl.
    destruct (lookup_lt_is_Some_2 (Store.rectLights s) j ltac:(lia)) as [l0 E0].
    rewrite (proj1 (Hir j l0 Hj E0)) in Hl. apply (inj Some) in Hl. subst l.
    apply (updateRectScalar_framed (frame_env s)). }
  split; [done|]. split; [done|]. split; [done|]. intros idx.
  split; [|split].
  - unfold getPointLightLOD. rewrite Ecp. apply read_at_range; [done|].
    intros j l Hj Hl. destruct (Gp j l Hj Hl) as (_ & -> & _). apply calculateLOD_range.
  - unfold getSpotLightLOD. rewrite Ecs. apply read_at_range; [done|].
    intros j l Hj Hl. destruct (Gs j l Hj Hl) as (_ & -> & _). apply calculateLOD_range.
  - unfold getRectLightLOD. rewrite Ecr. apply read_at_range; [done|].
    intros j l Hj Hl. destruct (Gr j l Hj Hl) as (_ & -> & _). apply calculateLOD_range.
Qed.

(** X16: [update] writes the live lights and their records and caches
    the view matrix, and nothing else: the counts, the capacity, the
    flags, the frustum, the LOD bias, the camera matrix and the scratch
    arrays are as they were, no array changes its length, and the slots
    of every array from the count on keep what they held. *)
Theorem X16_update_writes_only_the_live_lights (s : Store.t) (time : f32) :
  frame_ok s ->
  let s' := (update s time).1 in
  s' = Store.mk (Store.pointLights s') (Store.spotLights s') (Store.rectLights s')
         (Store.pointLightsScratch s) (Store.spotLightsScratch s)
         (Store.rectLightsScratch s) (Store.pointLightTexture s')
         (Store.spotLightTexture s') (Store.rectLightTexture s') (Store.cameraMatrix s)
         (Store.pointLightCount s) (Store.spotLightCount s) (Store.rectLightCount s)
         (Store.maxLights s) (Store.hasAnimatedLights s) (Store.needsSort s)
         (Store.hasPointLights s) (Store.hasSpotLights s) (Store.hasRectLights s)
         (load_view (Store.cameraMatrix s)) (Store.viewNear s) (Store.viewFar s)
         (Store.lodBias s)
  /\ (length (Store.pointLights s') = length (Store.pointLights s)
      /\ length (Store.pointLightTexture s') = length (Store.pointLightTexture s)
      /\ forall j, (Z.to_nat (Store.pointLightCount s) <= j)%nat ->
           Store.pointLights s' !! j = Store.pointLights s !! j
           /\ Store.pointLightTexture s' !! j = Store.pointLightTexture s !! j)
  /\ (length (Store.spotLights s') = length (Store.spotLights s)
      /\ length (Store.spotLightTexture s') = length (Store.spotLightTexture s)
      /\ forall j, (Z.to_nat (Store.spotLightCount s) <= j)%nat ->
           Store.spotLights s' !! j = Store.spotLights s !! j
           /\ Store.spotLightTexture s' !! j = Store.spotLightTexture s !! j)
  /\ (length (Store.rectLights s') = length (Store.rectLights s)
      /\ length (Store.rectLightTexture s') = length (Store.rectLightTexture s)
      /\ forall j, (Z.to_nat (Store.rectLightCount s) <= j)%nat ->
           Store.rectLights s' !! j = Store.rectLights s !! j
           /\ Store.rectLightTexture s' !! j = Store.rectLightTexture s !! j).
Proof.
  intros Hok s'. pose proof (update_framed s time Hok) as F. fold s' in F.
  destruct F as [[Lp Lp' _ Hop] [Ls Ls' _ Hos] [Lr Lr' _ Hor] E].
  split; [exact E|]. split; [|split]; (split; [assumption|split; assumption]).
Qed.

End Framed.

(** *** Clamping *)

Lemma SFcompare_antisym (x y : spec_float) :
  SFcompare y x = option_map CompOpp (SFcompare x y).
Proof.
  destruct x as [sx|sx| |sx mx ex], y as [sy|sy| |sy my ey]; cbn;
    try destruct sx; try destruct sy; try done;
    rewrite (Z.compare_antisym ex ey);
    change (Pos.compare_cont Eq mx my) with (mx ?= my)%positive;
    change (Pos.compare_cont Eq my mx) with (my ?= mx)%positive;
    rewrite (Pos.compare_antisym mx my);
    destruct (ex ?= ey); cbn; try done;
    by destruct (mx ?= my)%positive.
Qed.

Lemma SFcompare_total (x y : spec_float) :
  x <> S754_nan -> y <> S754_nan -> exists c, SFcompare x y = Some c.
Proof.
  destruct x as [sx|sx| |sx mx ex], y as [sy|sy| |sy my ey]; intros Hx Hy; cbn;
    try done; eauto.
Qed.

(** Between numbers, [!(x < y)] is [y <= x]. *)
Lemma SFltb_false_leb (x y : spec_float) :
  x <> S754_nan -> y <> S754_nan -> SFltb x y = false -> SFleb y x = true.
Proof.
  intros Hx Hy. unfold SFltb, SFleb. rewrite (SFcompare_antisym x y).
  destruct (SFcompare_total x y Hx Hy) as [c ->]. by destruct c.
Qed.

Lemma SFleb_refl (x : spec_float) : x <> S754_nan -> SFleb x x = true.
Proof. intros Hx. unfold SFleb. by rewrite SFcompare_refl. Qed.

Lemma is_nan_dec (a : f32) : F32.is_nan a = false -> F32.dec a <> S754_nan.
Proof. unfold F32.is_nan. by destruct (F32.dec a). Qed.

Lemma SFltb_nan_l (y : spec_float) : SFltb S754_nan y = false.
Proof. by destruct y. Qed.

Lemma SFltb_nan_r (x : spec_float) : SFltb x S754_nan = false.
Proof. by destruct x as [| | |[]]. Qed.

Lemma clampf_nan (v lo hi : f32) : F32.is_nan v = true -> clampf v lo hi = v.
Proof.
  unfold F32.is_nan, clampf, F32.lt, F32.gt. destruct (F32.dec v); try done. intros _.
  by rewrite SFltb_nan_l, SFltb_nan_r.
Qed.

Lemma clampf_choice (v lo hi : f32) :
  clampf v lo hi = v \/ clampf v lo hi = lo \/ clampf v lo hi = hi.
Proof. unfold clampf. destruct (F32.lt v lo), (F32.gt v hi); auto. Qed.

Lemma clampf_bounds (v lo hi : f32) :
  F32.is_nan v = false -> F32.is_nan lo = false -> F32.is_nan hi = false ->
  F32.le lo hi = true ->
  F32.le lo (clampf v lo hi) = true /\ F32.le (clampf v lo hi) hi = true.
Proof.
  intros Hv Hlo Hhi Hle. apply is_nan_dec in Hv, Hlo, Hhi.
  unfold clampf, F32.le, F32.lt, F32.gt in *.
  destruct (SFltb (F32.dec v) (F32.dec lo)) eqn:E1.
  - split; [by apply SFleb_refl|done].
  - destruct (SFltb (F32.dec hi) (F32.dec v)) eqn:E2.
    + split; [done|by apply SFleb_refl].
    + split; by apply SFltb_false_leb.
Qed.

Lemma clampf_is_nan (v lo hi : f32) :
  F32.is_nan lo = false -> F32.is_nan hi = false ->
  F32.is_nan (clampf v lo hi) = F32.is_nan v.
Proof.
  intros Hlo Hhi. destruct (F32.is_nan v) eqn:Hv.
  - by rewrite clampf_nan.
  - unfold clampf. destruct (F32.lt v lo); [done|]. by destruct (F32.gt v hi).
Qed.

Section Clamped.
Context `{P : Platform}.

(** The flicker factor before it is clamped. *)
Definition flicker_raw (f : FlickerParams.t) (time : f32) : f32 :=
  F32.one ⊕ sinf (time ⊗ FlickerParams.speed f ⊕ FlickerParams.seed f)
             ⊗ cosf (time ⊗ FlickerParams.speed f ⊗ F32.c1_7
                      ⊕ FlickerParams.seed f ⊗ F32.c2_3)
             ⊗ FlickerParams.intensity f.

(** X17: [clampf] answers its first argument when that is a NaN, and
    otherwise, for bounds in order, a value between the bounds, which is
    the argument or one of the bounds.  So the flicker factor is a NaN
    when its sine-cosine product is, and lies in [0.1, 2] otherwise,
    whatever speed, seed and intensity are set; and the parameter of a
    linear motion in the mode [LINEAR_ONCE] is a NaN or lies in
    [0, 1]. *)
Theorem X17_clampf_bounds_flicker_and_linear_once
    (v lo hi : f32) (f : FlickerParams.t) (lin : LinearParams.t) (time : f32) :
  (F32.is_nan v = true -> clampf v lo hi = v)
  /\ (F32.is_nan v = false -> F32.is_nan lo = false -> F32.is_nan hi = false ->
      F32.le lo hi = true ->
      F32.le lo (clampf v lo hi) = true /\ F32.le (clampf v lo hi) hi = true)
  /\ (clampf v lo hi = v \/ clampf v lo hi = lo \/ clampf v lo hi = hi)
  /\ (if F32.is_nan (flicker_raw f time)
      then flicker_factor f time = flicker_raw f time
      else F32.le F32.c0_1 (flicker_factor f time) = true
           /\ F32.le (flicker_factor f time) F32.two = true)
  /\ (LinearParams.mode lin <> LINEAR_LOOP -> LinearParams.mode lin <> LINEAR_PINGPONG ->
      F32.is_nan (linear_t lin time) = true
      \/ (F32.le F32.zero (linear_t lin time) = true
          /\ F32.le (linear_t lin time) F32.one = true)).
Proof.
  split_and!.
  - apply clampf_nan.
  - apply clampf_bounds.
  - apply clampf_choice.
  - change (flicker_factor f time) with (clampf (flicker_raw f time) F32.c0_1 F32.two).
    destruct (F32.is_nan (flicker_raw f time)) eqn:E.
    + by apply clampf_nan.
    + by apply clampf_bounds.
  - intros H1 H2. unfold linear_t. cbv zeta.
    destruct (Z.eqb_spec (LinearParams.mode lin) LINEAR_LOOP); [done|].
    destruct (Z.eqb_spec (LinearParams.mode lin) LINEAR_PINGPONG); [done|].
    set (t := (time ⊖ LinearParams.delay lin) ⊘ LinearParams.duration lin).
    destruct (F32.is_nan t) eqn:E.
    + left. by rewrite clampf_nan.
    + right. by apply clampf_bounds.
Qed.

End Clamped.

(** *** Creation followed by removal *)

(** What a creation call [r] on the store [s] and the removal of the
    index it answers leave of the lights of the kind: the call does not
    touch the lights that were live, and after the removal the live
    lights and the count are those of [s]. *)
Definition undone {A : Type} (count : Store.t -> Z) (arr : Store.t -> list A)
    (remove : Store.t -> Z -> Store.t) (s : Store.t) (r : Store.t * Z) : Prop :=
  live (count s) (arr r.1) = live (count s) (arr s)
  /\ live (count (remove r.1 r.2)) (arr (remove r.1 r.2)) = live (count s) (arr s)
  /\ count (remove r.1 r.2) = count s.

Lemma take_alter_at {A : Type} (f : A -> A) (n : nat) (l : list A) :
  take n (alter f n l) = take n l.
Proof. by apply take_alter_ge. Qed.

Lemma delete_last_taken {A : Type} (n : nat) (l : list A) :
  delete n (take (S n) l) = take n l.
Proof.
  revert l. induction n as [|n IH]; intros [|x l]; cbn; try done.
  f_equal. apply IH.
Qed.

Lemma undone_at_capacity {A : Type} (count : Store.t -> Z) (arr : Store.t -> list A)
    (remove : Store.t -> Z -> Store.t) (s : Store.t) :
  remove s (-1) = s -> undone count arr remove s (s, -1).
Proof. intros E. unfold undone. cbn [fst snd]. by rewrite E. Qed.

Lemma undone_below_capacity {A : Type} (count : Store.t -> Z) (arr : Store.t -> list A)
    (remove : Store.t -> Z -> Store.t) (s : Store.t) (r : Store.t * Z) (f : A -> A) :
  (forall s idx, (Z.to_nat (count s) <= length (arr s))%nat ->
     removed count arr idx s (remove s idx)) ->
  0 <= count s -> (Z.to_nat (count s) < length (arr s))%nat ->
  r.2 = count s -> count r.1 = count s + 1 ->
  arr r.1 = alter f (Z.to_nat (count s)) (arr s) ->
  undone count arr remove s r.
Proof.
  intros Hrem H0 Hlt E2 Ec Ea. unfold undone.
  assert (Hlive : live (count s) (arr r.1) = live (count s) (arr s)).
  { unfold live. rewrite Ea. apply take_alter_at. }
  split; [done|].
  destruct (Hrem r.1 r.2) as (E & En & _).
  { rewrite Ec, Ea, length_alter. lia. }
  assert (Hin : in_range r.2 (count r.1) = true).
  { rewrite E2, Ec. unfold in_range. apply andb_true_iff. split; [lia|]. apply Z.ltb_lt. lia. }
  unfold without in E. rewrite Hin in E, En. split; [|lia].
  rewrite E, E2, Ec. unfold live. rewrite Ea.
  replace (Z.to_nat (count s + 1)) with (S (Z.to_nat (count s))) by lia.
  rewrite delete_last_taken. apply take_alter_at.
Qed.

Lemma removePointLight_sentinel s : removePointLight s (-1) = s.
Proof. reflexivity. Qed.
Lemma removeSpotLight_sentinel s : removeSpotLight s (-1) = s.
Proof. reflexivity. Qed.
Lemma removeRectLight_sentinel s : removeRectLight s (-1) = s.
Proof. reflexivity. Qed.

Ltac creation_undone f sentinel removal :=
  intros H; unfold f;
  match goal with
  | |- context [Store.maxLights ?s <=? ?n] => destruct (Z.leb_spec (Store.maxLights s) n)
  end; [apply undone_at_capacity, sentinel|];
  ok_open H;
  match goal with s : Store.t |- _ => destruct s end; store_fields;
  repeat match goal with |- context [if ?b then _ else _] => destruct b end;
  (eapply undone_below_capacity;
   [exact removal|store_fields; lia|store_fields; lia|reflexivity|reflexivity
   |store_fields; reflexivity]).

Section Undone.
Context `{P : Platform}.

Lemma add_undone s px py pz radius r g b decay speed animRadius intensity :
  store_ok s ->
  undone Store.pointLightCount Store.pointLights removePointLight s
    (add s px py pz radius r g b decay speed animRadius intensity).
Proof. creation_undone @add removePointLight_sentinel removePointLight_removed. Qed.

Lemma addFast_undone s px py pz radius r g b intensity :
  store_ok s ->
  undone Store.pointLightCount Store.pointLights removePointLight s
    (addFast s px py pz radius r g b intensity).
Proof. creation_undone @addFast removePointLight_sentinel removePointLight_removed. Qed.

Lemma addPointWithAnimation_undone s px py pz radius r g b intensity decay animFlags
    circSpeed circRadius targetX targetY targetZ duration delay linearMode
    waveAxisX waveAxisY waveAxisZ waveSpeed waveAmplitude wavePhase
    flickerSpeed flickerIntensity flickerSeed pulseSpeed pulseAmount pulseTarget :
  store_ok s ->
  undone Store.pointLightCount Store.pointLights removePointLight s
    (addPointWithAnimation s px py pz radius r g b intensity decay animFlags
       circSpeed circRadius targetX targetY targetZ duration delay linearMode
       waveAxisX waveAxisY waveAxisZ waveSpeed waveAmplitude wavePhase
       flickerSpeed flickerIntensity flickerSeed pulseSpeed pulseAmount pulseTarget).
Proof.
  creation_undone @addPointWithAnimation removePointLight_sentinel
    removePointLight_removed.
Qed.

Lemma addSpot_undone s px py pz radius r g b dx dy dz angle penumbra decay intensity :
  store_ok s ->
  undone Store.spotLightCount Store.spotLights removeSpotLight s
    (addSpot s px py pz radius r g b dx dy dz angle penumbra decay intensity).
Proof. creation_undone @addSpot removeSpotLight_sentinel removeSpotLight_removed. Qed.

Lemma addSpotWithAnimation_undone s px py pz radius r g b dx dy dz angle penumbra decay
    intensity animFlags targetX targetY targetZ duration delay linearMode
    rotAxisX rotAxisY rotAxisZ rotSpeed rotAngle rotMode
    flickerSpeed flickerIntensity flickerSeed pulseSpeed pulseAmount pulseTarget :
  store_ok s ->
  undone Store.spotLightCount Store.spotLights removeSpotLight s
    (addSpotWithAnimation s px py pz radius r g b dx dy dz angle penumbra decay
       intensity animFlags targetX targetY targetZ duration delay linearMode
       rotAxisX rotAxisY rotAxisZ rotSpeed rotAngle rotMode
       flickerSpeed flickerIntensity flickerSeed pulseSpeed pulseAmount pulseTarget).
Proof.
  creation_undone @addSpotWithAnimation removeSpotLight_sentinel removeSpotLight_removed.
Qed.

Lemma addRect_undone s px py pz width height nx ny nz r g b intensity decay radius :
  store_ok s ->
  undone Store.rectLightCount Store.rectLights removeRectLight s
    (addRect s px py pz width height nx ny nz r g b intensity decay radius).
Proof. creation_undone @addRect removeRectLight_sentinel removeRectLight_removed. Qed.

Lemma addRectWithAnimation_undone s px py pz width height nx ny nz r g b intensity decay
    radius animFlags targetX targetY targetZ duration delay linearMode
    rotAxisX rotAxisY rotAxisZ rotSpeed rotAngle rotMode
    flickerSpeed flickerIntensity flickerSeed pulseSpeed pulseAmount pulseTarget :
  store_ok s ->
  undone Store.rectLightCount Store.rectLights removeRectLight s
    (addRectWithAnimation s px py pz width height nx ny nz r g b intensity decay
       radius animFlags targetX targetY targetZ duration delay linearMode
       rotAxisX rotAxisY rotAxisZ rotSpeed rotAngle rotMode
       flickerSpeed flickerIntensity flickerSeed pulseSpeed pulseAmount pulseTarget).
Proof.
  creation_undone @addRectWithAnimation removeRectLight_sentinel removeRectLight_removed.
Qed.

(** X18: a creation call never touches the lights that are live, and
    removing the index it answers undoes it: the live lights of the kind
    and their count are what they were before the call.  This holds at
    capacity too, where the call answers -1 and the removal of -1 does
    nothing. *)
Theorem X18_removing_the_created_light_restores_the_live_lights (s : Store.t) :
  store_ok s ->
  (forall px py pz radius r g b decay speed animRadius intensity,
     undone Store.pointLightCount Store.pointLights removePointLight s
       (add s px py pz radius r g b decay speed animRadius intensity))
  /\ (forall px py pz radius r g b intensity,
        undone Store.pointLightCount Store.pointLights removePointLight s
          (addFast s px py pz radius r g b intensity))
  /\ (forall px py pz radius r g b intensity decay animFlags
             circSpeed circRadius targetX targetY targetZ duration delay linearMode
             waveAxisX waveAxisY waveAxisZ waveSpeed waveAmplitude wavePhase
             flickerSpeed flickerIntensity flickerSeed pulseSpeed pulseAmount pulseTarget,
        undone Store.pointLightCount Store.pointLights removePointLight s
          (addPointWithAnimation s px py pz radius r g b intensity decay animFlags
             circSpeed circRadius targetX targetY targetZ duration delay linearMode
             waveAxisX waveAxisY waveAxisZ waveSpeed waveAmplitude wavePhase
             flickerSpeed flickerIntensity flickerSeed pulseSpeed pulseAmount
             pulseTarget))
  /\ (forall px py pz radius r g b dx dy dz angle penumbra decay intensity,
        undone Store.spotLightCount Store.spotLights removeSpotLight s
          (addSpot s px py pz radius r g b dx dy dz angle penumbra decay intensity))
  /\ (forall px py pz radius r g b dx dy dz angle penumbra decay intensity animFlags
             targetX targetY targetZ duration delay linearMode
             rotAxisX rotAxisY rotAxisZ rotSpeed rotAngle rotMode
             flickerSpeed flickerIntensity flickerSeed pulseSpeed pulseAmount pulseTarget,
        undone Store.spotLightCount Store.spotLights removeSpotLight s
          (addSpotWithAnimation s px py pz radius r g b dx dy dz angle penumbra decay
             intensity animFlags targetX targetY targetZ duration delay linearMode
             rotAxisX rotAxisY rotAxisZ rotSpeed rotAngle rotMode
             flickerSpeed flickerIntensity flickerSeed pulseSpeed pulseAmount
             pulseTarget))
  /\ (forall px py pz width height nx ny nz r g b intensity decay radius,
        undone Store.rectLightCount Store.rectLights removeRectLight s
          (addRect s px py pz width height nx ny nz r g b intensity decay radius))
  /\ (forall px py pz width height nx ny nz r g b intensity decay radius animFlags
             targetX targetY targetZ duration delay linearMode
             rotAxisX rotAxisY rotAxisZ rotSpeed rotAngle rotMode
             flickerSpeed flickerIntensity flickerSeed pulseSpeed pulseAmount pulseTarget,
        undone Store.rectLightCount Store.rectLights removeRectLight s
          (addRectWithAnimation s px py pz width height nx ny nz r g b intensity decay
             radius animFlags targetX targetY targetZ duration delay linearMode
             rotAxisX rotAxisY rotAxisZ rotSpeed rotAngle rotMode
             flickerSpeed flickerIntensity flickerSeed pulseSpeed pulseAmount
             pulseTarget)).
Proof.
  intros H. split_and!; intros.
  - by apply add_undone.
  - by apply addFast_undone.
  - by apply addPointWithAnimation_undone.
  - by apply addSpot_undone.
  - by apply addSpotWithAnimation_undone.
  - by apply addRect_undone.
  - by apply addRectWithAnimation_undone.
Qed.

End Undone.

(** *** Setting and reading the animation flags *)

(** What an [update...LightAnimation] call at [idx] with [animFlags]
    leaves for the flag getter [get] of the kind and in
    [hasAnimatedLights]. *)
Definition flags_set (get : Store.t -> Z -> Z) (idx animFlags : Z) (s s' : Store.t)
    : Prop :=
  get s' idx = animFlags
  /\ (forall j, j <> idx -> get s' j = get s j)
  /\ Store.hasAnimatedLights s'
     = (if negb (animFlags =? get s idx) && negb (animFlags =? ANIM_NONE)
        then 1 else Store.hasAnimatedLights s).

Lemma updated_anim_flags animFlags circSpeed circRadius targetX targetY targetZ duration
    delay linearMode waveAxisX waveAxisY waveAxisZ waveSpeed waveAmplitude wavePhase
    flickerSpeed flickerIntensity flickerSeed pulseSpeed pulseAmount pulseTarget a :
  AnimationParams.flags
    (updated_anim animFlags circSpeed circRadius targetX targetY targetZ duration delay
       linearMode waveAxisX waveAxisY waveAxisZ waveSpeed waveAmplitude wavePhase
       flickerSpeed flickerIntensity flickerSeed pulseSpeed pulseAmount pulseTarget a)
  = animFlags.
Proof.
  unfold updated_anim, setup_circular, setup_linear, store_wave, setup_flicker,
    setup_pulse.
  destruct a.
  by repeat match goal with |- context [if ?b then _ else _] => destruct b end.
Qed.

Lemma store_rotation_flags animFlags rotAxisX rotAxisY rotAxisZ rotSpeed rotAngle rotMode a :
  AnimationParams.flags
    (store_rotation animFlags rotAxisX rotAxisY rotAxisZ rotSpeed rotAngle rotMode a)
  = AnimationParams.flags a.
Proof. unfold store_rotation. destruct a. by destruct (has_flag _ _). Qed.

(** Reading a field after a write at a live index. *)
Lemma read_at_written {A : Type} (field : A -> Z) (idx n : Z) (a : list A) (x : A) :
  (Z.to_nat n <= length a)%nat -> in_range idx n = true ->
  read_at idx n field (<[Z.to_nat idx := x]> a) = field x
  /\ forall j, j <> idx ->
       read_at j n field (<[Z.to_nat idx := x]> a) = read_at j n field a.
Proof.
  intros Hn Hi. unfold read_at. rewrite Hi.
  unfold in_range in Hi. apply andb_true_iff in Hi as [H0 H1].
  apply Z.leb_le in H0. apply Z.ltb_lt in H1. split.
  - rewrite list_lookup_insert_eq by lia. done.
  - intros j Hj. destruct (in_range j n) eqn:Hjn; [|done].
    unfold in_range in Hjn. apply andb_true_iff in Hjn as [H2 H3].
    apply Z.leb_le in H2. rewrite list_lookup_insert_ne by lia. done.
Qed.

Lemma read_at_live {A : Type} (field : A -> Z) (idx n : Z) (a : list A) :
  (Z.to_nat n <= length a)%nat -> in_range idx n = true ->
  exists l, a !! Z.to_nat idx = Some l /\ read_at idx n field a = field l.
Proof.
  intros Hn Hi. unfold read_at. rewrite Hi.
  unfold in_range in Hi. apply andb_true_iff in Hi as [H0 H1].
  apply Z.leb_le in H0. apply Z.ltb_lt in H1.
  destruct (lookup_lt_is_Some_2 a (Z.to_nat idx)) as [l Hl]; [lia|].
  exists l. by rewrite Hl.
Qed.

Lemma updatePointLightAnimation_flags s idx animFlags circSpeed circRadius targetX targetY
    targetZ duration delay linearMode waveAxisX waveAxisY waveAxisZ waveSpeed
    waveAmplitude wavePhase flickerSpeed flickerIntensity flickerSeed pulseSpeed
    pulseAmount pulseTarget :
  (Z.to_nat (Store.pointLightCount s) <= length (Store.pointLights s))%nat ->
  in_range idx (Store.pointLightCount s) = true ->
  flags_set getPointLightAnimFlags idx animFlags s
    (updatePointLightAnimation s idx animFlags circSpeed circRadius targetX targetY
       targetZ duration delay linearMode waveAxisX waveAxisY waveAxisZ waveSpeed
       waveAmplitude wavePhase flickerSpeed flickerIntensity flickerSeed pulseSpeed
       pulseAmount pulseTarget).
Proof.
  intros Hn Hi. unfold flags_set, updatePointLightAnimation, getPointLightAnimFlags.
  rewrite Hi. destruct (read_at_live pflags idx _ _ Hn Hi) as (l & Hl & ->).
  rewrite Hl. cbv zeta.
  match goal with |- context [<[_ := ?x]> _] => set (l' := x) end.
  assert (Hf : pflags l' = animFlags) by apply updated_anim_flags.
  destruct (read_at_written pflags idx _ _ l' Hn Hi) as [E1 E2].
  unfold flags_changed. fold (pflags l).
  destruct (negb (animFlags =? pflags l) && negb (animFlags =? ANIM_NONE));
    destruct s; store_fields; rewrite E1, Hf; split_and!; try done; apply E2.
Qed.

Lemma updateSpotLightAnimation_flags s idx animFlags circSpeed circRadius targetX targetY
    targetZ duration delay linearMode waveAxisX waveAxisY waveAxisZ waveSpeed
    waveAmplitude wavePhase flickerSpeed flickerIntensity flickerSeed pulseSpeed
    pulseAmount pulseTarget rotAxisX rotAxisY rotAxisZ rotSpeed rotAngle rotMode :
  (Z.to_nat (Store.spotLightCount s) <= length (Store.spotLights s))%nat ->
  in_range idx (Store.spotLightCount s) = true ->
  flags_set getSpotLightAnimFlags idx animFlags s
    (updateSpotLightAnimation s idx animFlags circSpeed circRadius targetX targetY
       targetZ duration delay linearMode waveAxisX waveAxisY waveAxisZ waveSpeed
       waveAmplitude wavePhase flickerSpeed flickerIntensity flickerSeed pulseSpeed
       pulseAmount pulseTarget rotAxisX rotAxisY rotAxisZ rotSpeed rotAngle rotMode).
Proof.
  intros Hn Hi. unfold flags_set, updateSpotLightAnimation, getSpotLightAnimFlags.
  rewrite Hi. destruct (read_at_live sflags idx _ _ Hn Hi) as (l & Hl & ->).
  rewrite Hl. cbv zeta.
  match goal with |- context [<[_ := ?x]> _] => set (l' := x) end.
  assert (Hf : sflags l' = animFlags).
  { subst l'. destruct l. unfold sflags. cbn.
    rewrite store_rotation_flags. apply updated_anim_flags. }
  destruct (read_at_written sflags idx _ _ l' Hn Hi) as [E1 E2].
  unfold flags_changed. fold (sflags l).
  destruct (negb (animFlags =? sflags l) && negb (animFlags =? ANIM_NONE));
    destruct s; store_fields; rewrite E1, Hf; split_and!; try done; apply E2.
Qed.

Lemma updateRectLightAnimation_flags s idx animFlags circSpeed circRadius targetX targetY
    targetZ duration delay linearMode waveAxisX waveAxisY waveAxisZ waveSpeed
    waveAmplitude wavePhase flickerSpeed flickerIntensity flickerSeed pulseSpeed
    pulseAmount pulseTarget rotAxisX rotAxisY rotAxisZ rotSpeed rotAngle rotMode :
  (Z.to_nat (Store.rectLightCount s) <= length (Store.rectLights s))%nat ->
  in_range idx (Store.rectLightCount s) = true ->
  flags_set getRectLightAnimFlags idx animFlags s
    (updateRectLightAnimation s idx animFlags circSpeed circRadius targetX targetY
       targetZ duration delay linearMode waveAxisX waveAxisY waveAxisZ waveSpeed
       waveAmplitude wavePhase flickerSpeed flickerIntensity flickerSeed pulseSpeed
       pulseAmount pulseTarget rotAxisX rotAxisY rotAxisZ rotSpeed rotAngle rotMode).
Proof.
  intros Hn Hi. unfold flags_set, updateRectLightAnimation, getRectLightAnimFlags.
  rewrite Hi. destruct (read_at_live rflags idx _ _ Hn Hi) as (l & Hl & ->).
  rewrite Hl. cbv zeta.
  match goal with |- context [<[_ := ?x]> _] => set (l' := x) end.
  assert (Hf : rflags l' = animFlags).
  { subst l'. destruct l. unfold rflags. cbn.
    rewrite store_rotation_flags. apply updated_anim_flags. }
  destruct (read_at_written rflags idx _ _ l' Hn Hi) as [E1 E2].
  unfold flags_changed. fold (rflags l).
  destruct (negb (animFlags =? rflags l) && negb (animFlags =? ANIM_NONE));
    destruct s; store_fields; rewrite E1, Hf; split_and!; try done; apply E2.
Qed.

(** X19: after an [update...LightAnimation] call with the index of a
    live light, the flag getter of the kind answers the flags given at
    that index and what it answered before at every other index; and
    [hasAnimatedLights] is 1 when the flags changed to a value other
    than [ANIM_NONE] and as it was otherwise, so switching the last
    animation off does not clear it. *)
Theorem X19_animation_flags_are_read_back (s : Store.t) (idx animFlags : Z) :
  frame_ok s ->
  (in_range idx (Store.pointLightCount s) = true ->
   forall circSpeed circRadius targetX targetY targetZ duration delay linearMode
          waveAxisX waveAxisY waveAxisZ waveSpeed waveAmplitude wavePhase
          flickerSpeed flickerIntensity flickerSeed pulseSpeed pulseAmount pulseTarget,
     flags_set getPointLightAnimFlags idx animFlags s
       (updatePointLightAnimation s idx animFlags circSpeed circRadius targetX targetY
          targetZ duration delay linearMode waveAxisX waveAxisY waveAxisZ waveSpeed
          waveAmplitude wavePhase flickerSpeed flickerIntensity flickerSeed pulseSpeed
          pulseAmount pulseTarget))
  /\ (in_range idx (Store.spotLightCount s) = true ->
      forall circSpeed circRadius targetX targetY targetZ duration delay linearMode
             waveAxisX waveAxisY waveAxisZ waveSpeed waveAmplitude wavePhase
             flickerSpeed flickerIntensity flickerSeed pulseSpeed pulseAmount pulseTarget
             rotAxisX rotAxisY rotAxisZ rotSpeed rotAngle rotMode,
        flags_set getSpotLightAnimFlags idx animFlags s
          (updateSpotLightAnimation s idx animFlags circSpeed circRadius targetX targetY
             targetZ duration delay linearMode waveAxisX waveAxisY waveAxisZ waveSpeed
             waveAmplitude wavePhase flickerSpeed flickerIntensity flickerSeed pulseSpeed
             pulseAmount pulseTarget rotAxisX rotAxisY rotAxisZ rotSpeed rotAngle
             rotMode))
  /\ (in_range idx (Store.rectLightCount s) = true ->
      forall circSpeed circRadius targetX targetY targetZ duration delay linearMode
             waveAxisX waveAxisY waveAxisZ waveSpeed waveAmplitude wavePhase
             flickerSpeed flickerIntensity flickerSeed pulseSpeed pulseAmount pulseTarget
             rotAxisX rotAxisY rotAxisZ rotSpeed rotAngle rotMode,
        flags_set getRectLightAnimFlags idx animFlags s
          (updateRectLightAnimation s idx animFlags circSpeed circRadius targetX targetY
             targetZ duration delay linearMode waveAxisX waveAxisY waveAxisZ waveSpeed
             waveAmplitude wavePhase flickerSpeed flickerIntensity flickerSeed pulseSpeed
             pulseAmount pulseTarget rotAxisX rotAxisY rotAxisZ rotSpeed rotAngle
             rotMode)).
Proof.
  intros [H1 _ H2 _ H3 _ _ _ _]. split_and!; intros Hi; intros.
  - by apply updatePointLightAnimation_flags.
  - by apply updateSpotLightAnimation_flags.
  - by apply updateRectLightAnimation_flags.
Qed.

(** *** Instances of the further properties *)

Lemma X1_witness :
  Z.testbit (interleaveBits 5) (2 * 2) = Z.testbit 5 2
  /\ Z.testbit (interleaveBits 5) (2 * 2 + 1) = false.
Proof. apply (X1_interleaveBits_spreads_the_bits 5 2); lia. Defined.

(** 3.5f, in the unit cell of 3.0f. *)
Definition three_and_a_half : f32 := 1080033280.

(** 2^24 = 16777216.0f, whose integer part is not below 65536. *)
Definition two_to_24 : f32 := 1266679808.

Lemma X2_witness :
  0 <= @computeMorton (example_platform false) two_to_24 F32.one < 4294967296
  /\ (@computeMorton (example_platform false) F32.three F32.one
      = @computeMorton (example_platform false) three_and_a_half F32.one
      <-> @fptoui32 (example_platform false) F32.three
          = @fptoui32 (example_platform false) three_and_a_half
          /\ @fptoui32 (example_platform false) F32.one
             = @fptoui32 (example_platform false) F32.one).
Proof.
  split.
  - apply (proj1 (@X2_computeMorton_is_injective_on_cells (example_platform false)
                    two_to_24 F32.one two_to_24 F32.one)).
  - apply (proj2 (@X2_computeMorton_is_injective_on_cells (example_platform false)
                    F32.three F32.one three_and_a_half F32.one));
      vm_compute; (split; [discriminate|reflexivity]).
Defined.

Lemma unsorted_points_store_ok : store_ok unsorted_points.
Proof.
  split; [split; reflexivity|reflexivity|split; vm_compute; split; discriminate|..];
    vm_compute; first [discriminate | intros _; discriminate].
Defined.

Lemma X3_witness :
  store_ok unsorted_points
  /\ removed Store.pointLightCount Store.pointLights 1 unsorted_points
       (removePointLight unsorted_points 1).
Proof.
  split; [exact unsorted_points_store_ok|].
  apply (proj1 (X3_remove_deletes_one_live_light unsorted_points 1
                  unsorted_points_store_ok)).
Defined.

Lemma X4_witness :
  store_ok unsorted_points
  /\ forall l, in_range 1 (Store.pointLightCount unsorted_points) = true ->
       Store.pointLights unsorted_points !! Z.to_nat 1 = Some l ->
       Store.hasAnimatedLights (removePointLight unsorted_points 1)
       = if pflags l =? ANIM_NONE then Store.hasAnimatedLights unsorted_points
         else of_bool (some_animated (removePointLight unsorted_points 1)).
Proof.
  split; [exact unsorted_points_store_ok|].
  apply (proj1 (X4_remove_recomputes_hasAnimatedLights unsorted_points 1
                  unsorted_points_store_ok)).
Defined.

Lemma X5_witness :
  store_ok unsorted_points
  /\ store_ok (reset unsorted_points)
  /\ store_ok (setPointLightCount unsorted_points 2)
  /\ store_ok (removePointLight unsorted_points 0).
Proof.
  pose proof (X5_lifecycle_keeps_the_store_invariant unsorted_points
                unsorted_points_store_ok) as (H1 & H2 & _ & _ & H3 & _).
  split_and!; [exact unsorted_points_store_ok|exact H1|apply H2|apply H3].
Defined.

Lemma X6_witness :
  store_ok unsorted_points
  /\ store_ok (@addFast (example_platform false) unsorted_points
                 0 0 0 F32.one F32.one F32.one F32.one F32.one).1.
Proof.
  split; [exact unsorted_points_store_ok|].
  apply (proj1 (proj2 (@X6_creation_keeps_the_store_invariant (example_platform false)
                         unsorted_points unsorted_points_store_ok))).
Defined.

Lemma X7_witness :
  frame_ok boundary_store
  /\ @updateCircularFast (example_platform true) boundary_store F32.one
     = Store.set_pointLights
         (imap (@circled (example_platform true) F32.one
                  (Z.to_nat (Store.pointLightCount boundary_store)))
            (Store.pointLights boundary_store)) boundary_store.
Proof.
  split; [exact boundary_store_ok|].
  apply (@X7_updateCircularFast_per_light (example_platform true) boundary_store F32.one
           boundary_store_ok).
Defined.

(** A store of capacity 1 holding one point light whose intensity
    pulses. *)
Definition pulsing_store : Store.t :=
  (@addPointWithAnimation (example_platform false) (empty_store 1)
     0 0 0 F32.one  F32.one F32.one F32.one F32.one F32.one  ANIM_PULSE
     0 0  0 0 0 0 0 0  0 0 0 0 0 0  0 0 0  F32.one F32.one PULSE_INTENSITY).1.

Definition pulsing_point : PointLight.t :=
  default zero_point (Store.pointLights pulsing_store !! 0%nat).

Lemma pulsing_store_ok : frame_ok pulsing_store.
Proof. split; vm_compute; first [lia | discriminate | intros _; discriminate]. Defined.

Lemma X8_witness :
  frame_ok pulsing_store
  /\ Store.pointLights pulsing_store !! Z.to_nat 0 = Some pulsing_point
  /\ AnimationParams.flags (PointLight.anim pulsing_point) <> ANIM_NONE
  /\ @update (example_platform false)
       (updatePointLightColor pulsing_store 0 F32.two F32.two F32.two) F32.one
     = @update (example_platform false) pulsing_store F32.one.
Proof.
  split_and!; [exact pulsing_store_ok|reflexivity|discriminate|].
  apply (proj1 (@X8_colour_setters_are_lost_on_animated_point_lights
                  (example_platform false) pulsing_store 0 pulsing_point
                  F32.two F32.two F32.two F32.two F32.one
                  pulsing_store_ok eq_refl ltac:(discriminate))).
Defined.

Lemma X9_witness :
  frame_ok boundary_store
  /\ @update (example_platform false)
       (@updateCircularFast (example_platform false) boundary_store F32.one) F32.two
     = @update (example_platform false) boundary_store F32.two.
Proof.
  split; [exact boundary_store_ok|].
  apply (@X9_update_overwrites_updateCircularFast (example_platform false)
           boundary_store F32.one F32.two boundary_store_ok).
Defined.

Lemma X10_witness :
  frame_ok pulsing_store
  /\ Store.pointLights
       (@update (example_platform false)
          (@update (example_platform false) pulsing_store F32.one).1 F32.two).1
     = Store.pointLights (@update (example_platform false) pulsing_store F32.two).1.
Proof.
  split; [exact pulsing_store_ok|].
  apply (proj1 (@X10_point_frames_keep_no_history (example_platform false)
                  pulsing_store F32.one F32.two pulsing_store_ok)).
Defined.

Lemma X11_witness :
  frame_ok boundary_store
  /\ some_animated boundary_store = false
  /\ @update (example_platform false) boundary_store F32.one
     = @update (example_platform false) boundary_store F32.two.
Proof.
  split_and!; [exact boundary_store_ok|reflexivity|].
  apply (proj1 (@X11_static_scene_frames_are_fixed (example_platform false)
                  boundary_store F32.one F32.two boundary_store_ok eq_refl)).
Defined.

Lemma X12_witness :
  frame_ok pulsing_store
  /\ (@update (example_platform false) pulsing_store F32.one).2
     = @answer (example_platform false) pulsing_store.
Proof.
  split; [exact pulsing_store_ok|].
  apply (proj1 (@X12_update_answers_whether_lights_are_animated (example_platform false)
                  pulsing_store F32.one pulsing_store_ok)).
Defined.

Lemma X13_witness :
  store_ok unsorted_points
  /\ store_ok (sort unsorted_points)
  /\ store_ok (@update (example_platform false) unsorted_points F32.one).1.
Proof.
  pose proof (@X13_frames_and_setters_keep_the_store_invariant (example_platform false)
                unsorted_points unsorted_points_store_ok) as (H1 & H2 & _).
  split_and!; [exact unsorted_points_store_ok|exact H1|apply H2].
Defined.

Lemma X15_witness :
  frame_ok boundary_store
  /\ forall idx,
       LOD_SKIP <= getPointLightLOD
                     (@update (example_platform false) boundary_store F32.one).1 idx
       <= LOD_FULL.
Proof.
  split; [exact boundary_store_ok|]. intros idx.
  apply (proj2 (proj2 (proj2 (@X15_update_leaves_clean_lights_with_their_LOD
                                (example_platform false) boundary_store F32.one
                                boundary_store_ok))) idx).
Defined.

Lemma X16_witness :
  frame_ok boundary_store
  /\ length (Store.pointLights
               (@update (example_platform false) boundary_store F32.one).1)
     = length (Store.pointLights boundary_store).
Proof.
  split; [exact boundary_store_ok|].
  apply (proj1 (proj2 (@X16_update_writes_only_the_live_lights
                         (example_platform false) boundary_store F32.one
                         boundary_store_ok))).
Defined.

Lemma X18_witness :
  store_ok full_store
  /\ undone Store.pointLightCount Store.pointLights removePointLight full_store
       (@addFast (example_platform false) full_store
          0 0 0 F32.one F32.one F32.one F32.one F32.one)
  /\ undone Store.pointLightCount Store.pointLights removePointLight (empty_store 3)
       (@addFast (example_platform false) (empty_store 3)
          0 0 0 F32.one F32.one F32.one F32.one F32.one).
Proof.
  assert (H1 : store_ok full_store).
  { split; [split; reflexivity|reflexivity|split; vm_compute; split; discriminate|..];
      vm_compute; first [discriminate | intros _; discriminate]. }
  assert (H3 : store_ok (empty_store 3)).
  { split; [split; reflexivity|reflexivity|split; vm_compute; split; discriminate|..];
      vm_compute; first [discriminate | intros _; discriminate]. }
  split_and!; [exact H1| |].
  - apply (proj1 (proj2 (@X18_removing_the_created_light_restores_the_live_lights
                           (example_platform false) full_store H1))).
  - apply (proj1 (proj2 (@X18_removing_the_created_light_restores_the_live_lights
                           (example_platform false) (empty_store 3) H3))).
Defined.

Lemma X19_witness :
  frame_ok pulsing_store
  /\ in_range 0 (Store.pointLightCount pulsing_store) = true
  /\ flags_set getPointLightAnimFlags 0 ANIM_NONE pulsing_store
       (updatePointLightAnimation pulsing_store 0 ANIM_NONE
          0 0  0 0 0 0 0 0  0 0 0 0 0 0  0 0 0  0 0 0).
Proof.
  split_and!; [exact pulsing_store_ok|reflexivity|].
  apply (proj1 (X19_animation_flags_are_read_back pulsing_store 0 ANIM_NONE
                  pulsing_store_ok) eq_refl).
Defined.
